(* ===== verification/_CoqProject ===== *)
-Q . S2P
Prelude.v
GoStrings.v
GoText.v
GoTime.v
GoURL.v
GoJSON.v
Resource.v
Logger.v
Principal.v
Logx.v
Authn.v
Env.v
Retry.v
Authz.v
AuditEvents.v
Access.v
Permission.v
CasdoorClient.v
CasdoorConfig.v
CasdoorMemory.v
CasdoorPolicy.v
CasdoorAdapter.v
Redis.v
OAuth.v
Lock.v
Session.v
CacheJSON.v
DbPage.v
DbJSONB.v
DbTx.v
ObjectStore.v
Database.v
DbDSN.v
DbOpen.v
MetricsRegistry.v
Config.v
Starter.v
Serve.v
Health.v
