(* ===== verification/Prelude.v ===== *)
(** * aisphere-kit: a verification library

    The repository is a Go SDK that services of one platform link: identity and
    authorization over Casdoor, permission management, sessions and locks over
    Redis, database and object-store access, configuration, and the start-up and
    shutdown of all of it.  This development models the SDK function by function
    and proves what its callers rely on.  A Go function is a Rocq definition of
    the same name (a method [T.M] is [M] or [T_M]; a lower-case prefix tells
    apart names that several packages share), a struct is a record, [(T, error)]
    a pair with [option error], a nil pointer or interface is [None].

    ** How the code is modelled

    Code with effects is a [prog W A := W -> outcome A * W]: it returns or
    panics, and changes the state [W].  [Env.World S] is that state: [S] is the
    state of the remote services, beside the clock, the samples given to
    Prometheus, and streams an adversary chooses (the latency of every call and
    clock reading, and the choice of every [select] with two ready cases).  A
    call abandoned in a goroutine leaves its effect in [w_late], and [Env.lands]
    lets it reach the service at any later time.  Durations, [int] and [int64]
    are integers, wrapped ([wrap64]) where the code can overflow; strings are
    bytes, and what Go defines on runes is given on their UTF-8 bytes.

    Libraries that are not in the repository are type classes, whose laws, where
    a theorem needs them, are separate classes of propositions: the Casdoor SDK
    ([CasdoorClient]: [PolicyStore]), go-redis and Redis ([Redis]: [RedisServer],
    [RedisClient], [RedisLaws]), gorm and database/sql ([DbTx]: [GormTx],
    [TxLaws]; [DbOpen]: [SqlDriver], [SqlLaws]), minio-go ([ObjectStore]:
    [MinioClient], [MinioLaws]), the Prometheus registry ([MetricsRegistry]:
    [Registerer]).  Of the standard library, string functions, durations, query
    strings and escaping are defined; PEM and X.509 decoding ([CasdoorConfig]:
    [X509], [Host]), the parsing of URLs ([GoURL]: [NetURL]), the JSON and YAML
    codecs ([GoJSON]: [JSON]; [Config]: [Codec]; [CasdoorAdapter]: [Encoding]),
    SHA-256 ([Session]: [Hashing]) and HTTP ([OAuth]: [HttpClient]) are classes.
    The laws state what the libraries document and no more: [gorm.Open] may fail
    and keep the pool it opened ([SqlLaws]), a transaction that fails undoes what
    was done through its own handle only ([TxLaws]), and of JSON nothing is
    assumed, so that what is read back is what the decoder makes of the encoding.
    Every class has a concrete instance that satisfies its laws; the witnesses
    run on them.  The order in which Go ranges over a map is an argument.

    ** Files

    Standard library: [GoStrings] (TrimSpace, Split, Join, Cut, EqualFold),
    [GoText] (Contains, ReplaceAll, hex), [GoTime] (ParseDuration with its
    floating-point fractions), [GoURL] (escaping, url.Values, ParseQuery),
    [GoJSON].

    - [Resource]: resource/resource.go, action/action.go.  The names of resources
      are injective in their parts.
    - [Logger], [Principal], [Logx]: logx/logx.go, principal/principal.go, and
      [context.Context] as a record with one field per key of the kit.
    - [Authn]: authn/authn.go.  [Authz]: authz/authz.go.  [Access]:
      access/access.go, the guard, which fails closed on every path.
    - [Env]: the world, and metrics/metrics.go as far as calls record samples;
      [MetricsRegistry]: the registration of the collectors.
    - [Retry]: retry/retry.go.  [Do] makes at most the configured attempts, stops
      at the first success, gives the last error otherwise, and returns.
    - [AuditEvents]: audit/audit.go.  [RecordAsync] is a step relation over the
      shared semaphore; its running calls never exceed the capacity.
    - [Permission]: permission/permission.go, grants, role mapping, and the
      contract of a permission manager as a specification over the set of
      policies.
    - [CasdoorClient], [CasdoorMemory], [CasdoorConfig], [CasdoorPolicy],
      [CasdoorAdapter], [OAuth]: casdoor/*.go and authn/oauth.go.  The adapter
      refines the manager's contract whatever faults the service has
      ([casdoor_manager_refines]), its authorizer enforces what the service
      decides, a share gives access, a token that is returned was issued for the
      code that was sent.
    - [Redis], [Lock], [CacheJSON]: cache/*.go.  The lock excludes others while it
      has not expired, and only its owner releases it.
    - [Session]: session/session.go.  A login state is accepted once, a revoked
      token stays revoked.
    - [DbPage], [DbJSONB], [DbTx], [Database], [DbDSN], [DbOpen]: db/*.go.
      Pagination windows, the JSON column, nested transactions, quoting of
      identifiers, connection strings (completed, and rebuilt for the maintenance
      database so that a PostgreSQL client reads the same settings), and which
      pools are open after opening, failures included.
    - [ObjectStore]: objectstore/*.go.
    - [Config]: config/config.go.  Which of the constructors' checks validation
      covers; in what [Load] returns, the environment is over the files, a later
      file over an earlier one, and files over the defaults, path by path.
    - [Starter], [Serve], [Health]: starter/*.go, health/health.go.  Start-up gives
      back on every path what it was handed ([NewRuntime_gives_back]; a pool that
      gorm keeps when it fails itself is the one leak, [failed_open_leaks]), the
      runtime is what the features say, it is only started from a validated
      configuration, stopping never waits longer than its timeout, and readiness
      reports each component's own ping.

    The components interact through records of operations ([Authz.Authorizer],
    [Authn.Authenticator], [AuditEvents.Recorder], [Permission.Manager]), which
    [CasdoorAdapter] and [CasdoorPolicy] implement and [Starter.NewRuntime] wires
    up; the clients' theorems are about any implementation.

    ** Fuel and termination

    Loops over lists are structural.  [Retry.attempts_loop] counts the attempts
    down.  [GoTime.parse_groups] runs on the length of its text, and every round
    consumes a byte ([parse_groups_fuel]).  [Lock.lock_loop] takes
    [lock_fuel] rounds, computed from the wait and the interval;
    [LockWithWait_returns] shows that it never runs out.  [manager_returns],
    [Check_reports] and [token_exchange_sound] show that their operations return
    whatever the services answer.

    ** Bounds of the model

    A call made by the kit is one atomic step of the remote service, at a time
    between its start and its end.  The function given to [CleanupWithTimeout] is
    the trace of its run ([Serve.Run]: changes at times, and a return, a panic or
    none); the changes it had not made at the timeout are in flight one by one,
    and [lands] may deliver them in any order, which includes the real one.
    [Runtime.S3], an interface, is the MinIO client, its only implementation.
    [strings.ToLower] is exact for
    comparison with ASCII texts only.  A key that [errors.Is] can see is the
    name of a sentinel.

    ** Not modelled

    What is logged (slog handlers and lines, [slogWriter] of the database
    drivers); version/version.go (build information); the interface types and
    the trivial option setters; [RuntimeFactoryOptions], which nothing reads; the
    drivers and codecs behind the classes above; response bodies being closed.
*)

From stdpp Require Export base tactics option list strings gmap propset numbers pretty.

(** ** Go errors

    [error] is the set of error values the kit builds or forwards.  Identity
    matters for the package-level sentinels only (they are compared with [==]
    or [errors.Is]), so a sentinel carries its qualified name; the other
    constructors carry their text. *)
Inductive error : Type :=
  | errNew (id msg : string)                    (* var ErrX = errors.New(msg) *)
  | errText (msg : string)                      (* fmt.Errorf without %w *)
  | errWrap (pre : string) (e : error) (post : string)  (* fmt.Errorf with %w *)
  | errJoin (es : list error)                   (* errors.Join *)
  | errForeign (origin msg : string).           (* made by a library *)

Definition newline : string := String (Ascii.ascii_of_nat 10) "".

(** The text an error prints, [err.Error()]. *)
Fixpoint Error (e : error) : string :=
  match e with
  | errNew _ m => m
  | errText m => m
  | errWrap a e b => a +:+ Error e +:+ b
  | errJoin es => String.concat newline (map Error es)
  | errForeign _ m => m
  end.

(** [errors.Is(e, target)] for a sentinel target named [id]. *)
Fixpoint errors_Is (id : string) (e : error) : bool :=
  match e with
  | errNew i _ => bool_decide (i = id)
  | errText _ => false
  | errWrap _ e _ => errors_Is id e
  | errJoin es => existsb (errors_Is id) es
  | errForeign o _ => bool_decide (o = id)
  end.

(** [errors.Join(errs...)] on non-nil errors: nil when there is none. *)
Definition errors_Join (es : list error) : option error :=
  match es with [] => None | _ => Some (errJoin es) end.

Lemma errors_Join_None es : errors_Join es = None <-> es = [].
Proof. destruct es; split; simpl; congruence. Qed.

(** ** Go values of type [any]

    The kit only ever builds strings; anything else reaches it from a caller
    and is passed on unopened. *)
Inductive any : Type :=
  | any_nil
  | any_string (s : string)
  | any_opaque (id : positive).

#[export] Instance any_eq_dec : EqDecision any.
Proof. solve_decision. Defined.

(** [map[string]string] and [map[string]any], with the nil map apart. *)
Notation strmap := (option (gmap string string)).
Notation anymap := (option (gmap string any)).

(** ** Effectful Go code

    A call either returns or panics, and changes the state [W] on the way. *)
Inductive outcome (A : Type) : Type :=
  | Ret (a : A)
  | Panic (msg : string).
Arguments Ret {A} a.
Arguments Panic {A} msg.

Definition prog (W A : Type) : Type := W -> outcome A * W.

#[export] Instance prog_ret {W} : MRet (prog W) := fun A a w => (Ret a, w).

#[export] Instance prog_bind {W} : MBind (prog W) := fun A B f m w =>
  match m w with
  | (Ret a, w') => f a w'
  | (Panic s, w') => (Panic s, w')
  end.

Definition panic {W A} (s : string) : prog W A := fun w => (Panic s, w).
Definition gets {W A} (f : W -> A) : prog W A := fun w => (Ret (f w), w).
Definition modify {W} (f : W -> W) : prog W unit := fun w => (Ret tt, f w).

Section prog_laws.
Context {W A B : Type}.

Lemma run_ret (a : A) (w : W) : (mret a : prog W A) w = (Ret a, w).
Proof. reflexivity. Qed.

Lemma run_gets (f : W -> A) (w : W) : gets f w = (Ret (f w), w).
Proof. reflexivity. Qed.

Lemma run_modify (f : W -> W) (w : W) : modify f w = (Ret tt, f w).
Proof. reflexivity. Qed.

Lemma run_panic s (w : W) : (panic s : prog W A) w = (Panic s, w).
Proof. reflexivity. Qed.

Lemma run_bind (m : prog W A) (f : A -> prog W B) w :
  (m ≫= f) w = match m w with
               | (Ret a, w') => f a w'
               | (Panic s, w') => (Panic s, w')
               end.
Proof. reflexivity. Qed.

Lemma run_bind_Ret (m : prog W A) (f : A -> prog W B) w a w1 :
  m w = (Ret a, w1) -> (m ≫= f) w = f a w1.
Proof. rewrite run_bind. by intros ->. Qed.

(** Inversion of a bind that returned. *)
Lemma bind_Ret_inv (m : prog W A) (f : A -> prog W B) w b w2 :
  (m ≫= f) w = (Ret b, w2) ->
  exists a w1, m w = (Ret a, w1) /\ f a w1 = (Ret b, w2).
Proof. rewrite run_bind. destruct (m w) as [[a|s] w1]; naive_solver. Qed.
End prog_laws.

Create HintDb prog discriminated.
Create HintDb kit discriminated.
(** [for _, x := range l { if err := f(x); err != nil { return err } }] *)
Fixpoint for_each {W A} (f : A -> prog W (option error)) (l : list A) : prog W (option error) :=
  match l with
  | [] => mret None
  | x :: l =>
      err ← f x;
      match err with Some e => mret (Some e) | None => for_each f l end
  end.

#[export] Hint Rewrite @run_ret @run_gets @run_modify @run_panic @run_bind : prog.

Section for_each.
Context {W A : Type} (f : A -> prog W (option error)).

Lemma for_each_inv (I : W -> Prop) l w err w' :
  (forall x w err w', x ∈ l -> I w -> f x w = (Ret err, w') -> I w') ->
  I w -> for_each f l w = (Ret err, w') -> I w'.
Proof.
  revert w. induction l as [|x l IH]; intros w Hf HI; cbn [for_each].
  { intros [= <- <-]. done. }
  intros (e & w1 & E & H)%bind_Ret_inv. apply Hf in E; [|set_solver|done].
  destruct e as [e|]; [by injection H as <- <-|].
  apply (IH w1); [|done..]. intros y ? ? ? ?. apply Hf. set_solver.
Qed.

Lemma for_each_returns l w :
  (forall x w, exists err w', f x w = (Ret err, w')) -> exists err w', for_each f l w = (Ret err, w').
Proof.
  intros Hf. revert w. induction l as [|x l IH]; intros w; cbn [for_each]; [by do 2 eexists|].
  destruct (Hf x w) as (e & w1 & E). rewrite run_bind, E. destruct e; [by do 2 eexists|apply IH].
Qed.
End for_each.

(** A Go result pair [(T, error)]; both components are real values. *)
Notation "'res' A" := (A * option error)%type (at level 10, A at next level).

(** Go's [int] and [int64]: 64 bits, wrapping around. *)
Definition wrap64 (z : Z) : Z := ((z + 2 ^ 63) mod 2 ^ 64 - 2 ^ 63)%Z.

Lemma wrap64_id z : (- 2 ^ 63 <= z < 2 ^ 63)%Z -> wrap64 z = z.
Proof. intros Hz. unfold wrap64. rewrite Z.mod_small; lia. Qed.

(** ** Tactics *)

(** Split every [if decide] and the matches of the goal on the hypotheses. *)
Ltac cases_decide := repeat (case_decide; simplify_eq/=).

(** Run one layer of a program in the goal. *)
Ltac run_prog := repeat (progress (autorewrite with prog; simpl)).

(** Case analysis on all conditions of a branching definition, then cleanup. *)
Ltac branches :=
  repeat (first [ case_decide | case_match ]; simplify_eq/=); try done.
