(* ===== verification/GoStrings.v ===== *)
(** * The parts of Go's [strings] package that the kit uses.

    Go strings are byte strings; a Rocq [string] is one too.  Functions that
    Go defines on runes ([TrimSpace], [EqualFold]) are given on the UTF-8 bytes
    they accept, so they agree with Go on every input.  The five copies of the
    helper [firstNonEmpty] that the packages of the kit carry are here as well. *)

From S2P Require Import Prelude.

(** ** Bytes *)

Notation bytes := (list Ascii.ascii).
Notation to_bytes := String.list_ascii_of_string.
Notation of_bytes := String.string_of_list_ascii.

Definition code (a : Ascii.ascii) : N := Ascii.N_of_ascii a.

Lemma to_of_bytes (l : bytes) : to_bytes (of_bytes l) = l.
Proof. apply String.list_ascii_of_string_of_list_ascii. Qed.

Lemma of_to_bytes (s : string) : of_bytes (to_bytes s) = s.
Proof. apply String.string_of_list_ascii_of_string. Qed.

Lemma to_bytes_inj s t : to_bytes s = to_bytes t -> s = t.
Proof. intros H. by rewrite <- (of_to_bytes s), <- (of_to_bytes t), H. Qed.

Lemma to_bytes_app s t : to_bytes (s +:+ t) = to_bytes s ++ to_bytes t.
Proof. induction s as [|a s IH]; simpl; [done|]. by rewrite IH. Qed.

Lemma of_bytes_app l k : of_bytes (l ++ k) = of_bytes l +:+ of_bytes k.
Proof. induction l as [|a l IH]; simpl; [done|]. by rewrite IH. Qed.

Lemma to_bytes_nil s : to_bytes s = [] <-> s = "".
Proof. destruct s; split; simpl; congruence. Qed.

#[export] Hint Rewrite to_of_bytes of_to_bytes to_bytes_app of_bytes_app : gostr.

(** ** TrimSpace

    The white space of [unicode.IsSpace], by its UTF-8 bytes: six ASCII
    characters, U+0085 and U+00A0 on two bytes, and U+1680, U+2000..U+200A,
    U+2028, U+2029, U+202F, U+205F and U+3000 on three. *)
Definition space1 (a : Ascii.ascii) : bool :=
  match code a with 9%N | 10%N | 11%N | 12%N | 13%N | 32%N => true | _ => false end.

Definition space2 (a b : Ascii.ascii) : bool :=
  match code a, code b with
  | 194%N, 133%N | 194%N, 160%N => true
  | _, _ => false
  end.

Definition space3 (a b c : Ascii.ascii) : bool :=
  match code a, code b with
  | 225%N, 154%N => (code c =? 128)%N
  | 226%N, 128%N =>
      ((128 <=? code c)%N && (code c <=? 138)%N) || (code c =? 168)%N
      || (code c =? 169)%N || (code c =? 175)%N
  | 226%N, 129%N => (code c =? 159)%N
  | 227%N, 128%N => (code c =? 128)%N
  | _, _ => false
  end.

Section strip.
(** White space as seen from one end of the string. *)
Context (s2 : Ascii.ascii -> Ascii.ascii -> bool)
        (s3 : Ascii.ascii -> Ascii.ascii -> Ascii.ascii -> bool).

Fixpoint strip (l : bytes) : bytes :=
  match l with
  | [] => []
  | a :: l1 =>
      if space1 a then strip l1 else
      match l1 with
      | [] => l
      | b :: l2 =>
          if s2 a b then strip l2 else
          match l2 with
          | [] => l
          | c :: l3 => if s3 a b c then strip l3 else l
          end
      end
  end.

(** Does [l] start with white space? *)
Definition lead (l : bytes) : bool :=
  match l with
  | [] => false
  | a :: l1 => space1 a ||
      match l1 with
      | [] => false
      | b :: l2 => s2 a b || match l2 with [] => false | c :: _ => s3 a b c end
      end
  end.

Lemma strip_ind (P : bytes -> Prop) :
  (forall l, lead l = false -> P l) ->
  (forall a l, space1 a = true -> P l -> P (a :: l)) ->
  (forall a b l, space1 a = false -> s2 a b = true -> P l -> P (a :: b :: l)) ->
  (forall a b c l, space1 a = false -> s2 a b = false -> s3 a b c = true ->
    P l -> P (a :: b :: c :: l)) ->
  forall l, P l.
Proof.
  intros H0 H1 H2 H3 l. remember (length l) as n eqn:Hn.
  revert l Hn. induction (lt_wf n) as [n _ IH]. intros l ->.
  destruct (lead l) eqn:Hl; [|by apply H0].
  destruct l as [|a l1]; [done|]. simpl in Hl.
  destruct (space1 a) eqn:Ha; [apply H1; [done|]; eapply IH; [|done]; simpl; lia|].
  destruct l1 as [|b l2]; [done|].
  destruct (s2 a b) eqn:Hb; [apply H2; [done..|]; eapply IH; [|done]; simpl; lia|].
  destruct l2 as [|c l3]; [done|]. simpl in Hl.
  apply H3; [done..|]. eapply IH; [|done]; simpl; lia.
Qed.

Lemma strip_no_lead l : lead l = false -> strip l = l.
Proof.
  destruct l as [|a [|b [|c l]]]; simpl; [done| | |].
  all: destruct (space1 a); simpl; try done.
  all: destruct (s2 a b); simpl; try done. by intros ->.
Qed.

Lemma strip_lead l : lead (strip l) = false.
Proof.
  induction l as [l Hl|a l Ha IH|a b l Ha Hb IH|a b c l Ha Hb Hc IH] using strip_ind.
  - by rewrite strip_no_lead.
  - simpl. by rewrite Ha.
  - simpl. by rewrite Ha, Hb.
  - simpl. by rewrite Ha, Hb, Hc.
Qed.

Lemma strip_idemp l : strip (strip l) = strip l.
Proof. apply strip_no_lead, strip_lead. Qed.

Lemma strip_suffix l : exists p, l = p ++ strip l.
Proof.
  induction l as [l Hl|a l Ha [p IH]|a b l Ha Hb [p IH]|a b c l Ha Hb Hc [p IH]]
    using strip_ind.
  - exists []. by rewrite strip_no_lead.
  - exists (a :: p). simpl. by rewrite Ha, <- IH.
  - exists (a :: b :: p). simpl. by rewrite Ha, Hb, <- IH.
  - exists (a :: b :: c :: p). simpl. by rewrite Ha, Hb, Hc, <- IH.
Qed.

Lemma lead_app u v : lead u = true -> lead (u ++ v) = true.
Proof.
  destruct u as [|a [|b [|c u]]]; simpl; [done| | |done].
  - destruct (space1 a); [done|]. discriminate.
  - destruct (space1 a); [done|]. destruct (s2 a b); [done|]. discriminate.
Qed.

Lemma no_lead_prefix u v : lead (u ++ v) = false -> lead u = false.
Proof. destruct (lead u) eqn:E; [|done]. by rewrite (lead_app _ v E). Qed.
End strip.

Definition trim_left (l : bytes) : bytes := strip space2 space3 l.
Definition trim_right (l : bytes) : bytes :=
  reverse (strip (fun b a => space2 a b) (fun c b a => space3 a b c) (reverse l)).

Definition TrimSpace (s : string) : string :=
  of_bytes (trim_right (trim_left (to_bytes s))).

Lemma trim_right_prefix l : exists q, l = trim_right l ++ q.
Proof.
  unfold trim_right. destruct (strip_suffix (fun b a => space2 a b)
    (fun c b a => space3 a b c) (reverse l)) as [p Hp].
  exists (reverse p). rewrite <- reverse_app, <- Hp. by rewrite reverse_involutive.
Qed.

Lemma trim_right_idemp l : trim_right (trim_right l) = trim_right l.
Proof. unfold trim_right. by rewrite reverse_involutive, strip_idemp. Qed.

Lemma trim_left_right l :
  trim_left (trim_right (trim_left l)) = trim_right (trim_left l).
Proof.
  apply strip_no_lead. destruct (trim_right_prefix (trim_left l)) as [q Hq].
  apply no_lead_prefix with q. rewrite <- Hq. apply strip_lead.
Qed.

(** Trimming is idempotent, so a trimmed field is a fixed point. *)
Lemma TrimSpace_idemp s : TrimSpace (TrimSpace s) = TrimSpace s.
Proof.
  unfold TrimSpace. rewrite to_of_bytes, trim_left_right, trim_right_idemp. done.
Qed.

Lemma space2_ascii a b : (code a < 128)%N \/ (code b < 128)%N -> space2 a b = false.
Proof. intros H. unfold space2. repeat case_match; try done; simplify_eq; lia. Qed.

Lemma space3_ascii a b c :
  (code a < 128)%N \/ (code b < 128)%N \/ (code c < 128)%N -> space3 a b c = false.
Proof.
  intros H. unfold space3.
  repeat case_match; try done; simplify_eq;
    rewrite ?orb_false_iff, ?andb_false_iff, ?N.eqb_neq, ?N.leb_gt; lia.
Qed.

(** An ASCII non-space byte shields what is behind it from trimming. *)
Lemma lead_shield s2 s3 u x v :
  (forall a b, (code a < 128)%N \/ (code b < 128)%N -> s2 a b = false) ->
  (forall a b c, (code a < 128)%N \/ (code b < 128)%N \/ (code c < 128)%N -> s3 a b c = false) ->
  (code x < 128)%N -> u <> [] -> lead s2 s3 u = false -> lead s2 s3 (u ++ x :: v) = false.
Proof.
  intros H2 H3 Hx Hu. destruct u as [|a [|b [|d u]]]; simpl; [done| | |done].
  - rewrite !orb_false_r. intros ->. rewrite H2 by auto.
    destruct v; [done|]. by rewrite H3 by auto.
  - destruct (space1 a); [done|]. simpl. rewrite !orb_false_r. intros ->. by rewrite H3 by auto.
Qed.

Lemma TrimSpace_no_lead s :
  lead space2 space3 (to_bytes s) = false ->
  lead (fun b a => space2 a b) (fun c b a => space3 a b c) (reverse (to_bytes s)) = false ->
  TrimSpace s = s.
Proof.
  intros H1 H2. unfold TrimSpace, trim_left, trim_right.
  rewrite (strip_no_lead _ _ (to_bytes s)) by done.
  rewrite strip_no_lead by done. by rewrite reverse_involutive, of_to_bytes.
Qed.

Lemma trimmed_right_lead s :
  TrimSpace s = s ->
  lead (fun b a => space2 a b) (fun c b a => space3 a b c) (reverse (to_bytes s)) = false.
Proof.
  intros H. rewrite <- H. unfold TrimSpace, trim_right.
  rewrite to_of_bytes, reverse_involutive. apply strip_lead.
Qed.

Lemma trimmed_left_lead s : TrimSpace s = s -> lead space2 space3 (to_bytes s) = false.
Proof.
  intros H. rewrite <- H. unfold TrimSpace. rewrite to_of_bytes.
  destruct (trim_right_prefix (trim_left (to_bytes s))) as [q Hq].
  apply no_lead_prefix with q. rewrite <- Hq. apply strip_lead.
Qed.

(** Two trimmed non-empty pieces joined by an ASCII byte are trimmed. *)
Lemma TrimSpace_join t x i :
  TrimSpace t = t -> TrimSpace i = i -> t <> "" -> i <> "" -> (code x < 128)%N ->
  TrimSpace (t +:+ String x i) = t +:+ String x i.
Proof.
  intros Ht Hi Hnt Hni Hx.
  apply TrimSpace_no_lead; rewrite to_bytes_app; cbn [String.list_ascii_of_string].
  - apply lead_shield.
    + intros a b H. by apply space2_ascii.
    + intros a b c H. by apply space3_ascii.
    + done.
    + by rewrite to_bytes_nil.
    + by apply trimmed_left_lead.
  - rewrite reverse_app, reverse_cons, <- app_assoc. apply lead_shield.
    + intros a b H. apply space2_ascii. tauto.
    + intros a b c H. apply space3_ascii. tauto.
    + done.
    + intros E. apply (f_equal reverse) in E. rewrite reverse_involutive in E.
      by apply to_bytes_nil in E.
    + by apply trimmed_right_lead.
Qed.

Lemma TrimSpace_empty : TrimSpace "" = "".
Proof. done. Qed.

#[export] Hint Rewrite TrimSpace_idemp TrimSpace_empty : gostr.

(** ** One-byte separators: Trim, TrimSuffix, Cut, Split, Join *)

Definition has_char (c : Ascii.ascii) (s : string) : bool := existsb (Ascii.eqb c) (to_bytes s).

Fixpoint drop_char (c : Ascii.ascii) (l : bytes) : bytes :=
  match l with
  | a :: l' => if Ascii.eqb c a then drop_char c l' else l
  | [] => []
  end.

(** [strings.Trim(s, cutset)] for the one-byte cutset [c]. *)
Definition Trim (c : Ascii.ascii) (s : string) : string :=
  of_bytes (reverse (drop_char c (reverse (drop_char c (to_bytes s))))).

(** [strings.TrimRight(s, cutset)] for the one-byte cutset [c]. *)
Definition TrimRight (c : Ascii.ascii) (s : string) : string :=
  of_bytes (reverse (drop_char c (reverse (to_bytes s)))).

(** [strings.TrimSuffix(s, suffix)] for the one-byte suffix [c]. *)
Definition TrimSuffix (c : Ascii.ascii) (s : string) : string :=
  match reverse (to_bytes s) with
  | a :: l => if Ascii.eqb c a then of_bytes (reverse l) else s
  | [] => s
  end.

Fixpoint cut_bytes (c : Ascii.ascii) (l : bytes) : option (bytes * bytes) :=
  match l with
  | [] => None
  | a :: l' => if Ascii.eqb c a then Some ([], l')
               else (fun '(x, y) => (a :: x, y)) <$> cut_bytes c l'
  end.

(** [strings.Cut(s, sep)] for the one-byte separator [c]; [None] is [ok = false]. *)
Definition Cut (c : Ascii.ascii) (s : string) : option (string * string) :=
  (fun '(x, y) => (of_bytes x, of_bytes y)) <$> cut_bytes c (to_bytes s).

Fixpoint split_bytes (c : Ascii.ascii) (l : bytes) : list bytes :=
  match l with
  | [] => [[]]
  | a :: l' =>
      if Ascii.eqb c a then [] :: split_bytes c l'
      else match split_bytes c l' with
           | p :: ps => (a :: p) :: ps
           | [] => [[a]]
           end
  end.

(** [strings.Split(s, sep)] for the one-byte separator [c]. *)
Definition Split (c : Ascii.ascii) (s : string) : list string :=
  of_bytes <$> split_bytes c (to_bytes s).

(** [strings.Join(elems, sep)]. *)
Fixpoint Join (elems : list string) (sep : string) : string :=
  match elems with
  | [] => ""
  | [x] => x
  | x :: xs => x +:+ sep +:+ Join xs sep
  end.

Definition colon : Ascii.ascii := Ascii.ascii_of_nat 58.
Definition space : Ascii.ascii := Ascii.ascii_of_nat 32.

Lemma has_char_app c s t : has_char c (s +:+ t) = has_char c s || has_char c t.
Proof. unfold has_char. by rewrite to_bytes_app, existsb_app. Qed.

Lemma has_char_of_bytes c l : has_char c (of_bytes l) = existsb (Ascii.eqb c) l.
Proof. unfold has_char. by rewrite to_of_bytes. Qed.

Lemma drop_char_none c l : existsb (Ascii.eqb c) l = false -> drop_char c l = l.
Proof. destruct l as [|a l]; simpl; [done|]. by destruct (Ascii.eqb c a). Qed.

Lemma existsb_reverse {A} (f : A -> bool) l : existsb f (reverse l) = existsb f l.
Proof.
  induction l as [|a l IH]; [done|].
  rewrite reverse_cons, existsb_app, IH. simpl. destruct (f a), (existsb f l); done.
Qed.

Lemma Trim_none c s : has_char c s = false -> Trim c s = s.
Proof.
  intros H. unfold Trim. rewrite (drop_char_none c (to_bytes s)) by done.
  rewrite drop_char_none by (by rewrite existsb_reverse).
  by rewrite reverse_involutive, of_to_bytes.
Qed.

Lemma drop_char_app c l : exists n, l = replicate n c ++ drop_char c l.
Proof.
  induction l as [|a l [n IH]]; simpl; [by exists 0|].
  destruct (Ascii.eqb_spec c a) as [<-|]; [|by exists 0].
  exists (S n). simpl. by rewrite <- IH.
Qed.

Lemma drop_char_head c l : head (drop_char c l) <> Some c.
Proof.
  induction l as [|a l IH]; simpl; [done|].
  destruct (Ascii.eqb_spec c a); simpl; congruence.
Qed.

Lemma split_bytes_none c l : existsb (Ascii.eqb c) l = false -> split_bytes c l = [l].
Proof.
  induction l as [|a l IH]; simpl; [done|].
  destruct (Ascii.eqb c a); [done|]. simpl. intros H. by rewrite IH.
Qed.

Lemma split_bytes_app c p l :
  existsb (Ascii.eqb c) p = false -> split_bytes c (p ++ c :: l) = p :: split_bytes c l.
Proof.
  induction p as [|a p IH]; simpl; [by rewrite Ascii.eqb_refl|].
  destruct (Ascii.eqb c a); [done|]. simpl. intros H. by rewrite IH.
Qed.

(** Splitting undoes joining on separator-free elements. *)
Lemma Split_Join c elems :
  elems <> [] -> Forall (fun s => has_char c s = false) elems ->
  Split c (Join elems (String c "")) = elems.
Proof.
  intros Hne Hall. unfold Split. induction Hall as [|s ss Hs Hall IH]; [done|].
  destruct ss as [|t ss].
  - simpl. rewrite split_bytes_none by done. simpl. by rewrite of_to_bytes.
  - change (Join (s :: t :: ss) (String c ""))
      with (s +:+ String c (Join (t :: ss) (String c ""))).
    rewrite to_bytes_app. cbn [String.list_ascii_of_string].
    rewrite split_bytes_app by done. rewrite fmap_cons, IH by done.
    by rewrite of_to_bytes.
Qed.

Lemma Join_inj c xs ys :
  xs <> [] -> ys <> [] ->
  Forall (fun s => has_char c s = false) xs -> Forall (fun s => has_char c s = false) ys ->
  Join xs (String c "") = Join ys (String c "") -> xs = ys.
Proof.
  intros Hx Hy Fx Fy E. rewrite <- (Split_Join c xs), <- (Split_Join c ys) by done.
  by rewrite E.
Qed.

Lemma cut_bytes_Some c l x y :
  cut_bytes c l = Some (x, y) <-> l = x ++ c :: y /\ existsb (Ascii.eqb c) x = false.
Proof.
  revert x. induction l as [|a l IH]; intros x; simpl.
  - split; [done|]. intros [E _]. by destruct x.
  - destruct (Ascii.eqb_spec c a) as [<-|Hne].
    + split; [intros [= <- <-]; done|]. intros [E Hx].
      destruct x as [|b x]; simplify_eq/=; [done|]. by rewrite Ascii.eqb_refl in Hx.
    + split.
      * destruct (cut_bytes c l) as [[x' y']|] eqn:E; [|done]. intros [= <- <-].
        destruct (proj1 (IH x')) as [-> Hx]; [done|]. simpl.
        by destruct (Ascii.eqb_spec c a).
      * intros [E Hx]. destruct x as [|b x]; simplify_eq/=.
        destruct (Ascii.eqb_spec c b); [done|]. simpl in Hx.
        by rewrite (proj2 (IH x)) by done.
Qed.

(** ** EqualFold against an ASCII literal

    Simple case folding relates an ASCII letter to its other case, and besides
    that only [k] to U+212A (E2 84 AA) and [s] to U+017F (C5 BF). *)
Definition lower_ascii (a : Ascii.ascii) : Ascii.ascii :=
  if ((65 <=? code a) && (code a <=? 90))%N
  then Ascii.ascii_of_N (code a + 32) else a.

Fixpoint fold_bytes (s t : bytes) : bool :=
  match t, s with
  | [], [] => true
  | c :: t', a :: s' =>
      if Ascii.eqb (lower_ascii a) (lower_ascii c) then fold_bytes s' t' else
      match code (lower_ascii c), s with
      | 115%N, a :: b :: s'' =>
          if ((code a =? 197) && (code b =? 191))%N then fold_bytes s'' t' else false
      | 107%N, a :: b :: d :: s'' =>
          if ((code a =? 226) && (code b =? 132) && (code d =? 170))%N
          then fold_bytes s'' t' else false
      | _, _ => false
      end
  | _, _ => false
  end.

Definition EqualFold (s t : string) : bool := fold_bytes (to_bytes s) (to_bytes t).

(** ** firstNonEmpty *)

(** The first non-empty argument, or [""]: [access], [audit], [casdoor], [db]
    and [objectstore] each declare this function. *)
Fixpoint firstNonEmpty (values : list string) : string :=
  match values with
  | [] => ""
  | v :: vs => if decide (v <> "") then v else firstNonEmpty vs
  end.

Lemma firstNonEmpty_spec vs :
  (firstNonEmpty vs = "" /\ Forall (fun v => v = "") vs) \/
  (exists pre v post, vs = pre ++ v :: post /\ Forall (fun v => v = "") pre
    /\ v <> "" /\ firstNonEmpty vs = v).
Proof.
  induction vs as [|v vs IH]; simpl; [by left|]. case_decide as Hv.
  - right. exists [], v, vs. naive_solver.
  - assert (v = "") as -> by (destruct v; naive_solver).
    destruct IH as [[-> H]|(pre & x & post & -> & Hp & Hx & ->)]; [left; auto|].
    right. exists ("" :: pre), x, post. split_and!; auto.
Qed.
