(* ===== verification/GoText.v ===== *)
(** * Searching and replacing in strings.

    [strings.HasPrefix], [HasSuffix], [Contains] and [ReplaceAll] for a non-empty
    pattern, with what the kit needs to know of them: texts made of lines joined
    by a separator. *)

From S2P Require Import Prelude GoStrings.

Fixpoint prefix_of (p l : bytes) : bool :=
  match p, l with
  | [], _ => true
  | a :: p, b :: l => Ascii.eqb a b && prefix_of p l
  | _ :: _, [] => false
  end.

Definition HasPrefix (s p : string) : bool := prefix_of (to_bytes p) (to_bytes s).
Definition HasSuffix (s p : string) : bool :=
  prefix_of (reverse (to_bytes p)) (reverse (to_bytes s)).

Fixpoint contains_bytes (p l : bytes) : bool :=
  prefix_of p l || match l with [] => false | _ :: l => contains_bytes p l end.

Definition Contains (s p : string) : bool := contains_bytes (to_bytes p) (to_bytes s).

(** Replaces the occurrences of [old] from left to right; [skip] bytes of the
    input belong to the occurrence replaced last. *)
Fixpoint replace_bytes (skip : nat) (old new l : bytes) : bytes :=
  match l with
  | [] => []
  | a :: l' =>
      match skip with
      | S k => replace_bytes k old new l'
      | O => if prefix_of old l then new ++ replace_bytes (length old - 1) old new l'
             else a :: replace_bytes 0 old new l'
      end
  end.

(** [strings.ReplaceAll(s, old, new)] for a non-empty [old]. *)
Definition ReplaceAll (s old new : string) : string :=
  of_bytes (replace_bytes 0 (to_bytes old) (to_bytes new) (to_bytes s)).

Lemma prefix_of_app p l : prefix_of p (p ++ l) = true.
Proof. induction p as [|a p IH]; simpl; [done|]. by rewrite Ascii.eqb_refl. Qed.

Lemma prefix_of_true p l : prefix_of p l = true -> exists k, l = p ++ k.
Proof.
  revert l. induction p as [|a p IH]; intros [|b l]; simpl; try done; [eauto..|].
  intros [E%Ascii.eqb_eq (k & ->)%IH]%andb_prop. subst. by exists k.
Qed.

Lemma contains_bytes_true p l : contains_bytes p l = true <-> exists u v, l = u ++ p ++ v.
Proof.
  split.
  - induction l as [|a l IH]; cbn [contains_bytes]; intros [(k & E)%prefix_of_true|H]%orb_prop.
    + by exists [], k.
    + done.
    + by exists [], k.
    + destruct (IH H) as (u & v & ->). by exists (a :: u), v.
  - intros (u & v & ->). induction u as [|a u IH]; simpl.
    + pose proof (prefix_of_app p v) as Hp. destruct (p ++ v); simpl; by rewrite Hp.
    + by rewrite IH, orb_true_r.
Qed.

(** A pattern with a byte that the text lacks does not occur. *)
Lemma contains_bytes_lacks c p l : c ∈ p -> c ∉ l -> contains_bytes p l = false.
Proof.
  intros Hp Hl. destruct (contains_bytes p l) eqn:E; [|done].
  apply contains_bytes_true in E as (u & v & ->). set_solver.
Qed.

Lemma replace_bytes_absent old new l : contains_bytes old l = false -> replace_bytes 0 old new l = l.
Proof.
  induction l as [|a l IH]; cbn [contains_bytes]; [done|].
  intros [Hp Hl]%orb_false_elim. cbn [replace_bytes]. by rewrite Hp, IH.
Qed.

Lemma replace_bytes_skip k old new l : replace_bytes k old new l = replace_bytes 0 old new (drop k l).
Proof. revert l. induction k as [|k IH]; intros [|a l]; try done. cbn [drop replace_bytes]. apply IH. Qed.

Lemma replace_bytes_hit old new l :
  old <> [] -> replace_bytes 0 old new (old ++ l) = new ++ replace_bytes 0 old new l.
Proof.
  destruct old as [|c old]; [done|]. intros _. cbn [app].
  change (replace_bytes 0 (c :: old) new (c :: old ++ l)) with
    (if prefix_of (c :: old) ((c :: old) ++ l)
     then new ++ replace_bytes (length (c :: old) - 1) (c :: old) new (old ++ l)
     else c :: replace_bytes 0 (c :: old) new (old ++ l)).
  rewrite prefix_of_app, replace_bytes_skip. simpl. by rewrite Nat.sub_0_r, drop_app_length.
Qed.

(** Text without the first byte of the pattern is copied. *)
Lemma replace_bytes_copy c old new p l :
  c ∉ p -> replace_bytes 0 (c :: old) new (p ++ l) = p ++ replace_bytes 0 (c :: old) new l.
Proof.
  intros Hp. induction p as [|a p IH]; [done|]. cbn [app replace_bytes prefix_of].
  destruct (Ascii.eqb c a) eqn:E.
  - apply Ascii.eqb_eq in E as ->. set_solver.
  - simpl. f_equal. apply IH. set_solver.
Qed.

(** ** Lines joined by a separator *)

Fixpoint join_bytes (ls : list bytes) (sep : bytes) : bytes :=
  match ls with
  | [] => []
  | [x] => x
  | x :: xs => x ++ sep ++ join_bytes xs sep
  end.

Lemma Join_bytes ls sep : to_bytes (Join ls sep) = join_bytes (to_bytes <$> ls) (to_bytes sep).
Proof.
  induction ls as [|x [|y ls] IH]; [done..|].
  change (Join (x :: y :: ls) sep) with (x +:+ sep +:+ Join (y :: ls) sep).
  by rewrite !to_bytes_app, IH.
Qed.

Lemma replace_join c sep new ls :
  Forall (fun l => c ∉ l) ls ->
  replace_bytes 0 (c :: sep) new (join_bytes ls (c :: sep)) = join_bytes ls new.
Proof.
  induction ls as [|x [|y ls] IH]; intros Hc; [done| |]; apply Forall_cons in Hc as [Hx Hc].
  - simpl. rewrite <- (app_nil_r x) at 1. by rewrite replace_bytes_copy, app_nil_r.
  - change (join_bytes (x :: y :: ls) (c :: sep)) with (x ++ (c :: sep) ++ join_bytes (y :: ls) (c :: sep)).
    by rewrite replace_bytes_copy, replace_bytes_hit, IH by done.
Qed.

Lemma join_bytes_elem ls sep a :
  a ∈ join_bytes ls sep -> (exists l, l ∈ ls /\ a ∈ l) \/ a ∈ sep.
Proof.
  induction ls as [|x [|y ls] IH]; [set_solver..|].
  change (join_bytes (x :: y :: ls) sep) with (x ++ sep ++ join_bytes (y :: ls) sep).
  rewrite !elem_of_app. intros [H|[H|H]]; [left; exists x; set_solver|by right|].
  destruct (IH H) as [(l & ? & ?)|?]; [left; exists l; set_solver|by right].
Qed.

(** ** Texts that trimming leaves alone *)

Definition graphic (a : Ascii.ascii) : bool := ((33 <=? code a) && (code a <=? 126))%N.

Lemma graphic_lead s2 s3 a l :
  (forall a b, (code a < 128)%N \/ (code b < 128)%N -> s2 a b = false) ->
  (forall a b c, (code a < 128)%N \/ (code b < 128)%N \/ (code c < 128)%N -> s3 a b c = false) ->
  graphic a = true -> lead s2 s3 (a :: l) = false.
Proof.
  intros H2 H3 [Ha%N.leb_le Hb%N.leb_le]%andb_prop.
  assert (space1 a = false) as E.
  { clear -Ha Hb. destruct a as [[] [] [] [] [] [] [] []]; vm_compute in Ha, Hb |- *; done. }
  destruct l as [|b [|d l]]; simpl; rewrite E; simpl; [done| |];
    rewrite H2 by (left; lia); simpl; [done|]. by rewrite H3 by (left; lia).
Qed.

Lemma TrimSpace_graphic s a b :
  head (to_bytes s) = Some a -> graphic a = true ->
  last (to_bytes s) = Some b -> graphic b = true -> TrimSpace s = s.
Proof.
  intros Ha Ga Hb Gb. apply TrimSpace_no_lead.
  - destruct (to_bytes s) as [|x l]; [done|]. injection Ha as ->.
    apply graphic_lead; [apply space2_ascii|apply space3_ascii|done].
  - destruct (to_bytes s) as [|x l _] using rev_ind; [done|].
    rewrite last_snoc in Hb. injection Hb as ->. rewrite reverse_snoc.
    apply graphic_lead; [| |done].
    + intros u v H. apply space2_ascii. tauto.
    + intros u v z H. apply space3_ascii. tauto.
Qed.

Lemma head_join_bytes x ls sep : x <> [] -> head (join_bytes (x :: ls) sep) = head x.
Proof. destruct x, ls; done. Qed.

Lemma last_join_bytes ls x sep : x <> [] -> last (join_bytes (ls ++ [x]) sep) = last x.
Proof.
  intros Hx. induction ls as [|y ls IH]; [done|].
  assert (join_bytes ((y :: ls) ++ [x]) sep = y ++ sep ++ join_bytes (ls ++ [x]) sep) as ->.
  { simpl. by destruct ls. }
  rewrite !last_app, IH. by destruct (last x) eqn:E; [|destruct x as [|? ? _] using rev_ind; [|rewrite last_snoc in E]].
Qed.

(** ** Hexadecimal *)

Definition hexdigit (n : N) : Ascii.ascii :=
  Ascii.ascii_of_N (if (n <? 10)%N then 48 + n else 87 + n)%N.

(** [hex.EncodeToString] *)
Definition hex (b : bytes) : string :=
  of_bytes (b ≫= fun a => [hexdigit (code a / 16); hexdigit (code a mod 16)]%N).
