(* ===== verification/GoTime.v ===== *)
(** * Go durations: [time.Duration], [time.ParseDuration] and the kit's wrappers.

    A duration is an int64 of nanoseconds, kept as a [Z].  [ParseDuration]
    follows Go 1.23 byte for byte: unsigned 64-bit accumulation with its
    overflow tests, and binary64 arithmetic for the fractional part.  The
    wrappers [ParseDurationOr], [durOrDefault] and [parseDurationOr] are the
    kit's own. *)

From Stdlib Require Import SpecFloat.
From S2P Require Import Prelude GoStrings GoText.
Local Open Scope Z_scope.

Notation Duration := Z.

Definition Nanosecond : Duration := 1.
Definition Microsecond : Duration := 1000.
Definition Millisecond : Duration := 1000000.
Definition Second : Duration := 1000000000.
Definition Minute : Duration := 60 * Second.
Definition Hour : Duration := 60 * Minute.

(** [d.Milliseconds()]: division truncated towards zero. *)
Definition Milliseconds (d : Duration) : Z := Z.quot d 1000000.

(** ** Instants

    A [time.Time] is its distance in nanoseconds from the zero time (January 1,
    year 1, UTC); [Sub] saturates at the bounds of a duration. *)
Notation Time := Z.

Definition Time_IsZero (t : Time) : Prop := t = 0.
#[export] Instance Time_IsZero_dec t : Decision (Time_IsZero t) := decide (t = 0).

Definition Sub (t u : Time) : Duration :=
  Z.max (- 2 ^ 63) (Z.min (2 ^ 63 - 1) (t - u)).

(** ** Binary64 *)
Definition f64_of_Z (z : Z) : spec_float := binary_normalize 53 1024 z 0 false.
Definition f64_mul (x y : spec_float) : spec_float := SFmul 53 1024 x y.
Definition f64_div (x y : spec_float) : spec_float := SFdiv 53 1024 x y.

(** [uint64(x)] for a non-negative finite [x]. *)
Definition uint64_of_f64 (x : spec_float) : Z :=
  match x with
  | S754_finite false m e => Z.shiftl (Z.pos m) e
  | _ => 0
  end.

(** ** ParseDuration *)

Definition is_digit (a : Ascii.ascii) : bool := ((48 <=? code a) && (code a <=? 57))%N.
Definition is_dot (a : Ascii.ascii) : bool := (code a =? 46)%N.
Definition digit (a : Ascii.ascii) : Z := Z.of_N (code a) - 48.

Definition two63 : Z := 2 ^ 63.
Definition two64 : Z := 2 ^ 64.

(** [leadingInt]: [None] is [errLeadingInt]. *)
Fixpoint leadingInt (x : Z) (s : bytes) : option (Z * bytes) :=
  match s with
  | a :: s' =>
      if is_digit a then
        if x >? two63 / 10 then None
        else let x' := x * 10 + digit a in
             if x' >? two63 then None else leadingInt x' s'
      else Some (x, s)
  | [] => Some (x, [])
  end.

Fixpoint leadingFraction (x : Z) (scale : spec_float) (overflow : bool) (s : bytes)
    : Z * spec_float * bytes :=
  match s with
  | a :: s' =>
      if is_digit a then
        if overflow then leadingFraction x scale true s' else
        if x >? (two63 - 1) / 10 then leadingFraction x scale true s' else
        let y := x * 10 + digit a in
        if y >? two63 then leadingFraction x scale true s'
        else leadingFraction y (f64_mul scale (f64_of_Z 10)) false s'
      else (x, scale, s)
  | [] => (x, scale, [])
  end.

(** The unit is everything up to the next digit or dot. *)
Fixpoint take_unit (s : bytes) : bytes * bytes :=
  match s with
  | a :: s' => if is_dot a || is_digit a then ([], s)
               else let '(u, r) := take_unit s' in (a :: u, r)
  | [] => ([], [])
  end.

Definition codes (u : bytes) : list N := code <$> u.

Definition unitMap (u : bytes) : option Z :=
  match codes u with
  | [110; 115]%N => Some Nanosecond          (* "ns" *)
  | [117; 115]%N => Some Microsecond         (* "us" *)
  | [194; 181; 115]%N => Some Microsecond    (* U+00B5 "s" *)
  | [206; 188; 115]%N => Some Microsecond    (* U+03BC "s" *)
  | [109; 115]%N => Some Millisecond         (* "ms" *)
  | [115]%N => Some Second                   (* "s" *)
  | [109]%N => Some Minute                   (* "m" *)
  | [104]%N => Some Hour                     (* "h" *)
  | _ => None
  end.

(** Why a string is not a duration. *)
Inductive duration_error : Type := invalid_duration | missing_unit | unknown_unit (u : bytes).

(** The optional fraction: its digits, their scale, the rest, and whether a
    digit follows the dot. *)
Definition parse_fraction (s : bytes) : Z * spec_float * bytes * bool :=
  match s with
  | b :: s' =>
    if is_dot b then
      let '(f, scale, r) := leadingFraction 0 (f64_of_Z 1) false s' in
      (f, scale, r, negb (length r =? length s')%nat)
    else (0, f64_of_Z 1, s, false)
  | [] => (0, f64_of_Z 1, s, false)
  end.

(** The optional sign. *)
Definition parse_sign (s : bytes) : bool * bytes :=
  match s with
  | a :: s' => if (code a =? 45)%N then (true, s')
               else if (code a =? 43)%N then (false, s') else (false, s)
  | [] => (false, s)
  end.

(** One number-and-unit group, returning its nanoseconds and the rest. *)
Definition parse_group (s : bytes) : (Z * bytes) + duration_error :=
  match s with
  | [] => inr invalid_duration
  | a :: _ =>
    if negb (is_dot a || is_digit a) then inr invalid_duration else
    match leadingInt 0 s with
    | None => inr invalid_duration
    | Some (v, s1) =>
      let pre := negb (length s1 =? length s)%nat in
      let '(f, scale, s2, post) := parse_fraction s1 in
      if negb pre && negb post then inr invalid_duration else
      let '(u, s3) := take_unit s2 in
      match u with
      | [] => inr missing_unit
      | _ =>
        match unitMap u with
        | None => inr (unknown_unit u)
        | Some unit =>
          if v >? two63 / unit then inr invalid_duration else
          let v1 := v * unit in
          if f >? 0 then
            let v2 := (v1 + uint64_of_f64
                        (f64_mul (f64_of_Z f) (f64_div (f64_of_Z unit) scale))) mod two64 in
            if v2 >? two63 then inr invalid_duration else inl (v2, s3)
          else inl (v1, s3)
        end
      end
    end
  end.

Arguments parse_group : simpl never.

(** The loop over the groups.  Every group consumes at least one byte, so the
    length of the string is enough fuel ([parse_groups_fuel]). *)
Fixpoint parse_groups (fuel : nat) (d : Z) (s : bytes) : Z + duration_error :=
  match s, fuel with
  | [], _ => inl d
  | _, O => inr invalid_duration
  | _, S fuel' =>
    match parse_group s with
    | inr e => inr e
    | inl (v, s') =>
      let d' := (d + v) mod two64 in
      if d' >? two63 then inr invalid_duration else parse_groups fuel' d' s'
    end
  end.

Definition parse_bytes (s : bytes) : Duration + duration_error :=
  let '(neg, s1) := parse_sign s in
  if decide (codes s1 = [48%N]) then inl 0 else
  match s1 with
  | [] => inr invalid_duration
  | _ =>
    match parse_groups (length s1) 0 s1 with
    | inr e => inr e
    | inl d => if neg then inl (- d)
               else if d >? two63 - 1 then inr invalid_duration else inl d
    end
  end.

(** The package's private [quote]: unprintable and non-ASCII bytes become
    [\xNN], double quotes and backslashes are escaped. *)
Definition quote_byte (a : Ascii.ascii) : bytes :=
  if ((128 <=? code a) || (code a <? 32))%N
  then [Ascii.ascii_of_N 92; Ascii.ascii_of_N 120;
        hexdigit (code a / 16); hexdigit (code a mod 16)]
  else if ((code a =? 34) || (code a =? 92))%N then [Ascii.ascii_of_N 92; a] else [a].

Definition dquote : Ascii.ascii := Ascii.ascii_of_N 34.

Definition quote (l : bytes) : string :=
  of_bytes (dquote :: (l ≫= quote_byte) ++ [dquote]).

Definition duration_errorf (orig : bytes) (e : duration_error) : error :=
  errText match e with
  | invalid_duration => "time: invalid duration " +:+ quote orig
  | missing_unit => "time: missing unit in duration " +:+ quote orig
  | unknown_unit u => "time: unknown unit " +:+ quote u +:+ " in duration " +:+ quote orig
  end.

(** [time.ParseDuration(s)]. *)
Definition ParseDuration (s : string) : res Duration :=
  match parse_bytes (to_bytes s) with
  | inl d => (d, None)
  | inr e => (0, Some (duration_errorf (to_bytes s) e))
  end.

Example ParseDuration_10s : ParseDuration "10s" = (10 * Second, None).
Proof. vm_compute. reflexivity. Qed.
Example ParseDuration_mixed : ParseDuration "-1.5h2m.25s" = (- (5400 * Second + 2 * Minute + 250 * Millisecond), None).
Proof. vm_compute. reflexivity. Qed.
Example ParseDuration_bad : Error <$> (ParseDuration "10").2 = Some ("time: missing unit in duration " +:+ quote (to_bytes "10")).
Proof. vm_compute. reflexivity. Qed.

(** ** Facts about the parser *)

Lemma digit_nonneg a : is_digit a = true -> 0 <= digit a.
Proof. unfold is_digit, digit. intros H. apply andb_prop in H as [H _].
  apply N.leb_le in H. lia. Qed.

Lemma leadingInt_spec s x v r :
  0 <= x -> leadingInt x s = Some (v, r) -> 0 <= v /\ (length r <= length s)%nat.
Proof.
  revert x. induction s as [|a s IH]; simpl; intros x Hx H; [naive_solver|].
  destruct (is_digit a) eqn:Ha; [|naive_solver].
  pose proof (digit_nonneg a Ha).
  destruct (x >? two63 / 10); [done|].
  destruct (x * 10 + digit a >? two63); [done|].
  apply IH in H; lia.
Qed.

Lemma leadingFraction_spec s x sc o f sc' r :
  0 <= x -> leadingFraction x sc o s = (f, sc', r) -> 0 <= f /\ (length r <= length s)%nat.
Proof.
  revert x sc o. induction s as [|a s IH]; simpl; intros x sc o Hx H; [naive_solver|].
  destruct (is_digit a) eqn:Ha; [|naive_solver].
  pose proof (digit_nonneg a Ha).
  repeat case_match; simplify_eq; match goal with E : leadingFraction _ _ _ _ = _ |- _ =>
    apply IH in E; lia end.
Qed.

Lemma parse_fraction_spec s f sc r post :
  parse_fraction s = (f, sc, r, post) -> 0 <= f /\ (length r <= length s)%nat.
Proof.
  unfold parse_fraction. destruct s as [|b s]; [naive_solver|].
  destruct (is_dot b); [|naive_solver lia].
  destruct (leadingFraction 0 _ false s) as [[f' sc'] r'] eqn:E.
  apply leadingFraction_spec in E; [|done]. intros [= <- <- <- <-]. simpl. lia.
Qed.

Lemma take_unit_spec s u r : take_unit s = (u, r) -> s = u ++ r.
Proof.
  revert u. induction s as [|a s IH]; simpl; intros u; [naive_solver|].
  destruct (is_dot a || is_digit a); [naive_solver|].
  destruct (take_unit s) as [u' r']. intros [= <- <-]. by rewrite (IH u').
Qed.

(** A group consumes input and its value is an unsigned amount. *)
Lemma parse_group_spec s v r :
  parse_group s = inl (v, r) -> 0 <= v /\ (length r < length s)%nat.
Proof.
  unfold parse_group. destruct s as [|a s]; [done|]. remember (a :: s) as l eqn:Hl. clear Hl.
  destruct (negb _); [done|].
  destruct (leadingInt 0 l) as [[v0 s1]|] eqn:E1; [|done].
  apply leadingInt_spec in E1 as [Hv0 Hs1]; [|done].
  destruct (parse_fraction s1) as [[[f sc] s2] post] eqn:E2.
  apply parse_fraction_spec in E2 as [Hf Hs2].
  destruct (negb _ && negb _); [done|].
  destruct (take_unit s2) as [u s3] eqn:E4. apply take_unit_spec in E4 as ->.
  rewrite length_app in Hs2. destruct u as [|b u]; [done|]. simpl in Hs2.
  destruct (unitMap (b :: u)) as [unit|] eqn:Eu; [|done].
  assert (0 < unit) as Hu.
  { revert Eu. unfold unitMap. repeat case_match; intros [= <-]; done. }
  destruct (v0 >? two63 / unit); [done|].
  destruct (f >? 0).
  - destruct (_ >? two63); [done|]. intros [= <- <-].
    split; [apply Z.mod_pos_bound; done|lia].
  - intros [= <- <-]. split; [nia|lia].
Qed.

(** The fuel of the group loop is never what stops it: with any fuel at least
    the length of the input the result is the same. *)
Lemma parse_groups_fuel n m d s :
  (length s <= n)%nat -> (length s <= m)%nat -> parse_groups n d s = parse_groups m d s.
Proof.
  revert m d s. induction n as [|n IH]; intros m d s Hn Hm.
  - destruct s; simpl in Hn; [by destruct m|lia].
  - destruct s as [|a s]; [by destruct m|].
    destruct m as [|m]; [simpl in Hm; lia|].
    simpl.
    destruct (parse_group (a :: s)) as [[v r]|e] eqn:E; [|done].
    apply parse_group_spec in E as [_ Hr]. simpl.
    destruct (_ >? two63); [done|]. apply IH; simpl in *; lia.
Qed.

Lemma parse_groups_bounds n d s d' :
  0 <= d <= two63 -> parse_groups n d s = inl d' -> 0 <= d' <= two63.
Proof.
  revert d s. induction n as [|n IH]; intros d s Hd; destruct s as [|a s]; simpl;
    try (intros [= <-]; done).
  destruct (parse_group (a :: s)) as [[v r]|e]; [|done].
  destruct (Z.gtb_spec ((d + v) mod two64) two63); [done|].
  apply IH. split; [|lia]. apply Z.mod_pos_bound. done.
Qed.

(** A parsed duration is an int64. *)
Lemma ParseDuration_int64 s d :
  ParseDuration s = (d, None) -> - two63 <= d <= two63 - 1.
Proof.
  unfold ParseDuration, parse_bytes.
  destruct (parse_sign (to_bytes s)) as [neg s1].
  case_decide; [intros [= <-]; unfold two63; lia|].
  destruct s1 as [|a s1]; [done|].
  destruct (parse_groups (length (a :: s1)) 0 (a :: s1)) as [d0|e] eqn:E; [|done].
  apply parse_groups_bounds in E; [|unfold two63; lia].
  destruct neg; [intros [= <-]; unfold two63 in *; lia|].
  destruct (Z.gtb_spec d0 (two63 - 1)); [done|]. intros [= <-]. unfold two63 in *. lia.
Qed.

(** ** The wrappers of the kit *)

(** [config.ParseDurationOr] *)
Definition ParseDurationOr (s : string) (fallback : Duration) : Duration :=
  if decide (s = "") then fallback else
  match ParseDuration s with
  | (d, None) => d
  | (_, Some _) => fallback
  end.

(** [cache.durOrDefault] *)
Definition durOrDefault (s : string) (fallback : Duration) : Duration :=
  if decide (s = "") then fallback else
  match ParseDuration s with
  | (_, Some _) => fallback
  | (d, None) => d
  end.

(** [session.parseDurationOr]: a non-positive duration is refused as well. *)
Definition parseDurationOr (s : string) (fallback : Duration) : Duration :=
  let '(d, err) := ParseDuration s in
  if decide (err <> None \/ d <= 0) then fallback else d.

Lemma parseDurationOr_pos s fallback : 0 < fallback -> 0 < parseDurationOr s fallback.
Proof. unfold parseDurationOr. destruct (ParseDuration s). case_decide; [done|lia]. Qed.

(** An unset, unparsable or wrong-unit setting behaves as the fallback. *)
Lemma ParseDurationOr_int64 s fallback :
  - two63 <= fallback <= two63 - 1 -> - two63 <= ParseDurationOr s fallback <= two63 - 1.
Proof.
  intros Hf. unfold ParseDurationOr. case_decide; [done|].
  destruct (ParseDuration s) as [d [e|]] eqn:E; [done|]. by apply ParseDuration_int64 in E.
Qed.
