(* ===== verification/GoURL.v ===== *)
(** * Query strings and form bodies ([net/url] of the standard library).

    [QueryEscape], [PathEscape] and their inverses on bytes; [url.Values] as a
    map from keys to the list of their values, with [Get], [Set], [Add], [Encode]
    and [ParseQuery].  A parsed URL itself is the class [NetURL]: the code only
    reads and replaces its path and its raw query. *)

From stdpp Require Import sorting.
From S2P Require Import Prelude GoStrings GoText.

Definition percent : Ascii.ascii := Ascii.ascii_of_nat 37.
Definition plus : Ascii.ascii := Ascii.ascii_of_nat 43.
Definition amp : Ascii.ascii := Ascii.ascii_of_nat 38.
Definition semicolon : Ascii.ascii := Ascii.ascii_of_nat 59.
Definition equals_sign : Ascii.ascii := Ascii.ascii_of_nat 61.

(** ** Escaping *)

(** Letters, digits and [-_.~]. *)
Definition unreserved (a : Ascii.ascii) : bool :=
  let n := code a in
  ((48 <=? n) && (n <=? 57) || (65 <=? n) && (n <=? 90) || (97 <=? n) && (n <=? 122)
   || (n =? 45) || (n =? 95) || (n =? 46) || (n =? 126))%N.

(** In a path segment, also [$&+:=@]. *)
Definition unreserved_segment (a : Ascii.ascii) : bool :=
  let n := code a in
  (unreserved a || (n =? 36) || (n =? 38) || (n =? 43) || (n =? 58) || (n =? 61) || (n =? 64))%N.

Definition upper_hexdigit (n : N) : Ascii.ascii :=
  Ascii.ascii_of_N (if (n <? 10)%N then 48 + n else 55 + n)%N.

Definition percent_byte (a : Ascii.ascii) : bytes :=
  [percent; upper_hexdigit (code a / 16); upper_hexdigit (code a mod 16)]%N.

Definition query_byte (a : Ascii.ascii) : bytes :=
  if unreserved a then [a] else if Ascii.eqb space a then [plus] else percent_byte a.

Definition segment_byte (a : Ascii.ascii) : bytes :=
  if unreserved_segment a then [a] else percent_byte a.

Definition QueryEscape (s : string) : string := of_bytes (to_bytes s ≫= query_byte).
Definition PathEscape (s : string) : string := of_bytes (to_bytes s ≫= segment_byte).

Definition unhex (a : Ascii.ascii) : option N :=
  let n := code a in
  if ((48 <=? n) && (n <=? 57))%N then Some (n - 48)%N else
  if ((65 <=? n) && (n <=? 70))%N then Some (n - 55)%N else
  if ((97 <=? n) && (n <=? 102))%N then Some (n - 87)%N else None.

(** [plus_is_space] in a query, not in a path segment. *)
Fixpoint unescape_bytes (plus_is_space : bool) (l : bytes) : option bytes :=
  match l with
  | [] => Some []
  | a :: l1 =>
      if Ascii.eqb percent a then
        match l1 with
        | b :: c :: l2 =>
            match unhex b, unhex c with
            | Some x, Some y => cons (Ascii.ascii_of_N (x * 16 + y)) <$> unescape_bytes plus_is_space l2
            | _, _ => None
            end
        | _ => None
        end
      else cons (if plus_is_space && Ascii.eqb plus a then space else a)
             <$> unescape_bytes plus_is_space l1
  end.

(** The text of an [EscapeError] is not needed: both callers drop or wrap it. *)
Definition EscapeError : error := errForeign "net/url" "invalid URL escape".

Definition unescape (plus_is_space : bool) (s : string) : string + error :=
  match unescape_bytes plus_is_space (to_bytes s) with
  | Some l => inl (of_bytes l)
  | None => inr EscapeError
  end.

Definition QueryUnescape : string -> string + error := unescape true.
Definition PathUnescape : string -> string + error := unescape false.

(** ** url.Values *)

Notation Values := (gmap string (list string)).

Definition q_Get (key : string) (v : Values) : string :=
  match v !! key with Some (x :: _) => x | _ => "" end.
Definition q_Set (key value : string) (v : Values) : Values := <[key := [value]]> v.
Definition q_Add (key value : string) (v : Values) : Values :=
  <[key := default [] (v !! key) ++ [value]]> v.

(** [for k, vs := range extra { for _, v := range vs { q.Add(k, v) } }] *)
Definition add_values (vs : list (string * list string)) (q : Values) : Values :=
  foldl (fun q '(k, xs) => foldl (fun q x => q_Add k x q) q xs) q vs.

#[export] Instance string_le_dec : RelDecision (fun s t => Is_true (String.leb s t)).
Proof. intros s t. apply _. Defined.

Definition sorted_keys (v : Values) : list string :=
  merge_sort (fun s t => Is_true (String.leb s t)) (map_to_list v).*1.

Definition encode_pair (kx : string * string) : string :=
  QueryEscape kx.1 +:+ "=" +:+ QueryEscape kx.2.

Definition pairs_of (v : Values) (keys : list string) : list (string * string) :=
  keys ≫= fun k => (fun x => (k, x)) <$> default [] (v !! k).

Definition q_Encode (v : Values) : string :=
  Join (encode_pair <$> pairs_of v (sorted_keys v)) "&".

(** One piece of a query: nothing, an error, or a pair. *)
Definition parse_piece (piece : string) : option (string * string) :=
  if has_char semicolon piece then None else
  if decide (piece = "") then None else
  let '(key, value) := default (piece, "") (Cut equals_sign piece) in
  match QueryUnescape key, QueryUnescape value with
  | inl k, inl x => Some (k, x)
  | _, _ => None
  end.

(** What [ParseQuery] returns besides its error, which [URL.Query] drops. *)
Definition ParseQuery (query : string) : Values :=
  foldl (fun q piece => match parse_piece piece with Some (k, x) => q_Add k x q | None => q end)
    ∅ (Split amp query).

(** ** Parsed URLs *)

Class NetURL := {
  URL : Type;
  url_Parse : string -> URL + error;
  url_RawQuery : URL -> string;
  set_RawQuery : string -> URL -> URL;
  set_Path : string -> URL -> URL;
  url_String : URL -> string;
  url_EscapedPath : URL -> string;
}.

Definition url_Query `{NetURL} (u : URL) : Values := ParseQuery (url_RawQuery u).

(** What the code relies on of a parsed URL: the raw query is a field, which
    printing and parsing again preserves when it is an encoded one. *)
Class URLLaws `{NetURL} : Prop := {
  RawQuery_set q u : url_RawQuery (set_RawQuery q u) = q;
  RawQuery_printed v u : url_RawQuery u = q_Encode v ->
    exists u', url_Parse (url_String u) = inl u' /\ url_RawQuery u' = q_Encode v;
}.

(** ** Round trips *)

Lemma ascii_finite (P : Ascii.ascii -> bool) :
  forallb (fun n => P (Ascii.ascii_of_nat n)) (seq 0 256) = true -> forall a, P a = true.
Proof.
  intros H a. rewrite <- (Ascii.ascii_nat_embedding a). rewrite forallb_forall in H. apply H.
  apply in_seq. pose proof (Ascii.nat_ascii_bounded a). lia.
Qed.

Lemma unreserved_plain a :
  unreserved a = true -> Ascii.eqb percent a = false /\ Ascii.eqb plus a = false.
Proof.
  intros Hu.
  assert (implb (unreserved a) (negb (Ascii.eqb percent a) && negb (Ascii.eqb plus a)) = true) as H
    by (clear Hu; revert a; apply ascii_finite; vm_compute; reflexivity).
  rewrite Hu in H. by apply andb_prop in H as [?%negb_true_iff ?%negb_true_iff].
Qed.

Lemma unhex_upper a :
  match unhex (upper_hexdigit (code a / 16)), unhex (upper_hexdigit (code a mod 16)) with
  | Some x, Some y => Ascii.eqb (Ascii.ascii_of_N (x * 16 + y)) a
  | _, _ => false
  end%N = true.
Proof. revert a. apply ascii_finite. vm_compute. reflexivity. Qed.

(** What an escaped byte is read back as, in front of [l]. *)
Lemma unescape_query_byte a l :
  unescape_bytes true (query_byte a ++ l) = cons a <$> unescape_bytes true l.
Proof.
  unfold query_byte. destruct (unreserved a) eqn:Eu.
  - apply unreserved_plain in Eu as [H1 H2]. cbn [app unescape_bytes].
    by rewrite H1, H2, andb_false_r.
  - destruct (Ascii.eqb_spec space a) as [<-|_]; [done|].
    pose proof (unhex_upper a) as H. unfold percent_byte. cbn [app unescape_bytes].
    rewrite Ascii.eqb_refl.
    destruct (unhex (upper_hexdigit (code a / 16)%N)) as [x|]; [|done].
    destruct (unhex (upper_hexdigit (code a mod 16)%N)) as [y|]; [|done].
    by apply Ascii.eqb_eq in H as ->.
Qed.

Lemma unescape_query_app s l :
  unescape_bytes true ((s ≫= query_byte) ++ l) = app s <$> unescape_bytes true l.
Proof.
  induction s as [|a s IH]; [simpl; by destruct (unescape_bytes true l)|].
  rewrite bind_cons, <- app_assoc.
  rewrite unescape_query_byte, IH. by destruct (unescape_bytes true l).
Qed.

Lemma QueryUnescape_escape s : QueryUnescape (QueryEscape s) = inl s.
Proof.
  unfold QueryUnescape, unescape, QueryEscape. rewrite to_of_bytes.
  rewrite <- (app_nil_r (_ ≫= _)), unescape_query_app. simpl. by rewrite app_nil_r, of_to_bytes.
Qed.

Lemma escaped_lacks c s :
  forallb (fun n => negb (existsb (Ascii.eqb c) (query_byte (Ascii.ascii_of_nat n)))) (seq 0 256) = true ->
  has_char c (QueryEscape s) = false.
Proof.
  intros H. unfold QueryEscape. rewrite has_char_of_bytes.
  induction (to_bytes s) as [|a l IH]; [reflexivity|]. rewrite bind_cons, existsb_app, IH, orb_false_r.
  apply negb_true_iff, (ascii_finite (fun a => negb (existsb (Ascii.eqb c) (query_byte a))) H a).
Qed.

Lemma encode_pair_lacks c kx :
  forallb (fun n => negb (existsb (Ascii.eqb c) (query_byte (Ascii.ascii_of_nat n)))) (seq 0 256) = true ->
  Ascii.eqb c equals_sign = false -> has_char c (encode_pair kx) = false.
Proof.
  intros H Hc. unfold encode_pair. rewrite !has_char_app, !escaped_lacks by done.
  unfold has_char. change (to_bytes "=") with [equals_sign]. cbn [existsb]. by rewrite Hc.
Qed.

Lemma parse_encode_pair kx : parse_piece (encode_pair kx) = Some kx.
Proof.
  unfold parse_piece. rewrite encode_pair_lacks by (vm_compute; reflexivity).
  assert (Cut equals_sign (encode_pair kx) = Some (QueryEscape kx.1, QueryEscape kx.2)) as E.
  { unfold Cut, encode_pair.
    rewrite (proj2 (cut_bytes_Some equals_sign _ (to_bytes (QueryEscape kx.1)) (to_bytes (QueryEscape kx.2)))).
    - simpl. by rewrite !of_to_bytes.
    - split; [by rewrite !to_bytes_app|].
      apply (escaped_lacks equals_sign). vm_compute. reflexivity. }
  rewrite decide_False by (intros E0; by rewrite E0 in E). rewrite E. simpl.
  rewrite !QueryUnescape_escape. by destruct kx.
Qed.

Lemma q_Add_lookup k x q k' :
  q_Add k x q !! k' = if decide (k = k') then Some (default [] (q !! k) ++ [x]) else q !! k'.
Proof.
  unfold q_Add. case_decide as E; [subst; by rewrite lookup_insert_eq|by rewrite lookup_insert_ne].
Qed.

(** Adding pairs appends, for each key, its values in order. *)
Lemma add_pairs_lookup kxs q k :
  let xs := omap (fun '(k', x) => if decide (k' = k) then Some x else None) kxs in
  foldl (fun q '(k, x) => q_Add k x q) q kxs !! k
  = match xs with [] => q !! k | _ => Some (default [] (q !! k) ++ xs) end.
Proof.
  revert q. induction kxs as [|[k' x] kxs IH]; intros q; [done|]. cbn zeta in *. cbn [foldl].
  rewrite IH, q_Add_lookup. csimpl. destruct (decide (k' = k)) as [->|]; [|done].
  simpl. rewrite <- app_assoc. simpl. by destruct (omap _ kxs).
Qed.

Lemma values_of_key (v : Values) keys k :
  NoDup keys ->
  omap (fun '(k', x) => if decide (k' = k) then Some x else None) (pairs_of v keys)
  = if decide (k ∈ keys) then default [] (v !! k) else [].
Proof.
  unfold pairs_of. induction 1 as [|k0 keys Hk Hnd IH]; [by rewrite decide_False by set_solver|].
  rewrite bind_cons, omap_app, IH. destruct (decide (k0 = k)) as [->|Hne].
  - rewrite (decide_False (P := k ∈ keys)), app_nil_r, (decide_True (P := k ∈ k :: keys)) by set_solver.
    generalize (default [] (v !! k)). intros xs. induction xs as [|x xs IHx]; [done|]. csimpl.
    by rewrite decide_True, IHx.
  - assert (forall xs, omap (fun '(k', x) => if decide (k' = k) then Some x else None)
              ((fun x : string => (k0, x)) <$> xs) = []) as ->.
    { induction xs as [|x xs IHx]; [done|]. csimpl. by rewrite decide_False. }
    simpl. destruct (decide (k ∈ keys)); [rewrite decide_True by set_solver|rewrite decide_False by set_solver]; done.
Qed.

(** Encoding loses nothing but keys without values. *)
Lemma ParseQuery_Encode (v : Values) : (forall k, v !! k <> Some []) -> ParseQuery (q_Encode v) = v.
Proof.
  intros Hv. unfold ParseQuery, q_Encode.
  assert (NoDup (sorted_keys v)) as Hnd.
  { unfold sorted_keys. rewrite merge_sort_Permutation. apply NoDup_fst_map_to_list. }
  assert (forall k, k ∈ sorted_keys v <-> is_Some (v !! k)) as Hk.
  { intros k. unfold sorted_keys. rewrite merge_sort_Permutation, list_elem_of_fmap. split.
    - intros ([k' x] & -> & Hx%elem_of_map_to_list). by exists x.
    - intros [x Hx]. exists (k, x). split; [done|]. by apply elem_of_map_to_list. }
  set (kxs := pairs_of v (sorted_keys v)).
  assert (foldl (fun q piece => match parse_piece piece with Some (k, x) => q_Add k x q | None => q end)
            ∅ (encode_pair <$> kxs) = foldl (fun q '(k, x) => q_Add k x q) (∅ : Values) kxs) as E.
  { generalize (∅ : Values). induction kxs as [|kx l IH]; intros q; [done|]. csimpl.
    rewrite parse_encode_pair. destruct kx. apply IH. }
  assert (foldl (fun q '(k, x) => q_Add k x q) (∅ : Values) kxs = v) as Ev.
  { apply map_eq. intros k. rewrite add_pairs_lookup. subst kxs. cbn zeta.
    rewrite values_of_key by done. case_decide as Hin; rewrite Hk in Hin.
    - destruct Hin as [xs Hxs]. rewrite lookup_empty, Hxs. simpl. destruct xs; [|done]. by destruct (Hv k).
    - rewrite lookup_empty. symmetry. by apply eq_None_not_Some. }
  destruct kxs as [|kx l]; [rewrite <- Ev; reflexivity|].
  rewrite (Split_Join amp); [by rewrite E|done|].
  apply Forall_forall. intros p (y & -> & _)%list_elem_of_fmap. apply encode_pair_lacks; by vm_compute.
Qed.

Lemma q_Set_values k x (v : Values) : (forall k, v !! k <> Some []) -> forall k', q_Set k x v !! k' <> Some [].
Proof.
  intros Hv k'. unfold q_Set. destruct (decide (k = k')) as [->|].
  - by rewrite lookup_insert_eq.
  - rewrite lookup_insert_ne by done. apply Hv.
Qed.

Lemma q_Add_values k x (v : Values) : (forall k, v !! k <> Some []) -> forall k', q_Add k x v !! k' <> Some [].
Proof.
  intros Hv k'. rewrite q_Add_lookup. destruct (decide (k = k')); [|apply Hv].
  intros [= []%app_nil]. discriminate.
Qed.

(** What [add_values] leaves of the values there were: a prefix. *)
Lemma add_values_prefix vs q k xs :
  q !! k = Some xs -> exists ys, add_values vs q !! k = Some (xs ++ ys).
Proof.
  unfold add_values. revert q xs. induction vs as [|[k' zs] vs IH]; intros q xs Hq; [exists []; by rewrite app_nil_r|].
  cbn [foldl].
  assert (exists ys, foldl (fun q x => q_Add k' x q) q zs !! k = Some (xs ++ ys)) as [ys Hys].
  { revert q xs Hq. induction zs as [|z zs IHz]; intros q xs Hq; [exists []; by rewrite app_nil_r|].
    cbn [foldl]. destruct (decide (k' = k)) as [->|Hne].
    - edestruct (IHz (q_Add k z q)) as [ys Hys]; [by rewrite q_Add_lookup, decide_True, Hq|].
      exists ([z] ++ ys). by rewrite Hys, <- app_assoc.
    - apply IHz. by rewrite q_Add_lookup, decide_False. }
  destruct (IH _ _ Hys) as [zs' Hz]. exists (ys ++ zs'). by rewrite Hz, <- app_assoc.
Qed.

Lemma add_values_values vs q : (forall k, q !! k <> Some []) -> forall k, add_values vs q !! k <> Some [].
Proof.
  unfold add_values. revert q. induction vs as [|[k' zs] vs IH]; intros q Hq; [done|]. cbn [foldl].
  apply IH. clear IH. revert q Hq. induction zs as [|z zs IHz]; intros q Hq; [done|]. cbn [foldl].
  by apply IHz, q_Add_values.
Qed.

Lemma ParseQuery_values query k : ParseQuery query !! k <> Some [].
Proof.
  unfold ParseQuery. assert (forall k, (∅ : Values) !! k <> Some []) as H by done.
  revert k H. generalize (∅ : Values). induction (Split amp query) as [|p ps IH]; intros q k Hq; [apply Hq|].
  cbn [foldl]. apply IH. destruct (parse_piece p) as [[k' x]|]; [by apply q_Add_values|done].
Qed.

Lemma q_Get_Set k k' x q : q_Get k (q_Set k' x q) = if decide (k = k') then x else q_Get k q.
Proof.
  unfold q_Get, q_Set. case_decide as E; [subst; by rewrite lookup_insert_eq|by rewrite lookup_insert_ne].
Qed.

Lemma Get_first q k x xs : q !! k = Some (x :: xs) -> q_Get k q = x.
Proof. unfold q_Get. by intros ->. Qed.

Example escaped_query :
  q_Encode (q_Add "b" "x&y" (q_Set "a b" "1+1=2" (q_Set "b" "%" ∅))) = "a+b=1%2B1%3D2&b=%25&b=x%26y".
Proof. vm_compute. reflexivity. Qed.

(** A [net/url] whose URLs are a text without question mark, and a query. *)
Definition question : Ascii.ascii := Ascii.ascii_of_nat 63.

Definition query_url : NetURL := {|
  URL := string * string;
  url_Parse s := match Cut question s with Some u => inl u | None => inl (s, "") end;
  url_RawQuery u := u.2; set_RawQuery q u := (u.1, q); set_Path p u := (p, u.2);
  url_String u := of_bytes (filter (fun a => a <> question) (to_bytes u.1)) +:+ "?" +:+ u.2;
  url_EscapedPath u := u.1;
|}.

Lemma query_url_laws : URLLaws (H := query_url).
Proof.
  split; [done|]. intros v [p q] E. simpl in *. subst q.
  set (l := filter _ (to_bytes p)). exists (of_bytes l, q_Encode v). split; [|done].
  unfold Cut. rewrite (proj2 (cut_bytes_Some question _ l (to_bytes (q_Encode v)))).
  - simpl. by rewrite of_to_bytes.
  - split; [by rewrite !to_bytes_app, to_of_bytes|]. apply not_true_iff_false. rewrite existsb_exists.
    intros (a & Ha & <-%Ascii.eqb_eq). apply list_elem_of_In in Ha. subst l.
    by apply list_elem_of_filter in Ha as [? _].
Qed.
