(* ===== verification/GoJSON.v ===== *)
(** * JSON encodings.

    [encoding/json] at a Go type [T], as the generic code of [cache] and [db] uses
    it.  [json.Unmarshal] decodes into an existing value, which it may leave half
    changed when it fails.  Nothing is assumed of the encoding: decoding what was
    encoded need not give the same value (unexported fields, numbers in [any]). *)

From S2P Require Import Prelude.

Class JSON (T : Type) := {
  json_zero : T;
  json_Marshal : T -> string + error;
  json_Unmarshal : string -> T -> T * option error;
}.

(** A small instance: a string, marked so that no encoding is empty. *)
Definition string_json : JSON string := {|
  json_zero := "";
  json_Marshal s := inl ("=" +:+ s);
  json_Unmarshal b old :=
    match b with String _ s => (s, None) | EmptyString => (old, Some (errText "unexpected end")) end;
|}.
