(* ===== verification/Resource.v ===== *)
(** * Resource names, cache keys and action names
    ([resource/resource.go], [cache/key.go], [action/action.go]).

    A resource name is a colon-separated path.  [Build] drops empty parts and
    strips the colons around each remaining one; [cache.Key] is the same
    function on plain strings.  The theorems say when the parts can be read
    back from a name, hence when two names can collide. *)

From S2P Require Import Prelude GoStrings.

(** [resource.Name] is a string; its [String] method is the identity. *)
Notation Name := string.

Definition Name_String (n : Name) : string := n.

(** The loop of [Build]: keep the non-empty parts, trimmed of colons. *)
Fixpoint clean_parts (parts : list string) : list string :=
  match parts with
  | [] => []
  | p :: ps => if decide (p <> "") then Trim colon p :: clean_parts ps
               else clean_parts ps
  end.

Definition Build (parts : list string) : Name := Join (clean_parts parts) ":".

(** [cache.Key] *)
Definition Key (parts : list string) : string := Join (clean_parts parts) ":".

Definition Wildcard (domain kind : string) : Name := Build [domain; kind; "*"].
Definition AIHubSkill (id : string) : Name := Build ["aihub"; "skill"; id].
Definition AIHubSkillVersion (skillID version : string) : Name :=
  Build ["aihub"; "skill-version"; skillID; version].
Definition RuntimeSession (id : string) : Name := Build ["runtime"; "session"; id].
Definition SandboxInstance (id : string) : Name := Build ["sandbox"; "instance"; id].
Definition ModelDeployment (id : string) : Name := Build ["model"; "deployment"; id].

(** The declared action names. *)
Definition actions : list string :=
  ["create"; "read"; "update"; "delete"; "list";
   "skill.create"; "skill.read"; "skill.update"; "skill.delete"; "skill.publish";
   "skill.share"; "skill.upload"; "skill.download";
   "agent.run"; "runtime.session.create"; "runtime.session.delete";
   "sandbox.instance.create"; "sandbox.instance.delete"; "model.invoke"].

(** ** Reading a name back *)

(** A part that [Build] keeps as it is. *)
Definition plain (p : string) : Prop := p <> "" /\ has_char colon p = false.

#[export] Instance plain_dec p : Decision (plain p).
Proof. unfold plain. apply _. Defined.

Lemma clean_parts_plain parts : Forall plain parts -> clean_parts parts = parts.
Proof.
  induction 1 as [|p ps [Hne Hc] _ IH]; simpl; [done|].
  rewrite decide_True by done. by rewrite Trim_none, IH.
Qed.

Lemma plain_no_colon parts :
  Forall plain parts -> Forall (fun s => has_char colon s = false) parts.
Proof. intros H. apply (Forall_impl _ _ _ H). by intros p [_ Hp]. Qed.

Lemma Build_Split parts :
  parts <> [] -> Forall plain parts -> Split colon (Build parts) = parts.
Proof.
  intros Hne Hp. unfold Build. rewrite clean_parts_plain by done.
  apply Split_Join; [done|by apply plain_no_colon].
Qed.

Lemma Build_inj xs ys :
  xs <> [] -> ys <> [] -> Forall plain xs -> Forall plain ys ->
  Build xs = Build ys -> xs = ys.
Proof.
  intros. rewrite <- (Build_Split xs), <- (Build_Split ys) by done. by f_equal.
Qed.

#[export] Hint Resolve Build_inj : kit.

(** ** The builders never collide

    One constructor per builder of [resource.go]. *)
Inductive named : Type :=
  | NWildcard (domain kind : string)
  | NSkill (id : string)
  | NSkillVersion (skillID version : string)
  | NSession (id : string)
  | NInstance (id : string)
  | NDeployment (id : string).

Definition named_parts (r : named) : list string :=
  match r with
  | NWildcard d k => [d; k; "*"]
  | NSkill id => ["aihub"; "skill"; id]
  | NSkillVersion s v => ["aihub"; "skill-version"; s; v]
  | NSession id => ["runtime"; "session"; id]
  | NInstance id => ["sandbox"; "instance"; id]
  | NDeployment id => ["model"; "deployment"; id]
  end.

Definition named_Name (r : named) : Name :=
  match r with
  | NWildcard d k => Wildcard d k
  | NSkill id => AIHubSkill id
  | NSkillVersion s v => AIHubSkillVersion s v
  | NSession id => RuntimeSession id
  | NInstance id => SandboxInstance id
  | NDeployment id => ModelDeployment id
  end.

(** The identifiers are plain, and ["*"] is left to the wildcard. *)
Definition named_ok (r : named) : Prop :=
  Forall plain (named_parts r) /\
  match r with
  | NSkill id | NSession id | NInstance id | NDeployment id => id <> "*"
  | _ => True
  end.

#[export] Instance named_ok_dec r : Decision (named_ok r).
Proof. unfold named_ok. destruct r; apply _. Defined.

Lemma named_Name_parts r : named_Name r = Build (named_parts r).
Proof. by destruct r. Qed.

Lemma named_parts_inj r r' :
  named_ok r -> named_ok r' -> named_parts r = named_parts r' -> r = r'.
Proof. unfold named_ok. destruct r, r'; simpl; naive_solver. Qed.

(** C20: on plain identifiers the name builders are jointly injective: two
    resources that differ in kind or in any identifier have different names, so
    a policy on one never applies to the other by a clash of names. *)
Theorem named_Name_inj (r r' : named) :
  named_ok r -> named_ok r' -> r <> r' -> named_Name r <> named_Name r'.
Proof.
  intros [Hr Hr1] [Hr' Hr1'] Hne. rewrite !named_Name_parts. intros E. apply Hne.
  apply named_parts_inj; [done..|].
  apply Build_inj; [by destruct r|by destruct r'|done..].
Qed.

Lemma named_Name_inj_witness :
  AIHubSkillVersion "s1" "v1" <> Wildcard "aihub" "skill-version".
Proof.
  apply (named_Name_inj (NSkillVersion "s1" "v1") (NWildcard "aihub" "skill-version")).
  - apply (bool_decide_unpack _). vm_compute. exact I.
  - apply (bool_decide_unpack _). vm_compute. exact I.
  - discriminate.
Defined.

(** Without that restriction they are not: an identifier ["*"] is the wildcard,
    and a colon in an identifier moves it to another builder's names. *)
Example skill_star_is_wildcard : AIHubSkill "*" = Wildcard "aihub" "skill".
Proof. reflexivity. Qed.
Example parts_with_colon : Build ["aihub"; "skill"; "a:b"] = Build ["aihub"; "skill"; "a"; "b"].
Proof. reflexivity. Qed.
Example part_of_colons : Build ["aihub"; "::"; "x"] = "aihub::x".
Proof. reflexivity. Qed.
