(* ===== verification/Logger.v ===== *)
(** * Loggers ([logx/logx.go], [New]).

    A [*slog.Logger] is what it was built from: the format of its handler, the
    least level it prints, whether it prints source positions, and the arguments
    of the [With] calls on it.  What is printed is not modelled. *)

From S2P Require Import Prelude GoStrings.
Local Open Scope Z_scope.

Record logx_Config := mkLogConfig { log_Level : string; log_Format : string; log_AddSource : bool }.

(** [slog.Level] *)
Definition LevelDebug : Z := -4.
Definition LevelInfo : Z := 0.
Definition LevelWarn : Z := 4.
Definition LevelError : Z := 8.

Inductive log_format : Type := TextHandler | JSONHandler.

Record Logger := mkLogger {
  lg_format : log_format; lg_level : Z; lg_source : bool; lg_args : list any;
}.

(** [strings.ToLower], up to the characters whose lower case is not ASCII: the
    only others are the dotted capital I (C4 B0) and the Kelvin sign (E2 84 AA).
    It is compared with ASCII texts only. *)
Fixpoint lower_bytes (l : bytes) : bytes :=
  match l with
  | [] => []
  | a :: l1 =>
      match l1 with
      | b :: l2 =>
          if ((code a =? 196) && (code b =? 176))%N then Ascii.ascii_of_nat 105 :: lower_bytes l2 else
          match l2 with
          | c :: l3 =>
              if ((code a =? 226) && (code b =? 132) && (code c =? 170))%N
              then Ascii.ascii_of_nat 107 :: lower_bytes l3
              else lower_ascii a :: lower_bytes l1
          | [] => lower_ascii a :: lower_bytes l1
          end
      | [] => [lower_ascii a]
      end
  end.

Definition ToLower (s : string) : string := of_bytes (lower_bytes (to_bytes s)).

(** [logx.New] *)
Definition log_New (cfg : logx_Config) : Logger :=
  let name := ToLower (TrimSpace (log_Level cfg)) in
  let level := if decide (name = "debug") then LevelDebug else
               if decide (name = "warn" \/ name = "warning") then LevelWarn else
               if decide (name = "error") then LevelError else LevelInfo in
  mkLogger (if EqualFold (log_Format cfg) "text" then TextHandler else JSONHandler) level (log_AddSource cfg) [].

(** [Logger.With] *)
Definition log_With (l : Logger) (args : list any) : Logger :=
  mkLogger (lg_format l) (lg_level l) (lg_source l) (lg_args l ++ args).

Example dotted_level : lg_level (log_New (mkLogConfig " WARNİNG " "Text" false)) = LevelWarn.
Proof. vm_compute. reflexivity. Qed.
