(* ===== verification/Principal.v ===== *)
(** * Principals and the request context ([principal/principal.go]).

    A [*principal.Principal] is an [option Principal]: nothing in the kit writes
    through such a pointer after publishing it ([AuthenticateToken] completes the
    principal it has just received, before it installs it).

    A [context.Context] is the values the kit stores in it, one field per
    unexported key type, and its cancellation: the instant at which [Done] is
    closed and the error [Err] gives from then on.  The nil interface is [None]. *)

From S2P Require Import Prelude GoStrings GoTime Logger.

Definition SubjectUser := "user".
Definition SubjectService := "service".
Definition SubjectAPIKey := "api_key".
Definition SubjectAnon := "anonymous".

Record Principal := mkPrincipal {
  SubjectType : string;
  SubjectID : string;
  PName : string;
  DisplayName : string;
  Email : string;
  Avatar : string;
  POrgID : string;
  PProjectID : string;
  Roles : list string;
  Groups : list string;
  Token : string;
  TokenID : string;
  Claims : anymap;
  Attributes : strmap;
}.

(** The composite literal [Principal{SubjectType: t, SubjectID: i}]. *)
Definition principal_of (t i : string) : Principal :=
  mkPrincipal t i "" "" "" "" "" "" [] [] "" "" None None.

Definition IsZero (p : Principal) : Prop := SubjectID p = "" /\ SubjectType p = "".
#[export] Instance IsZero_dec p : Decision (IsZero p).
Proof. unfold IsZero. apply _. Defined.

Definition IsAuthenticated (p : Principal) : Prop :=
  SubjectID p <> "" /\ SubjectType p <> "" /\ SubjectType p <> SubjectAnon.
#[export] Instance IsAuthenticated_dec p : Decision (IsAuthenticated p).
Proof. unfold IsAuthenticated. apply _. Defined.

(** [Principal.Subject] *)
Definition Principal_Subject (p : Principal) : string :=
  if decide (SubjectType p = "") then SubjectID p else
  if decide (SubjectID p = "") then SubjectType p else
  SubjectType p +:+ ":" +:+ SubjectID p.

Definition Anonymous : option Principal := Some (principal_of SubjectAnon "anonymous").

Definition ErrMissingPrincipal : error :=
  errNew "principal.ErrMissingPrincipal" "principal missing from context".

(** ** Contexts *)

Record Context := mkContext {
  ctx_principal : option (option Principal);   (* Value(principal.contextKey{}) *)
  ctx_request_id : option string;              (* Value(logx.RequestIDKey{}) *)
  ctx_tx : option (option positive);           (* Value(db.txContextKey{}), a *gorm.DB *)
  ctx_done : option (Time * error);            (* when Done() closes, and Err() then *)
  ctx_logger : option (option Logger);         (* Value(logx.contextKey{}), a *slog.Logger *)
}.

Notation ctx := (option Context).

Definition Background : ctx := Some (mkContext None None None None None).

(** [context.WithValue] panics on a nil parent. *)
Definition WithValue {W} (c : ctx) (set : Context -> Context) : prog W ctx :=
  match c with
  | None => panic "cannot create context from nil parent"
  | Some c => mret (Some (set c))
  end.

Definition set_principal (p : option Principal) (c : Context) : Context :=
  mkContext (Some p) (ctx_request_id c) (ctx_tx c) (ctx_done c) (ctx_logger c).
Definition set_request_id (r : string) (c : Context) : Context :=
  mkContext (ctx_principal c) (Some r) (ctx_tx c) (ctx_done c) (ctx_logger c).
Definition set_tx (tx : option positive) (c : Context) : Context :=
  mkContext (ctx_principal c) (ctx_request_id c) (Some tx) (ctx_done c) (ctx_logger c).
Definition set_done (d : option (Time * error)) (c : Context) : Context :=
  mkContext (ctx_principal c) (ctx_request_id c) (ctx_tx c) d (ctx_logger c).
Definition set_logger (l : option Logger) (c : Context) : Context :=
  mkContext (ctx_principal c) (ctx_request_id c) (ctx_tx c) (ctx_done c) (Some l).

(** [context.WithoutCancel] *)
Definition WithoutCancel (c : ctx) : ctx := set_done None <$> c.

Definition DeadlineExceeded : error :=
  errForeign "context.DeadlineExceeded" "context deadline exceeded".
Definition Canceled : error := errForeign "context.Canceled" "context canceled".

(** [context.WithTimeout(ctx, d)] called at [now]: the earlier of the parent's
    end and the new deadline. *)
Definition WithTimeout (now : Time) (c : ctx) (d : Duration) : ctx :=
  (fun c => set_done
     (match ctx_done c with
      | Some (t, e) => if decide (t <= now + d)%Z then Some (t, e)
                       else Some ((now + d)%Z, DeadlineExceeded)
      | None => Some ((now + d)%Z, DeadlineExceeded)
      end) c) <$> c.

(** ** The package's context functions *)

(** [principal.NewContext] *)
Definition NewContext {W} (c : ctx) (p : option Principal) : prog W ctx :=
  WithValue c (set_principal p).

(** [principal.FromContext]: a stored nil pointer does not count. *)
Definition FromContext (c : ctx) : option Principal * bool :=
  match c with
  | None => (None, false)
  | Some c =>
      match ctx_principal c with
      | Some p => (p, bool_decide (p <> None))
      | None => (None, false)
      end
  end.

Definition RequireFromContext (c : ctx) : res (option Principal) :=
  let '(p, ok) := FromContext c in
  match p with
  | None => (None, Some ErrMissingPrincipal)
  | Some q => if decide (ok = false \/ IsZero q) then (None, Some ErrMissingPrincipal)
              else (p, None)
  end.

Definition MustFromContext {W} (c : ctx) : prog W (option Principal) :=
  match RequireFromContext c with
  | (_, Some err) => panic (Error err)
  | (p, None) => mret p
  end.

(** ** Facts *)

(** [RequireFromContext] yields either a non-zero principal and no error, or no
    principal and [ErrMissingPrincipal]: never both, never neither. *)
Lemma RequireFromContext_cases c :
  (exists p, RequireFromContext c = (Some p, None) /\ ~ IsZero p /\ FromContext c = (Some p, true))
  \/ RequireFromContext c = (None, Some ErrMissingPrincipal).
Proof.
  unfold RequireFromContext, FromContext.
  destruct c as [[[[p|]|] r t d lg]|]; simpl; auto. case_decide as Hz; [by auto|].
  left. exists p. naive_solver.
Qed.

Lemma RequireFromContext_set p c :
  ~ IsZero p -> RequireFromContext (Some (set_principal (Some p) c)) = (Some p, None).
Proof.
  intros Hz. unfold RequireFromContext. simpl. rewrite decide_False; [done|]. naive_solver.
Qed.

Lemma IsAuthenticated_not_zero p : IsAuthenticated p -> ~ IsZero p.
Proof. unfold IsAuthenticated, IsZero. naive_solver. Qed.

Lemma Principal_Subject_empty p : Principal_Subject p = "" <-> IsZero p.
Proof.
  unfold Principal_Subject, IsZero. repeat case_decide; [naive_solver..|].
  destruct (SubjectType p); naive_solver.
Qed.

Lemma Principal_Subject_parts p :
  SubjectType p <> "" -> SubjectID p <> "" ->
  Principal_Subject p = SubjectType p +:+ ":" +:+ SubjectID p.
Proof. intros. unfold Principal_Subject. by rewrite !decide_False. Qed.

Lemma app_colon_inj s t x y :
  has_char colon s = false -> has_char colon t = false ->
  s +:+ ":" +:+ x = t +:+ ":" +:+ y -> s = t /\ x = y.
Proof.
  intros Hs Ht E.
  assert (forall a b, has_char colon a = false ->
    cut_bytes colon (to_bytes (a +:+ ":" +:+ b)) = Some (to_bytes a, to_bytes b)) as H.
  { intros a b Ha. apply cut_bytes_Some. by rewrite !to_bytes_app. }
  pose proof (H s x Hs) as H1. rewrite E, (H t y Ht) in H1.
  injection H1 as H1 H2. split; symmetry; by apply to_bytes_inj.
Qed.

#[export] Hint Resolve IsAuthenticated_not_zero : kit.
