(* ===== verification/Logx.v ===== *)
(** * Loggers and request ids in the context ([logx/logx.go]).

    [slog.Default()] is a setting of the process, the argument [default]. *)

From S2P Require Import Prelude GoStrings Logger Principal.

Section logx.
Context {W : Type} (default : Logger).

(** [logx.FromContext]: a stored nil logger does not count. *)
Definition log_FromContext (c : ctx) : Logger :=
  match c with
  | None => default
  | Some c =>
      match ctx_logger c with
      | Some (Some l) => l
      | _ => default
      end
  end.

(** [logx.NewContext] *)
Definition log_NewContext (c : ctx) (logger : option Logger) : prog W ctx :=
  let logger := match logger with None => Some default | Some l => Some l end in
  WithValue c (set_logger logger).

(** [logx.With] *)
Definition log_ContextWith (c : ctx) (args : list any) : prog W ctx :=
  log_NewContext c (Some (log_With (log_FromContext c) args)).

Definition WithRequestID (c : ctx) (requestID : string) : prog W ctx :=
  if decide (requestID = "") then mret c else
  c ← WithValue c (set_request_id requestID);
  log_ContextWith c [any_string "request_id"; any_string requestID].

Definition RequestID (c : ctx) : string :=
  match c with
  | None => ""
  | Some c => match ctx_request_id c with Some v => v | None => "" end
  end.

Lemma log_NewContext_run c l (w : W) c' w' : log_NewContext c l w = (Ret c', w') -> w' = w.
Proof. unfold log_NewContext. destruct c; [|done]. by intros [= _ ->]. Qed.

(** C31: A request id that is attached is the one that is read, and every line logged
    with the new context carries it after what the old logger carried; the
    principal, the transaction and the deadline of the context stay.  The empty
    id leaves the context alone, even a nil one, where any other id panics. *)
Theorem WithRequestID_spec (c : ctx) (requestID : string) (w : W) :
  match WithRequestID c requestID w with
  | (Ret c', w') => w' = w /\
      (requestID = "" /\ c' = c \/
       exists k k', c = Some k /\ c' = Some k' /\ RequestID c' = requestID
         /\ log_FromContext c'
            = log_With (log_FromContext c) [any_string "request_id"; any_string requestID]
         /\ FromContext c' = FromContext c /\ ctx_tx k' = ctx_tx k /\ ctx_done k' = ctx_done k)
  | (Panic _, w') => c = None /\ requestID <> ""
  end.
Proof.
  unfold WithRequestID. case_decide as Hr; [run_prog; by auto|]. destruct c as [k|]; [|by simpl]. run_prog.
  split; [done|]. right. eexists k, _. by split_and!.
Qed.
End logx.
