(* ===== verification/Authn.v ===== *)
(** * Authentication of bearer tokens ([authn/authn.go]).

    [Authenticator] is the interface the providers implement; the theorems about
    [AuthenticateToken] hold for every implementation. *)

From S2P Require Import Prelude GoStrings GoTime Principal.

Definition authn_ErrNotConfigured : error := errNew "authn.ErrNotConfigured" "authenticator is nil".
Definition ErrTokenMissing : error := errNew "authn.ErrTokenMissing" "missing bearer token".
Definition ErrPrincipalEmpty : error :=
  errNew "authn.ErrPrincipalEmpty" "token produced empty principal".

(** The interface [authn.Authenticator]. *)
Record Authenticator (W : Type) := mkAuthenticator {
  Authenticate : ctx -> string -> prog W (res (option Principal));
}.
Arguments Authenticate {W} _ _ _.

(** [SplitN(header, " ", 2)] has two parts exactly when [Cut] finds the space. *)
Definition ExtractBearer (header : string) : string * bool :=
  let header := TrimSpace header in
  if decide (header = "") then ("", false) else
  match Cut space header with
  | Some (p0, p1) =>
      if decide (EqualFold p0 "Bearer" = true /\ TrimSpace p1 <> "")
      then (TrimSpace p1, true) else ("", false)
  | None => ("", false)
  end.

Definition set_Token (tok : string) (p : Principal) : Principal :=
  mkPrincipal (SubjectType p) (SubjectID p) (PName p) (DisplayName p) (Email p) (Avatar p)
    (POrgID p) (PProjectID p) (Roles p) (Groups p) tok (TokenID p) (Claims p) (Attributes p).

Definition AuthenticateToken {W} (c : ctx) (a : option (Authenticator W))
    (token : string) (allowAnonymous : bool) : prog W (ctx * option Principal * option error) :=
  match a with
  | None =>
      if allowAnonymous then
        c' ← NewContext c Anonymous; mret (c', Anonymous, None)
      else mret (c, None, Some authn_ErrNotConfigured)
  | Some a =>
      if decide (token = "") then
        if allowAnonymous then
          c' ← NewContext c Anonymous; mret (c', Anonymous, None)
        else mret (c, None, Some ErrTokenMissing)
      else
        '(p, err) ← Authenticate a c token;
        match err with
        | Some err => mret (c, None, Some err)
        | None =>
          match p with
          | None => mret (c, None, Some ErrPrincipalEmpty)
          | Some p =>
            if decide (IsZero p) then mret (c, None, Some ErrPrincipalEmpty) else
            let p := if decide (Token p = "") then set_Token token p else p in
            c' ← NewContext c (Some p);
            mret (c', Some p, None)
          end
        end
  end.

(** ** ExtractBearer *)

(** A canonical header is left alone by the trimming of the whole header. *)
Lemma TrimSpace_bearer t : TrimSpace t = t -> t <> "" -> TrimSpace ("Bearer " +:+ t) = "Bearer " +:+ t.
Proof. intros. by apply (TrimSpace_join "Bearer" space t). Qed.

(** [ExtractBearer] reads back the token of a well-formed
    [Authorization: Bearer <token>] header, for every token that has no white
    space around it, and on any header it accepts, the token it returns is
    non-empty and trimmed. *)
Theorem ExtractBearer_roundtrip (t header tok : string) :
  (TrimSpace t = t -> t <> "" -> ExtractBearer ("Bearer " +:+ t) = (t, true))
  /\ (ExtractBearer header = (tok, true) -> tok <> "" /\ TrimSpace tok = tok)
  /\ (ExtractBearer header = (tok, false) -> tok = "").
Proof.
  split_and!.
  - intros Ht Hne. unfold ExtractBearer. rewrite TrimSpace_bearer by done.
    rewrite decide_False by done.
    assert (Cut space ("Bearer " +:+ t) = Some ("Bearer", t)) as ->.
    { unfold Cut. replace (cut_bytes space (to_bytes ("Bearer " +:+ t)))
        with (Some (to_bytes "Bearer", to_bytes t)).
      - simpl. by rewrite of_to_bytes.
      - symmetry. apply cut_bytes_Some. done. }
    rewrite Ht, decide_True by done. done.
  - unfold ExtractBearer. branches. intros [= <-]. destruct_and!. split; [done|apply TrimSpace_idemp].
  - unfold ExtractBearer. branches; naive_solver.
Qed.

(** ** AuthenticateToken *)

Lemma NewContext_Ret {W} c p (w : W) c' w' :
  NewContext c p w = (Ret c', w') ->
  w' = w /\ exists c0, c = Some c0 /\ c' = Some (set_principal p c0).
Proof. unfold NewContext, WithValue. destruct c; [|done]. intros [= <- <-]. eauto. Qed.

(** What installing a non-zero principal in a context gives. *)
Lemma NewContext_Require {W} c p (w : W) c' w' :
  ~ IsZero p -> NewContext c (Some p) w = (Ret c', w') -> RequireFromContext c' = (Some p, None).
Proof.
  intros Hz H. apply NewContext_Ret in H as (_ & c0 & _ & ->). by apply RequireFromContext_set.
Qed.

Lemma anonymous_not_zero : ~ IsZero (principal_of SubjectAnon "anonymous").
Proof. by intros [? ?]. Qed.

Lemma anonymous_result {W} c (w : W) c' p err w' :
  (c' ← NewContext c Anonymous; mret (c', Anonymous, None : option error)) w = (Ret (c', p, err), w') ->
  err = None /\ p = Anonymous /\ w' = w /\ RequireFromContext c' = (Anonymous, None).
Proof.
  intros H. apply bind_Ret_inv in H as (c1 & w1 & H1 & [= -> <- <- ->]).
  pose proof (NewContext_Require _ _ _ _ _ anonymous_not_zero H1).
  apply NewContext_Ret in H1 as [-> _]. done.
Qed.

(** How a principal was obtained: the anonymous one, which needs the permission
    and either no authenticator or no token; or the authenticator's, completed
    with the token it was given. *)
Definition authenticated_by {W} (c : ctx) (a : option (Authenticator W)) (token : string)
    (anon : bool) (w w' : W) (q : Principal) : Prop :=
  (anon = true /\ (a = None \/ token = "") /\ Some q = Anonymous /\ w' = w) \/
  (exists a' q0, a = Some a' /\ token <> "" /\
    Authenticate a' c token w = (Ret (Some q0, None), w') /\
    q = set_Token (if decide (Token q0 = "") then token else Token q0) q0).

(** [AuthenticateToken] either fails, and then returns the caller's context
    and no principal, or returns a non-zero principal that it has installed in
    the returned context; and the principal is the anonymous one only when the
    caller allowed it and there was no authenticator or no token. *)
Theorem AuthenticateToken_sound {W} (c : ctx) (a : option (Authenticator W)) (token : string)
    (anon : bool) (w w' : W) c' p err :
  AuthenticateToken c a token anon w = (Ret (c', p, err), w') ->
  match err with
  | Some _ => c' = c /\ p = None
  | None => exists q, p = Some q /\ ~ IsZero q /\ RequireFromContext c' = (Some q, None)
                      /\ authenticated_by c a token anon w w' q
  end.
Proof.
  pose proof anonymous_not_zero as Hanon.
  unfold AuthenticateToken, authenticated_by. destruct a as [a|].
  - case_decide as Htok.
    + destruct anon; [|by intros [= <- <- <- <-]].
      intros (-> & -> & -> & ?)%anonymous_result. eexists. naive_solver.
    + intros ([p1 err1] & w1 & HA & H)%bind_Ret_inv.
      destruct err1 as [e|]; [by injection H as <- <- <- <-|].
      destruct p1 as [q0|]; [|by injection H as <- <- <- <-].
      case_decide as Hz; [by injection H as <- <- <- <-|].
      apply bind_Ret_inv in H as (c1 & w2 & HN & [= -> <- <- ->]).
      pose proof (NewContext_Ret _ _ _ _ _ HN) as [-> _].
      eexists. split; [done|]. split; [by case_decide|].
      split; [eapply NewContext_Require; [|done]; by case_decide|].
      right. exists a, q0. split_and!; [done..|]. case_decide; [done|]. by destruct q0.
  - destruct anon; [|by intros [= <- <- <- <-]].
    intros (-> & -> & -> & ?)%anonymous_result. eexists. naive_solver.
Qed.

Definition demo_authenticator : Authenticator unit :=
  mkAuthenticator unit (fun _ tok => mret (Some (principal_of SubjectUser ("u-" +:+ tok)), None)).

Lemma AuthenticateToken_sound_witness :
  exists q, Some (set_Token "t" (principal_of SubjectUser "u-t")) = Some q /\ ~ IsZero q /\
    RequireFromContext (set_principal (Some (set_Token "t" (principal_of SubjectUser "u-t"))) <$> Background)
      = (Some q, None) /\
    authenticated_by Background (Some demo_authenticator) "t" false tt tt q.
Proof.
  apply (AuthenticateToken_sound Background (Some demo_authenticator) "t" false tt tt _ _ None).
  vm_compute. reflexivity.
Defined.
