(* ===== verification/Env.v ===== *)
(** * The world the kit runs in, and its metrics ([metrics/metrics.go]).

    [World S] is the state an operation acts on: the state [S] of the remote
    service, the wall clock, and what the run does not determine, given as
    streams an adversary chooses: the latency of every call and clock reading,
    and the choice of a [select] with two ready cases.  [w_late] holds the
    effects of goroutines that were abandoned while their call was in flight;
    they may reach the service at any later time ([lands]).  [w_obs] is the
    list of the samples given to Prometheus. *)

From S2P Require Import Prelude GoStrings GoTime Principal.
Local Open Scope Z_scope.

Inductive sample : Type :=
  | DependencyDuration (dependency operation : string) (d : Duration)
  | DependencyErrors (dependency operation : string)
  | Requests (operation : string) (code : Z)
  | RequestDuration (operation : string) (d : Duration).

Record World (S : Type) := mkWorld {
  w_svc : S;
  w_now : Time;
  w_lat : list N;
  w_coin : list bool;
  w_late : list (S -> S);
  w_obs : list sample;
}.
Arguments mkWorld {S}. Arguments w_svc {S}. Arguments w_now {S}. Arguments w_lat {S}.
Arguments w_coin {S}. Arguments w_late {S}. Arguments w_obs {S}.

Section world.
Context {S : Type}.
Implicit Types (w : World S) (c : Context).

Definition set_svc (s : S) w : World S :=
  mkWorld s (w_now w) (w_lat w) (w_coin w) (w_late w) (w_obs w).

(** The clock never runs backwards. *)
Definition advance_to (t : Time) : prog (World S) unit := modify (fun w =>
  mkWorld (w_svc w) (Z.max (w_now w) t) (w_lat w) (w_coin w) (w_late w) (w_obs w)).

(** The next latency, in nanoseconds. *)
Definition next_latency : prog (World S) Duration := fun w =>
  match w_lat w with
  | [] => (Ret 0, w)
  | l :: ls => (Ret (Z.of_N l),
      mkWorld (w_svc w) (w_now w) ls (w_coin w) (w_late w) (w_obs w))
  end.

(** The next choice of a [select]. *)
Definition next_coin : prog (World S) bool := fun w =>
  match w_coin w with
  | [] => (Ret false, w)
  | b :: bs => (Ret b, mkWorld (w_svc w) (w_now w) (w_lat w) bs (w_late w) (w_obs w))
  end.

Definition observe (x : sample) : prog (World S) unit := modify (fun w =>
  mkWorld (w_svc w) (w_now w) (w_lat w) (w_coin w) (w_late w) (w_obs w ++ [x])).

Definition abandon (f : S -> S) : prog (World S) unit := modify (fun w =>
  mkWorld (w_svc w) (w_now w) (w_lat w) (w_coin w) (w_late w ++ [f]) (w_obs w)).

Definition time_Now : prog (World S) Time :=
  l ← next_latency; now ← gets w_now; _ ← advance_to (now + l); gets w_now.

Definition time_Since (started : Time) : prog (World S) Duration :=
  now ← time_Now; mret (Sub now started).

(** [select { case <-ctx.Done(): ...; default: }] *)
Definition poll (c : Context) : prog (World S) (option error) :=
  now ← gets w_now;
  mret match ctx_done c with
       | Some (t, e) => if decide (t <= now) then Some e else None
       | None => None
       end.

(** [select] between an event that comes at [finish] and [ctx.Done()]: the
    context's case can only be taken if the context ends by then, and which
    one is taken is then open. *)
Definition select_done (c : Context) (finish : Time) : prog (World S) (option error) :=
  match ctx_done c with
  | Some (t, e) =>
      if decide (t <= finish) then
        b ← next_coin;
        if b : bool then _ ← advance_to t; mret (Some e)
        else _ ← advance_to finish; mret None
      else _ ← advance_to finish; mret None
  | None => _ ← advance_to finish; mret None
  end.

(** An abandoned call reaching the service. *)
Inductive lands : World S -> World S -> Prop :=
  | lands_one f l1 l2 w :
      w_late w = l1 ++ f :: l2 ->
      lands w (mkWorld (f (w_svc w)) (w_now w) (w_lat w) (w_coin w) (l1 ++ l2) (w_obs w)).

(** ** Metrics *)

(** Which vectors of [metrics.Metrics] are set. *)
Record Metrics := mkMetrics {
  m_Requests : bool; m_Duration : bool; m_DependencyDuration : bool; m_DependencyErrors : bool;
}.

Definition when (b : bool) (m : prog (World S) unit) : prog (World S) unit :=
  if b then m else mret tt.

Definition or_unknown (s : string) : string := if decide (s = "") then "unknown" else s.

Definition Observe (m : option Metrics) (operation : string) (code : Z) (started : Time)
    : prog (World S) unit :=
  match m with
  | None => mret tt
  | Some m =>
      let operation := or_unknown operation in
      _ ← when (m_Requests m) (observe (Requests operation code));
      when (m_Duration m) (d ← time_Since started; observe (RequestDuration operation d))
  end.

Definition ObserveDependency (m : option Metrics) (dependency operation : string)
    (started : Time) (err : option error) : prog (World S) unit :=
  match m with
  | None => mret tt
  | Some m =>
      let dependency := or_unknown dependency in
      let operation := or_unknown operation in
      _ ← when (m_DependencyDuration m)
            (d ← time_Since started; observe (DependencyDuration dependency operation d));
      when (bool_decide (err <> None) && m_DependencyErrors m)
        (observe (DependencyErrors dependency operation))
  end.

(** ** Steps that leave the service alone *)

(** [w'] differs from [w] in its streams and a later clock only. *)
Definition quiet w w' : Prop :=
  w_svc w' = w_svc w /\ w_late w' = w_late w /\ w_now w <= w_now w'.

#[export] Instance quiet_preorder : PreOrder quiet.
Proof.
  unfold quiet. split; [intros x; split_and!; (done || lia)|].
  intros x y z (? & ? & ?) (? & ? & ?); split_and!; (congruence || lia).
Qed.

(** [m] returns a value satisfying [Q], moving only the clock and streams. *)
Definition quietly {A} (m : prog (World S) A) (Q : A -> World S -> Prop) w : Prop :=
  exists a w', m w = (Ret a, w') /\ quiet w w' /\ Q a w'.

Lemma advance_to_quiet t w :
  exists w', advance_to t w = (Ret tt, w') /\ quiet w w' /\ w_now w' = Z.max (w_now w) t
             /\ w_obs w' = w_obs w.
Proof. eexists. split; [reflexivity|]. unfold quiet. simpl. split_and!; (done || lia). Qed.

Lemma next_latency_quiet w :
  exists l w', next_latency w = (Ret l, w') /\ quiet w w' /\ 0 <= l /\ w_now w' = w_now w
               /\ w_obs w' = w_obs w.
Proof.
  unfold next_latency, quiet. destruct (w_lat w) as [|l ls]; eexists _, _;
    (split; [reflexivity|]); simpl; split_and!; (done || lia).
Qed.

Lemma next_coin_quiet w :
  exists b w', next_coin w = (Ret b, w') /\ quiet w w' /\ w_now w' = w_now w
               /\ w_obs w' = w_obs w.
Proof.
  unfold next_coin, quiet. destruct (w_coin w) as [|b bs]; eexists _, _;
    (split; [reflexivity|]); simpl; split_and!; (done || lia).
Qed.

Lemma time_Now_quiet w :
  exists t w', time_Now w = (Ret t, w') /\ quiet w w' /\ t = w_now w' /\ w_obs w' = w_obs w.
Proof.
  unfold time_Now. destruct (next_latency_quiet w) as (l & w1 & E & Hq & Hl & Hn & Ho).
  run_prog. rewrite E. eexists _, _. split; [reflexivity|].
  destruct Hq as (? & ? & ?). unfold quiet. simpl. split_and!; (done || lia).
Qed.

Lemma poll_quiet c w :
  exists r, poll c w = (Ret r, w) /\
    (r = None \/ exists t e, r = Some e /\ ctx_done c = Some (t, e) /\ t <= w_now w).
Proof.
  unfold poll. run_prog. eexists. split; [reflexivity|].
  destruct (ctx_done c) as [[t e]|]; [|by left]. case_decide; naive_solver.
Qed.

Lemma select_done_quiet c finish w :
  exists r w', select_done c finish w = (Ret r, w') /\ quiet w w' /\ w_obs w' = w_obs w /\
    ((r = None /\ finish <= w_now w') \/
     exists t e, r = Some e /\ ctx_done c = Some (t, e) /\ t <= finish /\ t <= w_now w').
Proof.
  unfold select_done.
  destruct (ctx_done c) as [[t e]|]; [case_decide|].
  - destruct (next_coin_quiet w) as (b & w1 & E & Hq & Hn & Ho). run_prog. rewrite E.
    destruct b; run_prog; eexists _, _; (split; [reflexivity|]);
      destruct Hq as (? & ? & ?); unfold quiet; simpl; split_and!; try (done || lia).
    + right. eexists _, _. split_and!; (done || lia).
    + left. split; [done|lia].
  - run_prog. eexists _, _. split; [reflexivity|]. unfold quiet. simpl.
    split_and!; try (done || lia). left. split; [done|lia].
  - run_prog. eexists _, _. split; [reflexivity|]. unfold quiet. simpl.
    split_and!; try (done || lia). left. split; [done|lia].
Qed.

(** An observation changes neither the service nor the pending effects. *)
Lemma ObserveDependency_quiet m dep op started err w :
  exists w', ObserveDependency m dep op started err w = (Ret tt, w') /\ quiet w w'.
Proof.
  unfold ObserveDependency. destruct m as [m|]; [|eexists; split; [reflexivity|reflexivity]].
  run_prog. unfold when. destruct (m_DependencyDuration m).
  - unfold time_Since. run_prog.
    destruct (time_Now_quiet w) as (t & w1 & E & Hq & _ & _). rewrite E.
    destruct (_ && _); run_prog; eexists; (split; [reflexivity|]);
      destruct Hq as (? & ? & ?); unfold quiet; simpl; split_and!; done.
  - destruct (_ && _); run_prog; eexists; (split; [reflexivity|]);
      unfold quiet; simpl; split_and!; done.
Qed.

Lemma time_Since_quiet started w :
  exists d w', time_Since started w = (Ret d, w') /\ quiet w w' /\ w_obs w' = w_obs w.
Proof.
  unfold time_Since. run_prog. destruct (time_Now_quiet w) as (t & w1 & E & Hq & _ & Ho).
  rewrite E. eexists _, _. split; [reflexivity|]. done.
Qed.
End world.
