(* ===== verification/Retry.v ===== *)
(** * Retries and cancellable calls ([retry/retry.go], and [callWithContext] of
    [casdoor/adapter.go]).

    A closure [func() error] that assigns captured variables is a function
    from the values [V] of those variables to a program returning their new
    values and the error. *)

From S2P Require Import Prelude GoStrings GoTime Principal Env.
Local Open Scope Z_scope.

(** ** Policies *)

Record Config := mkConfig { cfg_Attempts : Z; cfg_Backoff : string }.

Record Policy := mkPolicy { Attempts : Z; Backoff : Duration }.

Definition NewPolicy (cfg : Config) : Policy :=
  let p := mkPolicy 1 (100 * Millisecond) in
  let p := if decide (cfg_Attempts cfg > 0) then mkPolicy (cfg_Attempts cfg) (Backoff p) else p in
  if decide (cfg_Backoff cfg <> "") then
    let '(d, err) := ParseDuration (cfg_Backoff cfg) in
    if decide (err = None /\ d > 0) then mkPolicy (Attempts p) d else p
  else p.

(** [strconv.Atoi]: [None] is its error. *)
Fixpoint atoi_digits (x : Z) (s : bytes) : option Z :=
  match s with
  | [] => Some x
  | a :: s' => if is_digit a then atoi_digits (x * 10 + digit a) s' else None
  end.

Definition Atoi (s : string) : option Z :=
  let '(neg, ds) := parse_sign (to_bytes s) in
  match ds with
  | [] => None
  | _ =>
    match atoi_digits 0 ds with
    | Some n => let z := if neg : bool then - n else n in
                if decide (- two63 <= z <= two63 - 1) then Some z else None
    | None => None
    end
  end.

Definition NewPolicyFromStrings (attempts backoff : string) : Policy :=
  let n := if decide (attempts <> "") then
             match Atoi attempts with Some n => n | None => 0 end
           else 0 in
  NewPolicy (mkConfig n backoff).

(** A policy built by the constructors always makes at least one attempt and
    always pauses for a positive time, whatever the configuration says. *)
Theorem NewPolicy_valid (cfg : Config) (attempts backoff : string) :
  (1 <= Attempts (NewPolicy cfg) /\ 0 < Backoff (NewPolicy cfg)) /\
  (1 <= Attempts (NewPolicyFromStrings attempts backoff)
   /\ 0 < Backoff (NewPolicyFromStrings attempts backoff)).
Proof.
  assert (forall c, 1 <= Attempts (NewPolicy c) /\ 0 < Backoff (NewPolicy c)) as H.
  { intros c. unfold NewPolicy, Millisecond.
    destruct (ParseDuration (cfg_Backoff c)) as [d err].
    repeat case_decide; simpl; lia. }
  split; apply H.
Qed.

Section retry.
Context {S : Type}.
Implicit Types (w : World S).

(** ** Do *)

Section do.
Context {V : Type} (c : ctx) (p : Policy) (fn : V -> prog (World S) (V * option error)).

Definition ctx_check : prog (World S) (option error) :=
  match c with None => mret None | Some c => poll c end.

(** The pause between two attempts; [ctx.Done()] on a nil context panics. *)
Definition pause : prog (World S) (option error) :=
  match c with
  | None => panic "invalid memory address or nil pointer dereference"
  | Some c => now ← gets w_now; select_done c (now + Backoff p)
  end.

(** The loop, with [rem] iterations left; [err] is the last error. *)
Fixpoint attempts_loop (rem : nat) (v : V) (err : option error)
    : prog (World S) (V * option error) :=
  match rem with
  | O => mret (v, err)
  | Datatypes.S rem' =>
      done ← ctx_check;
      match done with
      | Some e => mret (v, Some e)
      | None =>
          '(v', err') ← fn v;
          match err' with
          | None => mret (v', None)
          | Some _ =>
              if decide (rem' = O \/ Backoff p <= 0) then attempts_loop rem' v' err'
              else
                r ← pause;
                match r with
                | Some e => mret (v', Some e)
                | None => attempts_loop rem' v' err'
                end
          end
      end
  end.

(** [p.Attempts <= 0] counts as one attempt. *)
Definition max_attempts : nat :=
  Z.to_nat (if decide (Attempts p <= 0) then 1 else Attempts p).

Definition Do (v : V) : prog (World S) (V * option error) :=
  attempts_loop max_attempts v None.

(** ** What [Do] computes *)

(** [n] attempts in a row that failed, each after a quiet stretch; [e] is the
    error of the last one. *)
Inductive failed_attempts : nat -> V -> World S -> option error -> V -> World S -> Prop :=
  | failed_O v w : failed_attempts O v w None v w
  | failed_S n v w e v1 w1 w1' v2 w2 e2 :
      failed_attempts n v w e v1 w1 -> quiet w1 w1' ->
      fn v1 w1' = (Ret (v2, Some e2), w2) ->
      failed_attempts (Datatypes.S n) v w (Some e2) v2 w2.

(** How a call of [Do] that returned went. *)
Inductive do_result (N : nat) (v : V) (w : World S)
    : V -> option error -> World S -> Prop :=
  | do_success n e v1 w1 w1' v2 w2 :
      failed_attempts n v w e v1 w1 -> (n < N)%nat -> quiet w1 w1' ->
      fn v1 w1' = (Ret (v2, None), w2) ->
      do_result N v w v2 None w2
  | do_exhausted e v1 w1 w2 :
      failed_attempts N v w e v1 w1 -> quiet w1 w2 ->
      do_result N v w v1 e w2
  | do_cancelled n e c0 t e' v1 w1 w2 :
      failed_attempts n v w e v1 w1 -> (n <= N)%nat -> quiet w1 w2 ->
      c = Some c0 -> ctx_done c0 = Some (t, e') -> t <= w_now w2 ->
      do_result N v w v1 (Some e') w2.

Lemma ctx_check_cases w :
  exists r, ctx_check w = (Ret r, w) /\
    (r = None \/ exists c0 t e, c = Some c0 /\ r = Some e
                   /\ ctx_done c0 = Some (t, e) /\ t <= w_now w).
Proof.
  unfold ctx_check. destruct c as [c0|].
  - destruct (poll_quiet c0 w) as (r & E & [->|(t & e & -> & ? & ?)]); rewrite E; eauto 10.
  - run_prog. eauto.
Qed.

Lemma pause_cases w r w' :
  pause w = (Ret r, w') -> quiet w w' /\
    (r = None \/ exists c0 t e, c = Some c0 /\ r = Some e
                   /\ ctx_done c0 = Some (t, e) /\ t <= w_now w').
Proof.
  unfold pause. destruct c as [c0|]; [|done]. run_prog.
  destruct (select_done_quiet c0 (w_now w + Backoff p) w) as (r0 & w0 & E & Hq & _ & H).
  rewrite E. intros [= <- <-]. split; [done|].
  destruct H as [[-> _]|(t & e & -> & ? & ? & ?)]; eauto 10.
Qed.

Lemma attempts_loop_result rem n v0 w0 err v w w1 v' err' w' :
  failed_attempts n v0 w0 err v w1 -> quiet w1 w ->
  attempts_loop rem v err w = (Ret (v', err'), w') ->
  do_result (n + rem) v0 w0 v' err' w'.
Proof.
  revert n v err w w1. induction rem as [|rem IH]; intros n v err w w1 Hf Hq; simpl.
  - intros [= <- <- <-]. rewrite Nat.add_0_r. by eapply do_exhausted.
  - run_prog. destruct (ctx_check_cases w) as (r & -> & [->|(c0 & t & e & ? & -> & ? & ?)]).
    2: { intros [= <- <- <-]. eapply do_cancelled; eauto; lia. }
    run_prog. destruct (fn v w) as [[[v1 err1]|s] w2] eqn:Efn; [|done].
    destruct err1 as [e1|].
    2: { intros [= <- <- <-]. eapply do_success; eauto; lia. }
    assert (failed_attempts (Datatypes.S n) v0 w0 (Some e1) v1 w2) as Hf'
      by (econstructor; eauto).
    replace (n + Datatypes.S rem)%nat with (Datatypes.S n + rem)%nat by lia.
    case_decide; [by apply (IH _ _ _ _ _ Hf' (reflexivity _))|].
    run_prog. destruct (pause w2) as [[r|s] w3] eqn:Ep; [|done].
    apply pause_cases in Ep as [Hq3 [->|(c0 & t & e & ? & -> & ? & ?)]].
    + by apply (IH _ _ _ _ _ Hf' Hq3).
    + intros [= <- <- <-]. eapply do_cancelled; eauto; lia.
Qed.

Lemma Do_result (v : V) w v' err w' :
  Do v w = (Ret (v', err), w') -> do_result max_attempts v w v' err w'.
Proof.
  unfold Do. intros H.
  apply (attempts_loop_result _ 0 v w None v w w); [constructor|reflexivity|done].
Qed.

(** C8: a call of [retry.Do] that returns made at most [max(1, Attempts)]
    attempts, in order, all failed but possibly the last: it returns nil
    exactly when an attempt succeeded, which is then the last one made;
    otherwise it returns the error of the last attempt when all of them were
    made, or the context's own error, and only if the context has ended. *)
Theorem Do_spec (v : V) w v' err w' :
  Do v w = (Ret (v', err), w') -> do_result max_attempts v w v' err w'.
Proof. apply Do_result. Qed.

(** A Hoare rule for clients: [I] is kept by every failed attempt and by
    quiet steps, [Q] is established by a successful one. *)
Lemma Do_rule (I : World S -> Prop) (Q : V -> World S -> Prop) v w v' err w' :
  (forall w1 w2, quiet w1 w2 -> I w1 -> I w2) ->
  (forall v1 w1 v2 e w2, I w1 -> fn v1 w1 = (Ret (v2, Some e), w2) -> I w2) ->
  (forall v1 w1 v2 w2, I w1 -> fn v1 w1 = (Ret (v2, None), w2) -> Q v2 w2) ->
  I w -> Do v w = (Ret (v', err), w') ->
  match err with None => Q v' w' | Some _ => I w' end.
Proof.
  intros Hquiet Hfail Hok HI H.
  assert (forall n v0 e v1 w1, failed_attempts n v0 w e v1 w1 -> I w1) as Hfs.
  { intros n v0 e v1 w1 Hf. induction Hf; eauto. }
  assert (0 < max_attempts)%nat as HN by (unfold max_attempts; case_decide; lia).
  destruct (Do_result v w v' err w' H) as [n e v1 w1 w1' v2 w2 Hf Hn Hq Hfn|e v1 w1 w2 Hf Hq|].
  - eapply Hok; [|done]. eapply Hquiet; [done|]. by eapply Hfs.
  - destruct e as [e|]; [eapply Hquiet; [done|]; by eapply Hfs|].
    inversion Hf; subst; lia.
  - eapply Hquiet; [done|]. by eapply Hfs.
Qed.

(** [Do] returns when the closure always returns, unless it pauses with a
    nil context. *)
Lemma attempts_loop_returns rem v err w :
  (forall v1 w1, exists r w2, fn v1 w1 = (Ret r, w2)) ->
  (c <> None \/ Backoff p <= 0 \/ (rem <= 1)%nat) ->
  exists r w', attempts_loop rem v err w = (Ret r, w').
Proof.
  intros Hfn Hc. revert v err w Hc. induction rem as [|rem IH]; intros v err w Hc; simpl; [eauto|].
  run_prog. destruct (ctx_check_cases w) as (r & -> & [->|(? & ? & ? & ? & -> & ?)]);
    [run_prog|run_prog; eauto].
  destruct (Hfn v w) as ([v1 err1] & w2 & ->). destruct err1 as [e1|]; [|run_prog; eauto].
  case_decide as Hd; [apply IH; destruct Hc as [?|[?|?]]; [auto|auto|right; right; lia]|].
  run_prog. destruct c as [c0|] eqn:Ec; [|exfalso; apply Hd; destruct Hc as [?|[?|?]]; [done|auto|left; lia]].
  unfold pause. rewrite Ec. run_prog.
  destruct (select_done_quiet c0 (w_now w2 + Backoff p) w2) as ([e|] & w3 & -> & _);
    [run_prog; eauto|]. apply IH. left. done.
Qed.
End do.

(** ** callWithContext *)

(** [fn] is one call of the service: it yields what the closure stores in its
    captured variables and the error.  When the context's case of the [select]
    is taken the goroutine keeps running: its effect stays pending, and what
    it would store is not seen by the caller ([None]). *)
Definition callWithContext {A} (c : ctx) (fn : S -> (A * option error) * S)
    : prog (World S) (option A * option error) :=
  l ← next_latency;
  now ← gets w_now;
  match c with
  | None =>
      _ ← advance_to (now + l);
      s ← gets w_svc;
      let '((a, err), s') := fn s in
      _ ← modify (set_svc s'); mret (Some a, err)
  | Some c =>
      r ← select_done c (now + l);
      match r with
      | Some e => _ ← abandon (fun s => (fn s).2); mret (None, Some e)
      | None =>
          s ← gets w_svc;
          let '((a, err), s') := fn s in
          _ ← modify (set_svc s'); mret (Some a, err)
      end
  end.

(** A call either ran on the service once, or was abandoned because the
    context had ended, leaving the service as it was and its effect pending. *)
Lemma callWithContext_cases {A} c (fn : S -> (A * option error) * S) w :
  (exists a err s' w', callWithContext c fn w = (Ret (Some a, err), w') /\
     fn (w_svc w) = ((a, err), s') /\ w_svc w' = s' /\ w_late w' = w_late w
     /\ w_obs w' = w_obs w /\ w_now w <= w_now w')
  \/ (exists c0 t e w', c = Some c0 /\ ctx_done c0 = Some (t, e) /\
     callWithContext c fn w = (Ret (None, Some e), w') /\ t <= w_now w' /\
     w_svc w' = w_svc w /\ w_late w' = w_late w ++ [fun s => (fn s).2]
     /\ w_obs w' = w_obs w /\ w_now w <= w_now w').
Proof.
  unfold callWithContext. run_prog.
  destruct (next_latency_quiet w) as (l & w1 & -> & (Hs & Hl & Hn) & Hl0 & Hn1 & Ho). run_prog.
  destruct c as [c0|]; run_prog.
  - destruct (select_done_quiet c0 (w_now w1 + l) w1)
      as (r & w2 & -> & (Hs2 & Hl2 & Hn2) & Ho2 & Hr).
    destruct Hr as [[-> _]|(t & e & -> & Hd & _ & Ht)]; run_prog.
    + left. rewrite Hs2, Hs. destruct (fn (w_svc w)) as [[a err] s'].
      eexists a, err, s', _. split; [reflexivity|]. simpl. split_and!; (congruence || lia).
    + right. exists c0, t, e. eexists.
      split; [done|]. split; [done|]. split; [reflexivity|]. simpl.
      split_and!; (congruence || lia).
  - left. rewrite Hs. destruct (fn (w_svc w)) as [[a err] s'].
    eexists a, err, s', _. split; [reflexivity|]. simpl. split_and!; (congruence || lia).
Qed.
End retry.

(** ** Termination, and the nil context *)

Lemma Do_runs {S V} (c : ctx) (p : Policy) (fn : V -> prog (World S) (V * option error)) v w :
  (forall v1 w1, exists r w2, fn v1 w1 = (Ret r, w2)) ->
  c <> None \/ Backoff p <= 0 \/ Attempts p <= 1 ->
  exists r w', Do c p fn v w = (Ret r, w').
Proof.
  intros Hfn Hc. unfold Do. apply attempts_loop_returns; [done|].
  unfold max_attempts. case_decide; intuition lia.
Qed.

(** With a context [Do] always returns: the closure is run at most
    [max(1, Attempts)] times and every pause ends.  A nil context is as good as
    long as no pause is needed. *)
Theorem Do_returns {S V} (c : ctx) (p : Policy) (fn : V -> prog (World S) (V * option error)) v w :
  (forall v1 w1, exists r w2, fn v1 w1 = (Ret r, w2)) ->
  c <> None \/ Backoff p <= 0 \/ Attempts p <= 1 ->
  exists r w', Do c p fn v w = (Ret r, w').
Proof. apply Do_runs. Qed.

(** ... but when a pause is needed a nil context makes [Do] panic on
    [ctx.Done()], although its loop accepts a nil context: this happens as soon
    as the first attempt fails, a second one is allowed and the back-off is
    positive, which is what every policy from [NewPolicy] has. *)
Theorem Do_nil_ctx_panics {S V} (p : Policy) (fn : V -> prog (World S) (V * option error))
    v w v1 e w1 :
  1 < Attempts p -> 0 < Backoff p -> fn v w = (Ret (v1, Some e), w1) ->
  exists msg, Do None p fn v w = (Panic msg, w1).
Proof.
  intros Ha Hb Hfn. unfold Do, max_attempts. rewrite decide_False by lia.
  assert (exists n, Z.to_nat (Attempts p) = Datatypes.S (Datatypes.S n)) as [n ->].
  { exists (Z.to_nat (Attempts p) - 2)%nat. lia. }
  simpl. run_prog. rewrite Hfn. rewrite decide_False by lia. run_prog. eauto.
Qed.

(** ** A concrete run: a service that fails as often as its state says *)
Definition flaky (c : ctx) (v : Z) : prog (World nat) (Z * option error) :=
  '(_, err) ← callWithContext c (fun n =>
      match n with
      | O => ((tt, None), O)
      | Datatypes.S n => ((tt, Some (errText "busy")), n)
      end);
  mret (v + 1, err).

Definition flaky_world (n : nat) : World nat := mkWorld n 1000 [5; 7; 11]%N [true] [] [].

Lemma flaky_returns c v w : exists r w', flaky c v w = (Ret r, w').
Proof.
  unfold flaky. run_prog.
  destruct (callWithContext_cases c (fun n : nat =>
      match n with
      | O => ((tt, None), O)
      | Datatypes.S n => ((tt, Some (errText "busy")), n)
      end) w) as [(a & err & s' & w' & -> & _)|(c0 & t & e & w' & _ & _ & -> & _)];
    run_prog; eauto.
Qed.

Lemma Do_spec_witness :
  do_result Background (flaky Background) 3%nat 0 (flaky_world 2) 3 None
    (Do Background (mkPolicy 3 10) (flaky Background) 0 (flaky_world 2)).2.
Proof. apply (Do_spec Background (mkPolicy 3 10) (flaky Background)). vm_compute. reflexivity. Defined.

Lemma Do_returns_witness :
  exists r w', Do Background (mkPolicy 3 10) (flaky Background) 0 (flaky_world 5) = (Ret r, w').
Proof. apply Do_returns; [apply flaky_returns|left; discriminate]. Defined.

Lemma Do_nil_ctx_panics_witness :
  exists msg, Do None (NewPolicy (mkConfig 2 "")) (flaky None) 0 (flaky_world 1)
    = (Panic msg, (flaky None 0 (flaky_world 1)).2).
Proof.
  apply (Do_nil_ctx_panics _ _ _ _ 1 (errText "busy")).
  - vm_compute. reflexivity.
  - vm_compute. reflexivity.
  - vm_compute. reflexivity.
Defined.
