(* ===== verification/Authz.v ===== *)
(** * Authorization ([authz/authz.go]): deny by default.

    [Authorizer] is the interface a policy engine implements. *)

From S2P Require Import Prelude GoStrings GoTime Principal.

Definition ErrDenied : error := errNew "authz.ErrDenied" "permission denied".
Definition ErrNotConfigured : error := errNew "authz.ErrNotConfigured" "authorizer is nil".
Definition ErrEmptyAuthorization : error :=
  errNew "authz.ErrEmptyAuthorization" "authorization resolver returned empty resource or action".

Record Request := mkRequest {
  rq_Principal : option Principal;
  rq_Resource : string;
  rq_Action : string;
  rq_Domain : string;
  rq_Extra : list any;
}.

(** The interface [authz.Authorizer]. *)
Record Authorizer (W : Type) := mkAuthorizer {
  Authorize : ctx -> Request -> prog W (res bool);
}.
Arguments mkAuthorizer {W}. Arguments Authorize {W} _ _ _.

(** [fmt.Errorf("%w: %s cannot %s %s", ErrDenied, subject, action, resource)] *)
Definition denied_error (p : Principal) (action resource : string) : error :=
  errWrap "" ErrDenied (": " +:+ Principal_Subject p +:+ " cannot " +:+ action +:+ " " +:+ resource).

Definition RequirePrincipal {W} (c : ctx) (a : option (Authorizer W)) (p : option Principal)
    (resource action : string) : prog W (option error) :=
  match p with
  | None => mret (Some ErrMissingPrincipal)
  | Some q =>
    if decide (IsZero q) then mret (Some ErrMissingPrincipal) else
    match a with
    | None => mret (Some ErrNotConfigured)
    | Some a =>
      if decide (resource = "" \/ action = "") then mret (Some ErrEmptyAuthorization) else
      '(ok, err) ← Authorize a c (mkRequest p resource action "" []);
      match err with
      | Some e => mret (Some e)
      | None => if ok : bool then mret None else mret (Some (denied_error q action resource))
      end
    end
  end.

(** [authz.Require] *)
Definition authz_Require {W} (c : ctx) (a : option (Authorizer W)) (resource action : string)
    : prog W (option error) :=
  match RequireFromContext c with
  | (_, Some err) => mret (Some err)
  | (p, None) => RequirePrincipal c a p resource action
  end.

(** What it takes for a request to be allowed: an authenticated request, a
    configured authorizer, a non-empty resource and action, and the
    authorizer's own positive answer, given without an error. *)
Definition allowed_by {W} (c : ctx) (a : option (Authorizer W)) (p : option Principal)
    (resource action : string) (w w' : W) : Prop :=
  exists q az, p = Some q /\ ~ IsZero q /\ a = Some az /\ resource <> "" /\ action <> "" /\
    Authorize az c (mkRequest p resource action "" []) w = (Ret (true, None), w').

Lemma RequirePrincipal_allowed {W} c (a : option (Authorizer W)) p resource action w w' :
  RequirePrincipal c a p resource action w = (Ret None, w') <->
  allowed_by c a p resource action w w'.
Proof.
  unfold RequirePrincipal, allowed_by. split.
  - destruct p as [q|]; [|done]. case_decide as Hz; [done|].
    destruct a as [az|]; [|done]. case_decide as He; [done|].
    intros ([ok err] & w1 & HA & H)%bind_Ret_inv.
    destruct err as [e|]; [done|]. destruct ok; [|done]. injection H as <-.
    exists q, az. naive_solver.
  - intros (q & az & -> & Hz & -> & Hr & Ha & HA).
    rewrite !decide_False by tauto. by rewrite (run_bind_Ret _ _ _ _ _ HA).
Qed.

(** An error of [RequirePrincipal] is one of its own sentinels, the wrapped
    denial, or the authorizer's error, and then the authorizer said no or
    failed. *)
Lemma RequirePrincipal_denied {W} c (az : Authorizer W) q resource action w w1 ok :
  ~ IsZero q -> resource <> "" -> action <> "" ->
  Authorize az c (mkRequest (Some q) resource action "" []) w = (Ret (ok, None), w1) ->
  RequirePrincipal c (Some az) (Some q) resource action w =
    (Ret (if ok then None else Some (denied_error q action resource)), w1).
Proof.
  intros Hz Hr Ha HA. unfold RequirePrincipal. rewrite !decide_False by tauto.
  rewrite (run_bind_Ret _ _ _ _ _ HA). by destruct ok.
Qed.

(** [authz.Require] lets a request through exactly when the context holds a
    non-zero principal, an authorizer is configured, resource and action are
    non-empty and the authorizer answered yes without an error; and a plain no
    is reported as an error that [errors.Is] recognises as [ErrDenied]. *)
Theorem authz_Require_deny_by_default {W} (c : ctx) (a : option (Authorizer W))
    (resource action : string) (w w' : W) :
  (authz_Require c a resource action w = (Ret None, w') <->
     exists q, RequireFromContext c = (Some q, None)
               /\ allowed_by c a (Some q) resource action w w')
  /\ (forall q, errors_Is "authz.ErrDenied" (denied_error q action resource) = true).
Proof.
  split; [|done]. unfold authz_Require.
  destruct (RequireFromContext_cases c) as [(q & -> & _)| ->].
  - rewrite RequirePrincipal_allowed. naive_solver.
  - split; [done|]. by intros (q & ? & _).
Qed.
