(* ===== verification/AuditEvents.v ===== *)
(** * Audit events ([audit/audit.go]). *)

From S2P Require Import Prelude GoStrings GoTime Principal Env.
Local Open Scope Z_scope.

Definition ResultSuccess := "success".
Definition ResultFailed := "failed".

Record Event := mkEvent {
  ev_Name : string;
  ev_Actor : option Principal;
  ev_Action : string;
  ev_Resource : string;
  ev_Result : string;
  ev_Message : string;
  ev_RequestID : string;
  ev_TraceID : string;
  ev_ClientIP : string;
  ev_UserAgent : string;
  ev_Method : string;
  ev_URI : string;
  ev_Operation : string;
  ev_StatusCode : Z;
  ev_Component : string;
  ev_OrgID : string;
  ev_ProjectID : string;
  ev_StartedAt : Time;
  ev_FinishedAt : Time;
  ev_Duration : Duration;
  ev_Metadata : strmap;
}.

(** The interface [audit.Recorder]. *)
Record Recorder (W : Type) := mkRecorder {
  Record_ : ctx -> Event -> prog W (option error);
}.
Arguments mkRecorder {W}. Arguments Record_ {W} _ _ _.

Definition now_if_zero {S} (t : Time) : prog (World S) Time :=
  if decide (Time_IsZero t) then time_Now else mret t.

Definition Normalize {S} (c : ctx) (base : Event) (err : option error) : prog (World S) Event :=
  started ← now_if_zero (ev_StartedAt base);
  finished ← now_if_zero (ev_FinishedAt base);
  let result :=
    if decide (ev_Result base = "") then
      match err with Some _ => ResultFailed | None => ResultSuccess end
    else ev_Result base in
  let status :=
    if decide (ev_StatusCode base = 0) then
      match err with Some _ => 500 | None => 200 end
    else ev_StatusCode base in
  let message :=
    match err with
    | Some e => if decide (ev_Message base = "") then Error e else ev_Message base
    | None => ev_Message base
    end in
  let '(p, ok) := FromContext c in
  let actor := if ok : bool then p else ev_Actor base in
  let org := match p, ok with
             | Some p, true => if decide (ev_OrgID base = "") then POrgID p else ev_OrgID base
             | _, _ => ev_OrgID base
             end in
  let project := match p, ok with
                 | Some p, true => if decide (ev_ProjectID base = "") then PProjectID p
                                   else ev_ProjectID base
                 | _, _ => ev_ProjectID base
                 end in
  let name :=
    if decide (ev_Name base = "") then
      firstNonEmpty [ev_Action base; ev_Operation base] +:+ ":" +:+ ev_Resource base
    else ev_Name base in
  mret (mkEvent name actor (ev_Action base) (ev_Resource base) result message
    (ev_RequestID base) (ev_TraceID base) (ev_ClientIP base) (ev_UserAgent base)
    (ev_Method base) (ev_URI base) (ev_Operation base) status (ev_Component base)
    org project started finished (Sub finished started) (ev_Metadata base)).

(** [audit.Record]: its own effect is two log lines around the recorder's call. *)
Definition audit_Record {S} (c : ctx) (r : option (Recorder (World S))) (ev : Event)
    : prog (World S) (option error) :=
  match r with
  | None => mret None
  | Some r => Record_ r c ev
  end.

(** ** Merge *)

Definition pick (base override : string) : string :=
  if decide (override <> "") then override else base.

Definition pickZ (base override : Z) : Z := if decide (override <> 0) then override else base.

Definition pick_opt {A} (base override : option A) : option A :=
  match override with Some _ => override | None => base end.

Definition Merge (base override : Event) : Event :=
  mkEvent
    (pick (ev_Name base) (ev_Name override))
    (pick_opt (ev_Actor base) (ev_Actor override))
    (pick (ev_Action base) (ev_Action override))
    (pick (ev_Resource base) (ev_Resource override))
    (pick (ev_Result base) (ev_Result override))
    (pick (ev_Message base) (ev_Message override))
    (pick (ev_RequestID base) (ev_RequestID override))
    (pick (ev_TraceID base) (ev_TraceID override))
    (pick (ev_ClientIP base) (ev_ClientIP override))
    (pick (ev_UserAgent base) (ev_UserAgent override))
    (pick (ev_Method base) (ev_Method override))
    (pick (ev_URI base) (ev_URI override))
    (pick (ev_Operation base) (ev_Operation override))
    (pickZ (ev_StatusCode base) (ev_StatusCode override))
    (pick (ev_Component base) (ev_Component override))
    (pick (ev_OrgID base) (ev_OrgID override))
    (pick (ev_ProjectID base) (ev_ProjectID override))
    (pickZ (ev_StartedAt base) (ev_StartedAt override))
    (pickZ (ev_FinishedAt base) (ev_FinishedAt override))
    (pickZ (ev_Duration base) (ev_Duration override))
    (pick_opt (ev_Metadata base) (ev_Metadata override)).

(** The event with no field set. *)
Definition Event_zero : Event :=
  mkEvent "" None "" "" "" "" "" "" "" "" "" "" "" 0 "" "" "" 0 0 0 None.

Lemma pick_assoc a b c : pick a (pick b c) = pick (pick a b) c.
Proof. unfold pick. repeat case_decide; congruence. Qed.
Lemma pickZ_assoc a b c : pickZ a (pickZ b c) = pickZ (pickZ a b) c.
Proof. unfold pickZ. repeat case_decide; congruence. Qed.
Lemma pick_opt_assoc {A} (a b c : option A) : pick_opt a (pick_opt b c) = pick_opt (pick_opt a b) c.
Proof. by destruct a, b, c. Qed.
Lemma pick_nil_l a : pick "" a = a.
Proof. unfold pick. case_decide; [done|]. destruct a; naive_solver. Qed.
Lemma pickZ_0_l a : pickZ 0 a = a.
Proof. unfold pickZ. case_decide; [done|]. lia. Qed.
Lemma pick_opt_nil_l {A} (a : option A) : pick_opt None a = a.
Proof. by destruct a. Qed.

(** [Merge] is a monoid on events with the zero event as unit: overrides can
    be grouped in any way, merging nothing changes nothing, and merging the same
    override twice is merging it once. *)
Theorem Merge_monoid (a b c : Event) :
  Merge a (Merge b c) = Merge (Merge a b) c
  /\ Merge Event_zero a = a /\ Merge a Event_zero = a
  /\ Merge (Merge a b) b = Merge a b.
Proof.
  assert (forall x, pick x x = x) as H1 by (intros x; unfold pick; by case_decide).
  assert (forall x, pickZ x x = x) as H2 by (intros x; unfold pickZ; by case_decide).
  assert (forall A (x : option A), pick_opt x x = x) as H3 by (intros A [x|]; done).
  split_and!; unfold Merge; destruct a, b, c; simpl.
  - by rewrite ?pick_assoc, ?pickZ_assoc, ?pick_opt_assoc.
  - by rewrite ?pick_nil_l, ?pickZ_0_l, ?pick_opt_nil_l.
  - done.
  - by rewrite <- ?pick_assoc, <- ?pickZ_assoc, <- ?pick_opt_assoc, ?H1, ?H2, ?H3.
Qed.

(** ** Normalize *)

(** What a normalized event satisfies: everything a sink relies on is filled in,
    what the caller set is kept, and the actor is the principal of the context. *)
Record normalized (c : ctx) (base : Event) (err : option error) (e : Event) : Prop := {
  nz_result : ev_Result e =
    (if decide (ev_Result base = "") then
       match err with Some _ => ResultFailed | None => ResultSuccess end
     else ev_Result base);
  nz_status : ev_StatusCode e =
    (if decide (ev_StatusCode base = 0) then
       match err with Some _ => 500 | None => 200 end
     else ev_StatusCode base);
  nz_name : ev_Name e <> "";
  nz_times : ev_Duration e = Sub (ev_FinishedAt e) (ev_StartedAt e);
  nz_started : ~ Time_IsZero (ev_StartedAt base) -> ev_StartedAt e = ev_StartedAt base;
  nz_finished : ~ Time_IsZero (ev_FinishedAt base) -> ev_FinishedAt e = ev_FinishedAt base;
  nz_actor : ev_Actor e = if (FromContext c).2 then (FromContext c).1 else ev_Actor base;
  nz_same : (ev_Action e, ev_Resource e, ev_RequestID e, ev_TraceID e, ev_ClientIP e,
             ev_UserAgent e, ev_Method e, ev_URI e, ev_Operation e, ev_Component e, ev_Metadata e)
          = (ev_Action base, ev_Resource base, ev_RequestID base, ev_TraceID base, ev_ClientIP base,
             ev_UserAgent base, ev_Method base, ev_URI base, ev_Operation base, ev_Component base,
             ev_Metadata base);
  nz_message : ev_Message e =
    match err with
    | Some er => if decide (ev_Message base = "") then Error er else ev_Message base
    | None => ev_Message base
    end;
}.

Lemma now_if_zero_quiet {S} t (w : World S) :
  exists t' w', now_if_zero t w = (Ret t', w') /\ quiet w w' /\
    (if decide (Time_IsZero t) then t' = w_now w' else t' = t).
Proof.
  unfold now_if_zero. case_decide.
  - destruct (time_Now_quiet w) as (t' & w' & -> & Hq & -> & _). eauto.
  - run_prog. eexists _, _. split; [done|]. split; [reflexivity|done].
Qed.

Lemma name_nonempty x y : x +:+ ":" +:+ y <> "".
Proof. by destruct x. Qed.

(** [Normalize] always returns a normalized event, and an event that comes
    without times gets a non-negative duration. *)
Lemma Normalize_spec {S} c base err (w : World S) :
  exists e w', Normalize c base err w = (Ret e, w') /\ quiet w w' /\ normalized c base err e /\
    (Time_IsZero (ev_StartedAt base) -> Time_IsZero (ev_FinishedAt base) -> 0 <= ev_Duration e).
Proof.
  unfold Normalize. run_prog.
  destruct (now_if_zero_quiet (ev_StartedAt base) w) as (t1 & w1 & -> & Hq1 & Ht1). run_prog.
  destruct (now_if_zero_quiet (ev_FinishedAt base) w1) as (t2 & w2 & -> & Hq2 & Ht2). run_prog.
  destruct (FromContext c) as [p ok] eqn:Ec. run_prog.
  eexists _, w2. split; [reflexivity|]. split; [by transitivity w1|]. split.
  - split; simpl; rewrite ?Ec; try done.
    + destruct (decide (ev_Name base = "")); [apply name_nonempty|done].
    + intros. by rewrite decide_False in Ht1.
    + intros. by rewrite decide_False in Ht2.
  - simpl. intros H1 H2. rewrite decide_True in Ht1 by done.
    rewrite decide_True in Ht2 by done. subst.
    destruct Hq2 as (_ & _ & ?). unfold Sub. lia.
Qed.

(** ** Asynchronous recording

    [RecordAsync] runs in a goroutine of its own; the goroutines share the
    semaphore [limit].  Each goes through two atomic steps: it enters, which takes
    a place in the channel or drops the event, and it leaves when the recorder has
    returned or panicked, which gives the place back (the deferred receive). *)

Record async_state := mkAsync {
  as_cap : option nat;            (* cap(limit); None for a nil channel *)
  as_len : nat;                   (* len(limit) *)
  as_running : list (ctx * Event);
  as_finished : list Event;
  as_dropped : list Event;
}.

Definition async_timeout (timeout : Duration) : Duration :=
  if decide (timeout <= 0) then 5 * Second else timeout.

(** The context the recorder gets: detached from the caller's cancellation. *)
Definition async_context (now : Time) (c : ctx) (timeout : Duration) : ctx :=
  WithTimeout now (WithoutCancel c) (async_timeout timeout).

(** [RecordAsync] up to the recorder's call, for a recorder and a context that are
    not nil (a nil context makes [context.WithoutCancel] panic). *)
Definition RecordAsync_enter (now : Time) (c : Context) (timeout : Duration) (ev : Event)
    (s : async_state) : async_state :=
  let run n := mkAsync (as_cap s) n ((async_context now (Some c) timeout, ev) :: as_running s)
                 (as_finished s) (as_dropped s) in
  match as_cap s with
  | None => run (as_len s)
  | Some cap =>
      if decide (as_len s < cap)%nat then run (S (as_len s))
      else mkAsync (as_cap s) (as_len s) (as_running s) (as_finished s) (ev :: as_dropped s)
  end.

(** ... and from the recorder's return on, for the [i]-th running call. *)
Definition RecordAsync_leave (i : nat) (s : async_state) : async_state :=
  match as_running s !! i with
  | None => s
  | Some (_, ev) =>
      mkAsync (as_cap s) (match as_cap s with None => as_len s | Some _ => pred (as_len s) end)
        (delete i (as_running s)) (ev :: as_finished s) (as_dropped s)
  end.

(** Reachable states, with the events submitted so far. *)
Inductive async_reach (cap : option nat) : list Event -> async_state -> Prop :=
  | async_init : async_reach cap [] (mkAsync cap 0 [] [] [])
  | async_enter now c timeout ev evs s :
      async_reach cap evs s -> async_reach cap (ev :: evs) (RecordAsync_enter now c timeout ev s)
  | async_leave i evs s :
      async_reach cap evs s -> async_reach cap evs (RecordAsync_leave i s).

(** A context that ends only by a deadline of its own. *)
Definition detached (c : ctx) : Prop :=
  match c with
  | None => True
  | Some c => exists t, ctx_done c = Some (t, DeadlineExceeded)
  end.

Lemma async_context_detached now c timeout : detached (async_context now c timeout).
Proof. unfold async_context, WithTimeout, WithoutCancel. destruct c; simpl; eauto. Qed.

(** C14: with a limit, at most that many recorder calls run at a time, and the
    channel counts them exactly, so no place leaks; every submitted event is
    running, finished or dropped, once, and none is dropped while there is no
    limit; and a running call can only be ended by its own timeout, not by the
    end of the request it came from. *)
Theorem RecordAsync_bounded (cap : option nat) evs s :
  async_reach cap evs s ->
  as_cap s = cap
  /\ (forall n, cap = Some n -> as_len s = length (as_running s) /\ (as_len s <= n)%nat)
  /\ evs ≡ₚ (as_running s).*2 ++ as_finished s ++ as_dropped s
  /\ (cap = None -> as_dropped s = [])
  /\ Forall (fun x => detached x.1) (as_running s).
Proof.
  induction 1 as [|now c timeout ev evs s _ (Hc & Hlen & Hperm & Hdrop & Hdet)
                  |i evs s _ (Hc & Hlen & Hperm & Hdrop & Hdet)].
  - simpl. split_and!; [done| |done|done|by constructor]. intros n _. simpl. split; [done|lia].
  - unfold RecordAsync_enter. rewrite Hc. destruct cap as [cap|]; [case_decide|]; simpl.
    + split_and!; [done| |by rewrite Hperm|done|constructor; [apply async_context_detached|done]].
      intros n [= <-]. destruct (Hlen cap eq_refl). lia.
    + split_and!; [done|done| |done|done].
      rewrite Hperm. by rewrite !app_assoc, Permutation_middle.
    + split_and!; [done|done|by rewrite Hperm|done|constructor; [apply async_context_detached|done]].
  - unfold RecordAsync_leave. destruct (as_running s !! i) as [[c ev]|] eqn:Hi; [|done].
    pose proof (delete_Permutation _ _ _ Hi) as Hdel. simpl. split_and!; [done| | |done|].
    + intros n ->. destruct (Hlen n eq_refl) as [Hl Hn]. rewrite Hc.
      apply (f_equal Some) in Hl as Hl'. pose proof (Permutation_length Hdel) as HL.
      simpl in HL. lia.
    + rewrite Hperm. rewrite (fmap_Permutation snd _ _ Hdel). simpl.
      by rewrite Permutation_middle.
    + rewrite Hdel in Hdet. by apply Forall_cons in Hdet as [_ ?].
Qed.

Lemma RecordAsync_bounded_witness :
  let s := RecordAsync_enter 5 (mkContext None None None None None) 0 Event_zero
             (RecordAsync_enter 3 (mkContext None None None None None) 0 Event_zero (mkAsync (Some 1%nat) 0 [] [] [])) in
  as_cap s = Some 1%nat
  /\ (forall n, Some 1%nat = Some n -> as_len s = length (as_running s) /\ (as_len s <= n)%nat)
  /\ [Event_zero; Event_zero] ≡ₚ (as_running s).*2 ++ as_finished s ++ as_dropped s
  /\ (Some 1%nat = None -> as_dropped s = [])
  /\ Forall (fun x => detached x.1) (as_running s).
Proof. apply RecordAsync_bounded. apply async_enter, async_enter, async_init. Defined.
