(* ===== verification/Access.v ===== *)
(** * The access guard ([access/access.go]).

    A [*Guard] may be nil, and so may the authorizer and the recorder in it. *)

From S2P Require Import Prelude GoStrings GoTime Principal Env Authz AuditEvents.
Local Open Scope Z_scope.

Record Check := mkCheck {
  ck_Resource : string;
  ck_Action : string;
  ck_Domain : string;
  ck_Reason : string;
  ck_Extra : list any;
}.

(** [access.Event]: the fields of an audit event that a business module fills. *)
Record AccessEvent := mkAccessEvent {
  ae_Name : string;
  ae_Action : string;
  ae_Resource : string;
  ae_Result : string;
  ae_Message : string;
  ae_RequestID : string;
  ae_TraceID : string;
  ae_ClientIP : string;
  ae_UserAgent : string;
  ae_Method : string;
  ae_URI : string;
  ae_Operation : string;
  ae_StatusCode : Z;
  ae_Component : string;
  ae_OrgID : string;
  ae_ProjectID : string;
  ae_StartedAt : Time;
  ae_FinishedAt : Time;
  ae_Metadata : strmap;
}.

Record Guard (W : Type) := mkGuard {
  g_authz : option (Authorizer W);
  g_audit : option (Recorder W);
  g_component : string;
}.
Arguments mkGuard {W}. Arguments g_authz {W}. Arguments g_audit {W}. Arguments g_component {W}.

Definition set_outcome (result message : string) (status : Z) (ev : AccessEvent) : AccessEvent :=
  mkAccessEvent (ae_Name ev) (ae_Action ev) (ae_Resource ev) result message (ae_RequestID ev)
    (ae_TraceID ev) (ae_ClientIP ev) (ae_UserAgent ev) (ae_Method ev) (ae_URI ev)
    (ae_Operation ev) status (ae_Component ev) (ae_OrgID ev) (ae_ProjectID ev)
    (ae_StartedAt ev) (ae_FinishedAt ev) (ae_Metadata ev).

Section guard.
Context {S : Type}.
Implicit Types (w : World S) (g : option (Guard (World S))) (c : ctx).

(** [access.NewGuard] *)
Definition NewGuard (authz : option (Authorizer (World S))) (audit : option (Recorder (World S)))
    (component : string) : option (Guard (World S)) := Some (mkGuard authz audit component).

(** [g == nil || g.authz == nil] leaves no authorizer. *)
Definition guard_authz g : option (Authorizer (World S)) := g ≫= g_authz.
Definition guard_audit g : option (Recorder (World S)) := g ≫= g_audit.
Definition guard_component g : string := match g with Some g => g_component g | None => "" end.

Definition Guard_Principal g c : res (option Principal) := RequireFromContext c.

Definition Guard_Can g c (check : Check) : prog (World S) (res bool) :=
  match RequireFromContext c with
  | (_, Some err) => mret (false, Some err)
  | (p, None) =>
    match guard_authz g with
    | None => mret (false, Some ErrNotConfigured)
    | Some a =>
      if decide (ck_Resource check = "" \/ ck_Action check = "")
      then mret (false, Some ErrEmptyAuthorization)
      else Authorize a c (mkRequest p (ck_Resource check) (ck_Action check)
                            (ck_Domain check) (ck_Extra check))
    end
  end.

Definition Guard_Require g c (check : Check) : prog (World S) (res (option Principal)) :=
  match RequireFromContext c with
  | (_, Some err) => mret (None, Some err)
  | (p, None) =>
    match guard_authz g with
    | None => mret (None, Some ErrNotConfigured)
    | Some a =>
      if decide (ck_Resource check = "" \/ ck_Action check = "")
      then mret (None, Some ErrEmptyAuthorization)
      else
        err ← RequirePrincipal c (Some a) p (ck_Resource check) (ck_Action check);
        match err with
        | Some e => mret (None, Some e)
        | None => mret (p, None)
        end
    end
  end.

Definition Guard_Record g c (ev : AccessEvent) : prog (World S) (option error) :=
  match guard_audit g with
  | None => mret None
  | Some r =>
    now ← time_Now;
    let started := if decide (Time_IsZero (ae_StartedAt ev)) then now else ae_StartedAt ev in
    let finished := if decide (Time_IsZero (ae_FinishedAt ev)) then now else ae_FinishedAt ev in
    let aev := mkEvent (ae_Name ev) None (ae_Action ev) (ae_Resource ev) (ae_Result ev)
      (ae_Message ev) (ae_RequestID ev) (ae_TraceID ev) (ae_ClientIP ev) (ae_UserAgent ev)
      (ae_Method ev) (ae_URI ev) (ae_Operation ev) (ae_StatusCode ev)
      (firstNonEmpty [ae_Component ev; guard_component g])
      (ae_OrgID ev) (ae_ProjectID ev) started finished 0 (ae_Metadata ev) in
    aev ← Normalize c aev None;
    audit_Record c (Some r) aev
  end.

Definition Guard_RequireAndAudit g c (check : Check) (ev : AccessEvent)
    : prog (World S) (res (option Principal)) :=
  '(p, err) ← Guard_Require g c check;
  match err with
  | Some e =>
      let ev := set_outcome ResultFailed
        (if decide (ae_Message ev = "") then Error e else ae_Message ev)
        (if decide (ae_StatusCode ev = 0) then 403 else ae_StatusCode ev) ev in
      _ ← Guard_Record g c ev;
      mret (None, Some e)
  | None =>
      let ev := set_outcome (firstNonEmpty [ae_Result ev; ResultSuccess])
        (ae_Message ev) (ae_StatusCode ev) ev in
      _ ← Guard_Record g c ev;
      mret (p, None)
  end.

(** ** Require and Can *)

Lemma Guard_Require_via g c check w :
  Guard_Require g c check w =
  match RequireFromContext c with
  | (_, Some err) => (Ret (None, Some err), w)
  | (p, None) =>
      (err ← RequirePrincipal c (guard_authz g) p (ck_Resource check) (ck_Action check);
       mret (match err with Some e => (None, Some e) | None => (p, None) end)) w
  end.
Proof.
  unfold Guard_Require.
  destruct (RequireFromContext_cases c) as [(q & -> & Hz & _)| ->]; [|done].
  unfold RequirePrincipal at 2. rewrite decide_False by done.
  destruct (guard_authz g) as [a|]; [|done].
  case_decide as He; [done|]. rewrite !run_bind.
  unfold RequirePrincipal. rewrite !decide_False by done. rewrite !run_bind.
  destruct (Authorize a c _ w) as [[[ok [e|]]|s] w1]; [done| |done].
  by destruct ok.
Qed.

Lemma Guard_Require_allowed g c check p w w' :
  Guard_Require g c check w = (Ret (p, None), w') <->
  RequireFromContext c = (p, None) /\
  allowed_by c (guard_authz g) p (ck_Resource check) (ck_Action check) w w'.
Proof.
  rewrite Guard_Require_via.
  destruct (RequireFromContext_cases c) as [(q & -> & _)| ->]; [|naive_solver].
  rewrite run_bind. split.
  - destruct (RequirePrincipal _ _ _ _ _ w) as [[[e|]|s] w1] eqn:E; [done| |done].
    intros [= <- <-]. apply RequirePrincipal_allowed in E. done.
  - intros [[= <-] H]. apply RequirePrincipal_allowed in H. by rewrite H.
Qed.
End guard.

Section guard_theorems.
Context {S : Type}.
Implicit Types (w : World S) (g : option (Guard (World S))) (c : ctx).

Lemma Guard_Require_refused g c check p err w w' :
  Guard_Require g c check w = (Ret (p, Some err), w') -> p = None.
Proof.
  rewrite Guard_Require_via.
  destruct (RequireFromContext_cases c) as [(q & -> & _)| ->]; [|by intros [= <- _]].
  rewrite run_bind. destruct (RequirePrincipal _ _ _ _ _ w) as [[[e|]|s] w1]; [|done..].
  by intros [= <- _ _].
Qed.

(** C3: [Guard.Require] fails closed: it hands out a principal exactly when the
    context authenticates one, the guard has an authorizer, resource and
    action are non-empty and the authorizer said yes without an error; with any
    error it hands out none. *)
Theorem Guard_Require_fail_closed g c check p err w w' :
  (Guard_Require g c check w = (Ret (p, None), w') <->
     RequireFromContext c = (p, None) /\
     allowed_by c (guard_authz g) p (ck_Resource check) (ck_Action check) w w')
  /\ (Guard_Require g c check w = (Ret (p, Some err), w') -> p = None).
Proof. split; [apply Guard_Require_allowed|apply Guard_Require_refused]. Qed.

Definition with_domain (d : string) (extra : list any) (ck : Check) : Check :=
  mkCheck (ck_Resource ck) (ck_Action ck) d (ck_Reason ck) extra.

Lemma Guard_Can_allowed g c check w w' :
  Guard_Can g c check w = (Ret (true, None), w') <->
  exists p a, RequireFromContext c = (p, None) /\ guard_authz g = Some a /\
    ck_Resource check <> "" /\ ck_Action check <> "" /\
    Authorize a c (mkRequest p (ck_Resource check) (ck_Action check)
                     (ck_Domain check) (ck_Extra check)) w = (Ret (true, None), w').
Proof.
  unfold Guard_Can.
  destruct (RequireFromContext_cases c) as [(q & -> & Hz & _)| ->]; [|naive_solver].
  destruct (guard_authz g) as [a|]; [|naive_solver].
  case_decide as He; naive_solver.
Qed.

(** On a check without domain and extra arguments [Can] and [Require] agree:
    one answers true exactly when the other lets the request through, with the
    same effect on the world. *)
Theorem Guard_Can_iff_Require g c check w w' :
  ck_Domain check = "" -> ck_Extra check = [] ->
  Guard_Can g c check w = (Ret (true, None), w') <->
  exists p, Guard_Require g c check w = (Ret (p, None), w').
Proof.
  intros Hd He. rewrite Guard_Can_allowed, Hd, He. split.
  - intros (p & a & Hc & Ha & Hr & Hac & HA). exists p. apply Guard_Require_allowed.
    split; [done|]. destruct (RequireFromContext_cases c) as [(q & Hq & Hz & _)|Hq];
      rewrite Hq in Hc; simplify_eq. exists q, a. done.
  - intros [p H]. apply Guard_Require_allowed in H as [Hc (q & a & -> & Hz & Ha & Hr & Hac & HA)].
    exists (Some q), a. done.
Qed.

(** [Require] drops the [Domain] and [Extra] of its check, which [Can]
    passes on: whatever they are, [Require] asks the authorizer the same
    question, and so it can let through a request that [Can] refuses. *)
Theorem Guard_Require_ignores_domain :
  (forall g c check d extra w,
     Guard_Require g c (with_domain d extra check) w = Guard_Require (S := S) g c check w)
  /\ exists (gu : option (Guard (World unit))) cu ck (wu wu1 wu2 : World unit) p,
       Guard_Can gu cu ck wu = (Ret (false, None), wu1)
       /\ Guard_Require gu cu ck wu = (Ret (Some p, None), wu2).
Proof.
  split; [done|].
  exists (NewGuard (Some (mkAuthorizer (fun _ rq => mret (bool_decide (rq_Domain rq = ""), None))))
            None "").
  exists (Some (set_principal (Some (principal_of "user" "u1")) (mkContext None None None None None))).
  exists (mkCheck "aihub:skill:s1" "skill.read" "tenant-b" "" []), (mkWorld tt 1 [] [] [] []).
  do 3 eexists. split; vm_compute; reflexivity.
Qed.

(** ** Recording *)

(** The event handed to the recorder for [ev]. *)
Record recorded g c (ev : AccessEvent) (e : Event) : Prop := {
  rec_kept : (ev_Action e, ev_Resource e, ev_Message e, ev_RequestID e, ev_TraceID e,
              ev_ClientIP e, ev_UserAgent e, ev_Method e, ev_URI e, ev_Operation e, ev_Metadata e)
           = (ae_Action ev, ae_Resource ev, ae_Message ev, ae_RequestID ev, ae_TraceID ev,
              ae_ClientIP ev, ae_UserAgent ev, ae_Method ev, ae_URI ev, ae_Operation ev,
              ae_Metadata ev);
  rec_result : ev_Result e = if decide (ae_Result ev = "") then ResultSuccess else ae_Result ev;
  rec_status : ev_StatusCode e = if decide (ae_StatusCode ev = 0) then 200 else ae_StatusCode ev;
  rec_component : ev_Component e = firstNonEmpty [ae_Component ev; guard_component g];
  rec_actor : ev_Actor e = if (FromContext c).2 then (FromContext c).1 else None;
  rec_name : ev_Name e <> "";
  rec_duration : ev_Duration e = Sub (ev_FinishedAt e) (ev_StartedAt e);
}.

Lemma Guard_Record_spec g c ev r w :
  guard_audit g = Some r ->
  exists e w1, quiet w w1 /\ recorded g c ev e /\ Guard_Record g c ev w = Record_ r c e w1.
Proof.
  intros Hr. unfold Guard_Record. rewrite Hr. run_prog.
  destruct (time_Now_quiet w) as (t & w1 & -> & Hq1 & _ & _). run_prog.
  match goal with |- context [Normalize c ?b None w1] =>
    destruct (Normalize_spec c b None w1) as (e & w2 & -> & Hq2 & Hn & _) end.
  exists e, w2. split; [by transitivity w1|]. split; [|done].
  destruct Hn as [H1 H2 H3 H4 _ _ H5 H6 H7]; simpl in *. simplify_eq.
  split; simpl; congruence.
Qed.

(** How [RequireAndAudit] stamps the event before recording it. *)
Definition stamped (err : option error) (ev : AccessEvent) : AccessEvent :=
  match err with
  | Some e => set_outcome ResultFailed
      (if decide (ae_Message ev = "") then Error e else ae_Message ev)
      (if decide (ae_StatusCode ev = 0) then 403 else ae_StatusCode ev) ev
  | None => set_outcome (firstNonEmpty [ae_Result ev; ResultSuccess])
      (ae_Message ev) (ae_StatusCode ev) ev
  end.

(** C32: on a guard with a recorder, [RequireAndAudit] decides exactly as
    [Require] does, whatever the recorder answers (a panic of the recorder goes
    through), and hands the recorder exactly one event.  When access was refused
    the event's result is failed, whatever the caller supplied, its status the
    caller's or else 403, its message the caller's or else the error's text.
    When access was given, result, status and message are the caller's, where
    supplied, and else success, 200 and the empty text: an event that the caller
    marked as failed stays so. *)
Theorem Guard_RequireAndAudit_spec g c check ev r w p err w1 :
  guard_audit g = Some r ->
  Guard_Require g c check w = (Ret (p, err), w1) ->
  exists e w2, quiet w1 w2 /\ recorded g c (stamped err ev) e /\
    Guard_RequireAndAudit g c check ev w =
      match Record_ r c e w2 with
      | (Ret _, w3) => (Ret (p, err), w3)
      | (Panic s, w3) => (Panic s, w3)
      end.
Proof.
  intros Hr HR.
  destruct (Guard_Record_spec g c (stamped err ev) r w1 Hr) as (e & w2 & Hq & Hrec & E).
  exists e, w2. split; [done|]. split; [done|].
  unfold Guard_RequireAndAudit. rewrite run_bind, HR.
  destruct err as [er|]; simpl in E |- *; rewrite run_bind, E.
  - rewrite (Guard_Require_refused g c check p er w w1) by done.
    by destruct (Record_ r c e w2) as [[?|?] ?].
  - by destruct (Record_ r c e w2) as [[?|?] ?].
Qed.
End guard_theorems.

(** ** Concrete instances *)

Definition demo_ctx : ctx :=
  Some (set_principal (Some (principal_of "user" "u1")) (mkContext None None None None None)).
Definition demo_authz : Authorizer (World (list Event)) :=
  mkAuthorizer (fun _ rq => mret (bool_decide (rq_Action rq = "skill.read"), None)).
Definition demo_recorder : Recorder (World (list Event)) :=
  mkRecorder (fun _ e w => (Ret None, set_svc (w_svc w ++ [e]) w)).
Definition demo_guard := NewGuard (Some demo_authz) (Some demo_recorder) "hub".
Definition demo_world : World (list Event) := mkWorld [] 1000 [] [] [] [].
Definition demo_event : AccessEvent :=
  mkAccessEvent "" "skill.delete" "aihub:skill:s1" "" "" "" "" "" "" "" "" "" 0 "" "" "" 0 0 None.

Lemma Guard_Can_iff_Require_witness :
  Guard_Can demo_guard demo_ctx (mkCheck "aihub:skill:s1" "skill.read" "" "" []) demo_world
    = (Ret (true, None), demo_world) <->
  exists p, Guard_Require demo_guard demo_ctx (mkCheck "aihub:skill:s1" "skill.read" "" "" []) demo_world
    = (Ret (p, None), demo_world).
Proof. apply (Guard_Can_iff_Require demo_guard demo_ctx); reflexivity. Defined.

Lemma Guard_RequireAndAudit_spec_witness :
  exists e w2, quiet demo_world w2 /\
    recorded demo_guard demo_ctx
      (stamped (Some (denied_error (principal_of "user" "u1") "skill.delete" "aihub:skill:s1")) demo_event) e /\
    Guard_RequireAndAudit demo_guard demo_ctx (mkCheck "aihub:skill:s1" "skill.delete" "" "" [])
      demo_event demo_world =
    match Record_ demo_recorder demo_ctx e w2 with
    | (Ret _, w3) => (Ret (None, Some (denied_error (principal_of "user" "u1") "skill.delete" "aihub:skill:s1")), w3)
    | (Panic s, w3) => (Panic s, w3)
    end.
Proof.
  apply (Guard_RequireAndAudit_spec demo_guard demo_ctx (mkCheck "aihub:skill:s1" "skill.delete" "" "" [])
           demo_event demo_recorder demo_world None _ demo_world).
  - reflexivity.
  - vm_compute. reflexivity.
Defined.
