(* ===== verification/Permission.v ===== *)
(** * Permission management ([permission/permission.go]).

    Grants and their normalization, the expansion of roles into actions, the
    [Manager] interface, and the contract a manager promises to its clients:
    [ManagerLaws] says what each operation does to the set of policies, on
    success and on failure.  The theorems on the permission lifecycle are proved
    against that contract; [CasdoorPolicy] shows that the Casdoor adapter meets
    it. *)

From S2P Require Import Prelude GoStrings GoTime Principal Resource.

Definition ErrManagerNil : error := errNew "permission.ErrManagerNil" "permission manager is nil".
Definition ErrEmptySubject : error := errNew "permission.ErrEmptySubject" "permission subject is required".
Definition ErrEmptyResource : error := errNew "permission.ErrEmptyResource" "permission resource is required".
Definition ErrEmptyAction : error := errNew "permission.ErrEmptyAction" "permission action is required".
Definition ErrEmptyRole : error := errNew "permission.ErrEmptyRole" "permission role is required".
Definition ErrUnsupportedRole : error := errNew "permission.ErrUnsupportedRole" "unsupported permission role".
Definition ErrNotSupported : error :=
  errNew "permission.ErrNotSupported" "permission operation is not supported by current backend".
Definition ErrPermissionDenied : error := errNew "permission.ErrPermissionDenied" "permission denied".

Definition SubjectPublic := "public".
Definition RoleViewer := "viewer".
Definition RoleEditor := "editor".
Definition RoleOwner := "owner".

(** ** Data *)

Record Grant := mkGrant {
  gr_Subject : string;
  gr_SubjectType : string;
  gr_SubjectID : string;
  gr_Resource : Name;
  gr_Action : string;
  gr_Role : string;
  gr_Actions : list string;
  gr_Domain : string;
  gr_GrantedBy : string;
  gr_ExpiresAt : option Time;
  gr_Metadata : anymap;
}.

Definition Grant_zero : Grant := mkGrant "" "" "" "" "" "" [] "" "" None None.

Record ShareRequest := mkShareRequest {
  sh_Resource : Name;
  sh_SubjectType : string;
  sh_SubjectID : string;
  sh_Role : string;
  sh_Actions : list string;
  sh_Domain : string;
  sh_GrantedBy : string;
  sh_ExpiresAt : option Time;
  sh_Metadata : anymap;
}.

Record CheckRequest := mkCheckRequest {
  cr_Subject : string;
  cr_Principal : option Principal;
  cr_Resource : Name;
  cr_Action : string;
  cr_Domain : string;
  cr_Extra : list any;
}.

Record ListFilter := mkListFilter {
  lf_Subject : string;
  lf_Resource : Name;
  lf_Action : string;
  lf_Domain : string;
}.

Record DeleteResourceRequest := mkDeleteResourceRequest {
  dr_Resource : Name;
  dr_Reason : string;
  dr_Actor : string;
}.

(** ** Subjects *)

(** [permission.Subject] *)
Definition Subject (subjectType id : string) : string :=
  let subjectType := TrimSpace subjectType in
  let id := TrimSpace id in
  if decide (subjectType = "") then id else
  if decide (id = "") then subjectType else
  subjectType +:+ ":" +:+ id.

Definition SubjectFromPrincipal (p : option Principal) : string :=
  match p with None => "" | Some p => Principal_Subject p end.

(** ** Roles *)

(** The loop of [cleanActions]; [seen] is the set of the actions kept so far. *)
Fixpoint cleanActions_from (seen : gset string) (l : list string) : list string :=
  match l with
  | [] => []
  | a :: l =>
      let a := TrimSpace a in
      if decide (a = "") then cleanActions_from seen l else
      if decide (a ∈ seen) then cleanActions_from seen l else
      a :: cleanActions_from ({[a]} ∪ seen) l
  end.

Definition cleanActions (l : list string) : list string := cleanActions_from ∅ l.

Notation RoleActionMapper := (Name -> string -> list string -> list string * option error)%type.

Definition viewer_actions : list string := ["skill.read"; "skill.download"].
Definition editor_actions : list string :=
  ["skill.read"; "skill.download"; "skill.update"; "skill.upload"; "skill.publish"].
Definition owner_actions : list string :=
  ["skill.read"; "skill.download"; "skill.update"; "skill.upload"; "skill.publish";
   "skill.share"; "skill.delete"].

Definition DefaultRoleActionMapper : RoleActionMapper := fun _ role custom =>
  if decide (custom <> []) then (cleanActions custom, None) else
  if decide (role = RoleViewer) then (viewer_actions, None) else
  if decide (role = RoleEditor) then (editor_actions, None) else
  if decide (role = RoleOwner) then (owner_actions, None) else
  if decide (role = "") then ([], Some ErrEmptyRole) else
  ([], Some (errWrap "" ErrUnsupportedRole (": " +:+ role))).

(** The process-wide [roleMapper]; [None] is a nil function. *)
Notation roleMapper := (option RoleActionMapper).

Definition roleMapper_init : roleMapper := Some DefaultRoleActionMapper.

Definition SetRoleActionMapper (fn : roleMapper) : roleMapper :=
  match fn with None => Some DefaultRoleActionMapper | Some _ => fn end.

Definition RoleActionsForResource (rm : roleMapper) : RoleActionMapper := fun r role custom =>
  match rm with
  | None => DefaultRoleActionMapper r role custom
  | Some fn => fn r role custom
  end.

Definition RoleActions (rm : roleMapper) (role : string) (custom : list string) : list string * option error :=
  RoleActionsForResource rm "" role custom.

(** ** Normalization *)

Definition set_trimmed (subject action role : string) (g : Grant) : Grant :=
  mkGrant subject (gr_SubjectType g) (gr_SubjectID g) (gr_Resource g) action role
    (gr_Actions g) (gr_Domain g) (gr_GrantedBy g) (gr_ExpiresAt g) (gr_Metadata g).

Definition NormalizeGrant (g : Grant) : res Grant :=
  let subject := if decide (gr_Subject g = "" /\ gr_SubjectType g <> "")
                 then Subject (gr_SubjectType g) (gr_SubjectID g) else gr_Subject g in
  let g := set_trimmed (TrimSpace subject) (TrimSpace (gr_Action g)) (TrimSpace (gr_Role g)) g in
  if decide (gr_Subject g = "") then (g, Some ErrEmptySubject) else
  if decide (gr_Resource g = "") then (g, Some ErrEmptyResource) else
  if decide (gr_Action g = "" /\ gr_Role g = "" /\ length (gr_Actions g) = 0)
  then (g, Some ErrEmptyAction) else
  match gr_ExpiresAt g with
  | Some _ => (g, Some (errWrap "" ErrNotSupported ": expires_at on Casbin policy grant"))
  | None => (g, None)
  end.

Definition NormalizeShare (req : ShareRequest) : res Grant :=
  if decide (sh_SubjectType req = "") then (Grant_zero, Some ErrEmptySubject) else
  if decide (sh_SubjectType req <> SubjectPublic /\ sh_SubjectID req = "")
  then (Grant_zero, Some ErrEmptySubject) else
  if decide (sh_Resource req = "") then (Grant_zero, Some ErrEmptyResource) else
  if decide (sh_Role req = "" /\ length (sh_Actions req) = 0)
  then (Grant_zero, Some ErrEmptyRole) else
  NormalizeGrant (mkGrant (Subject (sh_SubjectType req) (sh_SubjectID req))
    (sh_SubjectType req) (sh_SubjectID req) (sh_Resource req) "" (sh_Role req)
    (sh_Actions req) (sh_Domain req) (sh_GrantedBy req) (sh_ExpiresAt req) (sh_Metadata req)).

(** ** The manager interface *)

Record Manager (W : Type) := mkManager {
  mgr_Grant : ctx -> Grant -> prog W (option error);
  mgr_GrantRole : ctx -> Grant -> prog W (option error);
  mgr_Share : ctx -> ShareRequest -> prog W (option error);
  mgr_Revoke : ctx -> Grant -> prog W (option error);
  mgr_Check : ctx -> CheckRequest -> prog W (res bool);
  mgr_List : ctx -> ListFilter -> prog W (res (list Grant));
  mgr_DeleteResourcePolicies : ctx -> Name -> prog W (option error);
  mgr_DeleteResourcePoliciesEx : ctx -> DeleteResourceRequest -> prog W (option error);
}.
Arguments mkManager {W}. Arguments mgr_Grant {W}. Arguments mgr_GrantRole {W}.
Arguments mgr_Share {W}. Arguments mgr_Revoke {W}. Arguments mgr_Check {W}.
Arguments mgr_List {W}. Arguments mgr_DeleteResourcePolicies {W}.
Arguments mgr_DeleteResourcePoliciesEx {W}.

(** [permission.Require] *)
Definition permission_Require {W} (c : ctx) (mgr : option (Manager W)) (req : CheckRequest)
    : prog W (option error) :=
  match mgr with
  | None => mret (Some ErrManagerNil)
  | Some mgr =>
    let subject := if decide (cr_Subject req = "" /\ cr_Principal req <> None)
                   then SubjectFromPrincipal (cr_Principal req) else cr_Subject req in
    let req := mkCheckRequest subject (cr_Principal req) (cr_Resource req) (cr_Action req)
                 (cr_Domain req) (cr_Extra req) in
    if decide (cr_Subject req = "") then mret (Some ErrEmptySubject) else
    if decide (cr_Resource req = "") then mret (Some ErrEmptyResource) else
    if decide (cr_Action req = "") then mret (Some ErrEmptyAction) else
    '(ok, err) ← mgr_Check mgr c req;
    match err with
    | Some e => mret (Some e)
    | None => if ok : bool then mret None else mret (Some ErrPermissionDenied)
    end
  end.

(** ** cleanActions *)

Lemma cleanActions_from_elem seen l a :
  a ∈ cleanActions_from seen l <-> a ∉ seen /\ a <> "" /\ exists x, x ∈ l /\ TrimSpace x = a.
Proof.
  revert seen. induction l as [|y l IH]; intros seen; simpl; [set_solver|].
  case_decide as He; [|case_decide as Hs; [|rewrite elem_of_cons]]; rewrite IH; clear IH.
  - set_solver.
  - set_solver.
  - destruct (decide (a = TrimSpace y)) as [->|Hne]; [set_solver|].
    split; [set_solver|]. intros (H1 & H2 & x & [->|Hx]%elem_of_cons & <-); set_solver.
Qed.

Lemma cleanActions_from_NoDup seen l : NoDup (cleanActions_from seen l).
Proof.
  revert seen. induction l as [|y l IH]; intros seen; simpl; [constructor|].
  repeat case_decide; [done..|]. constructor; [|done].
  rewrite cleanActions_from_elem. set_solver.
Qed.

Lemma cleanActions_from_sublist seen l : cleanActions_from seen l `sublist_of` (TrimSpace <$> l).
Proof.
  revert seen. induction l as [|y l IH]; intros seen; simpl; [constructor|].
  repeat case_decide; by constructor.
Qed.

Lemma cleanActions_from_id seen l :
  NoDup l -> (forall a, a ∈ l -> a ∉ seen /\ a <> "" /\ TrimSpace a = a) ->
  cleanActions_from seen l = l.
Proof.
  revert seen. induction l as [|y l IH]; intros seen Hnd H; simpl; [done|].
  apply NoDup_cons in Hnd as [Hy Hnd]. destruct (H y) as (H1 & H2 & ->); [set_solver|].
  rewrite !decide_False by done. f_equal. apply IH; [done|].
  intros a Ha. destruct (H a) as (? & ? & ?); [set_solver|]. split; [|done].
  set_solver.
Qed.

Lemma cleanActions_elem l a :
  a ∈ cleanActions l <-> a <> "" /\ exists x, x ∈ l /\ TrimSpace x = a.
Proof. unfold cleanActions. rewrite cleanActions_from_elem. set_solver. Qed.

(** [cleanActions] keeps exactly the trimmed non-empty forms of its input,
    each once and in the order of the input, and cleaning again changes
    nothing. *)
Theorem cleanActions_spec (l : list string) :
  (forall a, a ∈ cleanActions l <-> a <> "" /\ exists x, x ∈ l /\ TrimSpace x = a)
  /\ NoDup (cleanActions l)
  /\ cleanActions l `sublist_of` (TrimSpace <$> l)
  /\ cleanActions (cleanActions l) = cleanActions l.
Proof.
  split_and!; [intros a; apply cleanActions_elem|apply cleanActions_from_NoDup
              |apply cleanActions_from_sublist|].
  apply cleanActions_from_id; [apply cleanActions_from_NoDup|].
  intros a (? & x & ? & <-)%cleanActions_elem. split; [set_solver|].
  split; [done|apply TrimSpace_idemp].
Qed.

(** ** Roles *)

(** The default role mapping is a chain of roles, viewer below editor below
    owner, made of declared actions only; it accepts those three roles and no
    other, unless the caller gives the actions itself; and the error for another
    role is recognised as [ErrUnsupportedRole], for the empty one as
    [ErrEmptyRole]. *)
Theorem DefaultRoleActionMapper_roles (r : Name) (role : string) (custom : list string) :
  (viewer_actions ⊆ editor_actions /\ editor_actions ⊆ owner_actions /\ owner_actions ⊆ actions)
  /\ ((DefaultRoleActionMapper r role custom).2 = None <->
        custom <> [] \/ role ∈ [RoleViewer; RoleEditor; RoleOwner])
  /\ (forall e, (DefaultRoleActionMapper r role custom).2 = Some e ->
        errors_Is "permission.ErrEmptyRole" e = bool_decide (role = "") /\
        errors_Is "permission.ErrUnsupportedRole" e = bool_decide (role <> "") /\
        (DefaultRoleActionMapper r role custom).1 = []).
Proof.
  split.
  - split_and!; apply (bool_decide_unpack _); vm_compute; exact I.
  - unfold DefaultRoleActionMapper. split.
    + repeat case_decide; simpl; set_solver.
    + intros e. repeat case_decide; simpl; try done; intros [= <-]; simpl.
      * subst. split_and!; reflexivity.
      * split_and!; done.
Qed.

(** [SetRoleActionMapper] never leaves a nil mapper, so the fallback of
    [RoleActionsForResource] only guards against a mapper that was never set. *)
Lemma SetRoleActionMapper_in_force fn r role custom :
  RoleActionsForResource (SetRoleActionMapper fn) r role custom =
    match fn with
    | Some f => f r role custom
    | None => DefaultRoleActionMapper r role custom
    end.
Proof. by destruct fn. Qed.

(** ** Normalization *)

(** What the normalized grant of a successful [NormalizeGrant] satisfies. *)
Record normal_grant (g : Grant) : Prop := {
  ng_subject : gr_Subject g <> "" /\ TrimSpace (gr_Subject g) = gr_Subject g;
  ng_resource : gr_Resource g <> "";
  ng_action : TrimSpace (gr_Action g) = gr_Action g;
  ng_role : TrimSpace (gr_Role g) = gr_Role g;
  ng_some : gr_Action g <> "" \/ gr_Role g <> "" \/ gr_Actions g <> [];
  ng_timeless : gr_ExpiresAt g = None;
}.

Lemma some_action (a r : string) (l : list string) :
  ~ (a = "" /\ r = "" /\ length l = 0) <-> a <> "" \/ r <> "" \/ l <> [].
Proof.
  split.
  - intros H. destruct (decide (a = "")); [|by left].
    destruct (decide (r = "")); [|by right; left].
    right; right. intros ->. by apply H.
  - intros H (-> & -> & ->%nil_length_inv). naive_solver.
Qed.

Lemma NormalizeGrant_normal g g' : NormalizeGrant g = (g', None) -> normal_grant g'.
Proof.
  unfold NormalizeGrant. remember (TrimSpace (if decide _ then _ else _)) as subj eqn:Hs.
  assert (TrimSpace subj = subj) as Hsubj by (rewrite Hs; apply TrimSpace_idemp).
  clear Hs. repeat case_decide; try done. destruct (gr_ExpiresAt _) eqn:He; [done|].
  intros [= <-]. simpl in *. split; simpl; rewrite ?TrimSpace_idemp; try done.
  by apply some_action.
Qed.

Lemma NormalizeGrant_id g : normal_grant g -> NormalizeGrant g = (g, None).
Proof.
  intros [[H1 H1'] H2 H3 H4 H5 H6]. unfold NormalizeGrant.
  rewrite (decide_False (P := gr_Subject g = "" /\ _)) by tauto.
  rewrite H1', H3, H4. destruct g; simpl in *. unfold set_trimmed; simpl.
  rewrite !decide_False; [by rewrite H6|by apply some_action|done|done].
Qed.

(** The subject a grant names: its [Subject], or the one built from the type
    and the identifier when that is empty. *)
Definition grant_subject (g : Grant) : string :=
  TrimSpace (if decide (gr_Subject g = "" /\ gr_SubjectType g <> "")
             then Subject (gr_SubjectType g) (gr_SubjectID g) else gr_Subject g).

Lemma NormalizeGrant_ok_iff (g : Grant) :
  (NormalizeGrant g).2 = None <->
    grant_subject g <> "" /\ gr_Resource g <> "" /\ gr_ExpiresAt g = None /\
    (TrimSpace (gr_Action g) <> "" \/ TrimSpace (gr_Role g) <> "" \/ gr_Actions g <> []).
Proof.
  unfold NormalizeGrant. fold (grant_subject g). simpl. split.
  - repeat case_decide; try done. destruct (gr_ExpiresAt g) eqn:He; [done|]. intros _.
    split_and!; [done..|]. by apply some_action.
  - intros (H1 & H2 & H3 & H4).
    rewrite !decide_False; [by rewrite H3|by apply some_action|done|done].
Qed.

(** The normalized grant is the grant with its subject made and trimmed, and its
    action and role trimmed. *)
Lemma NormalizeGrant_ok g g' :
  NormalizeGrant g = (g', None) ->
  g' = set_trimmed (grant_subject g) (TrimSpace (gr_Action g)) (TrimSpace (gr_Role g)) g.
Proof. unfold NormalizeGrant. fold (grant_subject g). branches. by intros [= <-]. Qed.

(** [NormalizeGrant] accepts a grant exactly when it names a subject, a
    resource and an action, role or action list and does not expire; the result
    is in normal form, and normalizing a normal form (as [Grant] does before
    [GrantRole]) is the identity. *)
Theorem NormalizeGrant_spec (g : Grant) :
  ((NormalizeGrant g).2 = None <->
     grant_subject g <> "" /\ gr_Resource g <> "" /\ gr_ExpiresAt g = None /\
     (TrimSpace (gr_Action g) <> "" \/ TrimSpace (gr_Role g) <> "" \/ gr_Actions g <> []))
  /\ (forall g', NormalizeGrant g = (g', None) ->
        normal_grant g' /\ NormalizeGrant g' = (g', None) /\ gr_Subject g' = grant_subject g).
Proof.
  split; [apply NormalizeGrant_ok_iff|].
  intros g' H. pose proof (NormalizeGrant_normal _ _ H) as Hn.
  split; [done|]. split; [by apply NormalizeGrant_id|]. by rewrite (NormalizeGrant_ok _ _ H).
Qed.

(** ** Subjects of shares and of principals *)

Lemma Subject_trimmed t i :
  TrimSpace t = t -> TrimSpace i = i -> t <> "" -> i <> "" ->
  Subject t i = t +:+ ":" +:+ i /\ TrimSpace (Subject t i) = Subject t i.
Proof.
  intros Ht Hi Hnt Hni. unfold Subject. rewrite Ht, Hi, !decide_False by done.
  split; [done|]. by apply (TrimSpace_join t colon i).
Qed.

(** The grant a share stands for. *)
Definition shared_grant (req : ShareRequest) : Grant :=
  mkGrant (Subject (sh_SubjectType req) (sh_SubjectID req))
    (sh_SubjectType req) (sh_SubjectID req) (sh_Resource req) "" (sh_Role req)
    (sh_Actions req) (sh_Domain req) (sh_GrantedBy req) (sh_ExpiresAt req) (sh_Metadata req).

Lemma NormalizeShare_ok req g :
  NormalizeShare req = (g, None) ->
  sh_SubjectType req <> "" /\ NormalizeGrant (shared_grant req) = (g, None).
Proof.
  unfold NormalizeShare. destruct (decide (sh_SubjectType req = "")) as [|Hty]; [done|].
  by repeat (case_decide; [done|]).
Qed.

Lemma NormalizeShare_normal req g :
  NormalizeShare req = (g, None) ->
  normal_grant g /\ gr_Role g = TrimSpace (sh_Role req) /\ gr_Resource g = sh_Resource req
  /\ gr_Actions g = sh_Actions req.
Proof.
  intros [_ H]%NormalizeShare_ok. split; [by eapply NormalizeGrant_normal|].
  by rewrite (NormalizeGrant_ok _ _ H).
Qed.

(** A share addressed to a principal's type and identifier is granted to the
    very subject string that the authorizers ask about for that principal,
    provided neither carries white space around it. *)
Lemma NormalizeShare_subject_of (req : ShareRequest) (p : Principal) g :
  sh_SubjectType req = SubjectType p -> sh_SubjectID req = SubjectID p ->
  TrimSpace (SubjectType p) = SubjectType p -> TrimSpace (SubjectID p) = SubjectID p ->
  SubjectID p <> "" ->
  NormalizeShare req = (g, None) -> gr_Subject g = Principal_Subject p.
Proof.
  intros Et Ei Ht Hi Hid [Hty H]%NormalizeShare_ok. rewrite (NormalizeGrant_ok _ _ H).
  destruct (Subject_trimmed (SubjectType p) (SubjectID p)) as [E1 E2]; [congruence..|].
  unfold grant_subject, shared_grant. simpl. rewrite Et, Ei, decide_False.
  - rewrite E2, E1, Principal_Subject_parts by congruence. done.
  - rewrite E1. intros [E _]. by destruct (SubjectType p).
Qed.

(** With white space around the identifier the two differ. *)
Example padded_subject_differs :
  Subject "user" "alice " <> Principal_Subject (principal_of "user" "alice ").
Proof. vm_compute. discriminate. Qed.

(** ** The contract of a manager

    A policy is a triple of a subject, a resource and an action. *)
Notation policy := (string * string * string)%type.

Definition policies_for (subject : string) (r : Name) (acts : list string) : propset policy :=
  {[ x | x.1.1 = subject /\ x.1.2 = r /\ x.2 ∈ acts ]}.

Definition on_resource (r : Name) : propset policy := {[ x | x.1.2 = r ]}.

(** The actions a grant stands for: its [Action] alone, or else what its role
    and action list expand to. *)
Definition role_actions (rm : roleMapper) (g : Grant) : option (list string) :=
  match RoleActionsForResource rm (gr_Resource g) (gr_Role g) (gr_Actions g) with
  | (acts, None) => Some acts
  | (_, Some _) => None
  end.

Definition grant_actions (rm : roleMapper) (g : Grant) : option (list string) :=
  if decide (gr_Action g = "") then role_actions rm g else Some [gr_Action g].

(** The policies a [Grant] (or [Revoke]), a [GrantRole] and a [Share] are
    about; [None] when the request is refused. *)
Definition grant_policies (rm : roleMapper) (g : Grant) : option (propset policy) :=
  match NormalizeGrant g with
  | (g, None) => policies_for (gr_Subject g) (gr_Resource g) <$> grant_actions rm g
  | (_, Some _) => None
  end.

Definition grant_role_policies (rm : roleMapper) (g : Grant) : option (propset policy) :=
  match NormalizeGrant g with
  | (g, None) => policies_for (gr_Subject g) (gr_Resource g) <$> role_actions rm g
  | (_, Some _) => None
  end.

Definition share_policies (rm : roleMapper) (req : ShareRequest) : option (propset policy) :=
  match NormalizeShare req with
  | (g, None) => grant_role_policies rm g
  | (_, Some _) => None
  end.

(** [P'] results from adding [X] to [P], entirely if there is no error, and up
    to some point if there is one. *)
Definition adds (X : option (propset policy)) (err : option error) (P P' : propset policy) : Prop :=
  match X, err with
  | Some X, None => P' ≡ P ∪ X
  | None, None => False
  | Some X, Some _ => P ⊆ P' /\ P' ⊆ P ∪ X
  | None, Some _ => P' ≡ P
  end.

Definition removes (X : option (propset policy)) (err : option error) (P P' : propset policy) : Prop :=
  match X, err with
  | Some X, None => P' ≡ P ∖ X
  | None, None => False
  | Some X, Some _ => P' ⊆ P /\ P ∖ X ⊆ P'
  | None, Some _ => P' ≡ P
  end.

Definition policy_grant (x : policy) : Grant :=
  mkGrant x.1.1 "" "" x.1.2 x.2 "" [] "" "" None None.

Definition filter_matches (f : ListFilter) (x : policy) : Prop :=
  (lf_Subject f = "" \/ lf_Subject f = x.1.1) /\
  (lf_Resource f = "" \/ lf_Resource f = x.1.2) /\
  (lf_Action f = "" \/ lf_Action f = x.2).

(** [policies w] are the policies stored in state [w]; [Inv] is what the manager
    assumes of the store and preserves. *)
Class ManagerLaws {W} (rm : roleMapper) (mgr : Manager W) (Inv : W -> Prop)
    (policies : W -> propset policy) : Prop := {
  law_Grant c g w err w' : Inv w -> mgr_Grant mgr c g w = (Ret err, w') ->
    Inv w' /\ adds (grant_policies rm g) err (policies w) (policies w');
  law_GrantRole c g w err w' : Inv w -> mgr_GrantRole mgr c g w = (Ret err, w') ->
    Inv w' /\ adds (grant_role_policies rm g) err (policies w) (policies w');
  law_Share c req w err w' : Inv w -> mgr_Share mgr c req w = (Ret err, w') ->
    Inv w' /\ adds (share_policies rm req) err (policies w) (policies w');
  law_Revoke c g w err w' : Inv w -> mgr_Revoke mgr c g w = (Ret err, w') ->
    Inv w' /\ removes (grant_policies rm g) err (policies w) (policies w');
  law_Check c req w ok err w' : Inv w -> mgr_Check mgr c req w = (Ret (ok, err), w') ->
    Inv w' /\ policies w' ≡ policies w /\ (err <> None -> ok = false);
  law_List c f w gs err w' : Inv w -> mgr_List mgr c f w = (Ret (gs, err), w') ->
    Inv w' /\ policies w' ≡ policies w /\
    (err = None -> forall g, g ∈ gs <-> exists x, g = policy_grant x /\ x ∈ policies w
                                                  /\ filter_matches f x);
  law_DeleteEx c req w err w' : Inv w -> mgr_DeleteResourcePoliciesEx mgr c req w = (Ret err, w') ->
    Inv w' /\ removes (if decide (dr_Resource req = "") then None
                       else Some (on_resource (dr_Resource req))) err (policies w) (policies w');
  law_Delete c r : mgr_DeleteResourcePolicies mgr c r =
    mgr_DeleteResourcePoliciesEx mgr c (mkDeleteResourceRequest r "" "");
}.

Section lifecycle.
Context {W : Type} {rm : roleMapper} {mgr : Manager W} {Inv : W -> Prop}
  {policies : W -> propset policy} `{!ManagerLaws rm mgr Inv policies}.

Lemma adds_grows X err P P' : adds X err P P' -> P ⊆ P'.
Proof. unfold adds. destruct X, err; set_solver. Qed.

Lemma removes_shrinks X err P P' : removes X err P P' -> P' ⊆ P.
Proof. unfold removes. destruct X, err; set_solver. Qed.

(** Granting and then revoking, both with success, takes away exactly the
    policies of the grant. *)
Lemma grant_revoke c1 c2 g w w1 w2 :
  Inv w -> mgr_Grant mgr c1 g w = (Ret None, w1) -> mgr_Revoke mgr c2 g w1 = (Ret None, w2) ->
  exists X, grant_policies rm g = Some X /\ policies w2 ≡ policies w ∖ X.
Proof.
  intros HI H1 H2. destruct (law_Grant _ _ _ _ _ HI H1) as [HI1 A].
  destruct (law_Revoke _ _ _ _ _ HI1 H2) as [_ R].
  unfold adds, removes in *. destruct (grant_policies rm g) as [X|]; [|done].
  exists X. split; [done|].
  rewrite R, A. set_solver.
Qed.

End lifecycle.
