(* ===== verification/CasdoorClient.v ===== *)
(** * The Casdoor SDK as the adapter uses it, and the adapter's state.

    [casdoorsdk.Client] is a library: [CasdoorClient] is its interface, a record
    of operations on the state [S] of the Casdoor service, and [PolicyStore] what
    the adapter relies on of the policy operations.  [memory_client] is a
    concrete service with a script of faults; it satisfies [PolicyStore] and is
    what the witnesses run on.  [Config] and [Adapter] are the structures of
    [casdoor/config.go] and [casdoor/adapter.go]. *)

From S2P Require Import Prelude GoStrings GoTime Principal Env Retry.

(** ** Data of the SDK that the adapter reads or writes *)

Record CasbinRule := mkCasbinRule {
  Ptype : string; V0 : string; V1 : string; V2 : string;
  V3 : string; V4 : string; V5 : string;
}.

#[export] Instance CasbinRule_eq_dec : EqDecision CasbinRule.
Proof. solve_decision. Defined.

(** [&casdoorsdk.CasbinRule{Ptype: "p", V0: subject, V1: object, V2: action}] *)
Definition p_rule (subject object action : string) : CasbinRule :=
  mkCasbinRule "p" subject object action "" "" "".

Record Enforcer := mkEnforcer { en_Owner : string; en_Name : string }.

Record JwtClaims := mkJwtClaims {
  cl_Name : string; cl_DisplayName : string; cl_Email : string; cl_Avatar : string;
  cl_Owner : string; cl_Issuer : string; cl_Subject : string; cl_Audience : list string;
}.

Record SdkRecord := mkSdkRecord {
  rec_Owner : string; rec_Name : string; rec_CreatedTime : string; rec_Organization : string;
  rec_ClientIp : string; rec_User : string; rec_Method : string; rec_RequestUri : string;
  rec_Action : string; rec_StatusCode : Z; rec_Response : string; rec_Object : string;
  rec_IsTriggered : bool;
}.

(** The five selector slots of [client.Enforce]. *)
Record Selectors := mkSelectors {
  sel_permission : string; sel_model : string; sel_resource : string;
  sel_enforcer : string; sel_owner : string;
}.

(** A call on the service: a result, an error, and the service's next state. *)
Notation service_call S A := (S -> (A * option error) * S) (only parsing).

Class CasdoorClient (S : Type) := {
  sdk_AddPolicy : Enforcer -> CasbinRule -> service_call S bool;
  sdk_RemovePolicy : Enforcer -> CasbinRule -> service_call S bool;
  sdk_GetPolicies : string -> string -> service_call S (list (option CasbinRule));
  sdk_Enforce : Selectors -> list any -> service_call S bool;
  sdk_AddRecord : SdkRecord -> service_call S bool;
  sdk_ParseJwtToken : string -> service_call S (option JwtClaims);
  sdk_GetApplication : string -> service_call S unit;
}.

(** What the adapter relies on of the store behind enforcer [en] and adapter
    [ad]: an acknowledged change is made, and is idempotent whatever the boolean
    says; a failed one is made or not; reading and enforcing change nothing, and
    an acknowledged read lists exactly the rules of the store. *)
Class PolicyStore {S} (client : CasdoorClient S) (en : Enforcer) (ad : string)
    (stored : S -> propset CasbinRule) : Prop := {
  AddPolicy_done r s ok s' :
    sdk_AddPolicy en r s = ((ok, None), s') -> stored s' ≡ stored s ∪ {[r]};
  AddPolicy_failed r s ok e s' :
    sdk_AddPolicy en r s = ((ok, Some e), s') ->
    stored s' ≡ stored s \/ stored s' ≡ stored s ∪ {[r]};
  RemovePolicy_done r s ok s' :
    sdk_RemovePolicy en r s = ((ok, None), s') -> stored s' ≡ stored s ∖ {[r]};
  RemovePolicy_failed r s ok e s' :
    sdk_RemovePolicy en r s = ((ok, Some e), s') ->
    stored s' ≡ stored s \/ stored s' ≡ stored s ∖ {[r]};
  GetPolicies_reads s rs err s' :
    sdk_GetPolicies (en_Name en) ad s = ((rs, err), s') -> stored s' ≡ stored s;
  GetPolicies_lists s rs s' :
    sdk_GetPolicies (en_Name en) ad s = ((rs, None), s') ->
    forall r, Some r ∈ rs <-> r ∈ stored s;
  Enforce_reads sel req s r s' :
    sdk_Enforce sel req s = (r, s') -> stored s' ≡ stored s;
}.

(** ** Configuration and adapter *)

Record casdoor_Config := mkCasdoorConfig {
  Endpoint : string; ClientID : string; ClientSecret : string;
  Certificate : string; CertificateFile : string;
  Organization : string; Application : string;
  PermissionID : string; ModelID : string; ResourceID : string;
  EnforcerID : string; Owner : string;
  PolicyEnforcer : string; PolicyAdapterID : string;
  HTTPTimeout : string; DefaultScope : string; AllowAnonymous : bool;
  AuditAsync : bool; AuditQueue : Z; AuditTimeout : string;
  RetryAttempts : Z; RetryBackoff : string;
}.

(** The SDK client of the Go struct is the class instance in scope; the logger
    and the HTTP client are not represented. *)
Record Adapter := mkAdapter {
  a_cfg : casdoor_Config;
  a_retry : Policy;
  a_metrics : option Metrics;
  a_timeout : Duration;
}.

Definition enforceSelectors (a : Adapter) : Selectors :=
  let cfg := a_cfg a in
  if decide (PermissionID cfg <> "") then mkSelectors (PermissionID cfg) "" "" "" "" else
  if decide (ModelID cfg <> "") then mkSelectors "" (ModelID cfg) "" "" "" else
  if decide (ResourceID cfg <> "") then mkSelectors "" "" (ResourceID cfg) "" "" else
  if decide (EnforcerID cfg <> "") then mkSelectors "" "" "" (EnforcerID cfg) "" else
  if decide (Owner cfg <> "") then mkSelectors "" "" "" "" (Owner cfg) else
  mkSelectors "" "" "" "" "".

Definition selector_list (s : Selectors) : list string :=
  [sel_permission s; sel_model s; sel_resource s; sel_enforcer s; sel_owner s].

Definition configured_selectors (cfg : casdoor_Config) : list string :=
  [PermissionID cfg; ModelID cfg; ResourceID cfg; EnforcerID cfg; Owner cfg].

(** [sel] has at most one non-empty slot: the first one that [conf] fills. *)
Definition selects_first (sel conf : list string) : Prop :=
  length (filter (fun s => s <> "") sel) <= 1
  /\ firstNonEmpty sel = firstNonEmpty conf
  /\ (forall i s, sel !! i = Some s -> s <> "" ->
        conf !! i = Some s /\ forall j s', j < i -> conf !! j = Some s' -> s' = "")
  /\ (sel = ["";"";"";"";""] <-> Forall (fun s => s = "") conf).

(** A list of slots that is empty but for position [k], where it agrees with
    [conf], which is empty before [k]. *)
Lemma one_selector k x conf :
  let sel := replicate k "" ++ x :: replicate (4 - k) "" in
  k < 5 -> x <> "" -> take (Datatypes.S k) conf = replicate k "" ++ [x] ->
  selects_first sel conf.
Proof.
  intros sel Hk Hx Hconf. subst sel.
  assert (forall n, filter (fun s : string => s <> "") (replicate n "") = []) as Hf.
  { induction n as [|n IH]; simpl; [done|]. by rewrite filter_cons_False by naive_solver. }
  assert (forall n l, firstNonEmpty (replicate n "" ++ l) = firstNonEmpty l) as Hn.
  { intros n l. induction n as [|n IH]; simpl; [done|]. by rewrite IH. }
  assert (conf = replicate k "" ++ x :: drop (Datatypes.S k) conf) as Hc.
  { rewrite <- (take_drop (Datatypes.S k) conf) at 1. by rewrite Hconf, <- app_assoc. }
  unfold selects_first. split; [|split; [|split]].
  - rewrite filter_app, Hf, filter_cons_True, Hf by done. simpl. lia.
  - rewrite Hc, !Hn. simpl. by rewrite !decide_True by done.
  - intros i s Hi Hs.
    assert (i = k /\ s = x) as [-> ->].
    { apply lookup_app_Some in Hi as [[? _]%lookup_replicate|[Hle Hi]]; [done|].
      rewrite length_replicate in Hle, Hi. destruct (i - k) as [|m] eqn:Em; simpl in Hi.
      - simplify_eq. split; [lia|done].
      - by apply lookup_replicate in Hi as [? _]. }
    rewrite Hc. split.
    + by rewrite lookup_app_r, length_replicate, Nat.sub_diag by (rewrite length_replicate; lia).
    + intros j s' Hj. rewrite lookup_app_l by (rewrite length_replicate; lia).
      by intros [? _]%lookup_replicate.
  - split; intros H.
    + assert (x ∈ [""; ""; ""; ""; ""]) by (rewrite <- H; set_solver). set_solver.
    + rewrite Hc in H. apply Forall_app in H as [_ H]. by apply Forall_cons in H as [? _].
Qed.

(** The adapter sends Casdoor at most one selector, the first one configured
    in the documented order, in the slot of the setting it came from; it sends
    none exactly when none is configured. *)
Theorem enforceSelectors_one (a : Adapter) :
  selects_first (selector_list (enforceSelectors a)) (configured_selectors (a_cfg a)).
Proof.
  unfold enforceSelectors, configured_selectors.
  destruct (a_cfg a) as [? ? ? ? ? ? ? pid mid rid eid own]. simpl.
  destruct (decide (pid <> "")) as [?|E%dec_stable]; [exact (one_selector 0 pid [pid; mid; rid; eid; own]
    ltac:(lia) ltac:(done) eq_refl)|subst].
  destruct (decide (mid <> "")) as [?|E%dec_stable]; [exact (one_selector 1 mid [""; mid; rid; eid; own]
    ltac:(lia) ltac:(done) eq_refl)|subst].
  destruct (decide (rid <> "")) as [?|E%dec_stable]; [exact (one_selector 2 rid [""; ""; rid; eid; own]
    ltac:(lia) ltac:(done) eq_refl)|subst].
  destruct (decide (eid <> "")) as [?|E%dec_stable]; [exact (one_selector 3 eid [""; ""; ""; eid; own]
    ltac:(lia) ltac:(done) eq_refl)|subst].
  destruct (decide (own <> "")) as [?|E%dec_stable]; [exact (one_selector 4 own [""; ""; ""; ""; own]
    ltac:(lia) ltac:(done) eq_refl)|subst].
  unfold selects_first. simpl. split; [lia|]. split; [done|]. split.
  - intros i s Hi Hs. by do 5 (destruct i as [|i]; [simpl in Hi; simplify_eq|]).
  - split; [intros _; repeat constructor|done].
Qed.

(** ** A call retried under the adapter's policy

    The shape every operation has: [retry.Do(ctx, a.retry, func() error { return
    callWithContext(ctx, func() error { v, err = call(); return err }) })], with
    [v] the captured variable. *)
Section retried.
Context {S V : Type}.
Implicit Types (w : World S) (f : service_call S V).

Definition retried (c : ctx) (p : Policy) (v0 : V) f : prog (World S) (V * option error) :=
  Do c p (fun v => '(o, err) ← callWithContext c f; mret (default v o, err)) v0.

Lemma attempt_inv c f v w v' err w' :
  ('(o, err) ← callWithContext c f; mret (default v o, err)) w = (Ret (v' : V, err), w') ->
  (f (w_svc w) = ((v', err), w_svc w') /\ w_late w' = w_late w)
  \/ (v' = v /\ w_svc w' = w_svc w /\ w_late w' = w_late w ++ [fun s => (f s).2]
      /\ exists c0 t e, c = Some c0 /\ ctx_done c0 = Some (t, e) /\ err = Some e
           /\ (t <= w_now w')%Z).
Proof.
  run_prog.
  destruct (callWithContext_cases c f w)
    as [(a & err0 & s' & w1 & -> & Ef & <- & El & _)
       |(c0 & t & e & w1 & -> & Ed & -> & Ht & Es & El & _ & _)]; run_prog;
    intros [= <- <- <-]; [left|right]; eauto 12.
Qed.

(** The service sees a sequence of calls of [f]: all but the last fail. *)
Lemma retried_rule (I : S -> Prop) (Q : V -> S -> Prop) c p v0 f w v err w' :
  (forall s x e s', I s -> f s = ((x, Some e), s') -> I s') ->
  (forall s x s', I s -> f s = ((x, None), s') -> Q x s') ->
  I (w_svc w) -> retried c p v0 f w = (Ret (v, err), w') ->
  match err with None => Q v (w_svc w') | Some _ => I (w_svc w') end.
Proof.
  intros Hfail Hok HI H.
  eapply (Do_rule c p _ (fun w => I (w_svc w)) (fun v w => Q v (w_svc w))); [| | |done|exact H].
  - intros w1 w2 (-> & _) ?. done.
  - intros v1 w1 v2 e w2 HI1 [[E _]|(_ & E & _)]%attempt_inv; [by eapply Hfail|by rewrite E].
  - intros v1 w1 v2 w2 HI1 [[E _]|(_ & _ & _ & ? & ? & ? & ? & ? & ? & _)]%attempt_inv;
      [by eapply Hok|done].
Qed.

Lemma retried_returns c p v0 f w :
  c <> None \/ (Backoff p <= 0)%Z \/ (Attempts p <= 1)%Z ->
  exists v err w', retried c p v0 f w = (Ret (v, err), w').
Proof.
  intros Hc. destruct (Do_runs c p
    (fun v => '(o, err) ← callWithContext c f; mret (default v o, err)) v0 w) as ([v e] & w' & H);
    [|done|eauto].
  intros v1 w1. run_prog.
  destruct (callWithContext_cases c f w1)
    as [(a & err0 & s' & w2 & -> & _)|(c0 & t & e & w2 & _ & _ & -> & _)]; run_prog; eauto.
Qed.

(** Once the context has ended no further attempt is made. *)
Lemma attempts_loop_ended c p (fn : V -> prog (World S) (V * option error)) c0 t e rem v e0 w :
  c = Some c0 -> ctx_done c0 = Some (t, e) -> (t <= w_now w)%Z ->
  exists e', attempts_loop c p fn rem v (Some e0) w = (Ret (v, Some e'), w).
Proof.
  intros -> Ed Ht. destruct rem as [|rem]; [simpl; run_prog; eauto|].
  simpl. run_prog. unfold ctx_check, poll. run_prog. rewrite Ed.
  rewrite decide_True by done. run_prog. eauto.
Qed.

(** The calls an operation leaves in flight: none if it succeeds, and at most
    one if it fails. *)
Lemma retried_late c p v0 f w v err w' :
  retried c p v0 f w = (Ret (v, err), w') ->
  w_late w' = w_late w \/ (err <> None /\ w_late w' = w_late w ++ [fun s => (f s).2]).
Proof.
  unfold retried, Do.
  set (fn := fun v => '(o, err) ← callWithContext c f; mret (default v o, err)).
  pose proof (attempt_inv c f : forall v w v' err w', fn v w = (Ret (v', err), w') -> _) as Hinv.
  clearbody fn. generalize (max_attempts p). intros rem.
  generalize (@None error) at 1. revert v0 w. induction rem as [|rem IH]; intros v0 w err0; simpl.
  { intros [= <- <- <-]. by left. }
  run_prog. destruct (ctx_check_cases c w) as (r & -> & [->|(? & ? & ? & ? & -> & _)]).
  2: { run_prog. intros [= <- <- <-]. by left. }
  run_prog. destruct (fn v0 w) as [[[v1 err1]|s] w1] eqn:E; [|done].
  apply Hinv in E as [[_ El]|(_ & _ & El & c0 & t & e & Ec & Ed & -> & Ht)].
  - rewrite <- El. destruct err1 as [e1|]; [|intros [= <- <- <-]; by left].
    case_decide; [apply IH|].
    run_prog. destruct (pause c p w1) as [[r|s] w2] eqn:Ep; [|done].
    apply pause_cases in Ep as [(_ & <- & _) [->|(? & ? & ? & _ & -> & _)]]; [apply IH|].
    run_prog. intros [= <- <- <-]. by left.
  - pose proof (attempts_loop_ended c p fn c0 t e rem v1 e) as Hend. rewrite <- El.
    case_decide; [|run_prog; destruct (pause c p w1) as [[r|s] w2] eqn:Ep; [|done];
      apply pause_cases in Ep as [(_ & <- & Hn) [->|(? & ? & ? & _ & -> & _)]];
      [|run_prog; intros [= <- <- <-]; by right]].
    + destruct (Hend w1) as (e' & ->); [done..|]. intros [= <- <- <-]. by right.
    + destruct (Hend w2) as (e' & ->); [done|done|lia|]. intros [= <- <- <-]. by right.
Qed.
End retried.
