(* ===== verification/CasdoorConfig.v ===== *)
(** * The certificate settings of the Casdoor adapter ([casdoor/config.go]).

    PEM and X.509 decoding, the file system and the quoting of [%q] come from
    outside the repository: they are the classes [X509] and [Host]. *)

From S2P Require Import Prelude GoStrings GoText GoTime Principal Env Retry CasdoorClient.

Definition CR : Ascii.ascii := Ascii.ascii_of_nat 13.
Definition LF : Ascii.ascii := Ascii.ascii_of_nat 10.
Definition backslash : Ascii.ascii := Ascii.ascii_of_nat 92.

Definition crlf : string := String CR (String LF "").
Definition cr : string := String CR "".
Definition lf : string := String LF "".
(** The two characters backslash and n. *)
Definition escaped_lf : string := String backslash "n".

Definition normalizePEMText (s : string) : string :=
  let s := TrimSpace s in
  if decide (s = "") then "" else
  let s := ReplaceAll s crlf lf in
  let s := ReplaceAll s cr lf in
  let s := if Contains s escaped_lf && negb (Contains s lf) then ReplaceAll s escaped_lf lf else s in
  TrimSpace s.

(** A block of [encoding/pem], and the kinds of public key [crypto/x509] finds. *)
Record pem_Block := mkBlock { blk_Type : string; blk_Bytes : string }.
Inductive key_kind : Type := rsa_PublicKey | other_PublicKey.

Class X509 := {
  pem_Decode : string -> option pem_Block * string;
  x509_ParseCertificate : string -> key_kind + error;
  x509_ParsePKIXPublicKey : string -> key_kind + error;
  x509_ParsePKCS1PublicKey : string -> option error;
}.

Class Host := {
  os_ReadFile : string -> string + error;
  strconv_Quote : string -> string;
}.

Section certificates.
Context `{X509, Host}.

Definition ValidateJWTPublicCertificate (pemText : string) : option error :=
  let cert := normalizePEMText pemText in
  if decide (cert = "") then Some (errText "casdoor.certificate is empty") else
  match pem_Decode cert with
  | (None, _) =>
      Some (errText "casdoor.certificate must be PEM encoded public certificate or public key")
  | (Some block, rest) =>
      if decide (TrimSpace rest <> "") then
        Some (errText "casdoor.certificate must contain exactly one PEM block")
      else if decide (blk_Type block = "CERTIFICATE") then
        match x509_ParseCertificate (blk_Bytes block) with
        | inr err => Some (errWrap "parse casdoor.certificate x509 certificate: " err "")
        | inl rsa_PublicKey => None
        | inl other_PublicKey => Some (errText
            "casdoor.certificate certificate public key must be RSA for RS256 JWT verification")
        end
      else if decide (blk_Type block = "PUBLIC KEY") then
        match x509_ParsePKIXPublicKey (blk_Bytes block) with
        | inr err => Some (errWrap "parse casdoor.certificate public key: " err "")
        | inl rsa_PublicKey => None
        | inl other_PublicKey => Some (errText
            "casdoor.certificate public key must be RSA for RS256 JWT verification")
        end
      else if decide (blk_Type block = "RSA PUBLIC KEY") then
        match x509_ParsePKCS1PublicKey (blk_Bytes block) with
        | Some err => Some (errWrap "parse casdoor.certificate rsa public key: " err "")
        | None => None
        end
      else if decide (blk_Type block ∈ ["PRIVATE KEY"; "RSA PRIVATE KEY"; "EC PRIVATE KEY"]) then
        Some (errText
          "casdoor.certificate must be a public certificate/public key, not a private key")
      else
        Some (errText ("casdoor.certificate unsupported PEM block type "
          +:+ strconv_Quote (blk_Type block)
          +:+ "; expected CERTIFICATE, PUBLIC KEY, or RSA PUBLIC KEY"))
  end.

Definition certificate_required : error := errText
  "casdoor.certificate or casdoor.certificate_file is required for authn JWT verification; copy the public certificate/public key from the Casdoor Cert page".

Definition NormalizedCertificate (c : casdoor_Config) : res string :=
  let cert := TrimSpace (Certificate c) in
  let from_file : string + error :=
    if decide (cert = "" /\ TrimSpace (CertificateFile c) <> "") then
      match os_ReadFile (TrimSpace (CertificateFile c)) with
      | inr err => inr (errWrap ("read casdoor.certificate_file "
                          +:+ strconv_Quote (CertificateFile c) +:+ ": ") err "")
      | inl b => inl (TrimSpace b)
      end
    else inl cert in
  match from_file with
  | inr err => ("", Some err)
  | inl cert =>
      let cert := normalizePEMText cert in
      if decide (cert = "") then ("", Some certificate_required) else
      match ValidateJWTPublicCertificate cert with
      | Some err => ("", Some err)
      | None => (cert, None)
      end
  end.

(** A public RSA key in a single PEM block. *)
Definition public_rsa (cert : string) : Prop :=
  exists block rest, pem_Decode cert = (Some block, rest) /\ TrimSpace rest = "" /\
    ((blk_Type block = "CERTIFICATE" /\ x509_ParseCertificate (blk_Bytes block) = inl rsa_PublicKey)
     \/ (blk_Type block = "PUBLIC KEY" /\ x509_ParsePKIXPublicKey (blk_Bytes block) = inl rsa_PublicKey)
     \/ (blk_Type block = "RSA PUBLIC KEY" /\ x509_ParsePKCS1PublicKey (blk_Bytes block) = None)).

Lemma Validate_iff pemText :
  ValidateJWTPublicCertificate pemText = None <->
    normalizePEMText pemText <> "" /\ public_rsa (normalizePEMText pemText).
Proof.
  unfold ValidateJWTPublicCertificate, public_rsa.
  set (cert := normalizePEMText pemText). split.
  - case_decide as Hc; [done|]. intros Hv. split; [done|].
    destruct (pem_Decode cert) as [[block|] rest]; [|done]. exists block, rest. split; [done|].
    destruct (decide (TrimSpace rest = "")) as [Hr|Hr]; [|by rewrite decide_True in Hv].
    rewrite decide_False in Hv by tauto. split; [done|]. revert Hv.
    case_decide; [destruct (x509_ParseCertificate _) as [[]|] eqn:E; try done; by left|].
    case_decide; [destruct (x509_ParsePKIXPublicKey _) as [[]|] eqn:E; try done; by right; left|].
    case_decide; [destruct (x509_ParsePKCS1PublicKey _) eqn:E; try done; by right; right|].
    by case_decide.
  - intros (Hc & block & rest & -> & Hr & Hb).
    rewrite decide_False by done. rewrite decide_False by tauto.
    destruct Hb as [[-> E]|[[-> E]|[-> E]]]; simpl; by rewrite E.
Qed.

(** ** Line ends *)

(** The lines of a PEM text: printable ASCII without a backslash, not empty,
    and without a space at either end. *)
Record pem_line (l : string) : Prop := {
  pl_bytes : Forall (fun a => a ∉ [CR; LF; backslash]) (to_bytes l);
  pl_head : exists a, head (to_bytes l) = Some a /\ graphic a = true;
  pl_last : exists a, last (to_bytes l) = Some a /\ graphic a = true;
}.

Lemma pem_line_ne l : pem_line l -> to_bytes l <> [].
Proof. intros [_ (a & Ha & _) _] E. by rewrite E in Ha. Qed.

Lemma pem_text_trimmed ls sep :
  ls <> [] -> Forall pem_line ls -> TrimSpace (Join ls sep) = Join ls sep /\ Join ls sep <> "".
Proof.
  intros Hne Hls.
  assert (exists a, head (to_bytes (Join ls sep)) = Some a /\ graphic a = true) as (a & Ha & Ga).
  { rewrite Join_bytes. destruct ls as [|x ls]; [done|]. apply Forall_cons in Hls as [Hx _].
    rewrite fmap_cons, head_join_bytes by (apply pem_line_ne, Hx). apply Hx. }
  assert (exists a, last (to_bytes (Join ls sep)) = Some a /\ graphic a = true) as (b & Hb & Gb).
  { rewrite Join_bytes. destruct ls as [|x ls _] using rev_ind; [done|].
    apply Forall_app in Hls as [_ Hx]. apply Forall_cons in Hx as [Hx _].
    rewrite fmap_app. change (to_bytes <$> [x]) with [to_bytes x].
    rewrite last_join_bytes by (apply pem_line_ne, Hx). apply Hx. }
  split; [by eapply TrimSpace_graphic|]. intros E. by rewrite E in Ha.
Qed.

Lemma join_lacks c ls sep :
  Forall (fun l => c ∉ to_bytes l) ls -> c ∉ to_bytes sep -> c ∉ to_bytes (Join ls sep).
Proof.
  rewrite Join_bytes, Forall_forall. intros Hls Hs Hin.
  apply join_bytes_elem in Hin as [(l & Hl & Hc)|?]; [|done].
  apply list_elem_of_fmap in Hl as (l' & -> & Hl). by apply (Hls l').
Qed.

Lemma ReplaceAll_absent c s old new : c ∈ to_bytes old -> c ∉ to_bytes s -> ReplaceAll s old new = s.
Proof.
  intros Ho Hs. unfold ReplaceAll. rewrite replace_bytes_absent; [apply of_to_bytes|].
  by eapply contains_bytes_lacks.
Qed.

Lemma ReplaceAll_join c sep' sep new ls :
  sep = String c sep' -> Forall (fun l => c ∉ to_bytes l) ls ->
  ReplaceAll (Join ls sep) sep new = Join ls new.
Proof.
  intros -> Hls. unfold ReplaceAll. apply to_bytes_inj. rewrite to_of_bytes, !Join_bytes.
  apply replace_join. by apply Forall_fmap.
Qed.

Lemma Contains_absent c s p : c ∈ to_bytes p -> c ∉ to_bytes s -> Contains s p = false.
Proof. intros. by eapply contains_bytes_lacks. Qed.

(** Closes goals on concrete bytes. *)
Ltac byte := first [done|apply (bool_decide_unpack _); vm_compute; exact I].

(** A PEM text with Unix, Windows or old Mac line ends, or flattened to a
    single line with literal [\n], normalizes to the one text with Unix line
    ends. *)
Theorem normalizePEMText_line_ends (ls : list string) :
  ls <> [] -> Forall pem_line ls ->
  Forall (fun sep => normalizePEMText (Join ls sep) = Join ls lf) [lf; crlf; cr; escaped_lf].
Proof.
  intros Hne Hls.
  assert (forall c, c ∈ [CR; LF; backslash] -> Forall (fun l => c ∉ to_bytes l) ls) as Hlack.
  { intros c Hc. eapply Forall_impl; [exact Hls|]. intros l [Hb _ _] Hin.
    rewrite Forall_forall in Hb. by apply (Hb c). }
  assert (forall c sep, c ∈ [CR; LF; backslash] -> c ∉ to_bytes sep -> c ∉ to_bytes (Join ls sep))
    as Hj by (intros; apply join_lacks; auto).
  assert (CR ∉ to_bytes (Join ls lf)) as Hlf1 by (apply Hj; byte).
  assert (backslash ∉ to_bytes (Join ls lf)) as Hlf2
    by (apply Hj; byte).
  assert (Contains (Join ls lf) escaped_lf = false) as Hlf3
    by (apply (Contains_absent backslash); byte).
  pose proof (pem_text_trimmed ls lf Hne Hls) as [Htrim _].
  unfold normalizePEMText. apply Forall_forall. intros sep Hsep.
  destruct (pem_text_trimmed ls sep Hne Hls) as [-> Hs]. rewrite decide_False by done.
  rewrite !elem_of_cons in Hsep. destruct Hsep as [->|[->|[->|[->|?]]]]; [| | | |set_solver].
  - rewrite (ReplaceAll_absent CR _ crlf), (ReplaceAll_absent CR _ cr) by byte.
    by rewrite Hlf3.
  - rewrite (ReplaceAll_join CR lf crlf) by (done || apply Hlack; byte).
    rewrite (ReplaceAll_absent CR _ cr) by byte. by rewrite Hlf3.
  - assert (LF ∉ to_bytes (Join ls cr)) by (apply Hj; byte).
    rewrite (ReplaceAll_absent LF _ crlf) by byte.
    rewrite (ReplaceAll_join CR "" cr) by (done || apply Hlack; byte). by rewrite Hlf3.
  - assert (CR ∉ to_bytes (Join ls escaped_lf))
      by (apply Hj; byte).
    assert (LF ∉ to_bytes (Join ls escaped_lf))
      by (apply Hj; byte).
    rewrite (ReplaceAll_absent CR _ crlf), (ReplaceAll_absent CR _ cr) by byte.
    rewrite (Contains_absent LF _ lf), andb_true_r by byte.
    assert (ReplaceAll (Join ls escaped_lf) escaped_lf lf = Join ls lf) as Hrep
      by (apply (ReplaceAll_join backslash "n"); [done|apply Hlack; byte]).
    destruct (Contains (Join ls escaped_lf) escaped_lf) eqn:E; [by rewrite Hrep|].
    rewrite <- Hrep. unfold ReplaceAll. rewrite replace_bytes_absent by exact E.
    rewrite of_to_bytes. by apply (pem_text_trimmed ls escaped_lf).
Qed.

(** What a returned certificate satisfies and where it comes from. *)
Lemma NormalizedCertificate_ok (c : casdoor_Config) cert :
  NormalizedCertificate c = (cert, None) ->
  cert <> "" /\ ValidateJWTPublicCertificate cert = None /\
  (TrimSpace (Certificate c) <> "" -> cert = normalizePEMText (TrimSpace (Certificate c))) /\
  (TrimSpace (Certificate c) = "" -> exists b,
     os_ReadFile (TrimSpace (CertificateFile c)) = inl b /\ cert = normalizePEMText (TrimSpace b)).
Proof.
  unfold NormalizedCertificate. case_decide as Hf.
  - destruct Hf as [Hc Hf]. destruct (os_ReadFile _) as [b|e] eqn:Er; [|done].
    case_decide; [done|]. destruct (ValidateJWTPublicCertificate _) eqn:Ev; [done|].
    intros [= <-]. split_and!; [done..|]. intros _. eauto.
  - case_decide as Hn; [done|]. destruct (ValidateJWTPublicCertificate _) eqn:Ev; [done|].
    intros [= <-]. split_and!; [done..|]. intros Hc. by rewrite Hc in Hn.
Qed.

End certificates.

(** With an inline certificate no file is read. *)
Lemma NormalizedCertificate_inline `{X509, Host} (c : casdoor_Config) :
  TrimSpace (Certificate c) <> "" -> forall read,
    NormalizedCertificate (H0 := {| os_ReadFile := read; strconv_Quote := strconv_Quote |}) c
    = NormalizedCertificate c.
Proof. intros Hc read. unfold NormalizedCertificate. by destruct (decide (_ /\ _)) as [[? _]|_]. Qed.

(** C17: [NormalizedCertificate] returns a certificate only if it is a single
    PEM block holding a public RSA key; the inline certificate wins over the
    file: with one that is not blank, the result, errors included, is the same
    whatever reading a file would give; a private key is refused. *)
Theorem NormalizedCertificate_spec `{X509, Host} (c : casdoor_Config) cert :
  (NormalizedCertificate c = (cert, None) ->
     cert <> "" /\ ValidateJWTPublicCertificate cert = None /\
     (TrimSpace (Certificate c) <> "" -> cert = normalizePEMText (TrimSpace (Certificate c))) /\
     (TrimSpace (Certificate c) = "" -> exists b,
        os_ReadFile (TrimSpace (CertificateFile c)) = inl b /\ cert = normalizePEMText (TrimSpace b)))
  /\ (forall pemText block rest, pem_Decode (normalizePEMText pemText) = (Some block, rest) ->
        blk_Type block ∈ ["PRIVATE KEY"; "RSA PRIVATE KEY"; "EC PRIVATE KEY"] ->
        ValidateJWTPublicCertificate pemText <> None)
  /\ (forall pemText, ValidateJWTPublicCertificate pemText = None <->
        normalizePEMText pemText <> "" /\ public_rsa (normalizePEMText pemText))
  /\ (TrimSpace (Certificate c) <> "" -> forall read,
        NormalizedCertificate (H0 := {| os_ReadFile := read; strconv_Quote := strconv_Quote |}) c
        = NormalizedCertificate c).
Proof.
  split_and!; [apply NormalizedCertificate_ok| |apply Validate_iff|apply NormalizedCertificate_inline].
  intros pemText block rest E Hb Hv. apply Validate_iff in Hv as (_ & b' & r' & E' & _ & Ht).
  rewrite E in E'. injection E' as <- <-.
  destruct Ht as [[Ht _]|[[Ht _]|[Ht _]]]; rewrite Ht in Hb; set_solver.
Qed.

Lemma normalizePEMText_line_ends_witness :
  Forall (fun sep => normalizePEMText (Join ["-----BEGIN PUBLIC KEY-----"; "QUJD"; "-----END PUBLIC KEY-----"] sep)
    = Join ["-----BEGIN PUBLIC KEY-----"; "QUJD"; "-----END PUBLIC KEY-----"] lf) [lf; crlf; cr; escaped_lf].
Proof.
  apply normalizePEMText_line_ends; [discriminate|].
  repeat (apply Forall_cons; split); try apply Forall_nil_2; split;
    first [apply (bool_decide_unpack _); vm_compute; exact I|eexists; split; vm_compute; reflexivity].
Defined.
