(* ===== verification/CasdoorMemory.v ===== *)
(** * A concrete Casdoor service.

    A single in-memory policy list with a script of faults: a call whose fault is
    [lost] fails and does nothing, one whose fault is [unacked] does its work but
    answers with an error.  It shows that the assumptions of [PolicyStore] hold
    of a concrete service, and the witnesses of the Casdoor files run on it. *)

From S2P Require Import Prelude GoStrings GoTime Principal Env Retry CasdoorClient.

Inductive fault : Type := fine | lost | unacked.

Record Memory := mkMemory {
  mem_rules : list CasbinRule;
  mem_faults : list fault;
  mem_records : list SdkRecord;
}.

Definition unavailable : error := errForeign "casdoor" "service unavailable".

Definition mem_call {A} (dflt : A) (f : Memory -> A * Memory) : Memory -> (A * option error) * Memory :=
  fun s =>
  let s1 := mkMemory (mem_rules s) (tail (mem_faults s)) (mem_records s) in
  match head (mem_faults s) with
  | None | Some fine => let '(a, s') := f s1 in ((a, None), s')
  | Some lost => ((dflt, Some unavailable), s1)
  | Some unacked => ((dflt, Some unavailable), (f s1).2)
  end.

Definition mem_add (r : CasbinRule) (s : Memory) : bool * Memory :=
  if decide (r ∈ mem_rules s) then (false, s)
  else (true, mkMemory (mem_rules s ++ [r]) (mem_faults s) (mem_records s)).

Definition mem_remove (r : CasbinRule) (s : Memory) : bool * Memory :=
  (bool_decide (r ∈ mem_rules s),
   mkMemory (filter (fun x => x <> r) (mem_rules s)) (mem_faults s) (mem_records s)).

Definition mem_enforce (sel : Selectors) (req : list any) (s : Memory) : bool * Memory :=
  (match req with
   | [any_string u; any_string o; any_string a] => bool_decide (p_rule u o a ∈ mem_rules s)
   | _ => false
   end, s).

Definition mem_record (r : SdkRecord) (s : Memory) : bool * Memory :=
  (true, mkMemory (mem_rules s) (mem_faults s) (mem_records s ++ [r])).

Definition mem_claims (token : string) : option JwtClaims :=
  Some (mkJwtClaims token "" "" "" "" "casdoor" "" []).

#[export] Instance memory_client : CasdoorClient Memory := {
  sdk_AddPolicy := fun _ r => mem_call false (mem_add r);
  sdk_RemovePolicy := fun _ r => mem_call false (mem_remove r);
  sdk_GetPolicies := fun _ _ => mem_call [] (fun s => (Some <$> mem_rules s, s));
  sdk_Enforce := fun sel req => mem_call false (mem_enforce sel req);
  sdk_AddRecord := fun r => mem_call false (mem_record r);
  sdk_ParseJwtToken := fun tok => mem_call None (fun s => (mem_claims tok, s));
  sdk_GetApplication := fun _ => mem_call tt (fun s => (tt, s));
}.

Definition mem_stored (s : Memory) : propset CasbinRule := {[ r | r ∈ mem_rules s ]}.

(** What a scripted call does to the rules: the call's own effect, or nothing
    and then only with an error. *)
Lemma mem_call_inv {A} (dflt : A) f s a err s' :
  mem_call dflt f s = ((a, err), s') ->
  exists s1, mem_rules s1 = mem_rules s /\
    ((err = None /\ (a, s') = f s1) \/ (err <> None /\ (s' = s1 \/ s' = (f s1).2))).
Proof.
  unfold mem_call. intros H.
  exists (mkMemory (mem_rules s) (tail (mem_faults s)) (mem_records s)). split; [done|].
  destruct (head (mem_faults s)) as [[| |]|];
    first [by destruct (f _) as [? ?]; simplify_eq; left|simplify_eq; right; eauto].
Qed.

Lemma mem_add_stored r s : mem_stored (mem_add r s).2 ≡ mem_stored s ∪ {[r]}.
Proof.
  unfold mem_add, mem_stored. intros x. case_decide; simpl; rewrite !elem_of_union, !elem_of_PropSet,
    elem_of_singleton, ?elem_of_app, ?list_elem_of_singleton; naive_solver.
Qed.

Lemma mem_remove_stored r s : mem_stored (mem_remove r s).2 ≡ mem_stored s ∖ {[r]}.
Proof.
  unfold mem_remove, mem_stored. intros x. simpl.
  rewrite elem_of_difference, !elem_of_PropSet, elem_of_singleton, list_elem_of_filter. naive_solver.
Qed.

#[export] Instance memory_store en ad : PolicyStore memory_client en ad mem_stored.
Proof.
  assert (forall s s1, mem_rules s1 = mem_rules s -> mem_stored s1 ≡ mem_stored s) as Hst.
  { unfold mem_stored. by intros s s1 ->. }
  split; simpl.
  - intros r s ok s' (s1 & E & [[_ H]|[? _]])%mem_call_inv; [|done].
    rewrite <- (Hst _ _ E), <- mem_add_stored. by rewrite <- H.
  - intros r s ok e s' (s1 & E & [[? _]|[_ [->| ->]]])%mem_call_inv; [done|left; by apply Hst|right].
    by rewrite <- (Hst _ _ E), <- mem_add_stored.
  - intros r s ok s' (s1 & E & [[_ H]|[? _]])%mem_call_inv; [|done].
    rewrite <- (Hst _ _ E), <- mem_remove_stored. by rewrite <- H.
  - intros r s ok e s' (s1 & E & [[? _]|[_ [->| ->]]])%mem_call_inv; [done|left; by apply Hst|right].
    by rewrite <- (Hst _ _ E), <- mem_remove_stored.
  - intros s rs err s' (s1 & E & [[_ H]|[_ [->| ->]]])%mem_call_inv; simplify_eq; by apply Hst.
  - intros s rs s' (s1 & E & [[_ H]|[? _]])%mem_call_inv r; [|done]. simplify_eq.
    rewrite list_elem_of_fmap, E. unfold mem_stored. rewrite elem_of_PropSet. naive_solver.
  - intros sel req s [ok err] s' (s1 & E & [[_ H]|[_ [->| ->]]])%mem_call_inv;
      unfold mem_enforce in *; simplify_eq; by apply Hst.
Qed.

(** A world around the service: one nanosecond per call, and [select] takes the
    context's case when both are ready. *)
Definition memory_world (rules : list CasbinRule) (faults : list fault) : World Memory :=
  mkWorld (mkMemory rules faults []) 1000 [] (replicate 8 true) [] [].

Definition demo_config : casdoor_Config :=
  mkCasdoorConfig "https://casdoor" "id" "secret" "" "" "built-in" "hub"
    "built-in/perm" "" "" "built-in/enf" "" "enf" "" "" "" false false 0 "" 2 "1ms".

Definition demo_adapter : Adapter := mkAdapter demo_config (mkPolicy 2 1000000) None 10000000000.
