(* ===== verification/CasdoorPolicy.v ===== *)
(** * Policy management on Casdoor ([casdoor/policy.go]).

    The adapter's implementation of [permission.Manager], operation by operation,
    and the proof that it meets the contract [ManagerLaws] over any Casdoor store
    that keeps the promises of [PolicyStore], as long as the store holds plain
    three-column rules only. *)

From S2P Require Import Prelude GoStrings GoTime Principal Env Resource Retry Permission.
From S2P Require Import CasdoorClient CasdoorMemory.

Definition policyTarget (a : Adapter) : (Enforcer * string) + error :=
  let name := TrimSpace (firstNonEmpty [PolicyEnforcer (a_cfg a); EnforcerID (a_cfg a)]) in
  if decide (name = "") then
    inr (errText "casdoor policy_enforcer or enforcer_id is required for policy management")
  else
    let adapterID := TrimSpace (PolicyAdapterID (a_cfg a)) in
    inl (mkEnforcer (Organization (a_cfg a)) name, adapterID).

(** The request sent for a check: a triple, or with a domain a quadruple,
    followed by the extra values. *)
Definition casbin_request (subject domain resource action : string) (extra : list any) : list any :=
  (if decide (domain <> "")
   then [any_string subject; any_string domain; any_string resource; any_string action]
   else [any_string subject; any_string resource; any_string action]) ++ extra.

Section adapter.
Context {S : Type} {client : CasdoorClient S} (rm : roleMapper) (a : Adapter).
Implicit Types (w : World S) (c : ctx).

(** A retried call followed by its metrics sample. *)
Definition observed_call {V} (c : ctx) (started : Time) (operation : string) (v0 : V)
    (f : service_call S V) : prog (World S) (V * option error) :=
  '(v, err) ← retried c (a_retry a) v0 f;
  _ ← ObserveDependency (a_metrics a) "casdoor" operation started err;
  mret (v, err).

Definition dependency_call {V} (c : ctx) (operation : string) (v0 : V) (f : service_call S V)
    : prog (World S) (V * option error) :=
  started ← time_Now;
  observed_call c started operation v0 f.

(** The boolean of [AddPolicy] and [RemovePolicy] is only logged. *)
Definition drop_bool (f : service_call S bool) : service_call S unit := fun s =>
  let '((_, err), s') := f s in ((tt, err), s').

Definition addPolicy c (subject object action : string) : prog (World S) (option error) :=
  match policyTarget a with
  | inr err => mret (Some err)
  | inl (enforcer, _) =>
      let rule := p_rule subject object action in
      '(_, err) ← dependency_call c "add_policy" tt (drop_bool (sdk_AddPolicy enforcer rule));
      mret err
  end.

Definition removePolicy c (subject object action : string) : prog (World S) (option error) :=
  match policyTarget a with
  | inr err => mret (Some err)
  | inl (enforcer, _) =>
      let rule := p_rule subject object action in
      '(_, err) ← dependency_call c "remove_policy" tt (drop_bool (sdk_RemovePolicy enforcer rule));
      mret err
  end.

Definition Adapter_GrantRole c (grant : Grant) : prog (World S) (option error) :=
  let '(g, err) := NormalizeGrant grant in
  match err with
  | Some err => mret (Some err)
  | None =>
      let '(actions, err) := RoleActionsForResource rm (gr_Resource g) (gr_Role g) (gr_Actions g) in
      match err with
      | Some err => mret (Some err)
      | None => for_each (fun act => addPolicy c (gr_Subject g) (gr_Resource g) act) actions
      end
  end.

Definition Adapter_Grant c (grant : Grant) : prog (World S) (option error) :=
  let '(g, err) := NormalizeGrant grant in
  match err with
  | Some err => mret (Some err)
  | None =>
      if decide (gr_Action g = "") then Adapter_GrantRole c g
      else addPolicy c (gr_Subject g) (gr_Resource g) (gr_Action g)
  end.

Definition Adapter_Share c (req : ShareRequest) : prog (World S) (option error) :=
  let '(g, err) := NormalizeShare req in
  match err with
  | Some err => mret (Some err)
  | None => Adapter_GrantRole c g
  end.

Definition Adapter_Revoke c (grant : Grant) : prog (World S) (option error) :=
  let '(g, err) := NormalizeGrant grant in
  match err with
  | Some err => mret (Some err)
  | None =>
      let '(actions, err) :=
        if decide (gr_Action g = "")
        then RoleActionsForResource rm (gr_Resource g) (gr_Role g) (gr_Actions g)
        else ([gr_Action g], None) in
      match err with
      | Some err => mret (Some err)
      | None => for_each (fun act => removePolicy c (gr_Subject g) (gr_Resource g) act) actions
      end
  end.

Definition check_subject (req : CheckRequest) : string :=
  if decide (TrimSpace (cr_Subject req) = "" /\ cr_Principal req <> None)
  then SubjectFromPrincipal (cr_Principal req) else TrimSpace (cr_Subject req).

Definition Adapter_Check c (req : CheckRequest) : prog (World S) (res bool) :=
  let subject := check_subject req in
  if decide (subject = "") then mret (false, Some ErrEmptySubject) else
  if decide (cr_Resource req = "") then mret (false, Some ErrEmptyResource) else
  if decide (cr_Action req = "") then mret (false, Some ErrEmptyAction) else
  '(allowed, err) ← dependency_call c "permission_check" false
    (sdk_Enforce (enforceSelectors a)
      (casbin_request subject (cr_Domain req) (cr_Resource req) (cr_Action req) (cr_Extra req)));
  match err with
  | Some err => mret (false, Some err)
  | None => mret (allowed, None)
  end.

(** The body of the loop of [List]. *)
Definition listed (filter : ListFilter) (r : option CasbinRule) : option Grant :=
  match r with
  | None => None
  | Some r =>
    if decide (Ptype r <> "p") then None else
    let g := policy_grant (V0 r, V1 r, V2 r) in
    if decide (lf_Subject filter <> "" /\ lf_Subject filter <> gr_Subject g) then None else
    if decide (lf_Resource filter <> "" /\ lf_Resource filter <> gr_Resource g) then None else
    if decide (lf_Action filter <> "" /\ lf_Action filter <> gr_Action g) then None else
    Some g
  end.

Definition Adapter_List c (filter : ListFilter) : prog (World S) (res (list Grant)) :=
  match policyTarget a with
  | inr err => mret ([], Some err)
  | inl (enforcer, adapterID) =>
      '(rules, err) ← dependency_call c "get_policies" []
        (sdk_GetPolicies (en_Name enforcer) adapterID);
      match err with
      | Some err => mret ([], Some err)
      | None => mret (omap (listed filter) rules, None)
      end
  end.

Definition Adapter_DeleteResourcePoliciesEx c (req : DeleteResourceRequest)
    : prog (World S) (option error) :=
  if decide (dr_Resource req = "") then mret (Some ErrEmptyResource) else
  '(grants, err) ← Adapter_List c (mkListFilter "" (dr_Resource req) "" "");
  match err with
  | Some err => mret (Some err)
  | None => for_each (fun g => removePolicy c (gr_Subject g) (gr_Resource g) (gr_Action g)) grants
  end.

Definition Adapter_DeleteResourcePolicies c (r : Name) : prog (World S) (option error) :=
  Adapter_DeleteResourcePoliciesEx c (mkDeleteResourceRequest r "" "").

(** The adapter as a [permission.Manager]. *)
Definition casdoor_manager : Manager (World S) :=
  mkManager Adapter_Grant Adapter_GrantRole Adapter_Share Adapter_Revoke Adapter_Check
    Adapter_List Adapter_DeleteResourcePolicies Adapter_DeleteResourcePoliciesEx.
End adapter.

(** ** The store seen as a set of policies *)

(** A store of plain rules: the [p] rules use three columns only. *)
Definition plain (P : propset CasbinRule) : Prop :=
  forall r, r ∈ P -> Ptype r = "p" -> V3 r = "" /\ V4 r = "" /\ V5 r = "".

Definition policies_of (P : propset CasbinRule) : propset policy :=
  {[ x | p_rule x.1.1 x.1.2 x.2 ∈ P ]}.

#[export] Instance plain_proper : Proper ((≡) ==> iff) plain.
Proof. intros P Q E. unfold plain. split; intros H r Hr; apply H; by apply E. Qed.

#[export] Instance policies_of_proper : Proper ((≡) ==> (≡)) policies_of.
Proof. intros P Q E x. unfold policies_of. rewrite !elem_of_PropSet. apply E. Qed.

Lemma p_rule_inj x y : p_rule x.1.1 x.1.2 x.2 = p_rule y.1.1 y.1.2 y.2 <-> x = y.
Proof. destruct x as [[? ?] ?], y as [[? ?] ?]; simpl. split; [by intros [= -> -> ->]|by intros [= -> -> ->]]. Qed.

Lemma plain_rule P r : plain P -> r ∈ P -> Ptype r = "p" -> r = p_rule (V0 r) (V1 r) (V2 r).
Proof. intros HP Hr Hp. destruct (HP r Hr Hp) as (? & ? & ?). destruct r; simpl in *; by subst. Qed.

Lemma plain_add P x : plain P -> plain (P ∪ {[p_rule x.1.1 x.1.2 x.2]}).
Proof.
  intros HP r [Hr|Hr]%elem_of_union Hp; [by apply HP|].
  apply elem_of_singleton in Hr as ->. done.
Qed.

Lemma plain_remove P X : plain P -> plain (P ∖ X).
Proof. intros HP r [Hr _]%elem_of_difference. by apply HP. Qed.

Lemma policies_of_add P x : policies_of (P ∪ {[p_rule x.1.1 x.1.2 x.2]}) ≡ policies_of P ∪ {[x]}.
Proof.
  intros y. unfold policies_of.
  by rewrite elem_of_PropSet, !elem_of_union, elem_of_PropSet, !elem_of_singleton, p_rule_inj.
Qed.

Lemma policies_of_remove P x : policies_of (P ∖ {[p_rule x.1.1 x.1.2 x.2]}) ≡ policies_of P ∖ {[x]}.
Proof.
  intros y. unfold policies_of.
  by rewrite elem_of_PropSet, !elem_of_difference, elem_of_PropSet, !elem_of_singleton, p_rule_inj.
Qed.

(** ** Sequences of changes *)

#[export] Instance adds_proper :
  Proper ((≡) ==> (=) ==> (≡) ==> (≡) ==> iff) adds.
Proof.
  intros X Y EX e e' <- P P' EP Q Q' EQ. unfold adds.
  destruct EX as [X Y EX|], e; rewrite ?EX, ?EP, ?EQ; done.
Qed.

#[export] Instance removes_proper :
  Proper ((≡) ==> (=) ==> (≡) ==> (≡) ==> iff) removes.
Proof.
  intros X Y EX e e' <- P P' EP Q Q' EQ. unfold removes.
  destruct EX as [X Y EX|], e; rewrite ?EX, ?EP, ?EQ; done.
Qed.

Lemma adds_full X err P P' : P' ≡ P ∪ X -> adds (Some X) err P P'.
Proof. intros E. destruct err; simpl; [set_solver|done]. Qed.

Lemma adds_nothing X e P P' : P' ≡ P -> adds (Some X) (Some e) P P'.
Proof. simpl. set_solver. Qed.

Lemma removes_full X err P P' : P' ≡ P ∖ X -> removes (Some X) err P P'.
Proof. intros E. destruct err; simpl; [set_solver|done]. Qed.

Lemma removes_nothing X e P P' : P' ≡ P -> removes (Some X) (Some e) P P'.
Proof. simpl. set_solver. Qed.

Definition keys {A} (key : A -> policy) (l : list A) : propset policy :=
  {[ y | exists x, x ∈ l /\ y = key x ]}.

Lemma keys_cons {A} (key : A -> policy) x l : keys key (x :: l) ≡ {[key x]} ∪ keys key l.
Proof. unfold keys. intros y. rewrite elem_of_union, !elem_of_PropSet. set_solver. Qed.

Lemma keys_policies_for s o acts : keys (fun act => (s, o, act)) acts ≡ policies_for s o acts.
Proof.
  intros [[s' o'] act]. unfold keys, policies_for. rewrite !elem_of_PropSet. simpl. naive_solver.
Qed.

Section for_each.
Context {W A : Type} (f : A -> prog W (option error)) (key : A -> policy)
  (Inv : W -> Prop) (pols : W -> propset policy).

Lemma for_each_adds l w err w' :
  (forall x w err w', Inv w -> f x w = (Ret err, w') ->
     Inv w' /\ adds (Some {[key x]}) err (pols w) (pols w')) ->
  Inv w -> for_each f l w = (Ret err, w') ->
  Inv w' /\ adds (Some (keys key l)) err (pols w) (pols w').
Proof.
  intros Hf. revert w. induction l as [|x l IH]; intros w HI; cbn [for_each].
  { intros [= <- <-]. split; [done|]. simpl. unfold keys. set_solver. }
  intros (e & w1 & E & H)%bind_Ret_inv. destruct (Hf _ _ _ _ HI E) as [HI1 A1].
  rewrite keys_cons. destruct e as [e|].
  - injection H as <- <-. split; [done|]. simpl in *. set_solver.
  - destruct (IH _ HI1 H) as [HI' A2]. split; [done|].
    destruct err; simpl in *; set_solver.
Qed.

Lemma for_each_removes l w err w' :
  (forall x w err w', Inv w -> f x w = (Ret err, w') ->
     Inv w' /\ removes (Some {[key x]}) err (pols w) (pols w')) ->
  Inv w -> for_each f l w = (Ret err, w') ->
  Inv w' /\ removes (Some (keys key l)) err (pols w) (pols w').
Proof.
  intros Hf. revert w. induction l as [|x l IH]; intros w HI; cbn [for_each].
  { intros [= <- <-]. split; [done|]. simpl. unfold keys. set_solver. }
  intros (e & w1 & E & H)%bind_Ret_inv. destruct (Hf _ _ _ _ HI E) as [HI1 A1].
  rewrite keys_cons. destruct e as [e|].
  - injection H as <- <-. split; [done|]. simpl in *. set_solver.
  - destruct (IH _ HI1 H) as [HI' A2]. split; [done|].
    destruct err; simpl in *; set_solver.
Qed.
End for_each.

(** ** The adapter against the store *)

Section laws.
Context {S : Type} {client : CasdoorClient S} (rm : roleMapper) (a : Adapter).
Context (en : Enforcer) (ad : string) (stored : S -> propset CasbinRule).
Context `{!PolicyStore client en ad stored}.
Context (Htarget : policyTarget a = inl (en, ad)).
Implicit Types (w : World S) (c : ctx).

Definition plain_store w : Prop := plain (stored (w_svc w)).
Definition store_policies w : propset policy := policies_of (stored (w_svc w)).

Lemma observed_call_inv {V} c started op (v0 : V) f w v err w' :
  observed_call a c started op v0 f w = (Ret (v, err), w') ->
  exists w1, retried c (a_retry a) v0 f w = (Ret (v, err), w1) /\ quiet w1 w'.
Proof.
  unfold observed_call. intros ([v1 err1] & w2 & E2 & H)%bind_Ret_inv.
  destruct (ObserveDependency_quiet (a_metrics a) "casdoor" op started err1 w2) as (w3 & E3 & Hq3).
  revert H. run_prog. rewrite E3. intros [= <- <- <-]. eauto.
Qed.

Lemma observed_call_rule {V} (I : S -> Prop) (Q : V -> S -> Prop) c started op v0 f w v err w' :
  (forall s x e s', I s -> f s = ((x, Some e), s') -> I s') ->
  (forall s x s', I s -> f s = ((x, None), s') -> Q x s') ->
  I (w_svc w) -> observed_call a c started op v0 f w = (Ret (v, err), w') ->
  match err with None => Q v (w_svc w') | Some _ => I (w_svc w') end.
Proof.
  intros Hfail Hok HI (w1 & H & (E & _))%observed_call_inv.
  rewrite E. eapply (retried_rule I Q); [done..|exact H].
Qed.

Lemma dependency_call_inv {V} c op (v0 : V) f w v err w' :
  dependency_call a c op v0 f w = (Ret (v, err), w') ->
  exists w1 w2, quiet w w1 /\ retried c (a_retry a) v0 f w1 = (Ret (v, err), w2) /\ quiet w2 w'.
Proof.
  unfold dependency_call. intros (started & w1 & E1 & H)%bind_Ret_inv.
  destruct (time_Now_quiet w) as (t & w1' & E & Hq & _). rewrite E in E1. injection E1 as -> ->.
  apply observed_call_inv in H as (w2 & ? & ?). eauto 10.
Qed.

Lemma dependency_call_rule {V} (I : S -> Prop) (Q : V -> S -> Prop) c op v0 f w v err w' :
  (forall s x e s', I s -> f s = ((x, Some e), s') -> I s') ->
  (forall s x s', I s -> f s = ((x, None), s') -> Q x s') ->
  I (w_svc w) -> dependency_call a c op v0 f w = (Ret (v, err), w') ->
  match err with None => Q v (w_svc w') | Some _ => I (w_svc w') end.
Proof.
  intros Hfail Hok HI (w1 & w2 & (E1 & _) & H & (E2 & _))%dependency_call_inv.
  rewrite E2. eapply (retried_rule I Q); [done..| |exact H]. by rewrite E1.
Qed.

Lemma drop_bool_inv (f : service_call S bool) s x err s' :
  drop_bool f s = ((x, err), s') -> exists ok, f s = ((ok, err), s').
Proof. unfold drop_bool. destruct (f s) as [[ok e] s1]. intros [= <- <- <-]. eauto. Qed.

Lemma addPolicy_adds c x w err w' :
  plain_store w -> addPolicy a c x.1.1 x.1.2 x.2 w = (Ret err, w') ->
  plain_store w' /\ adds (Some {[x]}) err (store_policies w) (store_policies w').
Proof.
  unfold addPolicy, plain_store, store_policies. rewrite Htarget. intros HI H.
  apply bind_Ret_inv in H as ([? err1] & w1 & H & [= -> <-]).
  set (P := stored (w_svc w)) in *. set (r := p_rule x.1.1 x.1.2 x.2) in *.
  apply (dependency_call_rule (fun s => stored s ≡ P \/ stored s ≡ P ∪ {[r]})
    (fun _ s => stored s ≡ P ∪ {[r]})) in H; [| | |by left].
  - destruct err as [e|]; [destruct H as [H|H]|]; rewrite H.
    + split; [done|by apply adds_nothing].
    + split; [by apply plain_add|apply adds_full, policies_of_add].
    + split; [by apply plain_add|apply adds_full, policies_of_add].
  - intros s v e s' Hs (ok & [H1|H1]%AddPolicy_failed)%drop_bool_inv; rewrite H1; [done|].
    right. destruct Hs as [-> | ->]; set_solver.
  - intros s v s' Hs (ok & H1%AddPolicy_done)%drop_bool_inv. rewrite H1.
    destruct Hs as [-> | ->]; set_solver.
Qed.

Lemma removePolicy_removes c x w err w' :
  plain_store w -> removePolicy a c x.1.1 x.1.2 x.2 w = (Ret err, w') ->
  plain_store w' /\ removes (Some {[x]}) err (store_policies w) (store_policies w').
Proof.
  unfold removePolicy, plain_store, store_policies. rewrite Htarget. intros HI H.
  apply bind_Ret_inv in H as ([? err1] & w1 & H & [= -> <-]).
  set (P := stored (w_svc w)) in *. set (r := p_rule x.1.1 x.1.2 x.2) in *.
  apply (dependency_call_rule (fun s => stored s ≡ P \/ stored s ≡ P ∖ {[r]})
    (fun _ s => stored s ≡ P ∖ {[r]})) in H; [| | |by left].
  - destruct err as [e|]; [destruct H as [H|H]|]; rewrite H.
    + split; [done|by apply removes_nothing].
    + split; [by apply plain_remove|apply removes_full, policies_of_remove].
    + split; [by apply plain_remove|apply removes_full, policies_of_remove].
  - intros s v e s' Hs (ok & [H1|H1]%RemovePolicy_failed)%drop_bool_inv; rewrite H1; [done|].
    right. destruct Hs as [-> | ->]; set_solver.
  - intros s v s' Hs (ok & H1%RemovePolicy_done)%drop_bool_inv. rewrite H1.
    destruct Hs as [-> | ->]; set_solver.
Qed.

Lemma add_all c s o acts w err w' :
  plain_store w -> for_each (fun act => addPolicy a c s o act) acts w = (Ret err, w') ->
  plain_store w' /\ adds (Some (policies_for s o acts)) err (store_policies w) (store_policies w').
Proof.
  rewrite <- keys_policies_for. apply for_each_adds.
  intros act w1 err1 w2. apply (addPolicy_adds c (s, o, act)).
Qed.

Lemma remove_all c s o acts w err w' :
  plain_store w -> for_each (fun act => removePolicy a c s o act) acts w = (Ret err, w') ->
  plain_store w' /\ removes (Some (policies_for s o acts)) err (store_policies w) (store_policies w').
Proof.
  rewrite <- keys_policies_for. apply for_each_removes.
  intros act w1 err1 w2. apply (removePolicy_removes c (s, o, act)).
Qed.

Lemma GrantRole_adds c g w err w' :
  plain_store w -> Adapter_GrantRole rm a c g w = (Ret err, w') ->
  plain_store w' /\ adds (grant_role_policies rm g) err (store_policies w) (store_policies w').
Proof.
  unfold Adapter_GrantRole, grant_role_policies, role_actions. intros HI.
  destruct (NormalizeGrant g) as [g1 [e|]]; [by intros [= <- <-]|].
  destruct (RoleActionsForResource _ _ _ _) as [acts [e|]]; [by intros [= <- <-]|].
  by apply add_all.
Qed.

Lemma Grant_adds c g w err w' :
  plain_store w -> Adapter_Grant rm a c g w = (Ret err, w') ->
  plain_store w' /\ adds (grant_policies rm g) err (store_policies w) (store_policies w').
Proof.
  unfold Adapter_Grant, grant_policies, grant_actions. intros HI.
  destruct (NormalizeGrant g) as [g1 [e|]] eqn:En; [by intros [= <- <-]|].
  case_decide as Ha; intros H.
  - apply GrantRole_adds in H; [|done]. revert H. unfold grant_role_policies.
    by rewrite NormalizeGrant_id by (by eapply NormalizeGrant_normal).
  - apply (addPolicy_adds c (gr_Subject g1, gr_Resource g1, gr_Action g1)) in H; [|done].
    cbn [fmap option_fmap option_map]. rewrite <- keys_policies_for, keys_cons.
    destruct H as [? H]. split; [done|]. revert H. apply adds_proper; [|done..].
    constructor. unfold keys. set_solver.
Qed.

Lemma Revoke_removes c g w err w' :
  plain_store w -> Adapter_Revoke rm a c g w = (Ret err, w') ->
  plain_store w' /\ removes (grant_policies rm g) err (store_policies w) (store_policies w').
Proof.
  unfold Adapter_Revoke, grant_policies, grant_actions, role_actions. intros HI.
  destruct (NormalizeGrant g) as [g1 [e|]]; [by intros [= <- <-]|].
  case_decide; [|by apply remove_all].
  destruct (RoleActionsForResource _ _ _ _) as [acts [e|]]; [by intros [= <- <-]|].
  by apply remove_all.
Qed.

(** Reading calls leave the set of rules as it is. *)
Lemma reading_call {V} c op (v0 : V) f w v err w' :
  (forall s r s', f s = (r, s') -> stored s' ≡ stored s) ->
  dependency_call a c op v0 f w = (Ret (v, err), w') -> stored (w_svc w') ≡ stored (w_svc w).
Proof.
  intros Hread H.
  apply (dependency_call_rule (fun s => stored s ≡ stored (w_svc w))
    (fun _ s => stored s ≡ stored (w_svc w))) in H; [by destruct err| | |done];
    intros s x; [intros e|]; intros s' Hs Hf; by rewrite (Hread _ _ _ Hf).
Qed.

Lemma Check_inv c req w ok err w' :
  Adapter_Check a c req w = (Ret (ok, err), w') ->
  (ok = false /\ err <> None /\ w' = w) \/
  (exists allowed, dependency_call a c "permission_check" false
    (sdk_Enforce (enforceSelectors a) (casbin_request (check_subject req) (cr_Domain req)
      (cr_Resource req) (cr_Action req) (cr_Extra req))) w = (Ret (allowed, err), w')
    /\ check_subject req <> "" /\ cr_Resource req <> "" /\ cr_Action req <> ""
    /\ ok = match err with None => allowed | Some _ => false end).
Proof.
  unfold Adapter_Check.
  repeat (case_decide; [intros [= <- <- <-]; by left|]).
  intros ([al e] & w1 & Hd & Hr)%bind_Ret_inv. right. exists al.
  destruct e; injection Hr as <- <- <-; by rewrite Hd.
Qed.

Lemma listed_Some f r g :
  listed f (Some r) = Some g <->
    Ptype r = "p" /\ g = policy_grant (V0 r, V1 r, V2 r) /\ filter_matches f (V0 r, V1 r, V2 r).
Proof.
  assert (forall u v : string, ~ (u <> "" /\ u <> v) <-> u = "" \/ u = v) as Hm.
  { intros u v. destruct (decide (u = "")), (decide (u = v)); tauto. }
  unfold listed, filter_matches. simpl. rewrite <- !Hm. split.
  - repeat (case_decide; [done|]). intros [= <-]. by split_and!.
  - intros (Hp & -> & H1 & H2 & H3). by rewrite !decide_False by tauto.
Qed.

Lemma List_spec c f w gs err w' :
  plain_store w -> Adapter_List a c f w = (Ret (gs, err), w') ->
  stored (w_svc w') ≡ stored (w_svc w) /\
  (err = None -> forall g, g ∈ gs <-> exists x, g = policy_grant x /\ x ∈ store_policies w
                                                /\ filter_matches f x).
Proof.
  unfold Adapter_List. rewrite Htarget. intros HI ([rs e] & w1 & H & H1)%bind_Ret_inv.
  assert (w1 = w') as <- by (by destruct e; injection H1).
  split. { eapply reading_call; [|exact H]. intros s [rs1 e1] s' E. by eapply GetPolicies_reads. }
  intros ->. destruct e as [e|]; [done|]. injection H1 as <-.
  apply (dependency_call_rule (fun s => stored s ≡ stored (w_svc w))
    (fun rs _ => forall r, Some r ∈ rs <-> r ∈ stored (w_svc w))) in H; [| | |done]; cycle 1.
  { intros s x e s' Hs E. by rewrite (GetPolicies_reads _ _ _ _ E). }
  { intros s x s' Hs E r. rewrite (GetPolicies_lists _ _ _ E). apply Hs. }
  intros g. rewrite list_elem_of_omap. unfold store_policies, policies_of. split.
  - intros ([r|] & Hr & Hl); [|done]. apply listed_Some in Hl as (Hp & -> & Hm).
    exists (V0 r, V1 r, V2 r). split; [done|]. split; [|done].
    rewrite elem_of_PropSet. simpl. apply H in Hr. by rewrite <- (plain_rule _ _ HI Hr Hp).
  - intros ([[u o] act] & -> & Hx & Hm). rewrite elem_of_PropSet in Hx.
    exists (Some (p_rule u o act)). split; [by apply H|]. by apply listed_Some.
Qed.

Lemma DeleteEx_removes c req w err w' :
  plain_store w -> Adapter_DeleteResourcePoliciesEx a c req w = (Ret err, w') ->
  plain_store w' /\ removes (if decide (dr_Resource req = "") then None
                             else Some (on_resource (dr_Resource req)))
                            err (store_policies w) (store_policies w').
Proof.
  unfold Adapter_DeleteResourcePoliciesEx. intros HI.
  case_decide as Hr; [by intros [= <- <-]|].
  intros ([gs e] & w1 & HL & H)%bind_Ret_inv.
  pose proof (List_spec _ _ _ _ _ _ HI HL) as [Hst Hgs].
  assert (plain_store w1) as HI1 by (unfold plain_store; by rewrite Hst).
  assert (store_policies w1 ≡ store_policies w) as Hpol by (unfold store_policies; by rewrite Hst).
  rewrite <- Hpol. destruct e as [e|].
  { injection H as <- <-. split; [done|]. by apply removes_nothing. }
  eapply (for_each_removes _ (fun g => (gr_Subject g, gr_Resource g, gr_Action g) : policy)) in H;
    [|intros g v1 e1 v2; apply (removePolicy_removes c (gr_Subject g, gr_Resource g, gr_Action g))|done].
  destruct H as [HI' H]. split; [done|]. specialize (Hgs eq_refl).
  assert (forall x, x ∈ store_policies w1 ->
    (x ∈ keys (fun g => (gr_Subject g, gr_Resource g, gr_Action g) : policy) gs
     <-> x ∈ on_resource (dr_Resource req))) as Hk.
  { intros x Hx. unfold keys, on_resource. rewrite !elem_of_PropSet. split.
    - intros (g & (y & -> & _ & (_ & [? | Hy] & _))%Hgs & ->); done.
    - intros Hx1. exists (policy_grant x). split; [|by destruct x as [[? ?] ?]].
      apply Hgs. exists x. split; [done|]. split; [by apply Hpol|]. unfold filter_matches. simpl. auto 8. }
  revert H Hk. generalize (keys (fun g => (gr_Subject g, gr_Resource g, gr_Action g) : policy) gs).
  clear. intros X. destruct err; simpl.
  - intros [H1 H2] Hk. split; [done|]. intros x [Hx Hr]%elem_of_difference. apply H2.
    apply elem_of_difference. naive_solver.
  - intros -> Hk x. rewrite !elem_of_difference. naive_solver.
Qed.

#[export] Instance casdoor_laws :
  ManagerLaws rm (casdoor_manager rm a) plain_store store_policies.
Proof.
  split; simpl.
  - apply Grant_adds.
  - apply GrantRole_adds.
  - intros c req w err w'. unfold Adapter_Share, share_policies. intros HI.
    destruct (NormalizeShare req) as [g [e|]]; [by intros [= <- <-]|by apply GrantRole_adds].
  - apply Revoke_removes.
  - intros c req w ok err w' HI [(-> & ? & ->)|(al & H & _ & _ & _ & ->)]%Check_inv; [done|].
    assert (stored (w_svc w') ≡ stored (w_svc w)) as E.
    { eapply reading_call; [|exact H]. intros s r s'. apply Enforce_reads. }
    unfold plain_store, store_policies. rewrite E. split_and!; [done..|by destruct err].
  - intros c f w gs err w' HI H. destruct (List_spec _ _ _ _ _ _ HI H) as [E Hgs].
    unfold plain_store, store_policies. rewrite E. done.
  - apply DeleteEx_removes.
  - done.
Qed.
End laws.

(** ** Properties *)

Section properties.
Context {S : Type} {client : CasdoorClient S} (rm : roleMapper) (a : Adapter).
Implicit Types (w : World S) (c : ctx).

(** C1: the Casdoor adapter implements the contract of [permission.Manager] over
    every Casdoor store that keeps its documented promises, as long as the store
    holds policies of three columns only ([plain_store]: no [p] rule has a
    domain, effect or other further column).  The operations keep the store so,
    and each adds or removes exactly the policies its request stands for,
    retries, partial failures and unacknowledged calls included; a failed one has
    changed a part of them and nothing else; reads change nothing.  On a store
    with further columns deletion does not meet the contract:
    [DeleteResourcePolicies_leaves_extended]. *)
Theorem casdoor_manager_refines en ad (stored : S -> propset CasbinRule) :
  PolicyStore client en ad stored -> policyTarget a = inl (en, ad) ->
  ManagerLaws rm (casdoor_manager rm a) (plain_store stored) (store_policies stored).
Proof. intros ? ?. by apply (casdoor_laws rm a en ad stored). Qed.

(** A rule that [p_rule] cannot build is out of reach of [removePolicy]. *)
Lemma removePolicy_keeps en ad (stored : S -> propset CasbinRule) r c u o act w err w' :
  PolicyStore client en ad stored -> policyTarget a = inl (en, ad) ->
  V3 r <> "" -> r ∈ stored (w_svc w) -> removePolicy a c u o act w = (Ret err, w') ->
  r ∈ stored (w_svc w').
Proof.
  intros Hp Ht Hr Hin. unfold removePolicy. rewrite Ht.
  intros ([? err1] & w1 & H & [= -> <-])%bind_Ret_inv.
  assert (r <> p_rule u o act) as Hne by (intros ->; done).
  apply (dependency_call_rule a (fun s => r ∈ stored s) (fun _ s => r ∈ stored s)) in H;
    [by destruct err| | |done].
  - intros s v e s' Hs (ok & [E|E]%RemovePolicy_failed)%drop_bool_inv; rewrite E; set_solver.
  - intros s v s' Hs (ok & E%RemovePolicy_done)%drop_bool_inv. rewrite E. set_solver.
Qed.

(** [DeleteResourcePolicies] can only delete three-column rules: a [p] rule
    on the resource with a further column (an effect such as [allow]) is listed
    as a grant on it, but is still in the store after the deletion has reported
    success. *)
Theorem DeleteResourcePolicies_leaves_extended en ad (stored : S -> propset CasbinRule) c name w err w' :
  PolicyStore client en ad stored -> policyTarget a = inl (en, ad) ->
  forall r, r ∈ stored (w_svc w) -> Ptype r = "p" -> V1 r = name -> V3 r <> "" ->
  Adapter_DeleteResourcePolicies a c name w = (Ret err, w') ->
  r ∈ stored (w_svc w')
  /\ listed (mkListFilter "" name "" "") (Some r) = Some (policy_grant (V0 r, name, V2 r)).
Proof.
  intros Hs Ht r Hr Hp Hv1 Hv3 H. split.
  2: { apply listed_Some. subst name. unfold filter_matches. simpl. auto 8. }
  revert H. unfold Adapter_DeleteResourcePolicies, Adapter_DeleteResourcePoliciesEx.
  case_decide; [by intros [= <- <-]|]. intros ([gs e] & w1 & HL & H1)%bind_Ret_inv.
  assert (r ∈ stored (w_svc w1)) as Hr1.
  { revert HL. unfold Adapter_List. rewrite Ht. intros ([rs e1] & w2 & HD & HL)%bind_Ret_inv.
    apply (reading_call a stored) in HD.
    - assert (w2 = w1) as <- by (by destruct e1; injection HL). by rewrite HD.
    - intros s [rs1 e2] s' E. by eapply GetPolicies_reads. }
  destruct e; [by injection H1 as <- <-|].
  eapply (for_each_inv _ (fun w => r ∈ stored (w_svc w))); [|exact Hr1|exact H1].
  intros g w2 e2 w3 _ Hr2. exact (removePolicy_keeps en ad stored r c _ _ _ _ _ _ Hs Ht Hv3 Hr2).
Qed.

Definition set_Domain (d : string) (g : Grant) : Grant :=
  mkGrant (gr_Subject g) (gr_SubjectType g) (gr_SubjectID g) (gr_Resource g) (gr_Action g)
    (gr_Role g) (gr_Actions g) d (gr_GrantedBy g) (gr_ExpiresAt g) (gr_Metadata g).

(** A yes of [Check] is a yes of the service to its request. *)
Lemma Check_yes c req w err w' :
  Adapter_Check a c req w = (Ret (true, err), w') ->
  exists s s', sdk_Enforce (enforceSelectors a)
    (casbin_request (check_subject req) (cr_Domain req) (cr_Resource req) (cr_Action req)
       (cr_Extra req)) s = ((true, None), s').
Proof.
  intros [(? & _)|(al & H & _ & _ & _ & Ha)]%Check_inv; [done|]. destruct err; [done|]. subst al.
  apply (dependency_call_rule a (fun _ => True) (fun v _ => v = true -> exists s s',
    sdk_Enforce (enforceSelectors a) (casbin_request (check_subject req) (cr_Domain req)
      (cr_Resource req) (cr_Action req) (cr_Extra req)) s = ((true, None), s'))) in H;
    [by apply H|done| |done].
  intros s x s' _ E ->. eauto.
Qed.

Lemma NormalizeGrant_Domain d g :
  NormalizeGrant (set_Domain d g) = (set_Domain d (NormalizeGrant g).1, (NormalizeGrant g).2).
Proof. unfold NormalizeGrant, set_Domain, set_trimmed. simpl. branches. Qed.

Lemma GrantRole_Domain d c g w : Adapter_GrantRole rm a c (set_Domain d g) w = Adapter_GrantRole rm a c g w.
Proof.
  unfold Adapter_GrantRole. rewrite NormalizeGrant_Domain.
  destruct (NormalizeGrant g) as [g1 [e|]]; done.
Qed.

(** C39: the domain of a grant is dropped and that of a check is not.  Granting
    or revoking with a domain does, for every world, exactly what it does without
    one.  A [Check] with a domain answers yes only
    if Casdoor said yes to the quadruple of the subject, that domain, the resource
    and the action (then the caller's extra values), one without a domain only if
    it said yes to the triple. *)
Theorem Grant_drops_domain d c g w (req : CheckRequest) :
  (mgr_Grant (casdoor_manager rm a) c (set_Domain d g) w = mgr_Grant (casdoor_manager rm a) c g w)
  /\ (mgr_GrantRole (casdoor_manager rm a) c (set_Domain d g) w
      = mgr_GrantRole (casdoor_manager rm a) c g w)
  /\ (mgr_Revoke (casdoor_manager rm a) c (set_Domain d g) w
      = mgr_Revoke (casdoor_manager rm a) c g w)
  /\ (forall err w', mgr_Check (casdoor_manager rm a) c req w = (Ret (true, err), w') ->
        exists s s', sdk_Enforce (enforceSelectors a)
          (any_string (check_subject req)
             :: (if decide (cr_Domain req = "") then [] else [any_string (cr_Domain req)])
             ++ [any_string (cr_Resource req); any_string (cr_Action req)] ++ cr_Extra req) s
          = ((true, None), s')).
Proof.
  simpl. split_and!.
  - unfold Adapter_Grant. rewrite NormalizeGrant_Domain.
    destruct (NormalizeGrant g) as [g1 [e|]]; [done|]. simpl. case_decide; [|done].
    apply GrantRole_Domain.
  - apply GrantRole_Domain.
  - unfold Adapter_Revoke. rewrite NormalizeGrant_Domain.
    destruct (NormalizeGrant g) as [g1 [e|]]; done.
  - intros err w' (s & s' & E)%Check_yes. exists s, s'. rewrite <- E. f_equal. unfold casbin_request.
    destruct (decide (cr_Domain req = "")) as [->|Hd]; [done|]. by rewrite decide_True.
Qed.

(** A grant whose action list holds blank strings only is accepted and
    acknowledged, and grants nothing. *)
Theorem Grant_blank_actions c g w :
  grant_subject g <> "" -> gr_Resource g <> "" -> gr_ExpiresAt g = None ->
  TrimSpace (gr_Action g) = "" -> gr_Actions g <> [] ->
  Forall (fun act => TrimSpace act = "") (gr_Actions g) ->
  Adapter_Grant roleMapper_init a c g w = (Ret None, w).
Proof.
  intros Hs Hr He Ha Hne Hblank.
  assert (exists g1, NormalizeGrant g = (g1, None) /\ gr_Action g1 = "" /\ gr_Actions g1 = gr_Actions g)
    as (g1 & En & Ha1 & Hl1).
  { assert ((NormalizeGrant g).2 = None) as E by (apply NormalizeGrant_ok_iff; auto 6).
    destruct (NormalizeGrant g) as [g1 e] eqn:En. simpl in E. subst e. exists g1. split; [done|].
    by rewrite (NormalizeGrant_ok _ _ En). }
  assert (cleanActions (gr_Actions g) = []) as Hc.
  { destruct (cleanActions (gr_Actions g)) as [|x l] eqn:E; [done|].
    assert (x ∈ cleanActions (gr_Actions g)) as Hx by (rewrite E; left).
    apply cleanActions_elem in Hx as (Hx & y & Hy & <-). rewrite Forall_forall in Hblank.
    by rewrite Hblank in Hx. }
  unfold Adapter_Grant. rewrite En, decide_True by done.
  unfold Adapter_GrantRole. rewrite NormalizeGrant_id by (by eapply NormalizeGrant_normal).
  unfold RoleActionsForResource, roleMapper_init, DefaultRoleActionMapper.
  by rewrite Hl1, decide_True, Hc.
Qed.

(** C21: [Check] answers yes only if the Casdoor service itself answered yes,
    without an error, to a request for exactly this subject, domain, resource
    and action under the configured selector; a missing subject, resource or
    action, and any error, gives no. *)
Theorem Check_fail_closed c req w ok err w' :
  Adapter_Check a c req w = (Ret (ok, err), w') ->
  (ok = true -> err = None /\ check_subject req <> "" /\ cr_Resource req <> "" /\ cr_Action req <> ""
     /\ exists s s', sdk_Enforce (enforceSelectors a)
          (casbin_request (check_subject req) (cr_Domain req) (cr_Resource req) (cr_Action req)
             (cr_Extra req)) s = ((true, None), s'))
  /\ (check_subject req = "" \/ cr_Resource req = "" \/ cr_Action req = "" ->
        ok = false /\ err <> None /\ w' = w).
Proof.
  intros HC. pose proof HC as [(Hok & He & Hw)|(al & _ & Hs & Hr & Ha & Hok)]%Check_inv.
  { by rewrite Hok. }
  split; [|naive_solver]. intros ->. destruct err; [done|]. do 4 (split; [done|]). by eapply Check_yes.
Qed.

(** ** Every operation returns *)

Lemma dependency_call_returns {V} c op (v0 : V) f w :
  c <> None \/ (Backoff (a_retry a) <= 0)%Z \/ (Attempts (a_retry a) <= 1)%Z ->
  exists v err w', dependency_call a c op v0 f w = (Ret (v, err), w').
Proof.
  intros Hc. unfold dependency_call, observed_call.
  destruct (time_Now_quiet w) as (t & w1 & E & _).
  destruct (retried_returns c (a_retry a) v0 f w1 Hc) as (v & e & w2 & E2).
  destruct (ObserveDependency_quiet (a_metrics a) "casdoor" op t e w2) as (w3 & E3 & _).
  rewrite (run_bind_Ret _ _ _ _ _ E), (run_bind_Ret _ _ _ _ _ E2), (run_bind_Ret _ _ _ _ _ E3).
  by do 3 eexists.
Qed.

Lemma call_then_returns {V B} c op (v0 : V) f (k : V * option error -> prog (World S) B) w :
  c <> None \/ (Backoff (a_retry a) <= 0)%Z \/ (Attempts (a_retry a) <= 1)%Z ->
  (forall v err w1, exists r w', k (v, err) w1 = (Ret r, w')) ->
  exists r w', (dependency_call a c op v0 f ≫= k) w = (Ret r, w').
Proof.
  intros Hc Hk. destruct (dependency_call_returns c op v0 f w Hc) as (v & e & w1 & E).
  rewrite (run_bind_Ret _ _ _ _ _ E). apply Hk.
Qed.

Lemma addPolicy_returns c u o act w :
  c <> None \/ (Backoff (a_retry a) <= 0)%Z \/ (Attempts (a_retry a) <= 1)%Z ->
  exists err w', addPolicy a c u o act w = (Ret err, w').
Proof.
  intros Hc. unfold addPolicy. destruct (policyTarget a) as [[en ad]|e]; [|by do 2 eexists].
  apply call_then_returns; [done|]. intros v e w1. by do 2 eexists.
Qed.

Lemma removePolicy_returns c u o act w :
  c <> None \/ (Backoff (a_retry a) <= 0)%Z \/ (Attempts (a_retry a) <= 1)%Z ->
  exists err w', removePolicy a c u o act w = (Ret err, w').
Proof.
  intros Hc. unfold removePolicy. destruct (policyTarget a) as [[en ad]|e]; [|by do 2 eexists].
  apply call_then_returns; [done|]. intros v e w1. by do 2 eexists.
Qed.

Lemma GrantRole_returns c g w :
  c <> None \/ (Backoff (a_retry a) <= 0)%Z \/ (Attempts (a_retry a) <= 1)%Z ->
  exists err w', Adapter_GrantRole rm a c g w = (Ret err, w').
Proof.
  intros Hc. unfold Adapter_GrantRole. destruct (NormalizeGrant g) as [g1 [e|]]; [by do 2 eexists|].
  destruct (RoleActionsForResource _ _ _ _) as [acts [e|]]; [by do 2 eexists|].
  apply for_each_returns. intros act w1. by apply addPolicy_returns.
Qed.

Lemma List_returns c f w :
  c <> None \/ (Backoff (a_retry a) <= 0)%Z \/ (Attempts (a_retry a) <= 1)%Z ->
  exists r w', Adapter_List a c f w = (Ret r, w').
Proof.
  intros Hc. unfold Adapter_List. destruct (policyTarget a) as [[en ad]|e]; [|by do 2 eexists]. 
  apply call_then_returns; [done|]. intros v [e|] w1; by do 2 eexists.
Qed.

(** C22: with a context (or without a pause between attempts) every operation of
    the manager returns, whatever the service answers and however long it
    takes; none of them panics or loops. *)
Theorem manager_returns c w :
  c <> None \/ (Backoff (a_retry a) <= 0)%Z \/ (Attempts (a_retry a) <= 1)%Z ->
  let m := casdoor_manager rm a in
  (forall g, exists err w', mgr_Grant m c g w = (Ret err, w'))
  /\ (forall g, exists err w', mgr_GrantRole m c g w = (Ret err, w'))
  /\ (forall r, exists err w', mgr_Share m c r w = (Ret err, w'))
  /\ (forall g, exists err w', mgr_Revoke m c g w = (Ret err, w'))
  /\ (forall r, exists ok w', mgr_Check m c r w = (Ret ok, w'))
  /\ (forall f, exists gs w', mgr_List m c f w = (Ret gs, w'))
  /\ (forall r, exists err w', mgr_DeleteResourcePolicies m c r w = (Ret err, w'))
  /\ (forall r, exists err w', mgr_DeleteResourcePoliciesEx m c r w = (Ret err, w')).
Proof.
  intros Hc. simpl.
  assert (forall r, exists err w', Adapter_DeleteResourcePoliciesEx a c r w = (Ret err, w')) as Hd.
  { intros r. unfold Adapter_DeleteResourcePoliciesEx. case_decide; [by do 2 eexists|]. run_prog.
    destruct (List_returns c (mkListFilter "" (dr_Resource r) "" "") w Hc) as ([gs [e|]] & w1 & ->);
      [by do 2 eexists|]. apply for_each_returns. intros g w2. by apply removePolicy_returns. }
  split_and!; [|intros g; by apply GrantRole_returns| | | |intros f; by apply List_returns
               |intros r; apply Hd|done].
  - intros g. unfold Adapter_Grant. destruct (NormalizeGrant g) as [g1 [e|]]; [by do 2 eexists|].
    case_decide; [by apply GrantRole_returns|by apply addPolicy_returns].
  - intros r. unfold Adapter_Share. destruct (NormalizeShare r) as [g1 [e|]]; [by do 2 eexists|].
    by apply GrantRole_returns.
  - intros g. unfold Adapter_Revoke. destruct (NormalizeGrant g) as [g1 [e|]]; [by do 2 eexists|].
    destruct (if decide _ then _ else _) as [acts [e|]]; [by do 2 eexists|].
    apply for_each_returns. intros act w2. by apply removePolicy_returns.
  - intros r. unfold Adapter_Check. repeat (case_decide; [by do 2 eexists|]). 
    apply call_then_returns; [done|]. intros v [e|] w1; by do 2 eexists.
Qed.

(** ** Calls left in flight *)

(** [l] is what a possibly failed operation may leave in flight on the service:
    nothing on success, at most one of the calls [fs] on failure. *)
Definition in_flight (fs : (S -> S) -> Prop) (err : option error) (w w' : World S) : Prop :=
  w_late w' = w_late w
  \/ (err <> None /\ exists f, fs f /\ w_late w' = w_late w ++ [f]).

Lemma dependency_call_late {V} c op (v0 : V) f w v err w' :
  dependency_call a c op v0 f w = (Ret (v, err), w') ->
  in_flight (fun g => g = fun s => (f s).2) err w w'.
Proof.
  intros (w1 & w2 & (_ & E1 & _) & H & (_ & E2 & _))%dependency_call_inv.
  apply retried_late in H. unfold in_flight. rewrite E2, <- E1. naive_solver.
Qed.

(** The calls [addPolicy] makes on the service for a policy of [X]. *)
Definition adds_of (X : propset policy) (g : S -> S) : Prop :=
  exists en ad x, policyTarget a = inl (en, ad) /\ x ∈ X /\
    forall s, g s = (sdk_AddPolicy en (p_rule x.1.1 x.1.2 x.2) s).2.

Lemma addPolicy_late c X x w err w' :
  x ∈ X -> addPolicy a c x.1.1 x.1.2 x.2 w = (Ret err, w') -> in_flight (adds_of X) err w w'.
Proof.
  intros Hx. unfold addPolicy.
  destruct (policyTarget a) as [[en ad]|e] eqn:Et; [|intros [= <- <-]; by left].
  intros ([? err1] & w1 & [H|(He & g & -> & H)]%dependency_call_late & [= -> <-])%bind_Ret_inv;
    [by left|right; split; [done|]].
  eexists. split; [|exact H]. exists en, ad, x. split; [done|]. split; [done|].
  intros s. unfold drop_bool. by destruct (sdk_AddPolicy _ _ s) as [[? ?] ?].
Qed.

Lemma for_each_late {A} fs (f : A -> prog (World S) (option error)) l w err w' :
  (forall x w err w', x ∈ l -> f x w = (Ret err, w') -> in_flight fs err w w') ->
  for_each f l w = (Ret err, w') -> in_flight fs err w w'.
Proof.
  revert w. induction l as [|x l IH]; intros w Hf; cbn [for_each].
  { intros [= <- <-]. by left. }
  intros (e & w1 & E & H)%bind_Ret_inv. apply Hf in E; [|set_solver].
  destruct e as [e|]; [by injection H as <- <-|].
  destruct E as [E|[? _]]; [|done]. apply IH in H; [|intros y ? ? ? ?; apply Hf; set_solver].
  unfold in_flight. by rewrite <- E.
Qed.

(** A [Grant] that reports success has no call left in flight, so nothing
    it did can reach the service later; one that fails (because its context
    ended) leaves at most one, which adds a policy of that grant. *)
Theorem Grant_in_flight c g w err w' :
  Adapter_Grant rm a c g w = (Ret err, w') ->
  match grant_policies rm g with
  | Some X => in_flight (adds_of X) err w w'
  | None => err <> None /\ w' = w
  end.
Proof.
  unfold Adapter_Grant, grant_policies, grant_actions, role_actions.
  destruct (NormalizeGrant g) as [g1 [e|]] eqn:En; [by intros [= <- <-]|].
  case_decide as Ha.
  - unfold Adapter_GrantRole. rewrite NormalizeGrant_id by (by eapply NormalizeGrant_normal).
    destruct (RoleActionsForResource _ _ _ _) as [acts [e|]]; [by intros [= <- <-]|]. simpl.
    apply for_each_late. intros act w1 e1 w2 Hact.
    apply (addPolicy_late c _ (gr_Subject g1, gr_Resource g1, act)).
    unfold policies_for. by rewrite elem_of_PropSet.
  - simpl. apply (addPolicy_late c _ (gr_Subject g1, gr_Resource g1, gr_Action g1)).
    unfold policies_for. rewrite elem_of_PropSet. set_solver.
Qed.
End properties.

(** ** Witnesses: runs on the in-memory service *)

Lemma demo_target : policyTarget demo_adapter = inl (mkEnforcer "built-in" "enf", "").
Proof. vm_compute. reflexivity. Qed.

Notation demo_manager := (casdoor_manager (S := Memory) roleMapper_init demo_adapter).

Lemma casdoor_manager_refines_witness :
  ManagerLaws roleMapper_init demo_manager (plain_store mem_stored) (store_policies mem_stored).
Proof.
  apply (casdoor_manager_refines roleMapper_init demo_adapter (mkEnforcer "built-in" "enf") "").
  - apply memory_store.
  - vm_compute. reflexivity.
Defined.

Definition demo_name : Name := "aihub:skill:s1".

(** Two policies on the resource and one elsewhere. *)
Definition demo_rules : list CasbinRule :=
  [p_rule "user:alice" demo_name "skill.read"; p_rule "user:bob" demo_name "skill.read";
   p_rule "user:bob" "aihub:skill:s2" "skill.read"].

(** The listing works, the second removal fails twice, without an
    acknowledgement and then for good: the attempt ends with an error. *)
Definition demo_start : World Memory := memory_world demo_rules [fine; fine; lost; unacked].

Definition demo_after (c : ctx) (w : World Memory) : World Memory :=
  (Adapter_DeleteResourcePolicies demo_adapter c demo_name w).2.

Lemma demo_plain faults : plain_store mem_stored (memory_world demo_rules faults).
Proof.
  intros r Hr _. unfold mem_stored in Hr. rewrite elem_of_PropSet in Hr. simpl in Hr. unfold demo_rules in Hr.
  rewrite !elem_of_cons in Hr. destruct Hr as [-> |[-> |[-> |Hr]]]; [done..|]. set_solver.
Qed.

(** A rule with an effect column. *)
Definition allow_rule : CasbinRule :=
  mkCasbinRule "p" "user:alice" demo_name "skill.read" "allow" "" "".

Lemma DeleteResourcePolicies_leaves_extended_witness :
  allow_rule ∈ mem_stored (w_svc (demo_after Background (memory_world [allow_rule] [])))
  /\ listed (mkListFilter "" demo_name "" "") (Some allow_rule)
     = Some (policy_grant ("user:alice", demo_name, "skill.read")).
Proof.
  apply (DeleteResourcePolicies_leaves_extended demo_adapter (mkEnforcer "built-in" "enf") "" mem_stored
    Background demo_name (memory_world [allow_rule] []) None) with (r := allow_rule).
  - apply memory_store.
  - vm_compute. reflexivity.
  - unfold mem_stored. rewrite elem_of_PropSet. left.
  - reflexivity.
  - reflexivity.
  - discriminate.
  - vm_compute. reflexivity.
Defined.

Definition domain_check : CheckRequest :=
  mkCheckRequest "user:alice" None demo_name "skill.read" "tenant1" [].

Definition alice_reads : Grant := policy_grant ("user:alice", demo_name, "skill.read").

(** Granted in a domain, then checked in that domain: denied. *)
Example granted_domain_denied :
  let w := (Adapter_Grant roleMapper_init demo_adapter Background (set_Domain "tenant1" alice_reads)
              (memory_world [] [])).2 in
  (Adapter_Check demo_adapter Background domain_check w).1 = Ret (false, None).
Proof. vm_compute. reflexivity. Qed.

Definition blank_grant : Grant :=
  mkGrant "user:alice" "" "" demo_name "" "" [" "] "" "" None None.

Lemma Grant_blank_actions_witness :
  Adapter_Grant roleMapper_init demo_adapter Background blank_grant (memory_world [] [])
    = (Ret None, memory_world [] []).
Proof.
  apply Grant_blank_actions.
  - vm_compute. discriminate.
  - discriminate.
  - reflexivity.
  - vm_compute. reflexivity.
  - discriminate.
  - repeat constructor.
Defined.

Definition alice_check : CheckRequest :=
  mkCheckRequest " user:alice " None demo_name "skill.read" "" [].

Lemma Check_fail_closed_witness :
  (true = true -> None = @None error /\ check_subject alice_check <> ""
     /\ cr_Resource alice_check <> "" /\ cr_Action alice_check <> ""
     /\ exists s s', sdk_Enforce (enforceSelectors demo_adapter)
          (casbin_request (check_subject alice_check) (cr_Domain alice_check)
             (cr_Resource alice_check) (cr_Action alice_check) (cr_Extra alice_check)) s
          = ((true, None), s'))
  /\ (check_subject alice_check = "" \/ cr_Resource alice_check = "" \/ cr_Action alice_check = "" ->
        true = false /\ @None error <> None
        /\ (Adapter_Check demo_adapter Background alice_check (memory_world demo_rules [lost])).2
           = memory_world demo_rules [lost]).
Proof. apply (Check_fail_closed demo_adapter Background). vm_compute. reflexivity. Defined.

Lemma manager_returns_witness :
  (Background <> None \/ (Backoff (a_retry demo_adapter) <= 0)%Z \/ (Attempts (a_retry demo_adapter) <= 1)%Z)
  /\ forall r, exists err w', mgr_DeleteResourcePolicies demo_manager Background r demo_start = (Ret err, w').
Proof.
  split; [left; discriminate|].
  destruct (manager_returns (S := Memory) roleMapper_init demo_adapter Background demo_start)
    as (_ & _ & _ & _ & _ & _ & H & _); [left; discriminate|exact H].
Defined.

(** A context whose deadline is already near. *)
Definition tight : ctx := Some (mkContext None None None (Some (1000%Z, DeadlineExceeded)) None).

Definition tight_world : World Memory := mkWorld (mkMemory [] [] []) 900 [40; 70]%N [true] [] [].

Definition late_grant : outcome (option error) * World Memory :=
  Adapter_Grant roleMapper_init demo_adapter tight alice_reads tight_world.
Definition late_revoke : outcome (option error) * World Memory :=
  Adapter_Revoke roleMapper_init demo_adapter Background alice_reads late_grant.2.

(** The grant's call is in flight when its context ends; the grant is then
    revoked, with success; and the call arrives. *)
Example revoked_grant_comes_back :
  late_grant.1 = Ret (Some DeadlineExceeded) /\ late_revoke.1 = Ret None
  /\ mem_rules (w_svc late_revoke.2) = []
  /\ exists w3, lands late_revoke.2 w3
       /\ mem_rules (w_svc w3) = [p_rule "user:alice" demo_name "skill.read"].
Proof.
  split; [vm_compute; reflexivity|]. split; [vm_compute; reflexivity|].
  split; [vm_compute; reflexivity|].
  eexists. split.
  - apply (lands_one (fun s => (drop_bool (sdk_AddPolicy (mkEnforcer "built-in" "enf")
      (p_rule "user:alice" demo_name "skill.read")) s).2) [] []). reflexivity.
  - vm_compute. reflexivity.
Qed.

Lemma Grant_in_flight_witness :
  match grant_policies roleMapper_init alice_reads with
  | Some X => in_flight (adds_of demo_adapter X) (Some DeadlineExceeded) tight_world
      (Adapter_Grant roleMapper_init demo_adapter tight alice_reads tight_world).2
  | None => Some DeadlineExceeded <> None
      /\ (Adapter_Grant roleMapper_init demo_adapter tight alice_reads tight_world).2 = tight_world
  end.
Proof. apply (Grant_in_flight roleMapper_init demo_adapter tight). vm_compute. reflexivity. Defined.
