(* ===== verification/CasdoorAdapter.v ===== *)
(** * The Casdoor adapter ([casdoor/adapter.go]): construction, authentication,
    authorization, audit records and health.

    The encoding of an event to JSON, the RFC 3339 rendering of a time and the
    random bytes of a record name come from outside: the class [Encoding] and
    the argument [entropy].  The policy operations are in [CasdoorPolicy]. *)

From S2P Require Import Prelude GoStrings GoText GoTime Resource Principal Authn Env Retry Authz AuditEvents Permission.
From S2P Require Import CasdoorClient CasdoorConfig CasdoorMemory CasdoorPolicy.

(** ** Construction *)

Record options := mkOptions { o_metrics : option Metrics }.
Notation Option := (options -> options).

Definition WithMetrics (m : option Metrics) : Option := fun _ => mkOptions m.

Definition set_Certificate (cert : string) (cfg : casdoor_Config) : casdoor_Config :=
  mkCasdoorConfig (Endpoint cfg) (ClientID cfg) (ClientSecret cfg) cert (CertificateFile cfg)
    (Organization cfg) (Application cfg) (PermissionID cfg) (ModelID cfg) (ResourceID cfg)
    (EnforcerID cfg) (Owner cfg) (PolicyEnforcer cfg) (PolicyAdapterID cfg) (HTTPTimeout cfg)
    (DefaultScope cfg) (AllowAnonymous cfg) (AuditAsync cfg) (AuditQueue cfg) (AuditTimeout cfg)
    (RetryAttempts cfg) (RetryBackoff cfg).

(** The HTTP timeout: ten seconds unless the setting is a positive duration. *)
Definition http_timeout (s : string) : Duration :=
  if decide (s <> "") then
    match ParseDuration s with
    | (d, None) => if decide (0 < d)%Z then d else (10 * Second)%Z
    | (_, Some _) => (10 * Second)%Z
    end
  else (10 * Second)%Z.

Section construction.
Context `{X509, Host}.

Definition newAdapter (cfg : casdoor_Config) (requireCertificate validateProvidedCertificate : bool)
    (opts : list (option Option)) : res (option Adapter) :=
  let opt := foldl (fun o fn => match fn with Some fn => fn o | None => o end) (mkOptions None) opts in
  let timeout := http_timeout (HTTPTimeout cfg) in
  let certificate := normalizePEMText (Certificate cfg) in
  let adapter certificate :=
    mkAdapter (set_Certificate certificate cfg)
      (NewPolicy (mkConfig (RetryAttempts cfg) (RetryBackoff cfg))) (o_metrics opt) timeout in
  if decide (requireCertificate = true \/ (validateProvidedCertificate = true /\
               (certificate <> "" \/ TrimSpace (CertificateFile cfg) <> ""))) then
    match NormalizedCertificate cfg with
    | (_, Some err) => (None, Some err)
    | (cert, None) => (Some (adapter cert), None)
    end
  else (Some (adapter certificate), None).

(** [New] logs a validation error and goes on. *)
Definition New (cfg : casdoor_Config) (opts : list (option Option)) : option Adapter :=
  (newAdapter cfg false false opts).1.

Definition NewChecked (cfg : casdoor_Config) (opts : list (option Option)) : res (option Adapter) :=
  newAdapter cfg true true opts.

Lemma http_timeout_pos s : (0 < http_timeout s)%Z.
Proof.
  unfold http_timeout. case_decide; [|done].
  destruct (ParseDuration s) as [d [e|]]; [done|]. by case_decide.
Qed.

(** C29: The legacy constructor always yields an adapter; the checked one yields
    either an adapter, whose certificate is then a single public RSA key, or an
    error and no adapter.  Both adapters have a positive HTTP timeout and the
    retry policy of their settings. *)
Theorem adapter_construction (cfg : casdoor_Config) (opts : list (option Option)) :
  (exists a, New cfg opts = Some a /\ (0 < a_timeout a)%Z
     /\ a_retry a = NewPolicy (mkConfig (RetryAttempts cfg) (RetryBackoff cfg))
     /\ Certificate (a_cfg a) = normalizePEMText (Certificate cfg))
  /\ match NewChecked cfg opts with
     | (Some a, None) => ValidateJWTPublicCertificate (Certificate (a_cfg a)) = None
         /\ Certificate (a_cfg a) <> "" /\ (0 < a_timeout a)%Z
         /\ a_retry a = NewPolicy (mkConfig (RetryAttempts cfg) (RetryBackoff cfg))
     | (a, Some err) => a = None /\ (NormalizedCertificate cfg).2 = Some err
     | (None, None) => False
     end.
Proof.
  split.
  - eexists. split; [reflexivity|]. simpl. split_and!; [apply http_timeout_pos|done..].
  - unfold NewChecked, newAdapter. rewrite decide_True by auto.
    destruct (NormalizedCertificate cfg) as [cert [e|]] eqn:En; [done|]. simpl.
    apply NormalizedCertificate_ok in En as (? & ? & _).
    split_and!; [done..|apply http_timeout_pos|done].
Qed.
End construction.

(** ** Operations *)

Class Encoding := {
  json_Marshal_Event : Event -> option string;   (* None: a marshalling error *)
  format_RFC3339 : Time -> string;
}.

(** [fmt.Sprint] of a list of strings. *)
Definition Sprint_strings (l : list string) : string := "[" +:+ Join l " " +:+ "]".

Section operations.
Context {S : Type} {client : CasdoorClient S} `{Encoding} (a : Adapter).
Implicit Types (w : World S) (c : ctx).

Definition Adapter_Ping c : prog (World S) (option error) :=
  started ← time_Now;
  '(_, err) ← callWithContext c (sdk_GetApplication (Application (a_cfg a)));
  _ ← ObserveDependency (a_metrics a) "casdoor" "ping" started err;
  mret err.

Definition principal_of_claims (claims : JwtClaims) (token : string) : Principal :=
  mkPrincipal SubjectUser
    (if decide (cl_Name claims = "") then cl_Subject claims else cl_Name claims)
    (cl_Name claims) (cl_DisplayName claims) (cl_Email claims) (cl_Avatar claims)
    (if decide (cl_Owner claims = "") then Organization (a_cfg a) else cl_Owner claims)
    "" [] [] token ""
    (Some {["issuer" := any_string (cl_Issuer claims); "subject" := any_string (cl_Subject claims);
            "audience" := any_string (Sprint_strings (cl_Audience claims))]}) None.

(** The token is parsed without the context, which is looked at afterwards; a
    nil context panics there, and so do nil claims. *)
Definition Adapter_Authenticate c (token : string) : prog (World S) (res (option Principal)) :=
  started ← time_Now;
  '(claims, err) ← callWithContext None (sdk_ParseJwtToken token);
  _ ← ObserveDependency (a_metrics a) "casdoor" "parse_jwt" started err;
  match err with
  | Some err => mret (None, Some err)
  | None =>
      match c with
      | None => panic "invalid memory address or nil pointer dereference"
      | Some c =>
          done ← poll c;
          match done with
          | Some e => mret (None, Some e)
          | None =>
              match claims ≫= id with
              | None => panic "invalid memory address or nil pointer dereference"
              | Some claims => mret (Some (principal_of_claims claims token), None)
              end
          end
      end
  end.

Definition selector_required : error :=
  errText "one of casdoor permission_id/model_id/resource_id/enforcer_id/owner is required".

Definition Adapter_Authorize c (req : Request) : prog (World S) (res bool) :=
  started ← time_Now;
  match rq_Principal req with
  | None => mret (false, Some ErrMissingPrincipal)
  | Some p =>
      let sel := enforceSelectors a in
      if decide (Forall (fun s => s = "") (selector_list sel))
      then mret (false, Some selector_required) else
      '(allowed, err) ← observed_call a c started "enforce" false
        (sdk_Enforce sel (casbin_request (Principal_Subject p) (rq_Domain req) (rq_Resource req)
          (rq_Action req) (rq_Extra req)));
      match err with
      | Some err => mret (false, Some err)
      | None => mret (allowed, None)
      end
  end.

(** [entropy] is what [rand.Read] gives, [None] its error. *)
Definition randomName (entropy : option bytes) (prefix : string) : prog (World S) string :=
  match entropy with
  | None => now ← time_Now; mret (prefix +:+ "_" +:+ pretty now)
  | Some b => mret (prefix +:+ "_" +:+ hex b)
  end.

Definition Adapter_Record (entropy : option bytes) c (event : Event) : prog (World S) (option error) :=
  started ← time_Now;
  let actor := match ev_Actor event with Some p => SubjectID p | None => "anonymous" end in
  let org := match ev_Actor event with
             | Some p => if decide (POrgID p <> "") then POrgID p else Organization (a_cfg a)
             | None => Organization (a_cfg a)
             end in
  name ← (if decide (ev_Name event = "") then randomName entropy "record" else mret (ev_Name event));
  let object := default "{}" (json_Marshal_Event event) in
  now ← time_Now;
  let record := mkSdkRecord (Organization (a_cfg a)) name (format_RFC3339 now) org
    (ev_ClientIP event) actor (ev_Method event) (firstNonEmpty [ev_URI event; ev_Operation event])
    (ev_Action event) (ev_StatusCode event) (ev_Message event) object true in
  '(_, err) ← observed_call a c started "add_record" false (sdk_AddRecord record);
  mret err.

(** The adapter as the interfaces of the other packages. *)
Definition casdoor_authorizer : Authorizer (World S) := mkAuthorizer Adapter_Authorize.
Definition casdoor_authenticator : Authenticator (World S) := mkAuthenticator _ Adapter_Authenticate.
Definition casdoor_recorder (entropy : option bytes) : Recorder (World S) :=
  mkRecorder (Adapter_Record entropy).
End operations.

(** What the adapter relies on of a service that decides from its stored rules. *)
Class EnforcesStore {S} (client : CasdoorClient S) (stored : S -> propset CasbinRule) : Prop := {
  Enforce_decides sel u r act s ok s' :
    sdk_Enforce sel [any_string u; any_string r; any_string act] s = ((ok, None), s') ->
    ok = true <-> p_rule u r act ∈ stored s;
}.

#[export] Instance memory_enforces : EnforcesStore memory_client mem_stored.
Proof.
  split. intros sel u r act s ok s' (s1 & E & [[_ H]|[? _]])%mem_call_inv; [|done].
  unfold mem_enforce in H. injection H as -> ->.
  unfold mem_stored. by rewrite bool_decide_eq_true, elem_of_PropSet, E.
Qed.

Section properties.
Context {S : Type} {client : CasdoorClient S} `{Encoding} (a : Adapter).
Implicit Types (w : World S) (c : ctx).

Lemma Authorize_inv c req w ok err w' :
  Adapter_Authorize a c req w = (Ret (ok, err), w') ->
  (ok = false /\ err <> None /\ quiet w w') \/
  (exists p started w1 allowed, rq_Principal req = Some p /\ quiet w w1
    /\ ~ Forall (fun s => s = "") (selector_list (enforceSelectors a))
    /\ observed_call a c started "enforce" false
         (sdk_Enforce (enforceSelectors a) (casbin_request (Principal_Subject p) (rq_Domain req)
           (rq_Resource req) (rq_Action req) (rq_Extra req))) w1 = (Ret (allowed, err), w')
    /\ ok = match err with None => allowed | Some _ => false end).
Proof.
  unfold Adapter_Authorize. intros (started & w1 & Et & Hr)%bind_Ret_inv.
  destruct (time_Now_quiet w) as (t & w1' & E & Hq & _). rewrite E in Et. injection Et as -> ->.
  destruct (rq_Principal req) as [p|]; [|injection Hr as <- <- <-; by left].
  case_decide as Hsel; [injection Hr as <- <- <-; by left|]. right.
  apply bind_Ret_inv in Hr as ([al e] & w2 & Ho & Hr). exists p, started, w1, al.
  destruct e; injection Hr as <- <- <-; by rewrite Ho.
Qed.

(** The service's answer behind a positive answer of the adapter. *)
Definition service_allows (p : Principal) (domain resource action : string) (extra : list any) : Prop :=
  exists s s', sdk_Enforce (enforceSelectors a)
    (casbin_request (Principal_Subject p) domain resource action extra) s = ((true, None), s').

Lemma Authorize_true c req w err w' :
  Adapter_Authorize a c req w = (Ret (true, err), w') ->
  err = None /\ ~ Forall (fun s => s = "") (selector_list (enforceSelectors a)) /\
  exists p, rq_Principal req = Some p /\
    service_allows p (rq_Domain req) (rq_Resource req) (rq_Action req) (rq_Extra req).
Proof.
  intros [(? & _)|(p & st & w1 & al & Hp & _ & Hsel & Ho & E)]%Authorize_inv; [done|].
  destruct err as [e|]; [done|]. subst al. split; [done|]. split; [done|]. exists p. split; [done|].
  apply (observed_call_rule a (fun _ => True) (fun v _ => v = true -> service_allows p
    (rq_Domain req) (rq_Resource req) (rq_Action req) (rq_Extra req))) in Ho;
    [by apply Ho|done| |done].
  intros s x s' _ Ef ->. by exists s, s'.
Qed.

(** C2: end to end, from the package that callers use to the Casdoor service:
    [authz.Require] over the Casdoor adapter lets a request through only if the
    context carries a principal, a selector is configured, and the service
    itself answered yes, without an error, to a request for exactly this
    principal's subject, this resource and this action. *)
Theorem Require_enforced_by_casdoor c resource action w w' :
  authz_Require c (Some (casdoor_authorizer a)) resource action w = (Ret None, w') ->
  exists p, RequireFromContext c = (Some p, None)
    /\ configured_selectors (a_cfg a) <> ["";"";"";"";""]
    /\ service_allows p "" resource action [].
Proof.
  unfold authz_Require.
  destruct (RequireFromContext_cases c) as [(q & -> & _)| ->]; [|done].
  intros (q' & az & [= <-] & _ & [= <-] & _ & _ & HA)%RequirePrincipal_allowed.
  apply Authorize_true in HA as (_ & Hsel & p & [= <-] & Hs). exists q.
  split; [done|]. split; [|done]. intros E. apply Hsel. revert E.
  unfold configured_selectors, enforceSelectors. intros [= -> -> -> -> ->]. repeat constructor.
Qed.

(** C7: sharing gives access.  Where every selector of the service decides from
    the one store that policies are written to ([EnforcesStore]), and that store
    holds policies of three columns only: after a share that succeeded for a
    subject with trimmed type and id, the adapter's answer for the principal of
    that type and id, on the shared resource and an action of the shared role, is
    yes unless it is an error.  (Only this direction: nothing is said of the
    answers without a share.) *)
Theorem share_gives_access rm en ad (stored : S -> propset CasbinRule) req p acts act c1 c2 w w1 w2 ok :
  PolicyStore client en ad stored -> EnforcesStore client stored ->
  policyTarget a = inl (en, ad) -> plain_store stored w ->
  sh_SubjectType req = SubjectType p -> sh_SubjectID req = SubjectID p ->
  TrimSpace (SubjectType p) = SubjectType p -> TrimSpace (SubjectID p) = SubjectID p ->
  SubjectID p <> "" ->
  RoleActionsForResource rm (sh_Resource req) (TrimSpace (sh_Role req)) (sh_Actions req) = (acts, None) ->
  act ∈ acts ->
  Adapter_Share rm a c1 req w = (Ret None, w1) ->
  Adapter_Authorize a c2 (mkRequest (Some p) (sh_Resource req) act "" []) w1 = (Ret (ok, None), w2) ->
  ok = true.
Proof.
  intros Hst Hen Ht Hplain Ety Eid Tty Tid Hid Hacts Hact Hshare Hauth.
  assert ((Principal_Subject p, sh_Resource req, act) ∈ store_policies stored w1) as Hin.
  { destruct (law_Share (ManagerLaws := casdoor_laws rm a en ad stored Ht)
      _ _ _ _ _ Hplain Hshare) as [_ Hadds].
    destruct (share_policies rm req) as [X|] eqn:EX; [|done]. simpl in Hadds. apply Hadds.
    apply elem_of_union_r. revert EX. unfold share_policies.
    destruct (NormalizeShare req) as [g [e|]] eqn:En; [done|]. unfold grant_role_policies.
    destruct (NormalizeShare_normal _ _ En) as (Hn & Hrole & Hres & Hactions).
    rewrite NormalizeGrant_id by done. unfold role_actions.
    rewrite Hrole, Hres, Hactions, Hacts. intros [= <-].
    unfold policies_for. rewrite elem_of_PropSet. simpl.
    by rewrite (NormalizeShare_subject_of req p g) by done. }
  apply Authorize_inv in Hauth
    as [(_ & ? & _)|(p' & st & w1' & al & [= <-] & (Hsvc & _) & _ & Ho & ->)]; [done|].
  apply (observed_call_rule a (fun s => stored s ≡ stored (w_svc w1))
    (fun v _ => v = true)) in Ho; [done| | |by rewrite Hsvc].
  - intros s x e s' Hs Ef. by rewrite (Enforce_reads _ _ _ _ _ Ef).
  - intros s x s' Hs Ef. apply (Enforce_decides _ _ _ _ _ _ _ Ef). apply Hs, Hin.
Qed.

(** The adapter authenticates a token only if the SDK parsed it and the
    context has not ended; the principal is then a user, named after the
    claims, and carries the token. *)
Theorem Authenticate_spec c token w p err w' :
  Adapter_Authenticate a c token w = (Ret (p, err), w') ->
  match p with
  | Some q => err = None /\ exists claims s s',
      sdk_ParseJwtToken token s = ((Some claims, None), s') /\ q = principal_of_claims a claims token
      /\ SubjectType q = SubjectUser /\ Token q = token
      /\ (SubjectID q = cl_Name claims \/ cl_Name claims = "" /\ SubjectID q = cl_Subject claims)
  | None => err <> None
  end.
Proof.
  unfold Adapter_Authenticate.
  intros (started & w1 & _ & H1)%bind_Ret_inv.
  apply bind_Ret_inv in H1 as ([cl e] & w2 & Hc & H1).
  apply bind_Ret_inv in H1 as (_ & w3 & _ & H1).
  destruct e as [e|]; [by injection H1 as <- <- <-|].
  destruct c as [c0|]; [|done].
  apply bind_Ret_inv in H1 as (d & w4 & _ & H1).
  destruct d as [d|]; [by injection H1 as <- <- <-|].
  destruct (cl ≫= id) as [claims|] eqn:Ecl; [|done]. injection H1 as <- <- <-.
  split; [done|].
  destruct (callWithContext_cases None (sdk_ParseJwtToken token) w1)
    as [(x & ex & s' & w5 & Ew & Ef & _)|(? & ? & ? & ? & ? & _)]; [|done].
  rewrite Ew in Hc. injection Hc as <- -> <-. simpl in Ecl. unfold id in Ecl. subst x.
  exists claims, (w_svc w1), s'. split; [done|]. unfold principal_of_claims. simpl.
  split_and!; [done..|]. case_decide; auto.
Qed.

(** A token whose claims have neither a name nor a subject still yields a
    principal that passes every presence check, since its type is set: its
    subject is the bare word [user]. *)
Theorem nameless_token_accepted claims token :
  cl_Name claims = "" -> cl_Subject claims = "" ->
  let p := principal_of_claims a claims token in
  ~ IsZero p /\ SubjectID p = "" /\ Principal_Subject p = "user" /\ ~ IsAuthenticated p
  /\ forall cx : Context, RequireFromContext (Some (set_principal (Some p) cx)) = (Some p, None).
Proof.
  intros Hn Hs p. subst p. unfold principal_of_claims. rewrite Hn, Hs.
  assert (forall q, SubjectType q = SubjectUser -> ~ IsZero q) as Hz by (intros q Eq [? E]; by rewrite Eq in E).
  split_and!; [by apply Hz|done|done|by intros (? & _)|].
  intros c. apply RequireFromContext_set. by apply Hz.
Qed.

(** A recorded event reaches the service as a record that carries the
    event's action, status and message, is never nameless, and whose user and
    organization come from the actor if there is one. *)
Theorem Record_delivered entropy c ev w w' :
  Adapter_Record a entropy c ev w = (Ret None, w') ->
  exists record ok s s', sdk_AddRecord record s = ((ok, None), s')
    /\ rec_Name record <> "" /\ (ev_Name ev <> "" -> rec_Name record = ev_Name ev)
    /\ rec_Action record = ev_Action ev /\ rec_StatusCode record = ev_StatusCode ev
    /\ rec_Response record = ev_Message ev
    /\ rec_User record = match ev_Actor ev with Some p => SubjectID p | None => "anonymous" end
    /\ rec_Organization record = firstNonEmpty
         [match ev_Actor ev with Some p => POrgID p | None => "" end; Organization (a_cfg a)].
Proof.
  unfold Adapter_Record. intros (started & w1 & _ & H1)%bind_Ret_inv.
  apply bind_Ret_inv in H1 as (name & w2 & Hname & H1).
  apply bind_Ret_inv in H1 as (now & w3 & _ & H1).
  apply bind_Ret_inv in H1 as ([ok e] & w4 & Ho & [= -> <-]).
  eapply (observed_call_rule a (fun _ => True) (fun _ _ => exists ok s s', sdk_AddRecord _ s
    = ((ok, None), s'))) in Ho; [|done| |done].
  2: { intros s x s' _ Ef. exists x, s, s'. exact Ef. }
  destruct Ho as (ok' & s & s' & Ef). eexists _, ok', s, s'. split; [exact Ef|]. simpl.
  assert (name <> "" /\ (ev_Name ev <> "" -> name = ev_Name ev)) as [? ?].
  { revert Hname. case_decide as Hn; [|by intros [= <- <-]]. unfold randomName.
    destruct entropy as [b|].
    - intros [= <- <-]. split; [discriminate|done].
    - intros (? & ? & _ & [= <- <-])%bind_Ret_inv. split; [discriminate|done]. }
  split_and!; [done..|].
  destruct (ev_Actor ev); simpl; repeat case_decide; first [done|by apply dec_stable].
Qed.
End properties.

(** ** Witnesses *)

Definition alice_ctx : ctx :=
  Some (mkContext (Some (Some (principal_of "user" "alice"))) None None None None).

Lemma Require_enforced_by_casdoor_witness :
  exists p, RequireFromContext alice_ctx = (Some p, None)
    /\ configured_selectors (a_cfg demo_adapter) <> ["";"";"";"";""]
    /\ service_allows (client := memory_client) demo_adapter p "" demo_name "skill.read" [].
Proof.
  apply (Require_enforced_by_casdoor demo_adapter alice_ctx demo_name "skill.read"
    (memory_world demo_rules [lost])
    (authz_Require alice_ctx (Some (casdoor_authorizer demo_adapter)) demo_name "skill.read"
      (memory_world demo_rules [lost])).2).
  vm_compute. reflexivity.
Defined.

Definition share_with_alice : ShareRequest :=
  mkShareRequest demo_name "user" "alice" "viewer" [] "" "" None None.
Definition after_share : World Memory :=
  (Adapter_Share roleMapper_init demo_adapter Background share_with_alice (memory_world [] [unacked])).2.

Lemma share_gives_access_witness : true = true.
Proof.
  apply (share_gives_access demo_adapter roleMapper_init (mkEnforcer "built-in" "enf") "" mem_stored
    share_with_alice (principal_of "user" "alice") viewer_actions "skill.download" Background Background
    (memory_world [] [unacked]) after_share
    (Adapter_Authorize demo_adapter Background
      (mkRequest (Some (principal_of "user" "alice")) demo_name "skill.download" "" []) after_share).2).
  - apply memory_store.
  - apply memory_enforces.
  - vm_compute. reflexivity.
  - intros r Hr. unfold mem_stored in Hr. rewrite elem_of_PropSet in Hr. simpl in Hr. set_solver.
  - reflexivity.
  - reflexivity.
  - reflexivity.
  - reflexivity.
  - discriminate.
  - reflexivity.
  - right. left.
  - vm_compute. reflexivity.
  - vm_compute. reflexivity.
Defined.

Lemma Authenticate_spec_witness :
  None = @None error /\ exists claims s s',
    sdk_ParseJwtToken "alice" s = ((Some claims, None), s' : Memory)
    /\ principal_of_claims demo_adapter (mkJwtClaims "alice" "" "" "" "" "casdoor" "" []) "alice"
       = principal_of_claims demo_adapter claims "alice"
    /\ SubjectType (principal_of_claims demo_adapter claims "alice") = SubjectUser
    /\ Token (principal_of_claims demo_adapter claims "alice") = "alice"
    /\ (SubjectID (principal_of_claims demo_adapter claims "alice") = cl_Name claims
        \/ cl_Name claims = "" /\ SubjectID (principal_of_claims demo_adapter claims "alice")
                                  = cl_Subject claims).
Proof.
  pose proof (Authenticate_spec (client := memory_client) demo_adapter Background "alice" (memory_world [] [])
    (Some (principal_of_claims demo_adapter (mkJwtClaims "alice" "" "" "" "" "casdoor" "" []) "alice")) None
    (memory_world [] [])) as H.
  destruct H as (E & claims & s & s' & H1 & H2 & H3 & H4 & H5); [reflexivity|].
  split; [exact E|]. exists claims, s, s'. rewrite <- H2. auto.
Defined.

Lemma nameless_token_accepted_witness :
  let p := principal_of_claims demo_adapter (mkJwtClaims "" "" "" "" "" "casdoor" "" []) "t" in
  ~ IsZero p /\ SubjectID p = "" /\ Principal_Subject p = "user" /\ ~ IsAuthenticated p
  /\ forall cx : Context, RequireFromContext (Some (set_principal (Some p) cx)) = (Some p, None).
Proof. apply nameless_token_accepted; reflexivity. Defined.

Definition demo_encoding : Encoding := Build_Encoding (fun _ => None) (fun _ => "now").

Definition demo_audit : Event :=
  mkEvent "" (Some (principal_of "user" "alice")) "skill.read" demo_name "success" "done" "" "" "" "" "" ""
    "op" 200 "" "" "" 0 0 0 None.

Lemma Record_delivered_witness :
  exists record ok s s', sdk_AddRecord record s = ((ok, None), s' : Memory)
    /\ rec_Name record <> "" /\ (ev_Name demo_audit <> "" -> rec_Name record = ev_Name demo_audit)
    /\ rec_Action record = ev_Action demo_audit /\ rec_StatusCode record = ev_StatusCode demo_audit
    /\ rec_Response record = ev_Message demo_audit
    /\ rec_User record = match ev_Actor demo_audit with Some p => SubjectID p | None => "anonymous" end
    /\ rec_Organization record = firstNonEmpty
         [match ev_Actor demo_audit with Some p => POrgID p | None => "" end;
          Organization (a_cfg demo_adapter)].
Proof.
  apply (Record_delivered (H := demo_encoding) demo_adapter (Some (to_bytes "01234567")) Background demo_audit
    (memory_world [] [lost])
    (Adapter_Record (H := demo_encoding) demo_adapter (Some (to_bytes "01234567")) Background demo_audit
      (memory_world [] [lost])).2).
  vm_compute. reflexivity.
Defined.
