(* ===== verification/Redis.v ===== *)
(** * The Redis client and its construction ([cache/redis.go]).

    Redis and go-redis are libraries: [RedisServer] is the interface to the
    commands the kit issues, [RedisClient] to the client that carries a command,
    or a script of several, to the server.  [RedisLaws] states what the kit
    relies on: the documented effect of each command on keys with an expiry, the
    atomic execution of a script, and that a failed call was executed once or not
    at all.  [table_client] is a concrete server that satisfies it. *)

From S2P Require Import Prelude GoStrings GoTime Principal Env.
Local Open Scope Z_scope.

(** ** Interface *)

(** The options given to [redis.NewClient] or [redis.NewClusterClient]. *)
Record redis_Options := mkRedisOptions {
  ro_cluster : bool; ro_addrs : list string; ro_username : string; ro_password : string;
  ro_db : Z; ro_dial : Duration; ro_read : Duration; ro_write : Duration; ro_pool : Z;
}.

(** A client: its identity, and the options it was made with. *)
Record redis_handle := mkRedisHandle { rh_id : positive; rh_opts : redis_Options }.

(** [redis.UniversalClient] *)
Notation UniversalClient := (option redis_handle).

(** A command is executed by the server at its time [now]. *)
Notation command S A := (Time -> S -> A * S) (only parsing).

Class RedisServer (S : Type) := {
  SETNX : string -> string -> Duration -> command S bool;
  SET : string -> string -> Duration -> command S unit;
  GET : string -> command S (option string);
  GETDEL : string -> command S (option string);
  EXISTS : string -> command S Z;
  PEXPIRE : string -> Z -> command S Z;
  DEL : string -> command S Z;
}.

(** [process c dflt cmd]: send [cmd] under the context [c]; a call that fails
    gives [dflt]. *)
Class RedisClient (S : Type) := {
  redis_server :: RedisServer S;
  process {A} : ctx -> A -> command S A -> Time -> S -> (A * option error) * S;
  client_New : redis_Options -> S -> redis_handle * S;
  client_Ping : redis_handle -> ctx -> Time -> S -> option error * S;
  client_Close : redis_handle -> Time -> S -> option error * S;
}.

(** The reply to a command on a missing key. *)
Definition redis_Nil : error := errForeign "redis.Nil" "redis: nil".

(** What a server stores under a key, and until when. *)
Notation entry := (string * option Time)%type.

Definition alive (now : Time) (e : entry) : Prop :=
  match e.2 with None => True | Some t => now < t end.
#[export] Instance alive_dec now e : Decision (alive now e).
Proof. unfold alive. destruct e.2; apply _. Defined.

(** The value of a key at a time. *)
Definition value_at (now : Time) (e : option entry) : option string :=
  match e with
  | Some e => if decide (alive now e) then Some e.1 else None
  | None => None
  end.

(** When a key set now with the lifetime [ttl] expires: after [ttl], give or
    take the rounding to milliseconds, which go-redis never rounds to nothing. *)
Definition expires (now : Time) (ttl : Duration) (t : Time) : Prop :=
  now < t <= now + Z.max ttl Millisecond /\ now + ttl - Millisecond < t.

Class RedisLaws {S} (client : RedisClient S) (view : S -> gmap string entry) : Prop := {
  process_done {A} c (dflt : A) cmd now s r s' :
    process c dflt cmd now s = ((r, None), s') ->
    exists s0, view s0 = view s /\ (r, s') = cmd now s0;
  process_failed {A} c (dflt : A) cmd now s r e s' :
    process c dflt cmd now s = ((r, Some e), s') ->
    r = dflt /\ errors_Is "redis.Nil" e = false /\
    exists s0, view s0 = view s /\ (s' = s0 \/ s' = (cmd now s0).2);
  SETNX_law k v ttl now s : 0 < ttl ->
    match value_at now (view s !! k) with
    | Some _ => (SETNX k v ttl now s).1 = false /\ view (SETNX k v ttl now s).2 = view s
    | None => (SETNX k v ttl now s).1 = true /\
        exists t, expires now ttl t /\ view (SETNX k v ttl now s).2 = <[k := (v, Some t)]> (view s)
    end;
  SET_law k v ttl now s : 0 < ttl ->
    exists t, expires now ttl t /\ view (SET k v ttl now s).2 = <[k := (v, Some t)]> (view s);
  GET_law k now s :
    (GET k now s).1 = value_at now (view s !! k) /\ view (GET k now s).2 = view s;
  GETDEL_law k now s :
    (GETDEL k now s).1 = value_at now (view s !! k) /\ view (GETDEL k now s).2 = delete k (view s);
  EXISTS_law k now s :
    (EXISTS k now s).1 = match value_at now (view s !! k) with Some _ => 1 | None => 0 end
    /\ view (EXISTS k now s).2 = view s;
  PEXPIRE_law k ms now s :
    match value_at now (view s !! k) with
    | None => (PEXPIRE k ms now s).1 = 0 /\ view (PEXPIRE k ms now s).2 = view s
    | Some v => (PEXPIRE k ms now s).1 = 1 /\ view (PEXPIRE k ms now s).2 =
        if decide (0 < ms) then <[k := (v, Some (now + ms * Millisecond))]> (view s)
        else delete k (view s)
    end;
  DEL_law k now s :
    (DEL k now s).1 = match value_at now (view s !! k) with Some _ => 1 | None => 0 end
    /\ view (DEL k now s).2 = delete k (view s);
}.

(** ** Calls in the world *)

Section calls.
Context {S : Type} {client : RedisClient S}.
Implicit Types (w : World S) (c : ctx).

(** A round trip: some latency, the command at the server, some latency. *)
Definition timed {A} (f : Time -> S -> A * S) : prog (World S) A :=
  l ← next_latency;
  now ← gets w_now;
  _ ← advance_to (now + l);
  now ← gets w_now;
  s ← gets w_svc;
  let '(r, s') := f now s in
  _ ← modify (set_svc s');
  l ← next_latency;
  now ← gets w_now;
  _ ← advance_to (now + l);
  mret r.

Definition redis_do {A} c (dflt : A) (cmd : command S A) : prog (World S) (A * option error) :=
  timed (process c dflt cmd).

(** A round trip in full: the server executes at a time between its start and
    its end; and nothing else changes. *)
Lemma timed_inv {A} (f : Time -> S -> A * S) w :
  exists r now w', timed f w = (Ret r, w') /\ (r, w_svc w') = f now (w_svc w)
    /\ w_now w <= now <= w_now w' /\ w_late w' = w_late w.
Proof.
  unfold timed.
  destruct (next_latency_quiet w) as (l & w1 & E1 & (Es1 & El1 & _) & Hl1 & En1 & _).
  rewrite (run_bind_Ret _ _ _ _ _ E1). run_prog. rewrite Es1.
  destruct (f _ (w_svc w)) as [r s'] eqn:Ef. run_prog.
  match goal with |- context [next_latency ?w0] =>
    destruct (next_latency_quiet w0) as (l2 & w2 & E2 & (Es2 & El2 & _) & Hl2 & En2 & _) end.
  rewrite E2. eexists r, _, _. split; [reflexivity|]. simpl in *.
  split; [by rewrite Es2|]. split; [lia|congruence].
Qed.

(** A call seen through a part of the state. *)
Lemma timed_view {A T} (view : S -> T) (f : Time -> S -> A * S) (Q : A -> T -> T -> Prop) w r w' :
  (forall now s x s', f now s = (x, s') -> Q x (view s) (view s')) ->
  timed f w = (Ret r, w') -> Q r (view (w_svc w)) (view (w_svc w')).
Proof.
  intros Hf. destruct (timed_inv f w) as (r1 & now & w1 & E & Ef & _). rewrite E. intros [= <- <-].
  apply (Hf now (w_svc w)). by rewrite Ef.
Qed.

Lemma redis_do_inv {A} c (dflt : A) cmd w :
  exists r err now w', redis_do c dflt cmd w = (Ret (r, err), w') /\
    process c dflt cmd now (w_svc w) = ((r, err), w_svc w') /\
    w_now w <= now <= w_now w' /\ w_late w' = w_late w.
Proof.
  unfold redis_do. destruct (timed_inv (process c dflt cmd) w) as ([r e] & now & w' & E & Ef & ? & ?).
  exists r, e, now, w'. by rewrite <- Ef.
Qed.

(** [client.Get(...).Result()] and the like: a missing key is the error [Nil]. *)
Definition or_Nil (r : option string * option error) : string * option error :=
  match r with
  | (_, Some e) => ("", Some e)
  | (Some v, None) => (v, None)
  | (None, None) => ("", Some redis_Nil)
  end.

Definition redis_Get c (k : string) : prog (World S) (string * option error) :=
  r ← redis_do c None (GET k); mret (or_Nil r).
Definition redis_GetDel c (k : string) : prog (World S) (string * option error) :=
  r ← redis_do c None (GETDEL k); mret (or_Nil r).
Definition redis_Set c (k v : string) (ttl : Duration) : prog (World S) (option error) :=
  '(_, err) ← redis_do c tt (SET k v ttl); mret err.
Definition redis_SetNX c (k v : string) (ttl : Duration) : prog (World S) (bool * option error) :=
  redis_do c false (SETNX k v ttl).
Definition redis_Exists c (k : string) : prog (World S) (Z * option error) :=
  redis_do c 0 (EXISTS k).
End calls.

(** ** Construction *)

Record RedisConfig := mkRedisConfig {
  rc_Mode : string; rc_Addr : string; rc_Addrs : list string; rc_Username : string;
  rc_Password : string; rc_DB : Z; rc_DialTimeout : string; rc_ReadTimeout : string;
  rc_WriteTimeout : string; rc_PoolSize : Z;
}.

(** The fields of [cache.Redis]; [redis_client] may be nil. *)
Record Redis := mkRedis {
  redis_client : UniversalClient;
  redis_metrics : option Metrics;
  redis_mode : string;
}.

Section construction.
Context {S : Type} {client : RedisClient S}.

(** The choice of the client: its mode and the options, or an error. *)
Definition redis_options (cfg : RedisConfig) : redis_Options + error :=
  let mode := if decide (rc_Mode cfg = "") then "single" else rc_Mode cfg in
  let dial := durOrDefault (rc_DialTimeout cfg) (5 * Second) in
  let read := durOrDefault (rc_ReadTimeout cfg) (3 * Second) in
  let write := durOrDefault (rc_WriteTimeout cfg) (3 * Second) in
  if decide (mode = "single") then
    if decide (rc_Addr cfg = "") then inr (errText "redis.addr is required")
    else inl (mkRedisOptions false [rc_Addr cfg] (rc_Username cfg) (rc_Password cfg) (rc_DB cfg)
                dial read write (rc_PoolSize cfg))
  else if decide (mode = "cluster") then
    if decide (length (rc_Addrs cfg) = 0%nat) then inr (errText "redis.addrs is required for cluster")
    else inl (mkRedisOptions true (rc_Addrs cfg) (rc_Username cfg) (rc_Password cfg) 0
                dial read write (rc_PoolSize cfg))
  else inr (errText "redis.mode only supports single or cluster").

(** [metrics] is the option [WithMetrics]. *)
Definition NewRedis (c : ctx) (cfg : RedisConfig) (metrics : option Metrics)
    : prog (World S) (res (option Redis)) :=
  let mode := if decide (rc_Mode cfg = "") then "single" else rc_Mode cfg in
  started ← time_Now;
  match redis_options cfg with
  | inr err => mret (None, Some err)
  | inl opts =>
      s ← gets w_svc;
      let '(handle, s') := client_New opts s in
      _ ← modify (set_svc s');
      err ← timed (client_Ping handle c);
      match err with
      | Some err =>
          _ ← timed (client_Close handle);
          _ ← ObserveDependency metrics "redis" "ping" started (Some err);
          mret (None, Some (errWrap "ping redis: " err ""))
      | None =>
          _ ← ObserveDependency metrics "redis" "init" started None;
          mret (Some (mkRedis (Some handle) metrics mode), None)
      end
  end.

Definition Redis_Close (r : option Redis) : prog (World S) (option error) :=
  match r ≫= redis_client with
  | None => mret None
  | Some handle => _ ← time_Now; timed (client_Close handle)
  end.

Definition Redis_Ping (c : ctx) (r : option Redis) : prog (World S) (option error) :=
  match r with
  | Some r =>
      match redis_client r with
      | None => mret (Some (errText "redis not initialized"))
      | Some handle =>
          started ← time_Now;
          err ← timed (client_Ping handle c);
          _ ← ObserveDependency (redis_metrics r) "redis" "ping" started err;
          mret err
      end
  | None => mret (Some (errText "redis not initialized"))
  end.
End construction.

(** ** A concrete server

    Its state is the table of entries, and a script of failures: [None] carries the next call out, [Some false] loses it, [Some true]
    carries it out and loses the reply. *)
Record Table := mkTable { tbl : gmap string entry; tbl_faults : list (option bool) }.

Definition set_tbl (m : gmap string entry) (s : Table) : Table := mkTable m (tbl_faults s).

#[export] Instance table_server : RedisServer Table := {
  SETNX k v ttl now s :=
    match value_at now (tbl s !! k) with
    | Some _ => (false, s)
    | None => (true, set_tbl (<[k := (v, Some (now + ttl))]> (tbl s)) s)
    end;
  SET k v ttl now s :=
    (tt, set_tbl (<[k := (v, if decide (0 < ttl) then Some (now + ttl) else None)]> (tbl s)) s);
  GET k now s := (value_at now (tbl s !! k), s);
  GETDEL k now s := (value_at now (tbl s !! k), set_tbl (delete k (tbl s)) s);
  EXISTS k now s := (match value_at now (tbl s !! k) with Some _ => 1 | None => 0 end, s);
  PEXPIRE k ms now s :=
    match value_at now (tbl s !! k) with
    | None => (0, s)
    | Some v => (1, set_tbl (if decide (0 < ms) then <[k := (v, Some (now + ms * Millisecond))]> (tbl s)
                             else delete k (tbl s)) s)
    end;
  DEL k now s :=
    (match value_at now (tbl s !! k) with Some _ => 1 | None => 0 end,
     set_tbl (delete k (tbl s)) s);
}.

Definition table_down : error := errForeign "redis" "connection refused".

Definition table_process {A} (dflt : A) (cmd : command Table A) (now : Time) (s : Table)
    : (A * option error) * Table :=
  let s1 := mkTable (tbl s) (tail (tbl_faults s)) in
  match head (tbl_faults s) with
  | Some (Some false) => ((dflt, Some table_down), s1)
  | Some (Some true) => ((dflt, Some table_down), (cmd now s1).2)
  | _ => let '(r, s') := cmd now s1 in ((r, None), s')
  end.

#[export] Instance table_client : RedisClient Table := {
  redis_server := table_server;
  process A c dflt cmd now s := table_process dflt cmd now s;
  client_New opts s := (mkRedisHandle 1 opts, s);
  client_Ping _ _ _ s := (None, s);
  client_Close _ _ s := (None, s);
}.

#[export] Instance table_laws : RedisLaws table_client tbl.
Proof.
  split; simpl.
  - intros A c dflt cmd now s r s'. unfold table_process. set (s1 := mkTable _ _).
    intros H. exists s1. split; [done|]. revert H.
    destruct (head (tbl_faults s)) as [[[]|]|]; destruct (cmd now s1); by intros [= <- <-].
  - intros A c dflt cmd now s r e s'. unfold table_process. set (s1 := mkTable _ _).
    intros H. split_and!; [| |exists s1; split; [done|]]; revert H;
      destruct (head (tbl_faults s)) as [[[]|]|]; destruct (cmd now s1); intros [= <- <- <-]; auto.
  - intros k v ttl now s Ht. destruct (value_at now (tbl s !! k)); [done|]. split; [done|].
    exists (now + ttl). unfold expires, Millisecond. split; [lia|done].
  - intros k v ttl now s Ht. exists (now + ttl). unfold expires, Millisecond. split; [lia|].
    by rewrite decide_True.
  - done.
  - done.
  - done.
  - intros k ms now s. by destruct (value_at now (tbl s !! k)).
  - done.
Qed.

Definition table_world (faults : list (option bool)) : World Table :=
  mkWorld (mkTable ∅ faults) 1000 [] [] [] [].

(** ** What a call does to the table of the server *)

Section views.
Context {S : Type} {client : RedisClient S} (view : S -> gmap string entry).
Context `{!RedisLaws client view}.
Implicit Types (w : World S) (c : ctx).

(** The server's table in a world. *)
Definition table w : gmap string entry := view (w_svc w).

(** A call took effect at the server time [now]: it answered, or it failed and
    was or was not carried out. *)
Inductive done_at {A} (dflt : A) (cmd : command S A) (now : Time) w
    : A -> option error -> World S -> Prop :=
  | answered s0 r w' :
      view s0 = table w -> (r, w_svc w') = cmd now s0 -> done_at dflt cmd now w r None w'
  | lost e w' :
      errors_Is "redis.Nil" e = false -> table w' = table w -> done_at dflt cmd now w dflt (Some e) w'
  | unanswered s0 e w' :
      errors_Is "redis.Nil" e = false ->
      view s0 = table w -> w_svc w' = (cmd now s0).2 -> done_at dflt cmd now w dflt (Some e) w'.

Lemma redis_do_done {A} c (dflt : A) cmd w :
  exists r err now w', redis_do c dflt cmd w = (Ret (r, err), w') /\
    done_at dflt cmd now w r err w' /\ w_now w <= now <= w_now w' /\ w_late w' = w_late w.
Proof.
  destruct (redis_do_inv c dflt cmd w) as (r & err & now & w' & E & Ep & Hn & Hl).
  exists r, err, now, w'. split; [done|]. split; [|done]. destruct err as [e|].
  - apply process_failed in Ep as (-> & He & s0 & Hv & [Hs|Hs]).
    + apply lost; [done|]. unfold table. by rewrite Hs.
    + by eapply unanswered.
  - apply process_done in Ep as (s0 & Hv & Hs). by eapply answered.
Qed.
End views.
