(* ===== verification/OAuth.v ===== *)
(** * OAuth login over Casdoor ([casdoor/oauth.go], [authn/oauth.go]).

    The adapter builds the login and logout URLs and exchanges codes and refresh
    tokens at the token endpoint.  Query strings and form bodies are those of
    [GoURL]; the network is the class [HttpClient], and the decoding of the
    answer the class [JSON].  A loop over [Extra] takes the keys in the order of
    the map; [add_values_any_order] shows that the order does not matter. *)

From S2P Require Import Prelude GoStrings GoText GoURL GoTime GoJSON Principal Env Retry Redis CasdoorClient.
Local Open Scope Z_scope.

(** ** authn/oauth.go *)

Definition DefaultLoginScope : string := "openid profile email".

Record LoginRequest := mkLoginRequest {
  lr_RedirectURI : string; lr_State : string; lr_Scope : string; lr_Prompt : string; lr_Extra : Values;
}.

Record LogoutRequest := mkLogoutRequest {
  lo_IDTokenHint : string; lo_PostLogoutRedirectURI : string; lo_State : string; lo_Extra : Values;
}.

Record ExchangeCodeRequest := mkExchangeCodeRequest {
  xc_Code : string; xc_RedirectURI : string; xc_Extra : Values;
}.

Record RefreshTokenRequest := mkRefreshTokenRequest {
  rf_RefreshToken : string; rf_Scope : string; rf_Extra : Values;
}.

Record TokenResponse := mkTokenResponse {
  AccessToken : string; RefreshToken : string; IDToken : string; TokenType : string;
  ExpiresIn : Z; tk_Scope : string; tk_Raw : string;
}.

(** ** URLs *)

Definition slash_char : Ascii.ascii := Ascii.ascii_of_nat 47.

Definition adapter_nil : error := errText "casdoor adapter is nil".
Definition redirect_required : error := errText "redirect_uri is required".

Definition add_extra (extra q : Values) : Values := add_values (map_to_list extra) q.

(** [if value != "" { q.Set(key, value) }] *)
Definition set_nonempty (key value : string) (q : Values) : Values :=
  if decide (value = "") then q else q_Set key value q.

Section urls.
Context `{NetURL}.

(** The scope asked for, or that of the settings, or the default. *)
Definition login_scope (cfg : casdoor_Config) (req : LoginRequest) : string :=
  let scope := TrimSpace (lr_Scope req) in
  let scope := if decide (scope = "") then TrimSpace (DefaultScope cfg) else scope in
  if decide (scope = "") then DefaultLoginScope else scope.

Definition LoginURL (a : option Adapter) (req : LoginRequest) : string * option error :=
  match a with
  | None => ("", Some adapter_nil)
  | Some a =>
      if decide (TrimSpace (lr_RedirectURI req) = "") then ("", Some redirect_required) else
      match url_Parse (TrimRight slash_char (Endpoint (a_cfg a)) +:+ "/login/oauth/authorize") with
      | inr err => ("", Some err)
      | inl base =>
          let q := url_Query base in
          let q := q_Set "client_id" (ClientID (a_cfg a)) q in
          let q := q_Set "response_type" "code" q in
          let q := q_Set "redirect_uri" (lr_RedirectURI req) q in
          let q := q_Set "scope" (login_scope (a_cfg a) req) q in
          let q := set_nonempty "state" (lr_State req) q in
          let q := set_nonempty "prompt" (lr_Prompt req) q in
          let q := add_extra (lr_Extra req) q in
          (url_String (set_RawQuery (q_Encode q) base), None)
      end
  end.

Definition LogoutURL (a : option Adapter) (req : LogoutRequest) : string * option error :=
  match a with
  | None => ("", Some adapter_nil)
  | Some a =>
      match url_Parse (TrimRight slash_char (Endpoint (a_cfg a)) +:+ "/logout") with
      | inr err => ("", Some err)
      | inl base =>
          let q := url_Query base in
          let q := if decide (lo_PostLogoutRedirectURI req = "") then q else
                   q_Set "redirect_uri" (lo_PostLogoutRedirectURI req)
                     (q_Set "post_logout_redirect_uri" (lo_PostLogoutRedirectURI req) q) in
          let q := set_nonempty "id_token_hint" (lo_IDTokenHint req) q in
          let q := set_nonempty "state" (lo_State req) q in
          let q := add_extra (lo_Extra req) q in
          (url_String (set_RawQuery (q_Encode q) base), None)
      end
  end.
End urls.

(** ** The token endpoint *)

Record http_Request := mkHttpRequest {
  hq_Method : string; hq_URL : string; hq_ContentType : string; hq_Body : string;
}.

(** The bytes the body yields, and the error reading ends with, if not EOF. *)
Record http_Response := mkHttpResponse {
  hr_StatusCode : Z; hr_Body : string; hr_ReadError : option error;
}.

(** [client.Do] with the timeout of the client. *)
Class HttpClient (S : Type) := {
  http_Do : Duration -> ctx -> http_Request -> Time -> S -> (http_Response + error) * S;
}.

(** [http.NewRequestWithContext(ctx, "POST", url, body)] with the form header. *)
Definition new_post `{NetURL} c (url body : string) : http_Request + error :=
  match c : ctx with
  | None => inr (errForeign "net/http" "net/http: nil Context")
  | Some _ =>
      match url_Parse url with
      | inr err => inr err
      | inl _ => inl (mkHttpRequest "POST" url "application/x-www-form-urlencoded" body)
      end
  end.

Fixpoint take_bytes (n : N) (l : bytes) : bytes :=
  match l with
  | [] => []
  | a :: l => if (n =? 0)%N then [] else a :: take_bytes (N.pred n) l
  end.

(** [io.ReadAll(io.LimitReader(body, limit))]: an error of the body beyond the
    limit is not met. *)
Definition read_limited (limit : N) (resp : http_Response) : string * option error :=
  (of_bytes (take_bytes limit (to_bytes (hr_Body resp))),
   if (limit <=? N.of_nat (String.length (hr_Body resp)))%N then None else hr_ReadError resp).

Definition one_MiB : N := 1048576.

Section exchange.
Context {S : Type} {http : HttpClient S} `{NetURL} `{JSON TokenResponse}.
Implicit Types (w : World S) (c : ctx).

(** What the answer of the endpoint is turned into. *)
Definition token_of_response (resp : http_Response) : res (option TokenResponse) :=
  match read_limited one_MiB resp with
  | (_, Some err) => (None, Some err)
  | (body, None) =>
      if decide (hr_StatusCode resp < 200 \/ 300 <= hr_StatusCode resp) then
        (None, Some (errText ("casdoor token exchange failed: status=" +:+ pretty (hr_StatusCode resp)
                              +:+ " body=" +:+ TrimSpace body)))
      else match json_Unmarshal body json_zero with
           | (_, Some err) => (None, Some (errWrap "decode casdoor token response: " err ""))
           | (out, None) =>
               let token_type := if decide (TokenType out = "" /\ AccessToken out <> "") then "Bearer"
                                 else TokenType out in
               if decide (AccessToken out = "") then
                 (None, Some (errText "casdoor token response missing access_token"))
               else (Some (mkTokenResponse (AccessToken out) (RefreshToken out) (IDToken out) token_type
                             (ExpiresIn out) (tk_Scope out) body), None)
           end
  end.

Definition token_endpoint (a : Adapter) : string :=
  TrimRight slash_char (Endpoint (a_cfg a)) +:+ "/api/login/oauth/access_token".

Definition exchangeToken (a : Adapter) c (grantType : string) (form : Values)
    : prog (World S) (res (option TokenResponse)) :=
  started ← time_Now;
  match new_post c (token_endpoint a) (q_Encode form) with
  | inr err => mret (None, Some err)
  | inl req =>
      resp ← timed (http_Do (a_timeout a) c req);
      let err := match resp with inr err => Some err | inl _ => None end in
      _ ← ObserveDependency (a_metrics a) "casdoor" ("oauth_" +:+ grantType) started err;
      match resp with
      | inr err => mret (None, Some err)
      | inl resp => mret (token_of_response resp)
      end
  end.

(** The parameters every exchange starts with. *)
Definition client_form (a : Adapter) (grantType : string) : Values :=
  q_Set "client_secret" (ClientSecret (a_cfg a))
    (q_Set "client_id" (ClientID (a_cfg a)) (q_Set "grant_type" grantType ∅)).

Definition ExchangeCode (a : option Adapter) c (req : ExchangeCodeRequest)
    : prog (World S) (res (option TokenResponse)) :=
  match a with
  | None => mret (None, Some adapter_nil)
  | Some a =>
      if decide (TrimSpace (xc_Code req) = "") then mret (None, Some (errText "code is required")) else
      if decide (TrimSpace (xc_RedirectURI req) = "") then mret (None, Some redirect_required) else
      let form := client_form a "authorization_code" in
      let form := q_Set "code" (xc_Code req) form in
      let form := q_Set "redirect_uri" (xc_RedirectURI req) form in
      let form := add_extra (xc_Extra req) form in
      exchangeToken a c "authorization_code" form
  end.

Definition Adapter_RefreshToken (a : option Adapter) c (req : RefreshTokenRequest)
    : prog (World S) (res (option TokenResponse)) :=
  match a with
  | None => mret (None, Some adapter_nil)
  | Some a =>
      if decide (TrimSpace (rf_RefreshToken req) = "") then
        mret (None, Some (errText "refresh_token is required")) else
      let form := client_form a "refresh_token" in
      let form := q_Set "refresh_token" (rf_RefreshToken req) form in
      let form := set_nonempty "scope" (rf_Scope req) form in
      let form := add_extra (rf_Extra req) form in
      exchangeToken a c "refresh_token" form
  end.
End exchange.

(** ** Parameters *)

Lemma set_nonempty_values k x q :
  (forall k, q !! k <> Some []) -> forall k', set_nonempty k x q !! k' <> Some [].
Proof. intros Hq. unfold set_nonempty. case_decide; [done|]. by apply q_Set_values. Qed.

Lemma add_values_lookup vs q k :
  NoDup vs.*1 ->
  add_values vs q !! k = match (list_to_map vs : Values) !! k with
                         | Some (x :: xs) => Some (default [] (q !! k) ++ x :: xs)
                         | _ => q !! k
                         end.
Proof.
  unfold add_values. revert q. induction vs as [|[k' ys] vs IH]; intros q; [done|].
  intros [Hk Hnd]%NoDup_cons. cbn [foldl]. rewrite IH by done. simpl.
  assert (forall q : Values, foldl (fun q x => q_Add k' x q) q ys !! k =
            if decide (k' = k) then match ys with [] => q !! k | _ => Some (default [] (q !! k) ++ ys) end
            else q !! k) as E.
  { clear. induction ys as [|y ys IH]; intros q; [by case_decide|]. cbn [foldl]. rewrite IH, q_Add_lookup.
    case_decide; [subst|done]. simpl. rewrite <- app_assoc. by destruct ys. }
  rewrite E. destruct (decide (k' = k)) as [->|Hne].
  - rewrite lookup_insert_eq, (not_elem_of_list_to_map_1 vs k) by done. by destruct ys.
  - by rewrite lookup_insert_ne.
Qed.

(** The loop over [Extra] gives the same values whatever the order of its keys. *)
Lemma add_values_any_order vs (extra q : Values) :
  vs ≡ₚ map_to_list extra -> add_values vs q = add_extra extra q.
Proof.
  intros Hvs. pose proof (NoDup_fst_map_to_list extra) as Hnd. apply map_eq. intros k. unfold add_extra.
  rewrite !add_values_lookup; [|done|by rewrite Hvs].
  by rewrite (list_to_map_proper vs (map_to_list extra)) by (done || by rewrite Hvs).
Qed.

(** The values a parameter ends up with: those it had, then those of [Extra]. *)
Lemma add_extra_lookup (extra q : Values) k :
  add_extra extra q !! k = match extra !! k with
                           | Some (x :: xs) => Some (default [] (q !! k) ++ x :: xs)
                           | _ => q !! k
                           end.
Proof.
  unfold add_extra. rewrite add_values_lookup by apply NoDup_fst_map_to_list. by rewrite list_to_map_to_list.
Qed.

(** [Extra] cannot replace the first value of a parameter. *)
Lemma q_Get_add_extra extra q k x xs : q !! k = Some (x :: xs) -> q_Get k (add_extra extra q) = x.
Proof. unfold q_Get. intros Hq. rewrite add_extra_lookup, Hq. by destruct (extra !! k) as [[]|]. Qed.

(** The value of one parameter of a form that was set step by step. *)
Ltac parameters :=
  repeat match goal with q := _ : Values |- _ => subst q end;
  unfold client_form, set_nonempty, q_Set; repeat case_decide; by simplify_map_eq.

(** ** The login URL *)

Section login.
Context `{NetURL} {laws : URLLaws}.

Lemma login_scope_nonempty cfg req : login_scope cfg req <> "".
Proof. unfold login_scope. by repeat case_decide. Qed.

(** C27: A login URL that is built carries the request: whoever parses it reads (as
    the first value of each parameter, which [Extra] cannot replace) the
    client of the settings, the response type [code], the redirect URI, a scope
    that is not empty, and the state when there is one; without a redirect URI
    no URL is built, and otherwise only an endpoint that does not parse fails. *)
Theorem LoginURL_carries (a : Adapter) (req : LoginRequest) :
  match LoginURL (Some a) req with
  | (url, None) => TrimSpace (lr_RedirectURI req) <> "" /\
      exists u, url_Parse url = inl u /\
        let q := url_Query u in
        q_Get "client_id" q = ClientID (a_cfg a) /\ q_Get "response_type" q = "code"
        /\ q_Get "redirect_uri" q = lr_RedirectURI req
        /\ q_Get "scope" q = login_scope (a_cfg a) req /\ q_Get "scope" q <> ""
        /\ (lr_State req <> "" -> q_Get "state" q = lr_State req)
        /\ (lr_Prompt req <> "" -> q_Get "prompt" q = lr_Prompt req)
        /\ forall k x, x ∈ default [] (lr_Extra req !! k) -> x ∈ default [] (q !! k)
  | (url, Some err) => url = "" /\
      (TrimSpace (lr_RedirectURI req) = "" /\ err = redirect_required \/
       url_Parse (TrimRight slash_char (Endpoint (a_cfg a)) +:+ "/login/oauth/authorize") = inr err)
  end.
Proof.
  cbn [LoginURL]. case_decide as Hr; [naive_solver|].
  destruct (url_Parse _) as [base|err]; [|by auto]. split; [done|].
  set (q6 := set_nonempty "prompt" _ _). set (q := add_extra _ q6).
  assert (forall k, q !! k <> Some []) as Hq.
  { apply add_values_values, set_nonempty_values, set_nonempty_values. do 4 apply q_Set_values.
    apply ParseQuery_values. }
  destruct (RawQuery_printed q (set_RawQuery (q_Encode q) base)) as (u & Eu & Er); [apply RawQuery_set|].
  exists u. split; [done|]. cbn zeta.
  assert (url_Query u = q) as -> by (unfold url_Query; rewrite Er; by apply ParseQuery_Encode).
  assert (forall k x, q6 !! k = Some [x] -> q_Get k q = x) as Hget by (intros k x; apply q_Get_add_extra).
  split_and!.
  1-4: apply Hget; parameters.
  - rewrite (Hget _ (login_scope (a_cfg a) req)) by parameters. apply login_scope_nonempty.
  - intros Hs. apply Hget. parameters.
  - intros Hp. apply Hget. parameters.
  - intros k x Hx. subst q. rewrite add_extra_lookup.
    destruct (lr_Extra req !! k) as [[|y ys]|]; [set_solver| |set_solver]. simpl in *. set_solver.
Qed.
End login.

(** ** The exchange of tokens *)

Section exchange_theorems.
Context {S : Type} {http : HttpClient S} `{NetURL} `{JSON TokenResponse}.
Implicit Types (w : World S) (c : ctx).

Lemma new_post_form c url body req :
  new_post c url body = inl req -> req = mkHttpRequest "POST" url "application/x-www-form-urlencoded" body.
Proof. unfold new_post. destruct c; [|done]. destruct (url_Parse url); [|done]. by intros [= <-]. Qed.

(** An exchange returns, and either never sent a request or sent exactly one. *)
Lemma exchangeToken_inv a c grantType form w :
  exists tok err w', exchangeToken a c grantType form w = (Ret (tok, err), w') /\
    ((exists e, new_post c (token_endpoint a) (q_Encode form) = inr e /\ tok = None /\ err = Some e
        /\ w_svc w' = w_svc w)
     \/ exists req resp now, new_post c (token_endpoint a) (q_Encode form) = inl req
          /\ http_Do (a_timeout a) c req now (w_svc w) = (resp, w_svc w')
          /\ (tok, err) = match resp with inr e => (None, Some e) | inl r => token_of_response r end).
Proof.
  unfold exchangeToken. destruct (time_Now_quiet w) as (t & w1 & E1 & (Es1 & _ & _) & _).
  rewrite (run_bind_Ret _ _ _ _ _ E1). destruct (new_post _ _ _) as [req|e].
  - destruct (timed_inv (http_Do (a_timeout a) c req) w1) as (resp & now & w2 & E2 & Ef & _).
    rewrite (run_bind_Ret _ _ _ _ _ E2). cbn zeta.
    destruct (ObserveDependency_quiet (a_metrics a) "casdoor" ("oauth_" +:+ grantType) t
      (match resp with inr err => Some err | inl _ => None end) w2) as (w3 & E3 & (Es3 & _ & _)).
    rewrite (run_bind_Ret _ _ _ _ _ E3). rewrite Es1 in Ef.
    destruct resp as [r|e].
    + destruct (token_of_response r) as [tok err] eqn:Et. exists tok, err, w3. split; [done|]. right.
      exists req, (inl r), now. by rewrite Es3, Ef.
    + exists None, (Some e), w3. split; [done|]. right. exists req, (inr e), now. by rewrite Es3, Ef.
  - exists None, (Some e), w1. split; [done|]. left. by exists e.
Qed.

Lemma token_of_response_spec resp :
  match token_of_response resp with
  | (Some t, err) => err = None /\ 200 <= hr_StatusCode resp < 300 /\ AccessToken t <> "" /\ TokenType t <> ""
      /\ tk_Raw t = (read_limited one_MiB resp).1
  | (None, err) => err <> None
  end.
Proof.
  unfold token_of_response. destruct (read_limited one_MiB resp) as [body [e|]]; [done|].
  destruct (decide (_ \/ _)); [done|]. destruct (json_Unmarshal body json_zero) as [out [e|]]; [done|].
  destruct (decide (AccessToken out = "")) as [|Ha]; [done|]. simpl. split_and!; try (done || lia).
  case_decide as Ht; [done|]. intros Ee. by apply Ht.
Qed.

(** The form in the body of the request that gave [t]. *)
Definition issued (a : Adapter) c (grantType : string) (carries : Values -> Prop) (t : TokenResponse) w w' : Prop :=
  exists body resp now,
    http_Do (a_timeout a) c (mkHttpRequest "POST" (token_endpoint a) "application/x-www-form-urlencoded" body)
      now (w_svc w) = (inl resp, w_svc w')
    /\ q_Get "grant_type" (ParseQuery body) = grantType
    /\ q_Get "client_id" (ParseQuery body) = ClientID (a_cfg a)
    /\ q_Get "client_secret" (ParseQuery body) = ClientSecret (a_cfg a)
    /\ carries (ParseQuery body)
    /\ 200 <= hr_StatusCode resp < 300 /\ AccessToken t <> "" /\ TokenType t <> ""
    /\ tk_Raw t = (read_limited one_MiB resp).1.

(** [q] is the form without the extra parameters. *)
Lemma exchange_issued a c grantType (q extra : Values) (carries : Values -> Prop) w :
  (forall k, q !! k <> Some []) -> q !! "grant_type" = Some [grantType] ->
  q !! "client_id" = Some [ClientID (a_cfg a)] -> q !! "client_secret" = Some [ClientSecret (a_cfg a)] ->
  carries (add_extra extra q) ->
  exists tok err w', exchangeToken a c grantType (add_extra extra q) w = (Ret (tok, err), w')
    /\ (tok = None <-> err <> None) /\ forall t, tok = Some t -> issued a c grantType carries t w w'.
Proof.
  intros Hq Hg Hi Hs Hc.
  destruct (exchangeToken_inv a c grantType (add_extra extra q) w) as (tok & err & w' & E & Hcase).
  exists tok, err, w'. split; [done|].
  destruct Hcase as [(e & _ & -> & -> & _)|(req & resp & now & Hp%new_post_form & Hd & Et)]; [done|]. subst req.
  destruct resp as [r|e]; [|by injection Et as -> ->].
  pose proof (token_of_response_spec r) as Hr. rewrite <- Et in Hr.
  destruct tok as [t|]; [|done]. destruct Hr as (-> & Hst & Ha & Htt & Hraw). split; [done|].
  intros t0 [= <-]. eexists _, r, now. split; [exact Hd|].
  rewrite ParseQuery_Encode by (by apply add_values_values).
  split_and!; try done || lia; by eapply q_Get_add_extra.
Qed.

(** C24: Exchanging a code or a refresh token always returns, with a token or an
    error and never both.  A blank code, redirect URI or refresh token is refused
    without any request.  A token that is returned came from one POST to the
    token endpoint whose form, as the endpoint decodes it, names the grant type,
    the client of the settings and the code (or refresh token) of the request,
    whatever the extra parameters are; the endpoint answered with a 2xx status,
    the access token is not empty, and there is a token type. *)
Theorem token_exchange_sound (a : Adapter) c (xc : ExchangeCodeRequest) (rt : RefreshTokenRequest) w :
  (exists tok err w', ExchangeCode (Some a) c xc w = (Ret (tok, err), w') /\ (tok = None <-> err <> None)
     /\ (TrimSpace (xc_Code xc) = "" \/ TrimSpace (xc_RedirectURI xc) = "" -> err <> None /\ w' = w)
     /\ forall t, tok = Some t -> issued a c "authorization_code"
          (fun form => q_Get "code" form = xc_Code xc /\ q_Get "redirect_uri" form = xc_RedirectURI xc) t w w')
  /\ (exists tok err w', Adapter_RefreshToken (Some a) c rt w = (Ret (tok, err), w') /\ (tok = None <-> err <> None)
     /\ (TrimSpace (rf_RefreshToken rt) = "" -> err <> None /\ w' = w)
     /\ forall t, tok = Some t -> issued a c "refresh_token"
          (fun form => q_Get "refresh_token" form = rf_RefreshToken rt
                       /\ (rf_Scope rt <> "" -> q_Get "scope" form = rf_Scope rt)) t w w').
Proof.
  split.
  - unfold ExchangeCode. destruct (decide (TrimSpace (xc_Code xc) = "")) as [|Hcode]; [by do 3 eexists|].
    destruct (decide (TrimSpace (xc_RedirectURI xc) = "")) as [|Huri]; [by do 3 eexists|]. cbn zeta.
    edestruct exchange_issued as (tok & err & w' & E & Hx & Hi);
      [..|exists tok, err, w'; split; [exact E|]; split; [done|]; split; [tauto|exact Hi]].
    + intros k. by repeat apply q_Set_values.
    + parameters.
    + parameters.
    + parameters.
    + split; eapply q_Get_add_extra; parameters.
  - unfold Adapter_RefreshToken. destruct (decide (TrimSpace (rf_RefreshToken rt) = "")) as [|Htok]; [by do 3 eexists|].
    cbn zeta.
    edestruct exchange_issued as (tok & err & w' & E & Hx & Hi);
      [..|exists tok, err, w'; split; [exact E|]; split; [done|]; split; [tauto|exact Hi]].
    + intros k. apply set_nonempty_values. by repeat apply q_Set_values.
    + parameters.
    + parameters.
    + parameters.
    + split; [|intros Hs]; eapply q_Get_add_extra; parameters.
Qed.
End exchange_theorems.

(** ** Witnesses *)

Definition sso_adapter : Adapter := mkAdapter
  (mkCasdoorConfig "https://sso/" "kit" "s&cret" "" "" "org" "app" "" "" "" "" "" "" "" "" "" false false 0 "" 0 "")
  (NewPolicy (mkConfig 0 "")) None 1000.

Definition sso_login : LoginRequest :=
  mkLoginRequest "https://hub/cb" "n0nce" " " "" {["state" := ["other"]]}.

Notation sso_url := (LoginURL (H := query_url) (Some sso_adapter) sso_login).

Example sso_login_url : sso_url =
  ("https://sso/login/oauth/authorize?client_id=kit&redirect_uri=https%3A%2F%2Fhub%2Fcb&response_type=code"
   +:+ "&scope=openid+profile+email&state=n0nce&state=other", None).
Proof. vm_compute. reflexivity. Qed.

Lemma LoginURL_carries_witness :
  match sso_url with
  | (url, None) => TrimSpace (lr_RedirectURI sso_login) <> "" /\
      exists u, url_Parse (NetURL := query_url) url = inl u /\
        let q := url_Query (H := query_url) u in
        q_Get "client_id" q = "kit" /\ q_Get "response_type" q = "code"
        /\ q_Get "redirect_uri" q = lr_RedirectURI sso_login
        /\ q_Get "scope" q = login_scope (a_cfg sso_adapter) sso_login /\ q_Get "scope" q <> ""
        /\ (lr_State sso_login <> "" -> q_Get "state" q = lr_State sso_login)
        /\ (lr_Prompt sso_login <> "" -> q_Get "prompt" q = lr_Prompt sso_login)
        /\ forall k x, x ∈ default [] (lr_Extra sso_login !! k) -> x ∈ default [] (q !! k)
  | (url, Some err) => url = "" /\
      (TrimSpace (lr_RedirectURI sso_login) = "" /\ err = redirect_required \/
       url_Parse (NetURL := query_url) "https://sso/login/oauth/authorize" = inr err)
  end.
Proof. exact (LoginURL_carries (H := query_url) (laws := query_url_laws) sso_adapter sso_login). Defined.

(** A token endpoint that keeps the bodies it was sent. *)
#[local] Instance token_json : JSON TokenResponse := {|
  json_zero := mkTokenResponse "" "" "" "" 0 "" "";
  json_Marshal t := inl (AccessToken t);
  json_Unmarshal b t := (mkTokenResponse b "" "" "" 0 "" "", None);
|}.

#[local] Instance log_http : HttpClient (list string) := {|
  http_Do timeout c req now s :=
    (inl (mkHttpResponse (if decide (hq_Method req = "POST") then 200 else 405) "t0ken" None), hq_Body req :: s);
|}.

Example sso_exchange :
  let '(r, w') := ExchangeCode (H := query_url) (Some sso_adapter) Background
    (mkExchangeCodeRequest "c0de" "https://hub/cb" ∅) (mkWorld [] 0 [] [] [] []) in
  r = Ret (Some (mkTokenResponse "t0ken" "" "" "Bearer" 0 "" "t0ken"), None)
  /\ w_svc w' = ["client_id=kit&client_secret=s%26cret&code=c0de&grant_type=authorization_code"
                 +:+ "&redirect_uri=https%3A%2F%2Fhub%2Fcb"].
Proof. vm_compute. done. Qed.
