(* ===== verification/Lock.v ===== *)
(** * Distributed locks on Redis ([cache/lock.go]).

    A lock is a key that holds a random token; the scripts of [Refresh] and
    [Unlock] compare the token before they touch the key.  The theorems: at any
    time only one token holds the key, nobody but its owner extends or releases
    it before its time is up, and waiting for a lock ends. *)

From S2P Require Import Prelude GoStrings GoText GoTime Principal Env Redis.
Local Open Scope Z_scope.

Record Lock := mkLock { lk_key : string; lk_token : string }.

Definition rand_error : error := errForeign "crypto/rand" "entropy source failed".

(** [entropy] is what [rand.Read] fills in, [None] its error. *)
Definition randomToken (entropy : option bytes) : string + error :=
  match entropy with None => inr rand_error | Some b => inl (hex b) end.

Section lock.
Context {S : Type} {client : RedisClient S}.
Implicit Types (w : World S) (c : ctx) (rdb : UniversalClient).

Definition TryLock (entropy : option bytes) c rdb (key : string) (ttl : Duration)
    : prog (World S) (option Lock * bool * option error) :=
  match rdb with
  | None => mret (None, false, Some (errText "redis client is nil"))
  | Some _ =>
      if decide (key = "") then mret (None, false, Some (errText "lock key is required")) else
      if decide (ttl <= 0) then mret (None, false, Some (errText "lock ttl must be positive")) else
      match randomToken entropy with
      | inr err => mret (None, false, Some err)
      | inl token =>
          '(ok, err) ← redis_SetNX c key token ttl;
          match err with
          | Some e => mret (None, ok, Some e)
          | None => if ok : bool then mret (Some (mkLock key token), true, None)
                    else mret (None, ok, None)
          end
      end
  end.

(** The wait between two attempts: a timer against [ctx.Done()]. *)
Definition lock_wait c (interval : Duration) : prog (World S) (option error) :=
  match c with
  | None => panic "invalid memory address or nil pointer dereference"
  | Some c => now ← gets w_now; select_done c (now + interval)
  end.

(** The loop of [LockWithWait]; [n] counts the attempts, which draw on
    [entropy] in turn.  [None]: out of fuel. *)
Fixpoint lock_loop (fuel : nat) (n : nat) (entropy : nat -> option bytes) c rdb (key : string)
    (ttl wait interval : Duration) (deadline : Time) : prog (World S) (option (res (option Lock))) :=
  match fuel with
  | O => mret None
  | Datatypes.S fuel =>
      '(l, ok, err) ← TryLock (entropy n) c rdb key ttl;
      match err with
      | Some e => mret (Some (None, Some e))
      | None =>
          if ok : bool then mret (Some (l, None)) else
          late ← (if decide (wait <= 0) then mret true
                  else now ← time_Now; mret (bool_decide (deadline < now)));
          if late : bool then mret (Some (None, Some (errText ("lock " +:+ key +:+ " not acquired"))))
          else
            r ← lock_wait c interval;
            match r with
            | Some e => mret (Some (None, Some e))
            | None => lock_loop fuel (Datatypes.S n) entropy c rdb key ttl wait interval deadline
            end
      end
  end.

Definition lock_interval (interval : Duration) : Duration :=
  if decide (interval <= 0) then 100 * Millisecond else interval.

(** One attempt per interval until the deadline has passed, and one more. *)
Definition lock_fuel (wait interval : Duration) : nat := (Z.to_nat (wait / interval) + 2)%nat.

Definition LockWithWait (entropy : nat -> option bytes) c rdb (key : string)
    (ttl wait interval : Duration) : prog (World S) (res (option Lock)) :=
  now ← time_Now;
  let deadline := now + wait in
  let interval := lock_interval interval in
  r ← lock_loop (lock_fuel wait interval) 0 entropy c rdb key ttl wait interval deadline;
  match r with
  | Some r => mret r
  | None => panic "out of fuel"
  end.

(** ** The scripts, executed atomically by the server *)

Definition refresh_script (k token : string) (ms : Z) : command S Z := fun now s =>
  let '(v, s) := GET k now s in
  if decide (v = Some token) then PEXPIRE k ms now s else (0, s).

Definition unlock_script (k token : string) : command S Z := fun now s =>
  let '(v, s) := GET k now s in
  if decide (v = Some token) then DEL k now s else (0, s).

Definition Lock_Refresh c (l : option Lock) (ttl : Duration) : prog (World S) (bool * option error) :=
  match l with
  | None => mret (false, None)
  | Some l =>
      if decide (ttl <= 0) then mret (false, Some (errText "lock ttl must be positive")) else
      '(r, err) ← redis_do c 0 (refresh_script (lk_key l) (lk_token l) (Milliseconds ttl));
      mret (bool_decide (r = 1), err)
  end.

Definition Lock_Unlock c (l : option Lock) : prog (World S) (option error) :=
  match l with
  | None => mret None
  | Some l =>
      '(r, err) ← redis_do c 0 (unlock_script (lk_key l) (lk_token l));
      match err with
      | Some e => mret (Some e)
      | None =>
          if decide (r = 0)
          then mret (Some (errText ("lock " +:+ lk_key l +:+ " is not owned by current token")))
          else mret None
      end
  end.
End lock.

Definition Lock_Token (l : option Lock) : string := match l with Some l => lk_token l | None => "" end.
Definition Lock_Key (l : option Lock) : string := match l with Some l => lk_key l | None => "" end.

Section laws.
Context {S : Type} {client : RedisClient S} (view : S -> gmap string entry).
Context `{!RedisLaws client view}.
Implicit Types (w : World S) (c : ctx) (rdb : UniversalClient).

Notation table := (table view).

Lemma refresh_script_law k tok ms now s :
  if decide (value_at now (view s !! k) = Some tok)
  then (refresh_script k tok ms now s).1 = 1 /\ view (refresh_script k tok ms now s).2 =
         if decide (0 < ms) then <[k := (tok, Some (now + ms * Millisecond))]> (view s)
         else delete k (view s)
  else (refresh_script k tok ms now s).1 = 0 /\ view (refresh_script k tok ms now s).2 = view s.
Proof.
  unfold refresh_script. destruct (GET_law k now s) as [Hv Hs].
  destruct (GET k now s) as [v s1]. simpl in Hv, Hs. subst v.
  pose proof (PEXPIRE_law k ms now s1) as HP. rewrite Hs in HP.
  destruct (decide (value_at now (view s !! k) = Some tok)) as [Hd|Hd]; [by rewrite Hd in HP|done].
Qed.

Lemma unlock_script_law k tok now s :
  if decide (value_at now (view s !! k) = Some tok)
  then (unlock_script k tok now s).1 = 1 /\ view (unlock_script k tok now s).2 = delete k (view s)
  else (unlock_script k tok now s).1 = 0 /\ view (unlock_script k tok now s).2 = view s.
Proof.
  unfold unlock_script. destruct (GET_law k now s) as [Hv Hs].
  destruct (GET k now s) as [v s1]. simpl in Hv, Hs. subst v.
  pose proof (DEL_law k now s1) as HD. rewrite Hs in HD.
  destruct (decide (value_at now (view s !! k) = Some tok)) as [Hd|Hd]; [by rewrite Hd in HD|done].
Qed.

(** How a call of [TryLock] that reached the server went, at the server time
    [now]. *)
Inductive try_result (key token : string) (ttl : Duration) w
    : option Lock -> bool -> option error -> World S -> Prop :=
  | try_won now t w' :
      w_now w <= now <= w_now w' -> value_at now (table w !! key) = None -> expires now ttl t ->
      table w' = <[key := (token, Some t)]> (table w) ->
      try_result key token ttl w (Some (mkLock key token)) true None w'
  | try_held now v w' :
      w_now w <= now <= w_now w' -> value_at now (table w !! key) = Some v -> table w' = table w ->
      try_result key token ttl w None false None w'
  | try_failed e w' :
      w_now w <= w_now w' -> table w' = table w ->
      try_result key token ttl w None false (Some e) w'
  | try_unanswered now t e w' :
      w_now w <= now <= w_now w' -> value_at now (table w !! key) = None -> expires now ttl t ->
      table w' = <[key := (token, Some t)]> (table w) ->
      try_result key token ttl w None false (Some e) w'.

Lemma TryLock_returns entropy c rdb key ttl w :
  exists r w', TryLock entropy c rdb key ttl w = (Ret r, w').
Proof.
  unfold TryLock. destruct rdb; [|by do 2 eexists]. repeat (case_decide; [by do 2 eexists|]).
  destruct (randomToken entropy); [|by do 2 eexists]. unfold redis_SetNX.
  match goal with |- context [redis_do c ?d ?f] =>
    destruct (redis_do_done view c d f w) as (ok & err & now & w' & E & _) end.
  rewrite (run_bind_Ret _ _ _ _ _ E). destruct err, ok; by do 2 eexists.
Qed.

Lemma TryLock_result entropy c rdb key ttl w l ok err w' :
  TryLock entropy c rdb key ttl w = (Ret (l, ok, err), w') ->
  (l = None /\ ok = false /\ err <> None /\ w' = w) \/
  (0 < ttl /\ key <> "" /\ exists b, entropy = Some b /\ try_result key (hex b) ttl w l ok err w').
Proof.
  unfold TryLock. destruct rdb; [|intros [= <- <- <- <-]; by left].
  case_decide as Hk; [intros [= <- <- <- <-]; by left|].
  case_decide as Ht; [intros [= <- <- <- <-]; by left|].
  unfold randomToken. destruct entropy as [b|]; [|intros [= <- <- <- <-]; by left].
  intros H. right. split; [lia|]. split; [done|]. exists b. split; [done|]. revert H. unfold redis_SetNX.
  destruct (redis_do_done view c false (SETNX key (hex b) ttl) w) as (r0 & e0 & now & w1 & E & Hd & Hn & _).
  rewrite (run_bind_Ret _ _ _ _ _ E).
  destruct Hd as [s0 r1 w2 Hv Hs|e1 w2 _ Hv|s0 e1 w2 _ Hv Hs].
  - pose proof (SETNX_law key (hex b) ttl now s0 ltac:(lia)) as HL. rewrite <- Hs, Hv in HL. simpl in HL.
    destruct (value_at now (table w !! key)) as [v|] eqn:Ev.
    + destruct HL as [-> HL]. intros [= <- <- <- <-]. by eapply try_held.
    + destruct HL as [-> (t & Hx & HL)]. intros [= <- <- <- <-]. by eapply try_won.
  - intros [= <- <- <- <-]. apply try_failed; [lia|done].
  - pose proof (SETNX_law key (hex b) ttl now s0 ltac:(lia)) as HL. rewrite <- Hs, Hv in HL.
    intros [= <- <- <- <-]. destruct (value_at now (table w !! key)) as [v|] eqn:Ev.
    + destruct HL as [_ HL]. apply try_failed; [lia|done].
    + destruct HL as [_ (t & Hx & HL)]. by eapply try_unanswered.
Qed.

(** ** What a lock operation does to another holder's key *)

(** [key] holds [token] until [t]. *)
Definition holds (key token : string) (t : Time) w : Prop := table w !! key = Some (token, Some t).

Lemma holds_value key token t now w : holds key token t w -> now < t ->
  value_at now (table w !! key) = Some token.
Proof. unfold holds. intros -> Hn. simpl. unfold alive. simpl. by rewrite decide_True. Qed.

Lemma TryLock_keeps entropy c rdb key' ttl w r w' key token t :
  TryLock entropy c rdb key' ttl w = (Ret r, w') ->
  holds key token t w -> w_now w' < t -> holds key token t w' /\ w_now w <= w_now w'.
Proof.
  destruct r as [[l ok] err].
  intros [(_ & _ & _ & ->)|(_ & _ & b & _ & Hr)]%TryLock_result Hh Ht; [split; [done|lia]|].
  assert (forall now t', w_now w <= now <= w_now w' -> value_at now (table w !! key') = None ->
    table w' = <[key' := (hex b, Some t')]> (table w) -> holds key token t w') as Hw.
  { intros now t' Hn Hv E. unfold holds. rewrite E.
    destruct (decide (key' = key)) as [->|]; [|by rewrite lookup_insert_ne].
    rewrite (holds_value _ _ _ _ _ Hh) in Hv by lia. done. }
  destruct Hr as [now t' w1 Hn Hv _ E|now v w1 Hn _ E|e w1 Hn E|now t' e w1 Hn Hv _ E];
    (split; [|lia]); first [by eapply Hw|unfold holds; by rewrite E].
Qed.

(** The two scripts leave a key alone that holds another token. *)
Lemma script_keeps c script l w r err w' key token t :
  (forall now s, view (script now s).2 = view s \/
     (value_at now (view s !! lk_key l) = Some (lk_token l) /\
      forall k, k <> lk_key l -> view (script now s).2 !! k = view s !! k)) ->
  redis_do c 0 script w = (Ret (r, err), w') ->
  lk_key l <> key \/ lk_token l <> token ->
  holds key token t w -> w_now w' < t -> holds key token t w' /\ w_now w <= w_now w'.
Proof.
  intros Hscript E Hother Hh Ht.
  destruct (redis_do_done view c 0 script w) as (r1 & e1 & now & w1 & E1 & Hd & Hn & _).
  rewrite E in E1. injection E1 as <- <- <-. split; [|lia].
  assert (forall s0, view s0 = table w -> w_svc w' = (script now s0).2 -> holds key token t w') as Hs.
  { intros s0 Hv Hs. unfold holds, Redis.table. rewrite Hs.
    destruct (Hscript now s0) as [E'|[Hval Hk]]; [by rewrite E', Hv|].
    destruct (decide (lk_key l = key)) as [Ek|Ek]; [|rewrite Hk, Hv by congruence; done].
    rewrite Hv, Ek, (holds_value _ _ _ _ _ Hh) in Hval by lia. naive_solver. }
  destruct Hd as [s0 r2 w2 Hv Ev|e2 w2 _ Hv|s0 e2 w2 _ Hv Ev].
  - apply (Hs s0); [done|]. by rewrite <- Ev.
  - unfold holds. by rewrite Hv.
  - by apply (Hs s0).
Qed.

Lemma Refresh_keeps c l ttl w r w' key token t :
  Lock_Refresh c (Some l) ttl w = (Ret r, w') -> lk_key l <> key \/ lk_token l <> token ->
  holds key token t w -> w_now w' < t -> holds key token t w' /\ w_now w <= w_now w'.
Proof.
  unfold Lock_Refresh. case_decide; [intros [= <- <-] _ ? ?; split; [done|lia]|].
  intros ([r1 e1] & w1 & E & [= <- <-])%bind_Ret_inv. eapply script_keeps; [|exact E].
  intros now s. pose proof (refresh_script_law (lk_key l) (lk_token l) (Milliseconds ttl) now s) as HL.
  case_decide as Hv; [right; split; [done|]|by left; destruct HL].
  intros k Hk. destruct HL as [_ ->].
  case_decide; [by rewrite lookup_insert_ne|by rewrite lookup_delete_ne].
Qed.

Lemma Unlock_keeps c l w r w' key token t :
  Lock_Unlock c (Some l) w = (Ret r, w') -> lk_key l <> key \/ lk_token l <> token ->
  holds key token t w -> w_now w' < t -> holds key token t w' /\ w_now w <= w_now w'.
Proof.
  unfold Lock_Unlock. intros ([r1 e1] & w1 & E & H)%bind_Ret_inv.
  assert (w1 = w') as <- by (destruct e1; [by injection H|case_decide; by injection H]).
  eapply script_keeps; [|exact E].
  intros now s. pose proof (unlock_script_law (lk_key l) (lk_token l) now s) as HL.
  case_decide as Hv; [right; split; [done|]|by left; destruct HL].
  intros k Hk. destruct HL as [_ ->]. by rewrite lookup_delete_ne.
Qed.

(** ** Mutual exclusion *)

(** A step of the rest of the system while [token] holds [key]: any lock call
    of any client, except the owner's own [Refresh] and [Unlock], or anything
    that does not write to the key. *)
Inductive others (key token : string) : World S -> World S -> Prop :=
  | others_TryLock entropy c rdb key' ttl w r w' :
      TryLock entropy c rdb key' ttl w = (Ret r, w') -> others key token w w'
  | others_Refresh c l ttl w r w' :
      lk_key l <> key \/ lk_token l <> token ->
      Lock_Refresh c (Some l) ttl w = (Ret r, w') -> others key token w w'
  | others_Unlock c l w r w' :
      lk_key l <> key \/ lk_token l <> token ->
      Lock_Unlock c (Some l) w = (Ret r, w') -> others key token w w'
  | others_elsewhere w w' :
      table w' !! key = table w !! key -> w_now w <= w_now w' -> others key token w w'.

Lemma others_time key token w w' : others key token w w' -> w_now w <= w_now w'.
Proof.
  assert (forall c script l r w w', redis_do c 0 script w = (Ret r, w') -> l = l :> Lock ->
    w_now w <= w_now w') as Hd.
  { intros c script l [r e] w1 w1' E _.
    destruct (redis_do_done view c 0 script w1) as (? & ? & now & ? & E1 & _ & Hn & _).
    rewrite E in E1. injection E1 as <- <- <-. lia. }
  intros [entropy c rdb key' ttl w1 [[l ok] err] w1' E|c l ttl w1 r w1' _ E|c l w1 r w1' _ E|]; [| | |done].
  - apply TryLock_result in E as [(_ & _ & _ & ->)|(_ & _ & b & _ & Hr)]; [lia|].
    destruct Hr; lia.
  - revert E. unfold Lock_Refresh. case_decide; [intros [= <- <-]; lia|].
    intros ([r1 e1] & w2 & E & [= <- <-])%bind_Ret_inv. by apply (Hd _ _ l _ _ _ E).
  - revert E. unfold Lock_Unlock. intros ([r1 e1] & w2 & E & H)%bind_Ret_inv.
    assert (w2 = w1') as <- by (destruct e1; [by injection H|case_decide; by injection H]).
    by apply (Hd _ _ l _ _ _ E).
Qed.

Lemma others_keep key token t w w' :
  others key token w w' -> holds key token t w -> w_now w' < t -> holds key token t w'.
Proof.
  intros [entropy c rdb key' ttl w1 r w1' E|c l ttl w1 r w1' Ho E|c l w1 r w1' Ho E|w1 w1' E _] Hh Ht.
  - by apply (TryLock_keeps _ _ _ _ _ _ _ _ _ _ _ E).
  - by apply (Refresh_keeps _ _ _ _ _ _ _ _ _ E).
  - by apply (Unlock_keeps _ _ _ _ _ _ _ _ E).
  - unfold holds. by rewrite E.
Qed.

Lemma others_star key token t w w' :
  rtc (others key token) w w' -> holds key token t w -> w_now w' < t ->
  holds key token t w' /\ w_now w <= w_now w'.
Proof.
  intros H. induction H as [w|w w1 w' H1 H2 IH]; intros Hh Ht; [split; [done|lia]|].
  pose proof (others_time _ _ _ _ H1).
  assert (w_now w1 <= w_now w') as Hle.
  { clear -H2 H RedisLaws0. induction H2 as [|x y z Hx _ IHx]; [lia|].
    pose proof (others_time _ _ _ _ Hx). lia. }
  destruct IH; [|done|split; [done|lia]]. eapply others_keep; [done..|lia].
Qed.

(** C4: mutual exclusion.  When [TryLock] hands out a lock for [ttl], there is a
    time [t], at least [ttl] less a millisecond after the call began and at most
    [ttl] (or a millisecond) after it ended, until which the lock is exclusive:
    whatever the rest of the system does, with any clients, tokens, keys,
    lifetimes and failures, short of writing to the key behind the lock
    functions, the key still holds the owner's token and every other [TryLock]
    on it that ends by then fails. *)
Theorem lock_exclusive entropy c rdb key ttl w0 l w :
  TryLock entropy c rdb key ttl w0 = (Ret (Some l, true, None), w) ->
  lk_key l = key /\ exists t, Z.max (w_now w0) (w_now w0 + ttl - Millisecond) < t <= w_now w + Z.max ttl Millisecond /\
    forall w', rtc (others key (lk_token l)) w w' -> w_now w' < t ->
      holds key (lk_token l) t w' /\
      forall entropy' c' rdb' ttl' l' ok err w'',
        TryLock entropy' c' rdb' key ttl' w' = (Ret (l', ok, err), w'') -> w_now w'' < t ->
        ok = false /\ l' = None /\ holds key (lk_token l) t w''.
Proof.
  intros [(? & _)|(_ & _ & b & -> & Hr)]%TryLock_result; [done|].
  inversion Hr as [now t w1 Hn Hv Hx E| | |]; subst. split; [done|]. exists t.
  unfold expires in Hx. split; [lia|]. simpl. intros w' Hs Ht.
  assert (holds key (hex b) t w) as Hh by (unfold holds; by rewrite E, lookup_insert_eq).
  destruct (others_star _ _ _ _ _ Hs Hh Ht) as [Hh' _]. split; [done|].
  intros entropy' c' rdb' ttl' l' ok err w'' E2 Ht2.
  pose proof (TryLock_keeps _ _ _ _ _ _ _ _ _ _ _ E2 Hh' Ht2) as [Hh'' _].
  apply TryLock_result in E2 as [(-> & -> & _)|(_ & _ & b' & _ & Hr')]; [done|].
  inversion Hr' as [n1 t1 ? Hn1 Hv1| | |]; subst; try done.
  rewrite (holds_value _ _ _ _ _ Hh') in Hv1 by lia. done.
Qed.

(** C33: [Unlock] returns nil only if the key held the caller's token when the
    server looked, and then the key is gone; if it did not hold it, the call
    returns an error and touches nothing. *)
Theorem Unlock_owner_only c l w err w' :
  Lock_Unlock c (Some l) w = (Ret err, w') ->
  exists now, w_now w <= now <= w_now w' /\
    if decide (value_at now (table w !! lk_key l) = Some (lk_token l))
    then match err with
         | None => table w' = delete (lk_key l) (table w)
         | Some _ => table w' = table w \/ table w' = delete (lk_key l) (table w)
         end
    else err <> None /\ table w' = table w.
Proof.
  unfold Lock_Unlock.
  destruct (redis_do_done view c 0 (unlock_script (lk_key l) (lk_token l)) w)
    as (r & e & now & w1 & E & Hd & Hn & _).
  rewrite (run_bind_Ret _ _ _ _ _ E).
  assert (forall s0, view s0 = table w ->
    if decide (value_at now (table w !! lk_key l) = Some (lk_token l))
    then (unlock_script (lk_key l) (lk_token l) now s0).1 = 1 /\
         view (unlock_script (lk_key l) (lk_token l) now s0).2 = delete (lk_key l) (table w)
    else (unlock_script (lk_key l) (lk_token l) now s0).1 = 0 /\
         view (unlock_script (lk_key l) (lk_token l) now s0).2 = table w) as HL.
  { intros s0 <-. apply unlock_script_law. }
  intros H. exists now.
  assert (w1 = w') as <- by (destruct e; [by injection H|case_decide; by injection H]).
  split; [done|]. destruct Hd as [s0 r1 w2 Hv Hs|e1 w2 _ Hv|s0 e1 w2 _ Hv Hs].
  - specialize (HL s0 Hv). rewrite <- Hs in HL. simpl in HL. unfold Redis.table at 2 4.
    destruct (decide (value_at _ _ = _)); destruct HL as [-> HL]; simpl in H;
      injection H as <-; done.
  - injection H as <-. destruct (decide (value_at _ _ = _)); [by left|done].
  - injection H as <-. specialize (HL s0 Hv). rewrite <- Hs in HL. unfold Redis.table at 2 3 5.
    destruct (decide (value_at _ _ = _)); destruct HL as [_ HL]; [by right|done].
Qed.

(** [Refresh] answers yes only if the key held the caller's token when the
    server looked, and then the lock lasts the new lifetime, in whole
    milliseconds, from there; a refresh of somebody else's lock answers no and
    changes nothing.  But a lifetime below a millisecond is rounded to zero: it
    passes the check for positive lifetimes, deletes the lock and still answers
    yes. *)
Theorem Refresh_owner_only c l ttl w ok err w' :
  Lock_Refresh c (Some l) ttl w = (Ret (ok, err), w') ->
  (ttl <= 0 /\ ok = false /\ err <> None /\ w' = w) \/
  exists now, w_now w <= now <= w_now w' /\ 0 < ttl /\
    (ok = true -> value_at now (table w !! lk_key l) = Some (lk_token l) /\ err = None /\
       table w' = if decide (Millisecond <= ttl)
                  then <[lk_key l := (lk_token l, Some (now + Milliseconds ttl * Millisecond))]> (table w)
                  else delete (lk_key l) (table w)) /\
    (value_at now (table w !! lk_key l) <> Some (lk_token l) -> ok = false /\ table w' = table w).
Proof.
  unfold Lock_Refresh. case_decide as Ht; [intros [= <- <- <-]; by left|].
  set (ms := Milliseconds ttl).
  destruct (redis_do_done view c 0 (refresh_script (lk_key l) (lk_token l) ms) w)
    as (r & e & now & w1 & E & Hd & Hn & _).
  rewrite (run_bind_Ret _ _ _ _ _ E). intros [= <- <- <-]. right. exists now.
  split; [done|]. split; [lia|].
  assert (0 < ms <-> Millisecond <= ttl) as Hms.
  { subst ms. unfold Milliseconds, Millisecond. pose proof (Z.quot_lt_upper_bound ttl 1000000 1).
    pose proof (Z.quot_le_lower_bound ttl 1000000 1). lia. }
  assert (forall s0, view s0 = table w ->
    if decide (value_at now (table w !! lk_key l) = Some (lk_token l))
    then (refresh_script (lk_key l) (lk_token l) ms now s0).1 = 1 /\
         view (refresh_script (lk_key l) (lk_token l) ms now s0).2 =
           if decide (Millisecond <= ttl)
           then <[lk_key l := (lk_token l, Some (now + ms * Millisecond))]> (table w)
           else delete (lk_key l) (table w)
    else (refresh_script (lk_key l) (lk_token l) ms now s0).1 = 0 /\
         view (refresh_script (lk_key l) (lk_token l) ms now s0).2 = table w) as HL.
  { intros s0 <-. rewrite <- (decide_ext _ _ _ _ Hms). apply refresh_script_law. }
  destruct Hd as [s0 r1 w2 Hv Hs|e1 w2 _ Hv|s0 e1 w2 _ Hv Hs].
  - specialize (HL s0 Hv). rewrite <- Hs in HL. simpl in HL. unfold Redis.table in *.
    destruct (decide (value_at _ _ = _)); destruct HL as [-> HL]; split; done.
  - split; [done|]. intros _. split; [done|done].
  - split; [done|]. intros Hne. specialize (HL s0 Hv). rewrite <- Hs in HL. split; [done|].
    unfold Redis.table in *. rewrite decide_False in HL by done. by destruct HL.
Qed.

(** ** Waiting for a lock ends *)

Lemma lock_wait_inv (cx : Context) interval w :
  exists r w', lock_wait (Some cx) interval w = (Ret r, w') /\ w_now w <= w_now w' /\
    (r = None -> w_now w + interval <= w_now w').
Proof.
  unfold lock_wait. rewrite run_bind, run_gets.
  destruct (select_done_quiet cx (w_now w + interval) w) as (r & w' & E & (_ & _ & Hn) & _ & Hr).
  exists r, w'. split; [done|]. split; [done|]. intros ->. by destruct Hr as [[_ ?]|(? & ? & ? & _)].
Qed.

Lemma TryLock_time entropy c rdb key ttl w r w' :
  TryLock entropy c rdb key ttl w = (Ret r, w') -> w_now w <= w_now w'.
Proof. intros E. eapply (others_time key "" w w'). by eapply others_TryLock. Qed.

Lemma lock_loop_returns fuel n entropy (cx : Context) rdb key ttl wait interval start w :
  0 < interval -> (1 <= fuel)%nat -> Z.of_nat (fuel + n) = Z.max 0 (wait / interval) + 2 ->
  start + Z.of_nat n * interval <= w_now w ->
  exists r w', lock_loop fuel n entropy (Some cx) rdb key ttl wait interval (start + wait) w
               = (Ret (Some r), w').
Proof.
  intros Hi. revert n w. induction fuel as [|fuel IH]; intros n w Hf HN Hw; [lia|]. cbn [lock_loop].
  destruct (TryLock_returns (entropy n) (Some cx) rdb key ttl w) as ([[l ok] err] & w1 & E).
  rewrite (run_bind_Ret _ _ _ _ _ E). pose proof (TryLock_time _ _ _ _ _ _ _ _ E).
  destruct err as [e|]; [by do 2 eexists|]. destruct ok; [by do 2 eexists|].
  case_decide as Hwait; [by do 2 eexists|].
  destruct (time_Now_quiet w1) as (t & w2 & E2 & (_ & _ & Hn2) & -> & _).
  rewrite !run_bind, E2, run_ret. case_bool_decide as Hd; [by do 2 eexists|].
  destruct (lock_wait_inv cx interval w2) as (r & w3 & E3 & Hn3 & Hr).
  rewrite (run_bind_Ret _ _ _ _ _ E3). destruct r as [e|]; [by do 2 eexists|].
  specialize (Hr eq_refl).
  assert (Z.of_nat n <= wait / interval) by (apply Z.div_le_lower_bound; lia).
  apply IH; lia.
Qed.

(** C12: with a context that is not nil [LockWithWait] returns, for any wait, interval
    and lifetime and whatever the server answers: it gives up after at most [wait / interval + 2]
    attempts. *)
Theorem LockWithWait_returns entropy c rdb key ttl wait interval w :
  c <> None -> exists r w', LockWithWait entropy c rdb key ttl wait interval w = (Ret r, w').
Proof.
  intros Hc. destruct c as [cx|]; [|done]. unfold LockWithWait.
  destruct (time_Now_quiet w) as (t & w1 & E & _ & -> & _). rewrite (run_bind_Ret _ _ _ _ _ E).
  set (iv := lock_interval interval).
  assert (0 < iv) as Hi by (subst iv; unfold lock_interval, Millisecond; case_decide; lia).
  destruct (lock_loop_returns (lock_fuel wait iv) 0 entropy cx rdb key ttl wait iv (w_now w1) w1)
    as (r & w2 & E2); [done|unfold lock_fuel; lia|unfold lock_fuel; lia|lia|].
  rewrite (run_bind_Ret _ _ _ _ _ E2). by do 2 eexists.
Qed.
End laws.

(** ** Witnesses: runs on the concrete server *)

Definition demo_redis : UniversalClient := Some (mkRedisHandle 1 (mkRedisOptions false ["redis:6379"] "" "" 0 0 0 0 10)).
Definition token_bytes : bytes := to_bytes "0123456789abcdef".
Definition held : Lock := mkLock "publish" (hex token_bytes).

Definition lock_world : World Table :=
  (TryLock (Some token_bytes) Background demo_redis "publish" Second (table_world [])).2.

Lemma lock_exclusive_witness :
  lk_key held = "publish" /\ exists t, Z.max (w_now (table_world [])) (w_now (table_world []) + Second - Millisecond) < t
      <= w_now lock_world + Z.max Second Millisecond /\
    forall w', rtc (others tbl "publish" (lk_token held)) lock_world w' -> w_now w' < t ->
      holds tbl "publish" (lk_token held) t w' /\
      forall entropy' c' rdb' ttl' l' ok err w'',
        TryLock entropy' c' rdb' "publish" ttl' w' = (Ret (l', ok, err), w'') -> w_now w'' < t ->
        ok = false /\ l' = None /\ holds tbl "publish" (lk_token held) t w''.
Proof.
  apply (lock_exclusive tbl (Some token_bytes) Background demo_redis "publish" Second (table_world [])).
  vm_compute. reflexivity.
Defined.

Lemma Unlock_owner_only_witness :
  exists now, w_now lock_world <= now <= w_now (Lock_Unlock Background (Some held) lock_world).2 /\
    if decide (value_at now (table tbl lock_world !! lk_key held) = Some (lk_token held))
    then table tbl (Lock_Unlock Background (Some held) lock_world).2
         = delete (lk_key held) (table tbl lock_world)
    else @None error <> None /\
         table tbl (Lock_Unlock Background (Some held) lock_world).2 = table tbl lock_world.
Proof. apply (Unlock_owner_only tbl Background held lock_world None). vm_compute. reflexivity. Defined.

(** Half a millisecond: the refresh succeeds and the lock is gone. *)
Definition half_ms : Duration := 500000.

Lemma Refresh_owner_only_witness :
  let w' := (Lock_Refresh Background (Some held) half_ms lock_world).2 in
  (half_ms <= 0 /\ true = false /\ @None error <> None /\ w' = lock_world) \/
  exists now, w_now lock_world <= now <= w_now w' /\ 0 < half_ms /\
    (true = true -> value_at now (table tbl lock_world !! lk_key held) = Some (lk_token held)
       /\ @None error = None /\
       table tbl w' = if decide (Millisecond <= half_ms)
                  then <[lk_key held := (lk_token held, Some (now + Milliseconds half_ms * Millisecond))]>
                         (table tbl lock_world)
                  else delete (lk_key held) (table tbl lock_world)) /\
    (value_at now (table tbl lock_world !! lk_key held) <> Some (lk_token held) ->
       true = false /\ table tbl w' = table tbl lock_world).
Proof. apply (Refresh_owner_only tbl Background held half_ms lock_world). vm_compute. reflexivity. Defined.

Example refresh_deletes :
  (Lock_Refresh Background (Some held) half_ms lock_world).1 = Ret (true, None)
  /\ tbl (w_svc (Lock_Refresh Background (Some held) half_ms lock_world).2) !! "publish" = None.
Proof. vm_compute. done. Qed.

Lemma LockWithWait_returns_witness :
  exists r w', LockWithWait (fun _ => Some (to_bytes "fedcba9876543210")) Background demo_redis "publish"
    Second (3 * Second) 0 lock_world = (Ret r, w').
Proof. apply (LockWithWait_returns tbl). discriminate. Defined.
