(* ===== verification/Session.v ===== *)
(** * OAuth states and token revocation ([session/session.go]).

    Both live in Redis: a state is a random key that [VerifyState] reads and
    deletes in one command; a revoked token is a key named after its hash.
    SHA-256 is the parameter [Sum256]. *)

From S2P Require Import Prelude GoStrings GoText GoTime Principal Env Redis Lock.
Local Open Scope Z_scope.

Definition ErrStateMismatch : error := errNew "session.ErrStateMismatch" "oauth state mismatch".

Record session_Config := mkSessionConfig {
  KeyPrefix : string; StateTTL : string; BlacklistPrefix : string;
}.

Record Session := mkSession { ss_rdb : UniversalClient; ss_cfg : session_Config }.

(** [NewManager]; its options set the logger only. *)
Definition NewManager (rdb : UniversalClient) (cfg : session_Config) : option Session :=
  let prefix := if decide (KeyPrefix cfg = "") then "aisphere:session" else KeyPrefix cfg in
  let blacklist := if decide (BlacklistPrefix cfg = "") then prefix +:+ ":blacklist"
                   else BlacklistPrefix cfg in
  let ttl := if decide (StateTTL cfg = "") then "10m" else StateTTL cfg in
  Some (mkSession rdb (mkSessionConfig prefix ttl blacklist)).

Class Hashing := { Sum256 : bytes -> bytes }.

Definition hashToken `{Hashing} (s : string) : string := hex (Sum256 (to_bytes s)).

Definition session_key (m : Session) (parts : list string) : string :=
  Join (TrimSuffix colon (KeyPrefix (ss_cfg m)) :: parts) ":".

Definition blacklistKey `{Hashing} (m : Session) (tokenOrID : string) : string :=
  TrimSuffix colon (BlacklistPrefix (ss_cfg m)) +:+ ":" +:+ hashToken tokenOrID.

Definition session_redis_nil : error := errText "session redis is nil".

(** The manager if it and its client are set. *)
Definition usable (m : option Session) : option Session :=
  match m with
  | Some s => match ss_rdb s with Some _ => m | None => None end
  | None => None
  end.

Section session.
Context {S : Type} {client : RedisClient S} `{Hashing}.
Implicit Types (w : World S) (c : ctx) (m : option Session).

Definition NewState (entropy : option bytes) m c (subject : string) : prog (World S) (res string) :=
  match usable m with
  | None => mret ("", Some session_redis_nil)
  | Some m =>
      match entropy with
      | None => mret ("", Some rand_error)
      | Some b =>
          let state := hex b in
          let ttl := parseDurationOr (StateTTL (ss_cfg m)) (10 * Minute) in
          let key := session_key m ["oauth_state"; state] in
          err ← redis_Set c key subject ttl;
          match err with
          | Some e => mret ("", Some e)
          | None => mret (state, None)
          end
      end
  end.

(** [err == redis.Nil] is the test of the sentinel. *)
Definition VerifyState m c (state : string) : prog (World S) (res string) :=
  match usable m with
  | None => mret ("", Some session_redis_nil)
  | Some m =>
      if decide (TrimSpace state = "") then mret ("", Some ErrStateMismatch) else
      let key := session_key m ["oauth_state"; state] in
      '(v, err) ← redis_GetDel c key;
      match err with
      | Some e => if errors_Is "redis.Nil" e then mret ("", Some ErrStateMismatch)
                  else mret ("", Some e)
      | None => mret (v, None)
      end
  end.

Definition RevokeToken m c (tokenOrID : string) (ttl : Duration) : prog (World S) (option error) :=
  match usable m with
  | None => mret (Some session_redis_nil)
  | Some m =>
      if decide (TrimSpace tokenOrID = "") then mret None else
      let ttl := if decide (ttl <= 0) then 24 * Hour else ttl in
      err ← redis_Set c (blacklistKey m tokenOrID) "1" ttl;
      mret err
  end.

Definition IsRevoked m c (tokenOrID : string) : prog (World S) (bool * option error) :=
  match usable m with
  | None => mret (false, None)
  | Some m =>
      if decide (TrimSpace tokenOrID = "") then mret (false, None) else
      '(v, err) ← redis_Exists c (blacklistKey m tokenOrID);
      match err with
      | Some e => mret (false, Some e)
      | None => mret (bool_decide (0 < v), None)
      end
  end.
End session.

Section laws.
Context {S : Type} {client : RedisClient S} `{Hashing} (view : S -> gmap string entry).
Context `{!RedisLaws client view}.
Implicit Types (w : World S) (c : ctx).

Notation table := (table view).

(** A step of the rest of the system: time passes, and [key] is not written. *)
Definition elsewhere (key : string) w w' : Prop :=
  table w' !! key = table w !! key /\ w_now w <= w_now w'.

Lemma elsewhere_star key w w' : rtc (elsewhere key) w w' -> elsewhere key w w'.
Proof.
  unfold elsewhere. intros Hs. induction Hs as [|x y z [E1 ?] _ [E2 ?]]; [split; [done|lia]|].
  split; [congruence|lia].
Qed.

(** A successful [Set] with a lifetime. *)
Lemma redis_Set_done c k v ttl w w' :
  0 < ttl -> redis_Set c k v ttl w = (Ret None, w') ->
  exists now t, w_now w <= now <= w_now w' /\ expires now ttl t /\
    table w' = <[k := (v, Some t)]> (table w).
Proof.
  intros Ht. unfold redis_Set.
  destruct (redis_do_done view c tt (SET k v ttl) w) as (r & e & now & w1 & E & Hd & Hn & _).
  rewrite (run_bind_Ret _ _ _ _ _ E). intros [= -> <-].
  inversion Hd as [s0 r1 w2 Hv Hs| |]; subst.
  destruct (SET_law k v ttl now s0 Ht) as (t & Hx & Hview). exists now, t.
  split; [done|]. split; [done|]. rewrite <- Hs, Hv in Hview. exact Hview.
Qed.

(** [GetDel] answers with the value and deletes it, or the key was missing. *)
Lemma redis_GetDel_done c k w v err w' :
  redis_GetDel c k w = (Ret (v, err), w') ->
  exists now, w_now w <= now <= w_now w' /\
    match err with
    | None => value_at now (table w !! k) = Some v /\ table w' = delete k (table w)
    | Some e => if errors_Is "redis.Nil" e
                then value_at now (table w !! k) = None /\ table w' = delete k (table w)
                else table w' = table w \/ table w' = delete k (table w)
    end.
Proof.
  unfold redis_GetDel.
  destruct (redis_do_done view c None (GETDEL k) w) as (r & e & now & w1 & E & Hd & Hn & _).
  rewrite (run_bind_Ret _ _ _ _ _ E). intros Hr. exists now.
  assert (forall s0, view s0 = table w -> (GETDEL k now s0).1 = value_at now (table w !! k)
    /\ view (GETDEL k now s0).2 = delete k (table w)) as HL by (intros s0 <-; apply GETDEL_law).
  destruct Hd as [s0 r1 w2 Hv Hs|e1 w2 He Hv|s0 e1 w2 He Hv Hs].
  - destruct (HL s0 Hv) as [E1 E2]. rewrite <- Hs in E1, E2. simpl in E1, E2.
    destruct r1 as [v1|]; injection Hr as <- <- <-; done.
  - injection Hr as <- <- <-. split; [done|]. rewrite He. by left.
  - destruct (HL s0 Hv) as [_ E2]. rewrite <- Hs in E2.
    injection Hr as <- <- <-. split; [done|]. rewrite He. by right.
Qed.

Lemma redis_Exists_done c k w n err w' :
  redis_Exists c k w = (Ret (n, err), w') ->
  exists now, w_now w <= now <= w_now w' /\ table w' = table w /\
    (err = None -> n = match value_at now (table w !! k) with Some _ => 1 | None => 0 end).
Proof.
  unfold redis_Exists.
  destruct (redis_do_done view c 0 (EXISTS k) w) as (r & e & now & w1 & E & Hd & Hn & _).
  rewrite E. intros [= -> -> ->]. exists now. split; [done|].
  assert (forall s0, view s0 = table w -> (EXISTS k now s0).1 =
    match value_at now (table w !! k) with Some _ => 1 | None => 0 end
    /\ view (EXISTS k now s0).2 = table w) as HL by (intros s0 <-; apply EXISTS_law).
  destruct Hd as [s0 r1 w2 Hv Hs|e1 w2 _ Hv|s0 e1 w2 _ Hv Hs]; [|split; [exact Hv|discriminate]|].
  - destruct (HL s0 Hv) as [E1 E2]. rewrite <- Hs in E1, E2. split; [exact E2|]. intros _. exact E1.
  - destruct (HL s0 Hv) as [_ E2]. rewrite <- Hs in E2. split; [exact E2|discriminate].
Qed.

Lemma usable_Some m s : usable m = Some s -> m = Some s /\ ss_rdb s <> None.
Proof. unfold usable. destruct m as [x|]; [|done]. destruct (ss_rdb x) eqn:E; [|done]. intros [= ->]. naive_solver. Qed.

(** A state that is accepted was stored, and is not stored any more. *)
Lemma VerifyState_done (m : Session) c state w v err w' :
  ss_rdb m <> None -> VerifyState (Some m) c state w = (Ret (v, err), w') ->
  let key := session_key m ["oauth_state"; state] in
  (TrimSpace state = "" /\ err = Some ErrStateMismatch /\ w' = w) \/
  exists now, w_now w <= now <= w_now w' /\
    (err = None -> value_at now (table w !! key) = Some v /\ table w' = delete key (table w)) /\
    (err = Some ErrStateMismatch \/ table w' = table w \/ table w' = delete key (table w)) /\
    (value_at now (table w !! key) = None -> err <> None).
Proof.
  intros Hrdb. cbv zeta. unfold VerifyState, usable. destruct (ss_rdb m); [|done].
  case_decide as Hst; [intros [= <- <- <-]; by left|]. intros HV. right.
  apply bind_Ret_inv in HV as ([v1 e1] & w1 & E & HV).
  apply redis_GetDel_done in E as (now & Hn & Hcase).
  assert (w1 = w') as <- by (destruct e1 as [e|]; [destruct (errors_Is _ e)|]; by injection HV).
  exists now. split; [exact Hn|].
  destruct e1 as [e|]; [destruct (errors_Is "redis.Nil" e)|]; injection HV as <- <-.
  - split; [done|]. split; [by left|done].
  - split; [done|]. split; [by right|done].
  - destruct Hcase as [Hv Ht]. split; [done|]. split; [by right; right|by rewrite Hv].
Qed.

Lemma hexdigit_graphic n : (n < 16)%N -> graphic (hexdigit n) = true.
Proof.
  intros Hn. do 16 (destruct n as [|n] using N.peano_ind; [vm_compute; reflexivity|clear IHn]). lia.
Qed.

Lemma hex_trimmed b : b <> [] -> TrimSpace (hex b) = hex b /\ hex b <> "".
Proof.
  intros Hb. assert (forall a, (code a / 16 < 16)%N /\ (code a mod 16 < 16)%N) as Hc.
  { intros a. unfold code. pose proof (Ascii.N_ascii_bounded a).
    split; [apply N.Div0.div_lt_upper_bound; lia|by apply N.mod_lt]. }
  assert (to_bytes (hex b) = b ≫= fun a => [hexdigit (code a / 16); hexdigit (code a mod 16)]%N) as E
    by (unfold hex; apply to_of_bytes).
  split.
  - destruct b as [|x b0 _] using rev_ind; [done|].
    assert (exists y l, b0 ++ [x] = y :: l) as (y & l & Ey) by (destruct b0; simpl; eauto).
    apply (TrimSpace_graphic _ (hexdigit (code y / 16)) (hexdigit (code x mod 16))).
    + rewrite E, Ey. reflexivity.
    + apply hexdigit_graphic, Hc.
    + rewrite E, bind_app. simpl. by rewrite last_app.
    + apply hexdigit_graphic, Hc.
  - destruct b; [done|]. intros E'. by rewrite E' in E.
Qed.

(** C6: an OAuth state is good for one login.  A state from [NewState] verifies
    to the subject it was made for, at any time before it expires unless Redis
    itself fails; and once it has been accepted it is never accepted again,
    whatever else happens in between that does not write to its key. *)
Theorem state_accepted_once (m : Session) b c1 subject w0 state w1 :
  b <> [] -> NewState (Some b) (Some m) c1 subject w0 = (Ret (state, None), w1) ->
  let key := session_key m ["oauth_state"; state] in
  let ttl := parseDurationOr (StateTTL (ss_cfg m)) (10 * Minute) in
  forall w2 c2 v err w3, rtc (elsewhere key) w1 w2 ->
    VerifyState (Some m) c2 state w2 = (Ret (v, err), w3) ->
    (w_now w3 <= w_now w0 + ttl - Millisecond -> (v = subject /\ err = None) \/
       exists e, err = Some e /\ errors_Is "redis.Nil" e = false
                 /\ redis_GetDel c2 key w2 = (Ret (v, Some e), w3)) /\
    (err = None -> v = subject /\
       forall w4 c3 v' err' w5, rtc (elsewhere key) w3 w4 ->
         VerifyState (Some m) c3 state w4 = (Ret (v', err'), w5) -> err' <> None).
Proof.
  intros Hb. unfold NewState, usable. destruct (ss_rdb m) as [r|] eqn:Er; [|done].
  intros (e & w1' & E & HN)%bind_Ret_inv. destruct e as [e|]; [done|]. injection HN as <- <-.
  apply redis_Set_done in E as (now & t & Hn & (Ht1 & Ht2) & Etab);
    [|apply parseDurationOr_pos; unfold Minute, Second; lia].
  set (key := session_key m _) in *. set (ttl := parseDurationOr _ _) in *.
  intros w2 c2 v err w3 [Ekey Hle]%elsewhere_star HV.
  rewrite Etab, lookup_insert_eq in Ekey.
  destruct (hex_trimmed b Hb) as [Htrim Hne]. rewrite <- Htrim in Hne.
  assert (ss_rdb m <> None) as Hr by (by rewrite Er). split.
  - intros Hlate. revert HV. unfold VerifyState, usable. rewrite Er, decide_False by done.
    intros ([v1 e1] & w3' & E & HV)%bind_Ret_inv. fold key in E.
    pose proof (redis_GetDel_done _ _ _ _ _ _ E) as (n3 & Hn3 & Hcase). fold key in Ekey.
    assert (w3' = w3) as -> by (destruct e1 as [e|]; [destruct (errors_Is _ e)|]; by injection HV).
    assert (value_at n3 (table w2 !! key) = Some subject) as Hval.
    { rewrite Ekey. simpl. unfold alive. simpl. rewrite decide_True; [done|]. subst ttl. lia. }
    destruct e1 as [e|]; [destruct (errors_Is "redis.Nil" e) eqn:Enil|].
    + destruct Hcase as [Hcase _]. congruence.
    + injection HV as <- <-. right. exists e. split; [done|]. split; [done|].
      assert (v1 = "") as ->; [|done]. revert E. unfold redis_GetDel.
      intros ([r0 e0] & w6 & _ & E7)%bind_Ret_inv.
      destruct e0 as [e0|], r0 as [r0|]; injection E7; congruence.
    + injection HV as <- <-. destruct Hcase as [Hcase _]. left. split; [congruence|done].
  - intros ->. destruct (VerifyState_done m c2 _ w2 v None w3 Hr HV)
      as [(? & ? & _)|(n3 & Hn3 & Hok & _ & _)]; [done|].
    destruct (Hok eq_refl) as [Hval Hdel]. fold key in Hval, Hdel. split.
    + rewrite Ekey in Hval. simpl in Hval. case_decide; congruence.
    + intros w4 c3 v' err' w5 [Ekey4 _]%elsewhere_star HV'.
      destruct (VerifyState_done m c3 _ w4 v' err' w5 Hr HV')
        as [(? & -> & _)|(n5 & _ & _ & _ & Hnone)]; [done|]. fold key in Hnone. apply Hnone.
      by rewrite Ekey4, Hdel, lookup_delete_eq.
Qed.

(** C13: a revoked token stays revoked: after [RevokeToken] of a token that is not
    blank has returned nil, and while nothing writes or deletes that token's key
    (another [RevokeToken] of it would set a new lifetime), [IsRevoked] answers yes
    or reports an error, until the lifetime asked for is over, to the millisecond;
    a lifetime that is not positive means a day.  Without a manager or a client
    revoking fails, but the check answers no. *)
Theorem revoked_until (m : Session) c1 tok ttl w0 w1 :
  ss_rdb m <> None -> TrimSpace tok <> "" -> RevokeToken (Some m) c1 tok ttl w0 = (Ret None, w1) ->
  (forall w2 c2 ok err w3, rtc (elsewhere (blacklistKey m tok)) w1 w2 ->
     IsRevoked (Some m) c2 tok w2 = (Ret (ok, err), w3) ->
     w_now w3 <= w_now w0 + (if decide (ttl <= 0) then 24 * Hour else ttl) - Millisecond ->
     ok = bool_decide (err = None) /\ table w3 = table w2)
  /\ (forall m' c w, usable m' = None ->
        RevokeToken m' c tok ttl w = (Ret (Some session_redis_nil), w)
        /\ IsRevoked m' c tok w = (Ret (false, None), w)).
Proof.
  intros Hr Htok HR. split.
  2: { intros m' c w Hu. unfold RevokeToken, IsRevoked. by rewrite Hu. }
  revert HR. unfold RevokeToken, usable. destruct (ss_rdb m) as [r|] eqn:Er; [|done].
  rewrite decide_False by done. intros (e & w1' & E & [= -> <-])%bind_Ret_inv.
  set (life := if decide (ttl <= 0) then 24 * Hour else ttl) in *.
  apply redis_Set_done in E as (now & t & Hn & (Ht1 & Ht2) & Etab);
    [|subst life; case_decide; unfold Hour, Minute, Second; lia].
  intros w2 c2 ok err w3 [Ekey Hle]%elsewhere_star. rewrite Etab, lookup_insert_eq in Ekey.
  unfold IsRevoked, usable. rewrite Er, decide_False by done.
  intros ([n e] & w3' & E & HI)%bind_Ret_inv Hlate.
  apply redis_Exists_done in E as (n3 & Hn3 & Htab & Hcase).
  assert (w3' = w3) as -> by (destruct e; by injection HI). split; [|done].
  destruct e as [e|]; injection HI as <- <-; [done|]. rewrite Hcase by done.
  rewrite Ekey. simpl. unfold alive. simpl. rewrite decide_True; [done|lia].
Qed.
End laws.

(** ** Witnesses *)

#[local] Instance identity_hash : Hashing := { Sum256 := fun b => b }.

Definition demo_session : Session :=
  mkSession demo_redis (mkSessionConfig "hub:" "" "hub:blacklist").

Definition state_world : World Table :=
  (NewState (Some token_bytes) (Some demo_session) Background "/home" (table_world [])).2.

Definition verified_world : World Table :=
  (VerifyState (Some demo_session) Background (hex token_bytes) state_world).2.

Lemma state_accepted_once_witness :
  let key := session_key demo_session ["oauth_state"; hex token_bytes] in
  VerifyState (Some demo_session) Background (hex token_bytes) state_world = (Ret ("/home", None), verified_world)
  /\ "/home" = "/home"
  /\ forall w4 c3 v' err' w5, rtc (elsewhere tbl key) verified_world w4 ->
       VerifyState (Some demo_session) c3 (hex token_bytes) w4 = (Ret (v', err'), w5) -> err' <> None.
Proof.
  intros key. split; [vm_compute; reflexivity|].
  apply (state_accepted_once tbl demo_session token_bytes Background "/home" (table_world []) (hex token_bytes)
    state_world) with (w2 := state_world) (c2 := Background) (err := None).
  - vm_compute. discriminate.
  - vm_compute. reflexivity.
  - apply rtc_refl.
  - vm_compute. reflexivity.
  - reflexivity.
Defined.

Example state_verifies_once :
  let '(r, w2) := VerifyState (Some demo_session) Background (hex token_bytes) state_world in
  r = Ret ("/home", None) /\
  (VerifyState (Some demo_session) Background (hex token_bytes) w2).1 = Ret ("", Some ErrStateMismatch).
Proof. vm_compute. done. Qed.

Definition revoked_world : World Table :=
  (RevokeToken (Some demo_session) Background "token" 0 (table_world [])).2.

Lemma revoked_until_witness :
  (forall w2 c2 ok err w3, rtc (elsewhere tbl (blacklistKey demo_session "token")) revoked_world w2 ->
     IsRevoked (Some demo_session) c2 "token" w2 = (Ret (ok, err), w3) ->
     w_now w3 <= w_now (table_world []) + (if decide (0 <= 0) then 24 * Hour else 0) - Millisecond ->
     ok = bool_decide (err = None) /\ table tbl w3 = table tbl w2)
  /\ (forall (m' : option Session) c (w : World Table), usable m' = None ->
        RevokeToken m' c "token" 0 w = (Ret (Some session_redis_nil), w)
        /\ IsRevoked m' c "token" w = (Ret (false, None), w)).
Proof.
  apply (revoked_until tbl demo_session Background "token" 0 (table_world [])).
  - discriminate.
  - vm_compute. discriminate.
  - vm_compute. reflexivity.
Defined.
