(* ===== verification/CacheJSON.v ===== *)
(** * JSON values cached in Redis ([cache/json.go]).

    The encoding of a Go type is the class [JSON] of [GoJSON]. *)

From S2P Require Import Prelude GoStrings GoText GoTime GoJSON Principal Env Redis Lock Session.
Local Open Scope Z_scope.

Definition ErrCacheMiss : error := errNew "cache.ErrCacheMiss" "cache miss".

Section json.
Context {S : Type} {client : RedisClient S} {T : Type} `{JSON T}.
Implicit Types (w : World S) (c : ctx).

Definition SetJSON c (key : string) (value : T) (ttl : Duration) : prog (World S) (option error) :=
  match json_Marshal value with
  | inr err => mret (Some err)
  | inl b => redis_Set c key b ttl
  end.

Definition GetJSON c (key : string) : prog (World S) (T * option error) :=
  '(b, err) ← redis_Get c key;
  match err with
  | Some e => if errors_Is "redis.Nil" e then mret (json_zero, Some ErrCacheMiss)
              else mret (json_zero, Some e)
  | None =>
      match json_Unmarshal b json_zero with
      | (_, Some err) => mret (json_zero, Some err)
      | (out, None) => mret (out, None)
      end
  end.

Definition RememberJSON c (key : string) (ttl : Duration) (load : ctx -> prog (World S) (T * option error))
    : prog (World S) (T * option error) :=
  '(v, err) ← GetJSON c key;
  match err with
  | None => mret (v, None)
  | Some e =>
      if negb (errors_Is "cache.ErrCacheMiss" e) then mret (v, Some e) else
      '(v, err) ← load c;
      match err with
      | Some e => mret (v, Some e)
      | None => err ← SetJSON c key v ttl; mret (v, err)
      end
  end.
End json.

Section laws.
Context {S : Type} {client : RedisClient S} {T : Type} `{JSON T}.
Implicit Types (w : World S) (c : ctx).

(** [RememberJSON] runs the loader only after a cache miss, and then once;
    what the loader returns is what the caller gets; a failed load is not
    cached; and a Redis or decoding error is reported without loading. *)
Theorem RememberJSON_spec c key ttl load w b err w1 :
  redis_Get c key w = (Ret (b, err), w1) ->
  match err with
  | Some e =>
      if errors_Is "redis.Nil" e then
        forall v err' w2, load c w1 = (Ret (v, err'), w2) ->
          RememberJSON c key ttl load w =
            match err' with
            | Some e' => (Ret (v, Some e'), w2)
            | None => (err ← SetJSON c key v ttl; mret (v, err)) w2
            end
      else errors_Is "cache.ErrCacheMiss" e = false ->
        RememberJSON c key ttl load w = (Ret (json_zero : T, Some e), w1)
  | None =>
      match json_Unmarshal b json_zero with
      | (v, None) => RememberJSON c key ttl load w = (Ret (v, None), w1)
      | (_, Some e) => errors_Is "cache.ErrCacheMiss" e = false ->
          RememberJSON c key ttl load w = (Ret (json_zero, Some e), w1)
      end
  end.
Proof.
  intros E. unfold RememberJSON, GetJSON. rewrite !run_bind, E. destruct err as [e|].
  - destruct (errors_Is "redis.Nil" e); simpl.
    + intros v err' w2 El. rewrite run_bind, El. by destruct err'.
    + intros He. by rewrite He.
  - destruct (json_Unmarshal b json_zero) as [v [e|]]; simpl; [|done]. intros He. by rewrite He.
Qed.

Context (view : S -> gmap string entry) `{!RedisLaws client view}.

(** [Get] answers with the live value, or the key was missing. *)
Lemma redis_Get_done c k w v err w' :
  redis_Get c k w = (Ret (v, err), w') ->
  exists now, w_now w <= now <= w_now w' /\
    match err with
    | None => value_at now (table view w !! k) = Some v
    | Some e => errors_Is "redis.Nil" e = true -> value_at now (table view w !! k) = None
    end.
Proof.
  unfold redis_Get.
  destruct (redis_do_done view c None (GET k) w) as (r & e & now & w1 & E & Hd & Hn & _).
  rewrite (run_bind_Ret _ _ _ _ _ E). intros Hr. exists now.
  destruct Hd as [s0 r1 w2 Hv Hs|e1 w2 He Hv|s0 e1 w2 He Hv Hs].
  - destruct (GET_law k now s0) as [E1 _]. rewrite <- Hs, Hv in E1. simpl in E1.
    destruct r1 as [v1|]; injection Hr as <- <- <-; (split; [done|]); [done|]. intros _. by symmetry.
  - injection Hr as <- <- <-. split; [done|]. by rewrite He.
  - injection Hr as <- <- <-. split; [done|]. by rewrite He.
Qed.

(** C38: until its lifetime is over, a value cached with a positive lifetime is
    served from the cache, provided nothing writes or deletes its key in between:
    unless the Redis read itself fails, the bytes read are those [SetJSON] wrote,
    the encoding of the value, and [RememberJSON] yields what the decoder makes
    of them, or its error, without running the loader (an error that claims to be
    [ErrCacheMiss], which no decoder of the library gives, would run it). *)
Theorem cached_value_returned c1 key (v : T) ttl w0 w1 :
  0 < ttl -> SetJSON c1 key v ttl w0 = (Ret None, w1) ->
  forall w2 c2 ttl' load b err w3, rtc (elsewhere view key) w1 w2 ->
    redis_Get c2 key w2 = (Ret (b, err), w3) -> w_now w3 <= w_now w0 + ttl - Millisecond ->
    match err with
    | None => json_Marshal v = inl b /\
        match json_Unmarshal b json_zero with
        | (v', None) => RememberJSON c2 key ttl' load w2 = (Ret (v', None), w3)
        | (_, Some e) => errors_Is "cache.ErrCacheMiss" e = false ->
            RememberJSON c2 key ttl' load w2 = (Ret (json_zero, Some e), w3)
        end
    | Some e => errors_Is "redis.Nil" e = false
    end.
Proof.
  intros Httl. unfold SetJSON. destruct (json_Marshal v) as [b0|e] eqn:Em; [|done].
  intros (now & t & Hn & (Ht1 & Ht2) & Etab)%(redis_Set_done view); [|done].
  intros w2 c2 ttl' load b err w3 [Ekey Hle]%elsewhere_star E Hlate.
  rewrite Etab, lookup_insert_eq in Ekey.
  pose proof (redis_Get_done _ _ _ _ _ _ E) as (n3 & Hn3 & Hcase).
  rewrite Ekey in Hcase. simpl in Hcase. unfold alive in Hcase. simpl in Hcase.
  rewrite decide_True in Hcase by lia. destruct err as [e|].
  - destruct (errors_Is "redis.Nil" e); [by discriminate Hcase|done].
  - injection Hcase as <-. split; [done|].
    unfold RememberJSON, GetJSON. rewrite !run_bind, E.
    destruct (json_Unmarshal b0 json_zero) as [v' [e|]]; simpl; [|done]. intros He. by rewrite He.
Qed.
End laws.

(** ** Witnesses *)

#[local] Existing Instance string_json.

Definition cached_world : World Table :=
  (SetJSON Background "k" "value" Second (table_world [])).2.

Definition demo_load : ctx -> prog (World Table) (string * option error) := fun _ => mret ("loaded", None).

Lemma RememberJSON_spec_witness :
  forall v err' w2, demo_load Background (redis_Get Background "k" (table_world [])).2 = (Ret (v, err'), w2) ->
    RememberJSON Background "k" Second demo_load (table_world []) =
      match err' with
      | Some e' => (Ret (v, Some e'), w2)
      | None => (err ← SetJSON Background "k" v Second; mret (v, err)) w2
      end.
Proof.
  apply (RememberJSON_spec Background "k" Second demo_load (table_world [])
    "" (Some redis_Nil)). vm_compute. reflexivity.
Defined.

Lemma cached_value_returned_witness :
  let w3 := (redis_Get Background "k" cached_world).2 in
  json_Marshal "value" = inl "=value"
  /\ RememberJSON Background "k" Second demo_load cached_world = (Ret ("value", None), w3).
Proof.
  intros w3.
  refine (cached_value_returned tbl Background "k" "value" Second (table_world []) cached_world
    _ _ cached_world Background Second demo_load "=value" None w3 (rtc_refl _ _) _ _).
  - reflexivity.
  - vm_compute. reflexivity.
  - vm_compute. reflexivity.
  - vm_compute. discriminate.
Defined.
