(* ===== verification/DbPage.v ===== *)
(** * Pagination and sorting ([db/page.go]).

    GORM is a library: a query is what it is built from, and [Gorm] runs one. *)

From S2P Require Import Prelude GoStrings GoText GoTime.
Local Open Scope Z_scope.

Record PageRequest := mkPageRequest {
  Page : Z; PageSize : Z; Sort : string; SortBy : string; SortOrder : string;
}.

Record PageResult (T : Type) := mkPageResult {
  Items : list T; Total : Z; pr_Page : Z; pr_PageSize : Z;
}.
Arguments mkPageResult {T}. Arguments Items {T}. Arguments Total {T}.
Arguments pr_Page {T}. Arguments pr_PageSize {T}.

Definition PageResult_zero {T} : PageResult T := mkPageResult [] 0 0 0.

(** What is added to a query. *)
Inductive clause : Type :=
  | Offset (n : Z)
  | Limit (n : Z)
  | OrderByColumn (name : string) (desc : bool)   (* an identifier, quoted by GORM *)
  | OrderRaw (sql : string).                       (* SQL text, passed through *)

Class Gorm (W Q T : Type) := {
  gorm_Count : Q -> prog W (Z * option error);
  gorm_Find : Q -> list clause -> prog W (list T * option error);
}.

Definition NormalizePage (req : PageRequest) : PageRequest :=
  let page := if decide (Page req <= 0) then 1 else Page req in
  let size := if decide (PageSize req <= 0) then 20 else PageSize req in
  let size := if decide (200 < size) then 200 else size in
  mkPageRequest page size (Sort req) (SortBy req) (SortOrder req).

Definition ApplySort (q : list clause) (req : PageRequest) (allowedSorts : strmap) : list clause :=
  let allowed := default ∅ allowedSorts in
  if decide (allowed <> ∅) then
    match allowed !! SortBy req with
    | None => q
    | Some column =>
        if decide (TrimSpace column = "") then q
        else q ++ [OrderByColumn column (EqualFold (SortOrder req) "desc")]
    end
  else if decide (Sort req <> "") then q ++ [OrderRaw (Sort req)]
  else q.

Section paginate.
Context {W Q T : Type} `{Gorm W Q T}.

(** The clauses the page of a request adds to the caller's query. *)
Definition page_clauses (req : PageRequest) (allowedSorts : strmap) : list clause :=
  ApplySort [Offset (wrap64 ((Page req - 1) * PageSize req)); Limit (PageSize req)] req allowedSorts.

Definition paginateWithSort (query : Q) (req : PageRequest) (allowedSorts : strmap)
    : prog W (PageResult T * option error) :=
  let req := NormalizePage req in
  '(total, err) ← gorm_Count query;
  match err with
  | Some e => mret (PageResult_zero, Some e)
  | None =>
      '(items, err) ← gorm_Find query (page_clauses req allowedSorts);
      match err with
      | Some e => mret (PageResult_zero, Some e)
      | None => mret (mkPageResult items total (Page req) (PageSize req), None)
      end
  end.

Definition Paginate (query : Q) (req : PageRequest) : prog W (PageResult T * option error) :=
  paginateWithSort query req None.

Definition PaginateSafe (query : Q) (req : PageRequest) (allowedSorts : strmap)
    : prog W (PageResult T * option error) :=
  paginateWithSort query req allowedSorts.
End paginate.

Lemma NormalizePage_bounds req :
  1 <= Page (NormalizePage req) /\ 1 <= PageSize (NormalizePage req) <= 200.
Proof. unfold NormalizePage. simpl. repeat case_decide; lia. Qed.

Lemma ApplySort_order q req allowedSorts :
  exists order, ApplySort q req allowedSorts = q ++ order /\ (length order <= 1)%nat.
Proof.
  unfold ApplySort. repeat first [case_decide|case_match];
    first [exists []; rewrite app_nil_r; split; [done|simpl; lia]
          |eexists; split; [reflexivity|simpl; lia]].
Qed.

(** C40: With an allow-list, no text of the request reaches the SQL: the order of
    the page is at most one column, a value of the allow-list under the requested
    key, and never raw SQL.  Without one (nil or empty) the request's [Sort] is
    passed through as SQL. *)
Theorem ApplySort_allowlist (q : list clause) (req : PageRequest) (allowedSorts : strmap) :
  exists order, ApplySort q req allowedSorts = q ++ order /\ (length order <= 1)%nat /\
    (default ∅ allowedSorts <> ∅ ->
       forall c, c ∈ order -> exists column desc, c = OrderByColumn column desc
         /\ default ∅ allowedSorts !! SortBy req = Some column /\ TrimSpace column <> "") /\
    (default ∅ allowedSorts = ∅ ->
       order = if decide (Sort req <> "") then [OrderRaw (Sort req)] else []).
Proof.
  unfold ApplySort. destruct (decide (default ∅ allowedSorts <> ∅)) as [Hne|He].
  - destruct (default ∅ allowedSorts !! SortBy req) as [column|] eqn:E; [case_decide as Hc|].
    + exists []. rewrite app_nil_r. split; [done|]. split; [simpl; lia|]. split; [set_solver|done].
    + eexists. split; [reflexivity|]. split; [simpl; lia|]. split; [|done].
      intros _ c ->%list_elem_of_singleton. eauto.
    + exists []. rewrite app_nil_r. split; [done|]. split; [simpl; lia|]. split; [set_solver|done].
  - apply dec_stable in He. rewrite He. case_decide.
    + eexists. split; [reflexivity|]. split; [simpl; lia|]. split; [done|]. done.
    + exists []. rewrite app_nil_r. split; [done|]. split; [simpl; lia|]. done.
Qed.

(** C37: a page that is returned came from exactly one count and one query, for a
    window of at most 200 rows at a non-negative offset, page [p] starting right
    after page [p - 1]; this needs the page number to stay below [2^55], for
    beyond it the offset may overflow. *)
Theorem paginate_window {W Q T} `{Gorm W Q T} (query : Q) req allowedSorts w result err w' :
  paginateWithSort query req allowedSorts w = (Ret (result, err), w') ->
  match err with
  | Some _ => result = PageResult_zero
  | None => exists w1 order, gorm_Count query w = (Ret (Total result, None), w1)
      /\ 1 <= pr_PageSize result <= 200 /\ 1 <= pr_Page result
      /\ gorm_Find query ([Offset (wrap64 ((pr_Page result - 1) * pr_PageSize result));
                           Limit (pr_PageSize result)] ++ order) w1 = (Ret (Items result, None), w')
      /\ (length order <= 1)%nat
      /\ (Page req < 2 ^ 55 -> wrap64 ((pr_Page result - 1) * pr_PageSize result)
            = (pr_Page result - 1) * pr_PageSize result /\ 0 <= (pr_Page result - 1) * pr_PageSize result)
  end.
Proof.
  unfold paginateWithSort. destruct (NormalizePage_bounds req) as [Hp Hs].
  assert (Page req < 2 ^ 55 -> Page (NormalizePage req) < 2 ^ 55) as Hlt
    by (unfold NormalizePage; cbn [Page]; case_decide; [done|auto]).
  revert Hp Hs Hlt. generalize (NormalizePage req) as r. intros r Hp Hs Hlt.
  intros ([total e] & w1 & Ec & H1)%bind_Ret_inv.
  destruct e as [e|]; [by injection H1 as <- <- <-|].
  apply bind_Ret_inv in H1 as ([items e] & w2 & Ef & H1).
  destruct e as [e|]; [by injection H1 as <- <- <-|]. injection H1 as <- <- <-. simpl.
  unfold page_clauses in Ef.
  destruct (ApplySort_order [Offset (wrap64 ((Page r - 1) * PageSize r)); Limit (PageSize r)]
    r allowedSorts) as (order & Eo & Hlen).
  exists w1, order. rewrite Eo in Ef.
  split; [done|]. split; [exact Hs|]. split; [exact Hp|]. split; [done|]. split; [done|].
  intros Hreq. specialize (Hlt Hreq).
  assert (0 <= (Page r - 1) * PageSize r <= 36028797018963968 * 200)
    by (change (2 ^ 55) with 36028797018963968 in Hlt; nia).
  split; [apply wrap64_id|]; lia.
Qed.

(** Page [2^62 + 1] of size 4 starts at offset 0. *)
Example far_page_wraps :
  page_clauses (NormalizePage (mkPageRequest (2 ^ 62 + 1) 4 "" "" "")) None = [Offset 0; Limit 4].
Proof. vm_compute. reflexivity. Qed.

Definition demo_gorm : Gorm unit unit Z := {|
  gorm_Count _ := mret (3, None);
  gorm_Find _ cs := mret ([7; 8], None);
|}.

Lemma paginate_window_witness :
  exists w1 order, gorm_Count (Gorm := demo_gorm) tt tt = (Ret (3, None), w1)
    /\ 1 <= 200 <= 200 /\ 1 <= 2
    /\ gorm_Find (Gorm := demo_gorm) tt ([Offset (wrap64 ((2 - 1) * 200)); Limit 200] ++ order) w1
       = (Ret ([7; 8], None), tt)
    /\ (length order <= 1)%nat
    /\ (2 < 2 ^ 55 -> wrap64 ((2 - 1) * 200) = (2 - 1) * 200 /\ 0 <= (2 - 1) * 200).
Proof.
  apply (paginate_window (H := demo_gorm) tt (mkPageRequest 2 1000 "" "" "") None tt
    (mkPageResult [7; 8] 3 2 200) None tt).
  vm_compute. reflexivity.
Defined.
