(* ===== verification/DbJSONB.v ===== *)
(** * The JSON column type ([db/jsonb.go]). *)

From S2P Require Import Prelude GoJSON.

Record JSONB (T : Type) := mkJSONB { Data : T; Null : bool }.
Arguments mkJSONB {T}. Arguments Data {T}. Arguments Null {T}.

Definition ErrJSONBNull : error := errNew "db.ErrJSONBNull" "jsonb: column is null".

(** What a driver hands to [Scan]; [scan_other] is any other type, by name. *)
Inductive scan_source : Type :=
  | scan_nil
  | scan_bytes (b : string)
  | scan_string (s : string)
  | scan_other (type_name : string).

Section jsonb.
Context {T : Type} `{JSON T}.
Implicit Types j : JSONB T.

(** The driver value: nil or a string. *)
Definition JSONB_Value j : res (option string) :=
  if Null j then (None, None) else
  match json_Marshal (Data j) with
  | inr err => (None, Some (errWrap "jsonb marshal: " err ""))
  | inl b => (Some b, None)
  end.

Definition JSONB_Scan (src : scan_source) j : JSONB T * option error :=
  let decode b :=
    if decide (b = "") then (mkJSONB json_zero true, None) else
    match json_Unmarshal b (Data j) with
    | (data, Some err) => (mkJSONB data false, Some (errWrap "jsonb unmarshal: " err ""))
    | (data, None) => (mkJSONB data false, None)
    end in
  match src with
  | scan_nil => (mkJSONB json_zero true, None)
  | scan_bytes b => decode b
  | scan_string b => decode b
  | scan_other t => (j, Some (errText ("jsonb: unsupported scan source " +:+ t)))
  end.

Definition JSONB_MarshalJSON j : string + error :=
  if Null j then inl "null" else json_Marshal (Data j).

Definition JSONB_UnmarshalJSON (b : string) j : JSONB T * option error :=
  if decide (b = "null") then (mkJSONB json_zero true, None) else
  let '(data, err) := json_Unmarshal b (Data j) in (mkJSONB data false, err).

Definition JSONB_MustGet j : res T :=
  if Null j then (json_zero, Some ErrJSONBNull) else (Data j, None).

(** The zero value [JSONB[T]{}], a fresh destination. *)
Definition fresh : JSONB T := mkJSONB json_zero false.

(** [Scan] of a text that is not empty, into a destination [old]. *)
Definition scanned (b : string) (old : JSONB T) : JSONB T * option error :=
  match json_Unmarshal b (Data old) with
  | (data, Some err) => (mkJSONB data false, Some (errWrap "jsonb unmarshal: " err ""))
  | (data, None) => (mkJSONB data false, None)
  end.

(** C19: a JSON column loses nothing but what the encoding of its type loses.
    What [Value] writes is NULL exactly when the column is NULL, and otherwise
    the encoding of the data; scanned as bytes or as a string into any
    destination, NULL resets the destination and [MustGet] reports it, and an
    encoding (which is not the empty text) is decoded into the destination,
    which is then not NULL and holds what the decoder made of it.  The JSON
    encoding of the column behaves the same, except that data which itself
    encodes as [null] reads back as NULL. *)
Theorem JSONB_round_trip j v old :
  (JSONB_Value j = (v, None) ->
     match v with
     | None => Null j = true /\ JSONB_Scan scan_nil old = (mkJSONB json_zero true, None)
         /\ JSONB_MustGet (JSONB_Scan scan_nil old).1 = (json_zero, Some ErrJSONBNull)
     | Some b => Null j = false /\ json_Marshal (Data j) = inl b
         /\ (b <> "" -> forall src, src ∈ [scan_bytes b; scan_string b] ->
              JSONB_Scan src old = scanned b old
              /\ JSONB_MustGet (JSONB_Scan src old).1 = ((json_Unmarshal b (Data old)).1, None))
     end)
  /\ (forall b, JSONB_MarshalJSON j = inl b ->
       if decide (b = "null") then JSONB_UnmarshalJSON b old = (mkJSONB json_zero true, None)
       else Null j = false /\ json_Marshal (Data j) = inl b
         /\ JSONB_UnmarshalJSON b old
            = (mkJSONB (json_Unmarshal b (Data old)).1 false, (json_Unmarshal b (Data old)).2)).
Proof.
  unfold JSONB_Value, JSONB_Scan, JSONB_MarshalJSON, JSONB_UnmarshalJSON, JSONB_MustGet, scanned.
  destruct j as [d n]. simpl. split.
  - destruct n; [by intros [= <-]|]. destruct (json_Marshal d) as [b|e] eqn:Em; [|done]. intros [= <-].
    do 2 (split; [done|]). intros Hb src Hsrc. rewrite !elem_of_cons in Hsrc.
    destruct Hsrc as [->|[->|?]]; [| |set_solver]; rewrite decide_False by done;
      by destruct (json_Unmarshal b (Data old)) as [x [e|]].
  - intros b Hb. case_decide as Hn; [done|]. destruct n; [congruence|].
    by destruct (json_Unmarshal b (Data old)).
Qed.

(** A NULL or empty column resets the destination. *)
Lemma JSONB_Scan_null j src :
  src ∈ [scan_nil; scan_bytes ""; scan_string ""] ->
  JSONB_Scan src j = (mkJSONB json_zero true, None).
Proof. rewrite !elem_of_cons. intros [->|[->|[->|?]]]; [done..|set_solver]. Qed.
End jsonb.

Lemma JSONB_round_trip_witness :
  let j := mkJSONB "payload" false in
  Null j = false /\ json_Marshal (JSON := string_json) (Data j) = inl "=payload"
  /\ ("=payload" <> "" -> forall src, src ∈ [scan_bytes "=payload"; scan_string "=payload"] ->
       JSONB_Scan (H := string_json) src (mkJSONB "old" true)
         = scanned (H := string_json) "=payload" (mkJSONB "old" true)
       /\ JSONB_MustGet (H := string_json) (JSONB_Scan (H := string_json) src (mkJSONB "old" true)).1
          = ((json_Unmarshal (JSON := string_json) "=payload" "old").1, None)).
Proof.
  intros j. apply (JSONB_round_trip (H := string_json) j (Some "=payload") (mkJSONB "old" true)). reflexivity.
Defined.

(** The empty column is not NULL, and encodes as the zero value of its type, not
    as [null]. *)
Example empty_column_is_not_null : JSONB_MarshalJSON (H := string_json) (fresh (H := string_json)) = inl "=".
Proof. reflexivity. Qed.
