(* ===== verification/DbTx.v ===== *)
(** * Transactions carried by the context ([db/tx.go]).

    [*gorm.DB] handles are opaque; [gorm_Transaction] is [db.WithContext(ctx)
    .Transaction(fn)], which runs [fn] with the handle of a new transaction.
    [TxLaws] states what is relied on: statements through that handle change the
    working copy of the transaction only, which is installed when [fn] returns
    nil and dropped otherwise; what [fn] does through other handles is not undone. *)

From S2P Require Import Prelude GoTime Principal.

Record TxManager := mkTxManager { tm_db : option positive }.

Class GormTx (W : Type) := {
  gorm_Transaction : ctx -> positive -> (positive -> prog W (option error)) -> prog W (option error);
  gorm_WithContext : ctx -> positive -> positive;
  gorm_Exec : ctx -> positive -> string -> list any -> prog W (option error);
}.

Definition NewTxContext {W} (c : ctx) (tx : positive) : prog W ctx :=
  WithValue c (set_tx (Some tx)).

(** On a nil context [ctx.Value] panics; a nil handle counts as none. *)
Definition TxFromContext {W} (c : ctx) : prog W (option positive) :=
  match c with
  | None => panic "invalid memory address or nil pointer dereference"
  | Some c => mret (default None (ctx_tx c))
  end.

Section tx.
Context {W : Type} `{GormTx W}.

(** The handle to use: the transaction of the context, or the database; a
    manager without a database panics. *)
Definition TxManager_DB (m : option TxManager) (c : ctx) : prog W (option positive) :=
  tx ← TxFromContext c;
  match tx with
  | Some tx => mret (Some tx)
  | None =>
      match m with
      | None => mret None
      | Some m =>
          match tm_db m with
          | None => panic "invalid memory address or nil pointer dereference"
          | Some db => mret (Some (gorm_WithContext c db))
          end
      end
  end.

Definition WithTx (m : option TxManager) (c : ctx) (fn : ctx -> positive -> prog W (option error))
    : prog W (option error) :=
  match m ≫= tm_db with
  | None => mret (Some (errText "tx manager db is nil"))
  | Some db =>
      existing ← TxFromContext c;
      match existing with
      | Some existing => fn c existing
      | None => gorm_Transaction c db (fun tx => c' ← NewTxContext c tx; fn c' tx)
      end
  end.

(** [db.Transaction], the helper of [db/mysql.go]. *)
Definition db_Transaction (c : ctx) (db : option positive) (fn : positive -> prog W (option error))
    : prog W (option error) :=
  match db with
  | None => mret (Some (errText "gorm db is nil"))
  | Some db => gorm_Transaction c db fn
  end.

Definition db_Exec (c : ctx) (db : option positive) (sql : string) (args : list any)
    : prog W (option error) :=
  match db with
  | None => mret (Some (errText "gorm db is nil"))
  | Some db => gorm_Exec c db sql args
  end.
End tx.

(** [data] is the committed data, [work tx] the working copy of the open
    transaction [tx], and [apply] what a statement that succeeds does. *)
Class TxLaws {W D} `{GormTx W} (data : W -> D) (live : positive -> W -> Prop) (work : positive -> W -> D)
    (apply : string -> list any -> D -> D) : Prop := {
  Transaction_runs c db body w err w' :
    gorm_Transaction c db body w = (Ret err, w') ->
    (err <> None /\ data w' = data w) \/
    exists tx w1 r w2, live tx w1 /\ data w1 = data w /\ work tx w1 = data w
      /\ body tx w1 = (Ret r, w2)
      /\ match err with
         | None => r = None /\ (data w2 = data w1 -> data w' = work tx w2)
         | Some _ => data w' = data w2
         end;
  Exec_in_tx c tx sql args w err w' :
    live tx w -> gorm_Exec c tx sql args w = (Ret err, w') ->
    live tx w' /\ data w' = data w /\ (err = None -> work tx w' = apply sql args (work tx w));
}.

(** ** Functions that reach the database through the manager *)

(** What a service does inside [WithTx]: statements through [DB(ctx)], with the
    context it was given, nested calls of [WithTx], and errors of its own; it
    stops at the first error. *)
Inductive script : Type :=
  | Done
  | Fail (e : error)
  | Statement (sql : string) (args : list any) (rest : script)
  | Nested (inner rest : script).

Section scripts.
Context {W : Type} `{GormTx W} (m : option TxManager).

Fixpoint run_script (s : script) (c : ctx) : prog W (option error) :=
  match s with
  | Done => mret None
  | Fail e => mret (Some e)
  | Statement sql args rest =>
      db ← TxManager_DB m c;
      err ← db_Exec c db sql args;
      match err with Some e => mret (Some e) | None => run_script rest c end
  | Nested inner rest =>
      err ← WithTx m c (fun c _ => run_script inner c);
      match err with Some e => mret (Some e) | None => run_script rest c end
  end.
End scripts.

(** All the statements of a script, in order. *)
Fixpoint effect {D} (apply : string -> list any -> D -> D) (s : script) (d : D) : D :=
  match s with
  | Done | Fail _ => d
  | Statement sql args rest => effect apply rest (apply sql args d)
  | Nested inner rest => effect apply rest (effect apply inner d)
  end.

Section theorems.
Context {W D : Type} `{GormTx W} (data : W -> D) (live : positive -> W -> Prop) (work : positive -> W -> D).
Context (apply : string -> list any -> D -> D) `{!TxLaws data live work apply}.

(** With a context that carries the transaction [tx], a script works on [tx]. *)
Lemma script_in_tx m s (c : Context) tx w err w' :
  ctx_tx c = Some (Some tx) -> live tx w -> run_script m s (Some c) w = (Ret err, w') ->
  live tx w' /\ data w' = data w /\ (err = None -> work tx w' = effect apply s (work tx w)).
Proof.
  intros Hc. revert w err w'.
  induction s as [|e|sql args s IH|s1 IH1 s2 IH2]; intros w err w' Hl; cbn [run_script effect].
  - by intros [= <- <-].
  - by intros [= <- <-].
  - intros (db & w1 & E1 & E)%bind_Ret_inv. apply bind_Ret_inv in E as (e & w2 & E2 & E).
    unfold TxManager_DB, TxFromContext in E1. rewrite run_bind, run_ret, Hc in E1. injection E1 as <- <-.
    apply Exec_in_tx in E2 as (Hl2 & Hd & Hw); [|done]. destruct e as [e|].
    + by injection E as <- <-.
    + apply IH in E as (? & ? & Hw'); [|done]. split; [done|]. split; [congruence|].
      intros He. by rewrite Hw', Hw.
  - intros (e & w1 & E1 & E)%bind_Ret_inv. unfold WithTx in E1.
    destruct (m ≫= tm_db) as [db|]; [|injection E1 as <- <-; by injection E as <- <-].
    unfold TxFromContext in E1. rewrite run_bind, run_ret, Hc in E1. simpl in E1.
    apply IH1 in E1 as (Hl1 & Hd & Hw); [|done]. destruct e as [e|].
    + by injection E as <- <-.
    + apply IH2 in E as (? & ? & Hw'); [|done]. split; [done|]. split; [congruence|].
      intros He. by rewrite Hw', Hw.
Qed.

(** C10: a transaction is all or nothing across nested calls.  Outside any other
    transaction, and with nothing else committed meanwhile, a function run by
    [WithTx] that issues its statements through [DB(ctx)] with the context it is
    given, to any depth of nested [WithTx] calls, either returns nil, and then
    the committed data has the effect of all the statements of all the levels in
    order, or an error, and then the committed data is what it was, including
    the statements of nested calls that had returned nil. *)
Theorem WithTx_atomic (m : option TxManager) (c : Context) (s : script) w err w' :
  default None (ctx_tx c) = None ->
  WithTx m (Some c) (fun c _ => run_script m s c) w = (Ret err, w') ->
  data w' = match err with Some _ => data w | None => effect apply s (data w) end.
Proof.
  intros Hc. unfold WithTx. destruct (m ≫= tm_db) as [db|]; [|by intros [= <- <-]].
  unfold TxFromContext. rewrite run_bind, run_ret, Hc.
  intros [[He Hd]|(tx & w1 & r & w2 & Hl & Hd & Hw & Hb & Hend)]%Transaction_runs; [by destruct err|].
  unfold NewTxContext in Hb. cbn [WithValue] in Hb. rewrite run_bind, run_ret in Hb.
  apply script_in_tx with (tx := tx) in Hb as (_ & Hd2 & Hw2); [|done..].
  destruct err as [e|]; [congruence|]. destruct Hend as [-> Hend]. by rewrite Hend, Hw2, Hw.
Qed.
End theorems.

(** A database with its committed rows and, during a transaction, the rows of
    the transaction, whose handle is 2. *)
Notation Rows := (list string * option (list string))%type.

Definition demo_tx : GormTx Rows := {|
  gorm_Transaction _ _ body w :=
    match body 2%positive (w.1, Some w.1) with
    | (Ret None, w') => (Ret None, (default [] w'.2, None))
    | (Ret (Some e), w') => (Ret (Some e), (w'.1, None))
    | (Panic s, w') => (Panic s, (w'.1, None))
    end;
  gorm_WithContext _ db := db;
  gorm_Exec _ db sql _ w :=
    if decide (sql = "") then (Ret (Some (errText "syntax error")), w) else
    match w.2 with
    | Some rows => if decide (db = 2%positive) then (Ret None, (w.1, Some (sql :: rows)))
                   else (Ret None, (sql :: w.1, w.2))
    | None => (Ret None, (sql :: w.1, None))
    end;
|}.

Definition demo_live (tx : positive) (w : Rows) : Prop := tx = 2%positive /\ w.2 <> None.

Lemma demo_tx_laws :
  TxLaws (H := demo_tx) fst demo_live (fun _ w => default [] w.2) (fun sql _ rows => sql :: rows).
Proof.
  split.
  - intros c db body w err w'. simpl. destruct (body 2%positive (w.1, Some w.1)) as [[r|s] w2] eqn:E; [|done].
    intros Hr. right. exists 2%positive, (w.1, Some w.1), r, w2. split; [done|].
    do 3 (split; [done|]). destruct r; by injection Hr as <- <-.
  - intros c tx sql args [d o] err w' [-> Ho]. simpl. case_decide; [by intros [= <- <-]|].
    destruct o as [rows|]; [|done]. by intros [= <- <-].
Qed.

Definition demo_manager_tx : option TxManager := Some (mkTxManager (Some 1%positive)).
Definition good_script : script := Statement "a" [] (Nested (Statement "b" [] Done) Done).
Definition bad_script : script := Nested (Statement "b" [] Done) (Fail (errText "late failure")).

Lemma WithTx_atomic_witness :
  ["b"; "a"; "old"] = effect (fun sql _ rows => sql :: rows) good_script ["old"].
Proof.
  apply (WithTx_atomic (H := demo_tx) fst demo_live (fun _ w => default [] w.2) (fun sql _ rows => sql :: rows)
    (TxLaws0 := demo_tx_laws) demo_manager_tx (mkContext None None None None None) good_script
    (["old"], None) None (["b"; "a"; "old"], None)); reflexivity.
Defined.

(** The nested call succeeds, the outer one then fails: nothing is kept. *)
Example nested_rolled_back :
  WithTx (H := demo_tx) demo_manager_tx Background (fun c _ => run_script (H := demo_tx) demo_manager_tx bad_script c)
    (["old"], None) = (Ret (Some (errText "late failure")), (["old"], None)).
Proof. reflexivity. Qed.
