(* ===== verification/ObjectStore.v ===== *)
(** * The object store ([objectstore/minio.go], [objectstore/objectstore.go]).

    minio-go is the class [MinioClient]: its calls on the state of the store, and
    its check of a byte range.  A listing is the sequence that the channel of
    [ListObjects] yields until it is closed. *)

From S2P Require Import Prelude GoStrings GoTime Principal Env Redis.
Local Open Scope Z_scope.

Record MinIOConfig := mkMinIOConfig {
  os_Provider : string; os_Endpoint : string; os_AccessKey : string; os_SecretKey : string;
  os_SessionToken : string; os_Bucket : string; os_Region : string; os_UseSSL : bool;
  os_AutoCreateBucket : bool;
}.

Record ObjectInfo := mkObjectInfo {
  oi_Bucket : string; oi_Key : string; oi_Size : Z; oi_ETag : string;
  oi_ContentType : string; oi_LastModified : Time;
}.

Definition no_object : ObjectInfo := mkObjectInfo "" "" 0 "" "" 0.

Record PutOptions := mkPutOptions {
  po_ContentType : string; po_Metadata : strmap; po_CacheControl : string; po_SSE : any;
}.
Record GetOptions := mkGetOptions { go_Offset : Z; go_Length : Z }.
Record ListOptions := mkListOptions { lo_Prefix : string; lo_Recursive : bool; lo_Limit : Z }.

(** ** minio-go *)

Record minio_Options := mkMinioOptions {
  mo_AccessKey : string; mo_SecretKey : string; mo_SessionToken : string;
  mo_Secure : bool; mo_Region : string;
}.

(** The fields of [minio.ObjectInfo] and [minio.UploadInfo] that are read. *)
Record minio_Object := mkMinioObject {
  mi_Bucket : string; mi_Key : string; mi_Size : Z; mi_ETag : string;
  mi_ContentType : string; mi_LastModified : Time;
}.

(** [minio.PutObjectOptions] and [minio.CopyDestOptions] as filled in here. *)
Record minio_PutOptions := mkMinioPut {
  mp_ContentType : string; mp_UserMetadata : strmap; mp_CacheControl : string;
}.

Notation call S A := (Time -> S -> A * S) (only parsing).

Class MinioClient (S : Type) := {
  minio_New : string -> minio_Options -> positive + error;
  minio_SetRange : Z -> Z -> option error;
  minio_BucketExists : positive -> ctx -> string -> call S (bool + error);
  minio_MakeBucket : positive -> ctx -> string -> string -> call S (option error);
  minio_PutObject : positive -> ctx -> string -> string -> bytes -> Z -> minio_PutOptions ->
    call S (minio_Object + error);
  minio_GetObject : positive -> ctx -> string -> string -> option (Z * Z) -> call S (positive + error);
  object_Stat : positive -> call S (minio_Object + error);
  object_Close : positive -> call S (option error);
  minio_RemoveObject : positive -> ctx -> string -> string -> call S (option error);
  minio_StatObject : positive -> ctx -> string -> string -> call S (minio_Object + error);
  minio_ListObjects : positive -> ctx -> string -> string -> bool -> call S (list (minio_Object + error));
  minio_CopyObject : positive -> ctx -> string * string -> string * string -> strmap ->
    call S (minio_Object + error);
  minio_PresignedPutObject : positive -> ctx -> string -> string -> Duration -> call S (string + error);
  minio_PresignedGetObject : positive -> ctx -> string -> string -> Duration -> call S (string + error);
}.

(** What is relied on of the buckets behind a client, and of the objects handed
    out and not closed. *)
Class MinioLaws {S} (client : MinioClient S) (buckets : S -> gset string) (readers : S -> gset positive)
    : Prop := {
  BucketExists_tells h c b now s x s' : minio_BucketExists h c b now s = (inl x, s') ->
    x = bool_decide (b ∈ buckets s) /\ buckets s' = buckets s;
  BucketExists_failed h c b now s e s' : minio_BucketExists h c b now s = (inr e, s') ->
    buckets s' = buckets s;
  MakeBucket_made h c b r now s s' : minio_MakeBucket h c b r now s = (None, s') ->
    buckets s' = {[b]} ∪ buckets s;
  MakeBucket_failed h c b r now s e s' : minio_MakeBucket h c b r now s = (Some e, s') ->
    buckets s' = buckets s \/ buckets s' = {[b]} ∪ buckets s;
  GetObject_gives h c b k r now s o s' : minio_GetObject h c b k r now s = (inl o, s') ->
    o ∉ readers s /\ readers s' = {[o]} ∪ readers s;
  GetObject_fails h c b k r now s e s' : minio_GetObject h c b k r now s = (inr e, s') ->
    readers s' = readers s;
  Stat_keeps o now s : readers (object_Stat o now s).2 = readers s;
  Close_closes o now s : readers (object_Close o now s).2 = readers s ∖ {[o]};
}.

(** ** The client of the kit *)

Record MinIOClient := mkMinIOClient {
  oc_cfg : MinIOConfig; oc_client : positive; oc_metrics : option Metrics;
}.

Definition lower_result {A} (r : A + error) : option error :=
  match r with inl _ => None | inr e => Some e end.

Section store.
Context {S : Type} {minio : MinioClient S} (quote_q : string -> string).
Implicit Types (w : World S) (c : ctx) (m : MinIOClient).

Definition bucket m : string := os_Bucket (oc_cfg m).

(** A call observed as [operation]. *)
Definition observed {A} m (operation : string) (f : Time -> S -> (A + error) * S)
    : prog (World S) (A + error) :=
  started ← time_Now;
  r ← timed f;
  _ ← ObserveDependency (oc_metrics m) "minio" operation started (lower_result r);
  mret r.

Definition BucketExists m c : prog (World S) (res bool) :=
  r ← observed m "bucket_exists" (minio_BucketExists (oc_client m) c (bucket m));
  match r with
  | inr err => mret (false, Some (errWrap ("check bucket " +:+ bucket m +:+ ": ") err ""))
  | inl exists_ => mret (exists_, None)
  end.

Definition EnsureBucket m c : prog (World S) (option error) :=
  '(exists_, err) ← BucketExists m c;
  match err with
  | Some err => mret (Some err)
  | None =>
      if exists_ : bool then mret None else
      started ← time_Now;
      err ← timed (minio_MakeBucket (oc_client m) c (bucket m) (os_Region (oc_cfg m)));
      _ ← ObserveDependency (oc_metrics m) "minio" "make_bucket" started err;
      match err with
      | Some err => mret (Some (errWrap ("make bucket " +:+ bucket m +:+ ": ") err ""))
      | None => mret None
      end
  end.

Definition NewMinIO c (cfg : MinIOConfig) (metrics : option Metrics)
    : prog (World S) (res (option MinIOClient)) :=
  started ← time_Now;
  if decide (os_Provider cfg <> "" /\ os_Provider cfg <> "minio") then
    mret (None, Some (errText ("unsupported objectstore provider " +:+ quote_q (os_Provider cfg))))
  else if decide (os_Endpoint cfg = "" \/ os_AccessKey cfg = "" \/ os_SecretKey cfg = "" \/ os_Bucket cfg = "")
  then mret (None, Some (errText "endpoint/access_key/secret_key/bucket are required"))
  else
    match minio_New (os_Endpoint cfg) (mkMinioOptions (os_AccessKey cfg) (os_SecretKey cfg)
            (os_SessionToken cfg) (os_UseSSL cfg) (os_Region cfg)) with
    | inr err =>
        _ ← ObserveDependency metrics "minio" "new" started (Some err);
        mret (None, Some (errWrap "new minio: " err ""))
    | inl cli =>
        let m := mkMinIOClient cfg cli metrics in
        '(exists_, err) ← BucketExists m c;
        match err with
        | Some err =>
            _ ← ObserveDependency metrics "minio" "bucket_exists" started (Some err);
            mret (None, Some err)
        | None =>
            err ← (if negb exists_ && os_AutoCreateBucket cfg then EnsureBucket m c else mret None);
            match err with
            | Some err => mret (None, Some err)
            | None =>
                _ ← ObserveDependency metrics "minio" "init" started None;
                mret (Some m, None)
            end
        end
    end.

Definition PutObject m c (key : string) (body : bytes) (size : Z) (opts : PutOptions)
    : prog (World S) (res ObjectInfo) :=
  let po := mkMinioPut (po_ContentType opts) (po_Metadata opts) (po_CacheControl opts) in
  r ← observed m "put_object" (minio_PutObject (oc_client m) c (bucket m) key body size po);
  match r with
  | inr err => mret (no_object, Some err)
  | inl mi => mret (mkObjectInfo (mi_Bucket mi) (mi_Key mi) (mi_Size mi) (mi_ETag mi)
                      (po_ContentType opts) 0, None)
  end.

(** The byte range asked for: none, or the two arguments of [SetRange]. *)
Definition object_range (opts : GetOptions) : option (Z * Z) :=
  if decide (0 < go_Length opts) then
    Some (go_Offset opts, wrap64 (wrap64 (go_Offset opts + go_Length opts) - 1))
  else if decide (0 < go_Offset opts) then Some (go_Offset opts, 0)
  else None.

Definition info_of m (st : minio_Object) : ObjectInfo :=
  mkObjectInfo (bucket m) (mi_Key st) (mi_Size st) (mi_ETag st) (mi_ContentType st) (mi_LastModified st).

Definition GetObject m c (key : string) (opts : GetOptions)
    : prog (World S) (option positive * ObjectInfo * option error) :=
  started ← time_Now;
  match object_range opts ≫= (fun '(a, b) => minio_SetRange a b) with
  | Some err => mret (None, no_object, Some err)
  | None =>
      obj ← timed (minio_GetObject (oc_client m) c (bucket m) key (object_range opts));
      match obj with
      | inr err =>
          _ ← ObserveDependency (oc_metrics m) "minio" "get_object" started (Some err);
          mret (None, no_object, Some err)
      | inl obj =>
          st ← timed (object_Stat obj);
          _ ← ObserveDependency (oc_metrics m) "minio" "get_object" started (lower_result st);
          match st with
          | inr err => _ ← timed (object_Close obj); mret (None, no_object, Some err)
          | inl st => mret (Some obj, info_of m st, None)
          end
      end
  end.

Definition DeleteObject m c (key : string) : prog (World S) (option error) :=
  started ← time_Now;
  err ← timed (minio_RemoveObject (oc_client m) c (bucket m) key);
  _ ← ObserveDependency (oc_metrics m) "minio" "delete_object" started err;
  mret err.

Definition StatObject m c (key : string) : prog (World S) (res ObjectInfo) :=
  r ← observed m "stat_object" (minio_StatObject (oc_client m) c (bucket m) key);
  match r with
  | inr err => mret (no_object, Some err)
  | inl st => mret (info_of m st, None)
  end.

(** The loop over the channel: it ends at the first error, at the limit, or
    when the channel is closed. *)
Fixpoint collect_objects m (limit : Z) (items : list ObjectInfo) (ch : list (minio_Object + error))
    : list ObjectInfo * option error :=
  match ch with
  | [] => (items, None)
  | inr err :: _ => (items, Some err)
  | inl obj :: ch =>
      let items := items ++ [info_of m obj] in
      if decide (0 < limit /\ limit <= Z.of_nat (length items)) then (items, None)
      else collect_objects m limit items ch
  end.

Definition ListObjects m c (opts : ListOptions) : prog (World S) (option (list ObjectInfo) * option error) :=
  started ← time_Now;
  ch ← timed (minio_ListObjects (oc_client m) c (bucket m) (lo_Prefix opts) (lo_Recursive opts));
  let '(items, err) := collect_objects m (lo_Limit opts) [] ch in
  _ ← ObserveDependency (oc_metrics m) "minio" "list_objects" started err;
  match err with
  | Some err => mret (None, Some err)
  | None => mret (Some items, None)
  end.

Definition CopyObject m c (srcKey dstKey : string) (opts : PutOptions) : prog (World S) (res ObjectInfo) :=
  r ← observed m "copy_object" (minio_CopyObject (oc_client m) c (bucket m, dstKey) (bucket m, srcKey)
                                  (po_Metadata opts));
  match r with
  | inr err => mret (no_object, Some err)
  | inl info => mret (mkObjectInfo (bucket m) (mi_Key info) (mi_Size info) (mi_ETag info) "" 0, None)
  end.

Definition presigned {A} (r : A + error) : option A * option error :=
  match r with inl u => (Some u, None) | inr e => (None, Some e) end.

Definition PresignPut m c (key : string) (ttl : Duration) : prog (World S) (option string * option error) :=
  r ← observed m "presign_put" (minio_PresignedPutObject (oc_client m) c (bucket m) key ttl);
  mret (presigned r).

Definition PresignGet m c (key : string) (ttl : Duration) : prog (World S) (option string * option error) :=
  r ← observed m "presign_get" (minio_PresignedGetObject (oc_client m) c (bucket m) key ttl);
  mret (presigned r).
End store.

Section theorems.
Context {S : Type} {minio : MinioClient S} (quote_q : string -> string).
Context (buckets : S -> gset string) (readers : S -> gset positive) `{!MinioLaws minio buckets readers}.
Implicit Types (w : World S) (c : ctx) (m : MinIOClient).

Notation store_buckets w := (buckets (w_svc w)).

Lemma observed_view {A T} (view : S -> T) m op (f : Time -> S -> (A + error) * S)
    (Q : A + error -> T -> T -> Prop) w r w' :
  (forall now s x s', f now s = (x, s') -> Q x (view s) (view s')) ->
  observed m op f w = (Ret r, w') -> Q r (view (w_svc w)) (view (w_svc w')).
Proof.
  intros Hf. unfold observed. destruct (time_Now_quiet w) as (t & w1 & E1 & (H1 & _) & _).
  rewrite (run_bind_Ret _ _ _ _ _ E1). intros (x & w2 & E2 & H)%bind_Ret_inv.
  apply (timed_view view f Q _ _ _ Hf) in E2. rewrite H1 in E2.
  destruct (ObserveDependency_quiet (oc_metrics m) "minio" op t (lower_result x) w2) as (w3 & E3 & (H3 & _)).
  rewrite (run_bind_Ret _ _ _ _ _ E3) in H. injection H as <- <-. by rewrite H3.
Qed.

Lemma BucketExists_run m c w x err w' :
  BucketExists m c w = (Ret (x, err), w') ->
  store_buckets w' = store_buckets w /\
  match err with None => x = bool_decide (bucket m ∈ store_buckets w) | Some _ => x = false end.
Proof.
  unfold BucketExists. intros (r & w1 & E & H)%bind_Ret_inv.
  apply (observed_view buckets _ _ _ (fun r a b => b = a /\
    match r with inl x => x = bool_decide (bucket m ∈ a) | inr _ => True end)) in E.
  - destruct r as [y|e]; injection H as <- <- <-; destruct E as [-> E]; done.
  - intros now s [y|e] s' Ef; [by apply BucketExists_tells in Ef as [-> ->]|].
    by apply BucketExists_failed in Ef as ->.
Qed.

Lemma EnsureBucket_run m c w err w' :
  EnsureBucket m c w = (Ret err, w') ->
  store_buckets w ⊆ store_buckets w' ⊆ {[bucket m]} ∪ store_buckets w /\
  (err = None -> bucket m ∈ store_buckets w').
Proof.
  unfold EnsureBucket. intros ([x e] & w1 & [Hb Hx]%BucketExists_run & H)%bind_Ret_inv.
  destruct e as [e|]; [injection H as <- <-; rewrite Hb; split; [set_solver|done]|].
  destruct x; [injection H as <- <-; rewrite Hb; split; [set_solver|]; intros _;
    symmetry in Hx; by apply bool_decide_eq_true_1 in Hx|].
  destruct (time_Now_quiet w1) as (t & w2 & E2 & (H2 & _) & _).
  rewrite (run_bind_Ret _ _ _ _ _ E2) in H. apply bind_Ret_inv in H as (e & w3 & E3 & H).
  apply (timed_view buckets _ (fun r a b => match r with
    | None => b = {[bucket m]} ∪ a | Some _ => b = a \/ b = {[bucket m]} ∪ a end)) in E3.
  2:{ intros now s [y|] s' Ef; [by eapply MakeBucket_failed|by eapply MakeBucket_made]. }
  rewrite H2, Hb in E3.
  destruct (ObserveDependency_quiet (oc_metrics m) "minio" "make_bucket" t e w3) as (w4 & E4 & (H4 & _)).
  rewrite (run_bind_Ret _ _ _ _ _ E4) in H. destruct e as [e|]; injection H as <- <-; rewrite H4.
  - split; [|done]. destruct E3 as [-> | ->]; set_solver.
  - rewrite E3. split; set_solver.
Qed.

(** C34: with [auto_create_bucket] a client is only handed out over an existing
    bucket; without it, no bucket is ever created; and whatever the outcome no
    bucket other than the configured one changes. *)
Theorem NewMinIO_bucket c cfg metrics w cl err w' :
  NewMinIO quote_q c cfg metrics w = (Ret (cl, err), w') ->
  store_buckets w ⊆ store_buckets w' ⊆ {[os_Bucket cfg]} ∪ store_buckets w
  /\ (os_AutoCreateBucket cfg = false -> store_buckets w' = store_buckets w)
  /\ match cl with
     | Some m => err = None /\ oc_cfg m = cfg /\ os_Bucket cfg <> ""
         /\ (os_AutoCreateBucket cfg = true -> os_Bucket cfg ∈ store_buckets w')
     | None => err <> None
     end.
Proof.
  unfold NewMinIO. destruct (time_Now_quiet w) as (t & w0 & E0 & (H0 & _) & _).
  rewrite (run_bind_Ret _ _ _ _ _ E0). rewrite <- H0.
  case_decide as Hprov; [by intros [= <- <- <-]; split_and!; [set_solver..|done]|].
  case_decide as Hcfg; [by intros [= <- <- <-]; split_and!; [set_solver..|done]|].
  destruct (minio_New _ _) as [cli|e].
  2:{ destruct (ObserveDependency_quiet metrics "minio" "new" t (Some e) w0) as (w1 & E1 & (H1 & _)).
      rewrite (run_bind_Ret _ _ _ _ _ E1). intros [= <- <- <-]. rewrite H1. split_and!; [set_solver..|done]. }
  intros ([x e] & w1 & [Hb Hx]%BucketExists_run & H)%bind_Ret_inv. destruct e as [e|].
  { destruct (ObserveDependency_quiet metrics "minio" "bucket_exists" t (Some e) w1) as (w2 & E2 & (H2 & _)).
    rewrite (run_bind_Ret _ _ _ _ _ E2) in H. injection H as <- <- <-. rewrite H2, Hb.
    split_and!; [set_solver..|done]. }
  apply bind_Ret_inv in H as (e & w2 & E & H). unfold bucket in Hx. simpl in Hx.
  assert (store_buckets w0 ⊆ store_buckets w2 ⊆ {[os_Bucket cfg]} ∪ store_buckets w0
    /\ (os_AutoCreateBucket cfg = false -> store_buckets w2 = store_buckets w0)
    /\ (e = None -> os_AutoCreateBucket cfg = true -> os_Bucket cfg ∈ store_buckets w2)) as (Hs & Hn & Ha).
  { destruct (negb x && os_AutoCreateBucket cfg) eqn:Ec.
    - apply andb_prop in Ec as [_ Ec]. apply EnsureBucket_run in E. rewrite Hb in E.
      destruct E as [Hs He]. rewrite Ec. split; [done|]. split; [done|]. intros He' _. by apply He.
    - injection E as <- <-. rewrite Hb. split; [set_solver|]. split; [done|]. intros _ Hau.
      rewrite Hau, andb_true_r in Ec. apply negb_false_iff in Ec. subst x.
      by apply bool_decide_eq_true_1 in Ec. }
  destruct e as [e|]; [by injection H as <- <- <-|].
  destruct (ObserveDependency_quiet metrics "minio" "init" t None w2) as (w3 & E3 & (H3 & _)).
  rewrite (run_bind_Ret _ _ _ _ _ E3) in H. injection H as <- <- <-. rewrite H3.
  split; [done|]. split; [done|]. split; [done|]. split; [done|]. split; [tauto|]. by apply Ha.
Qed.

(** The loop over a channel: what it has collected, and why it stopped. *)
Lemma collect_objects_spec m limit items ch r err :
  (0 < limit -> Z.of_nat (length items) < limit) -> collect_objects m limit items ch = (r, err) ->
  exists objs rest, ch = (inl <$> objs) ++ rest /\ r = items ++ (info_of m <$> objs)
    /\ (0 < limit -> Z.of_nat (length r) <= limit)
    /\ match err with
       | Some e => head rest = Some (inr e) /\ (0 < limit -> Z.of_nat (length r) < limit)
       | None => rest = [] \/ (0 < limit /\ Z.of_nat (length r) = limit)
       end.
Proof.
  revert items. induction ch as [|[o|e] ch IH]; intros items Hi; cbn [collect_objects].
  - intros [= <- <-]. exists [], []. split; [done|]. split; [by rewrite app_nil_r|]. split; [lia|by left].
  - case_decide as Hlim.
    + intros [= <- <-]. exists [o], ch. rewrite length_app in *. simpl in *.
      split; [done|]. split; [done|]. split; [lia|]. right. lia.
    + intros (objs & rest & -> & -> & Hl & Hs)%IH; [|lia].
      exists (o :: objs), rest. rewrite <- app_assoc in *. done.
  - intros [= <- <-]. exists [], (inr e :: ch). split; [done|]. split; [by rewrite app_nil_r|].
    split; [lia|]. done.
Qed.

(** C35: a listing is never partial by accident: [ListObjects] either fails with
    the first error of the channel and returns no objects, or returns the
    objects of the channel from its start, in order, each once, all of them or
    exactly as many as the limit allows, and never more. *)
Theorem ListObjects_spec m c opts w items err w' :
  ListObjects m c opts w = (Ret (items, err), w') ->
  exists now s s' ch objs rest,
    minio_ListObjects (oc_client m) c (bucket m) (lo_Prefix opts) (lo_Recursive opts) now s = (ch, s')
    /\ ch = (inl <$> objs) ++ rest
    /\ (0 < lo_Limit opts -> Z.of_nat (length objs) <= lo_Limit opts)
    /\ match err with
       | Some e => items = None /\ head rest = Some (inr e)
       | None => items = Some (info_of m <$> objs)
           /\ (rest = [] \/ (0 < lo_Limit opts /\ Z.of_nat (length objs) = lo_Limit opts))
       end.
Proof.
  unfold ListObjects. intros (t & w1 & _ & (ch & w2 & E & H)%bind_Ret_inv)%bind_Ret_inv.
  destruct (timed_inv (minio_ListObjects (oc_client m) c (bucket m) (lo_Prefix opts) (lo_Recursive opts)) w1)
    as (r & now & w3 & E' & Ef & _). rewrite E in E'. injection E' as <- <-.
  destruct (collect_objects m (lo_Limit opts) [] ch) as [its e] eqn:Ec.
  apply collect_objects_spec in Ec as (objs & rest & Hch & Hits & Hl & Hs); [|simpl; lia].
  simpl in Hits. subst its. rewrite length_fmap in *.
  apply bind_Ret_inv in H as (x & w4 & _ & H).
  exists now, (w_svc w1), (w_svc w2), ch, objs, rest. split; [by rewrite Ef|]. split; [done|]. split; [done|].
  destruct e as [e|]; injection H as <- <- _; [|done]. by destruct Hs.
Qed.

(** The range sent for the options: with a length, the bytes from the offset on of
    that length, where its end fits in 64 bits; without one, everything from a
    positive offset on ([end] 0), or everything. *)
Definition asks_for (opts : GetOptions) (range : option (Z * Z)) : Prop :=
  (0 < go_Length opts -> - 2 ^ 63 <= go_Offset opts -> go_Offset opts + go_Length opts - 1 < 2 ^ 63 ->
     range = Some (go_Offset opts, go_Offset opts + go_Length opts - 1))
  /\ (go_Length opts <= 0 -> range = if decide (0 < go_Offset opts) then Some (go_Offset opts, 0) else None).

Lemma object_range_asks opts : asks_for opts (object_range opts).
Proof.
  unfold asks_for, object_range. split.
  - intros Hl Ho He. rewrite decide_True by done. repeat f_equal.
    unfold wrap64 at 2. unfold wrap64. Z.to_euclidean_division_equations. lia.
  - intros Hl. rewrite decide_False by lia. done.
Qed.

(** C36: every reader that [GetObject] hands out is one the service opened, in this
    call, for the configured bucket, the key and the range of the options, a range
    that [SetRange] accepts (its end is exact as long as it fits in 64 bits); and no
    reader is left behind by a failed call: when the object cannot be inspected it
    is closed. *)
Theorem GetObject_closes m c key opts w obj info err w' :
  GetObject m c key opts w = (Ret (obj, info, err), w') ->
  match obj with
  | Some o => err = None /\ o ∉ readers (w_svc w) /\ readers (w_svc w') = {[o]} ∪ readers (w_svc w)
      /\ exists range now s s', minio_GetObject (oc_client m) c (bucket m) key range now s = (inl o, s')
           /\ asks_for opts range /\ (range ≫= fun '(a, b) => minio_SetRange a b) = None
  | None => err <> None /\ readers (w_svc w') = readers (w_svc w) /\ info = no_object
  end.
Proof.
  clear quote_q. intros H. unfold GetObject in H. destruct (time_Now_quiet w) as (t & w0 & E0 & (H0 & _) & _).
  rewrite (run_bind_Ret _ _ _ _ _ E0) in H. rewrite <- H0.
  destruct (object_range opts ≫= _) as [e|] eqn:Eset; [by injection H as <- <- <- <-|].
  apply bind_Ret_inv in H as (r & w1 & E1 & H).
  apply (timed_view readers _ (fun r a b => match r with
    | inl o => (o ∉ a /\ b = {[o]} ∪ a) /\ exists now s s',
        minio_GetObject (oc_client m) c (bucket m) key (object_range opts) now s = (inl o, s')
    | inr _ => b = a end)) in E1.
  2:{ intros now s [o|e] s' Ef; [split; [by eapply GetObject_gives|eauto]|by eapply GetObject_fails]. }
  destruct r as [o|e].
  - destruct E1 as [[Ho E1] (now0 & s0 & s0' & Eg)]. apply bind_Ret_inv in H as (st & w2 & E2 & H).
    apply (timed_view readers _ (fun _ a b => b = a)) in E2.
    2:{ intros now s x s' Ef. pose proof (Stat_keeps o now s) as Hk. by rewrite Ef in Hk. }
    destruct (ObserveDependency_quiet (oc_metrics m) "minio" "get_object" t (lower_result st) w2)
      as (w3 & E3 & (H3 & _)). rewrite (run_bind_Ret _ _ _ _ _ E3) in H.
    destruct st as [st|e].
    + injection H as <- <- <- <-. rewrite H3, E2. do 3 (split; [done|]).
      exists (object_range opts), now0, s0, s0'. split; [done|]. split; [apply object_range_asks|done].
    + apply bind_Ret_inv in H as (x & w4 & E4 & H).
      apply (timed_view readers _ (fun _ a b => b = a ∖ {[o]})) in E4.
      2:{ intros now s y s' Ef. pose proof (Close_closes o now s) as Hk. by rewrite Ef in Hk. }
      injection H as <- <- <- <-. rewrite E4, H3, E2, E1. split_and!; [done|set_solver|done].
  - destruct (ObserveDependency_quiet (oc_metrics m) "minio" "get_object" t (Some e) w1)
      as (w3 & E3 & (H3 & _)). rewrite (run_bind_Ret _ _ _ _ _ E3) in H.
    injection H as <- <- <- <-. by rewrite H3, E1.
Qed.
End theorems.

(** ** A concrete store *)

Record Shelf := mkShelf {
  shelf_buckets : list string; shelf_readers : list positive; shelf_listing : list (minio_Object + error);
}.

Definition next_reader (l : list positive) : positive := foldr (fun x n => Pos.max (Pos.succ x) n) 1%positive l.

Lemma next_reader_fresh l : next_reader l ∉ l.
Proof.
  assert (forall x, x ∈ l -> (x < next_reader l)%positive) as H.
  { induction l as [|y l IH]; intros x; [set_solver|]. simpl.
    intros [->|Hx]%elem_of_cons; [lia|]. specialize (IH _ Hx). lia. }
  intros Hin. specialize (H _ Hin). lia.
Qed.

Definition shelf_object (key : string) : minio_Object := mkMinioObject "aihub" key 3 "etag" "text/plain" 0.

#[export] Instance shelf_client : MinioClient Shelf := {
  minio_New _ _ := inl 1%positive;
  minio_SetRange a b := if decide (0 <= a <= b \/ (0 < a /\ b = 0) \/ (a = 0 /\ b < 0)) then None
                        else Some (errForeign "minio" "invalid range");
  minio_BucketExists _ _ b _ s := (inl (bool_decide (b ∈ shelf_buckets s)), s);
  minio_MakeBucket _ _ b _ _ s := (None, mkShelf (b :: shelf_buckets s) (shelf_readers s) (shelf_listing s));
  minio_PutObject _ _ _ key _ _ _ _ s := (inl (shelf_object key), s);
  minio_GetObject _ _ _ _ _ _ s :=
    (inl (next_reader (shelf_readers s)),
     mkShelf (shelf_buckets s) (next_reader (shelf_readers s) :: shelf_readers s) (shelf_listing s));
  object_Stat _ _ s := (inr (errForeign "minio" "The specified key does not exist."), s);
  object_Close o _ s :=
    (None, mkShelf (shelf_buckets s) (filter (fun x => x <> o) (shelf_readers s)) (shelf_listing s));
  minio_RemoveObject _ _ _ _ _ s := (None, s);
  minio_StatObject _ _ _ key _ s := (inl (shelf_object key), s);
  minio_ListObjects _ _ _ _ _ _ s := (shelf_listing s, s);
  minio_CopyObject _ _ dst _ _ _ s := (inl (shelf_object dst.2), s);
  minio_PresignedPutObject _ _ _ key _ _ s := (inl key, s);
  minio_PresignedGetObject _ _ _ key _ _ s := (inl key, s);
}.

Definition bucket_set (s : Shelf) : gset string := list_to_set (shelf_buckets s).
Definition reader_set (s : Shelf) : gset positive := list_to_set (shelf_readers s).

#[export] Instance shelf_laws : MinioLaws shelf_client bucket_set reader_set.
Proof.
  split; try done.
  - intros h c b now s x s' [= <- <-]. split; [|done]. unfold bucket_set.
    apply bool_decide_ext. by rewrite elem_of_list_to_set.
  - intros h c b r now s s' [= <-]. done.
  - intros h c b k r now s o s' [= <- <-]. unfold reader_set. rewrite elem_of_list_to_set.
    split; [apply next_reader_fresh|done].
  - intros o now s. apply set_eq. intros x. unfold reader_set. simpl.
    rewrite elem_of_difference, !elem_of_list_to_set, list_elem_of_filter, elem_of_singleton. naive_solver.
Qed.

Definition shelf_world (buckets : list string) (readers : list positive)
    (listing : list (minio_Object + error)) : World Shelf :=
  mkWorld (mkShelf buckets readers listing) 0 [] [] [] [].

Definition demo_minio : MinIOConfig := mkMinIOConfig "" "s3:9000" "key" "secret" "" "aihub" "" false true.
Definition demo_store : MinIOClient := mkMinIOClient demo_minio 1 None.

Lemma NewMinIO_bucket_witness :
  bucket_set (mkShelf ["other"] [] []) ⊆ bucket_set (mkShelf ["aihub"; "other"] [] [])
    ⊆ {["aihub"]} ∪ bucket_set (mkShelf ["other"] [] [])
  /\ (true = false -> bucket_set (mkShelf ["aihub"; "other"] [] []) = bucket_set (mkShelf ["other"] [] []))
  /\ @None error = None /\ demo_minio = demo_minio /\ "aihub" <> ""
  /\ (true = true -> "aihub" ∈ bucket_set (mkShelf ["aihub"; "other"] [] [])).
Proof.
  apply (NewMinIO_bucket id bucket_set reader_set Background demo_minio None (shelf_world ["other"] [] [])
    (Some demo_store) None (shelf_world ["aihub"; "other"] [] [])).
  vm_compute. reflexivity.
Defined.

Lemma ListObjects_spec_witness :
  exists now s s' ch objs rest,
    minio_ListObjects (oc_client demo_store) Background (bucket demo_store) "a" true now s = (ch, s')
    /\ ch = (inl <$> objs) ++ rest
    /\ (0 < 2 -> Z.of_nat (length objs) <= 2)
    /\ Some (info_of demo_store <$> [shelf_object "a1"; shelf_object "a2"])
         = Some (info_of demo_store <$> objs)
    /\ (rest = [] \/ (0 < 2 /\ Z.of_nat (length objs) = 2)).
Proof.
  apply (ListObjects_spec demo_store Background (mkListOptions "a" true 2)
    (shelf_world ["aihub"] [] (inl <$> [shelf_object "a1"; shelf_object "a2"; shelf_object "a3"]))
    (Some (info_of demo_store <$> [shelf_object "a1"; shelf_object "a2"])) None
    (shelf_world ["aihub"] [] (inl <$> [shelf_object "a1"; shelf_object "a2"; shelf_object "a3"]))).
  vm_compute. reflexivity.
Defined.

Definition stat_failure : error := errForeign "minio" "The specified key does not exist.".

(** A shelf on which objects can be inspected. *)
Definition stat_store : MinioClient Shelf := {|
  minio_New := minio_New; minio_SetRange := minio_SetRange; minio_BucketExists := minio_BucketExists;
  minio_MakeBucket := minio_MakeBucket; minio_PutObject := minio_PutObject;
  minio_GetObject := minio_GetObject; object_Stat _ _ s := (inl (shelf_object "k"), s);
  object_Close := object_Close; minio_RemoveObject := minio_RemoveObject;
  minio_StatObject := minio_StatObject; minio_ListObjects := minio_ListObjects;
  minio_CopyObject := minio_CopyObject; minio_PresignedPutObject := minio_PresignedPutObject;
  minio_PresignedGetObject := minio_PresignedGetObject;
|}.

Lemma stat_laws : MinioLaws stat_store bucket_set reader_set.
Proof.
  split; [exact (BucketExists_tells (client := shelf_client))|exact (BucketExists_failed (client := shelf_client))
    |exact (MakeBucket_made (client := shelf_client))|exact (MakeBucket_failed (client := shelf_client))
    |exact (GetObject_gives (client := shelf_client))|exact (GetObject_fails (client := shelf_client))
    |done|exact (Close_closes (client := shelf_client))].
Qed.

Lemma GetObject_closes_witness :
  @None error = None /\ 1%positive ∉ reader_set (mkShelf ["aihub"] [] [])
  /\ reader_set (mkShelf ["aihub"] [1%positive] []) = {[1%positive]} ∪ reader_set (mkShelf ["aihub"] [] [])
  /\ exists range now s s',
       minio_GetObject (MinioClient := stat_store) (oc_client demo_store) Background (bucket demo_store) "k"
         range now s = (inl 1%positive, s')
       /\ asks_for (mkGetOptions 10 5) range
       /\ (range ≫= fun '(a, b) => minio_SetRange (MinioClient := stat_store) a b) = None.
Proof.
  apply (GetObject_closes (minio := stat_store) bucket_set reader_set (MinioLaws0 := stat_laws)
    demo_store Background "k" (mkGetOptions 10 5)
    (shelf_world ["aihub"] [] []) (Some 1%positive) (info_of demo_store (shelf_object "k")) None
    (shelf_world ["aihub"] [1%positive] [])).
  vm_compute. reflexivity.
Defined.

(** An object that is not there: the reader is closed. *)
Example missing_object :
  GetObject demo_store Background "k" (mkGetOptions 10 5) (shelf_world ["aihub"] [4%positive] [])
  = (Ret (None, no_object, Some stat_failure), shelf_world ["aihub"] [4%positive] []).
Proof. vm_compute. reflexivity. Qed.

(** A failed check of the bucket is reported to the metrics twice by the
    constructor: once by [BucketExists] and once more by its caller. *)
Definition broken_store : MinioClient Shelf := {|
  minio_New _ _ := inl 1%positive; minio_SetRange _ _ := None;
  minio_BucketExists _ _ _ _ s := (inr stat_failure, s);
  minio_MakeBucket _ _ _ _ _ s := (None, s);
  minio_PutObject _ _ _ key _ _ _ _ s := (inl (shelf_object key), s);
  minio_GetObject _ _ _ _ _ _ s := (inl 1%positive, s);
  object_Stat _ _ s := (inr stat_failure, s);
  object_Close _ _ s := (None, s);
  minio_RemoveObject _ _ _ _ _ s := (None, s);
  minio_StatObject _ _ _ key _ s := (inl (shelf_object key), s);
  minio_ListObjects _ _ _ _ _ _ s := ([], s);
  minio_CopyObject _ _ dst _ _ _ s := (inl (shelf_object dst.2), s);
  minio_PresignedPutObject _ _ _ key _ _ s := (inl key, s);
  minio_PresignedGetObject _ _ _ key _ _ s := (inl key, s);
|}.

Example bucket_failure_counted_twice :
  w_obs (NewMinIO (minio := broken_store) id Background demo_minio
    (Some (mkMetrics false false false true)) (shelf_world [] [] [])).2
  = [DependencyErrors "minio" "bucket_exists"; DependencyErrors "minio" "bucket_exists"].
Proof. vm_compute. reflexivity. Qed.
