(* ===== verification/Database.v ===== *)
(** * Database settings ([db/database.go]) and SQL identifiers ([db/postgres.go]).

    The name of the driver, and the quoting that [EnsurePostgresDatabase] relies
    on when it pastes the database name into [CREATE DATABASE]. *)

From S2P Require Import Prelude GoStrings GoText.
Local Open Scope Z_scope.

Record DatabaseConfig := mkDatabaseConfig {
  Driver : string; DSN : string; MaxOpenConns : Z; MaxIdleConns : Z;
  ConnMaxLifetime : string; SlowThreshold : string; db_LogLevel : string;
  AutoCreateDatabase : bool; AutoCreate : bool; MaintenanceDB : string;
  SearchPath : string; SSLMode : string;
}.

Definition canonicalDriver (s : string) : string :=
  if decide (s ∈ [""; "mysql"]) then "mysql" else
  if decide (s ∈ ["postgres"; "postgresql"; "pgx"]) then "postgres" else s.

(** [quote_q] is [strconv.Quote], for [%q] in the message. *)
Definition Normalize (quote_q : string -> string) (c : DatabaseConfig) : res string :=
  let canon := canonicalDriver (Driver c) in
  if decide (canon ∈ ["mysql"; "postgres"]) then (canon, None)
  else ("", Some (errText ("unsupported database.driver " +:+ quote_q (Driver c)
                           +:+ " (supported: mysql, postgres)"))).

Inductive LogLevel : Type := Silent | ErrorLevel | Warn | Info.

Definition parseLogLevel (level : string) : LogLevel :=
  if decide (level = "silent") then Silent else
  if decide (level = "info") then Info else
  if decide (level = "error") then ErrorLevel else Warn.

(** The names accepted are the documented ones, and normalizing is idempotent. *)
Lemma Normalize_driver q c d :
  Normalize q c = (d, None) ->
  Driver c ∈ [""; "mysql"; "postgres"; "postgresql"; "pgx"] /\ canonicalDriver d = d
  /\ (d = "mysql" \/ d = "postgres").
Proof.
  unfold Normalize. case_decide as Hd; [intros [= <-]|done].
  assert (canonicalDriver (Driver c) = "mysql" \/ canonicalDriver (Driver c) = "postgres") as Hc
    by set_solver.
  split; [|split; [by destruct Hc as [-> | ->]|done]].
  unfold canonicalDriver in Hc. repeat case_decide; set_solver.
Qed.

(** ** Quoted identifiers *)

Definition dquote : Ascii.ascii := Ascii.ascii_of_nat 34.
Definition dquote_s : string := String dquote "".

Definition quoteIdent (s : string) : string :=
  dquote_s +:+ ReplaceAll s dquote_s (dquote_s +:+ dquote_s) +:+ dquote_s.

(** How SQL reads a quoted identifier, from behind its opening quote: two quotes
    stand for one, a single quote ends it; the rest of the text follows.  [None]:
    no closing quote. *)
Fixpoint read_ident (l : bytes) : option (bytes * bytes) :=
  match l with
  | [] => None
  | a :: l' =>
      if Ascii.eqb dquote a then
        match l' with
        | b :: l'' => if Ascii.eqb dquote b then (fun '(x, y) => (dquote :: x, y)) <$> read_ident l''
                      else Some ([], l')
        | [] => Some ([], [])
        end
      else (fun '(x, y) => (a :: x, y)) <$> read_ident l'
  end.

(** SQL's reading of a whole text as one quoted identifier and a rest. *)
Definition read_quoted (s : string) : option (string * string) :=
  match to_bytes s with
  | a :: l => if Ascii.eqb dquote a then (fun '(x, y) => (of_bytes x, of_bytes y)) <$> read_ident l
              else None
  | [] => None
  end.

Lemma read_doubled l rest :
  head rest <> Some dquote ->
  read_ident (replace_bytes 0 [dquote] [dquote; dquote] l ++ dquote :: rest) = Some (l, rest).
Proof.
  intros Hr. induction l as [|a l IH].
  - cbn [replace_bytes app read_ident]. rewrite Ascii.eqb_refl. destruct rest as [|b rest]; [done|].
    destruct (Ascii.eqb dquote b) eqn:E; [|done]. apply Ascii.eqb_eq in E as <-. by destruct Hr.
  - cbn [replace_bytes prefix_of length Nat.sub]. rewrite andb_true_r.
    destruct (Ascii.eqb dquote a) eqn:E.
    + apply Ascii.eqb_eq in E as <-. cbn [app read_ident length replace_bytes].
      rewrite Ascii.eqb_refl. change (1 - 1) with 0. by rewrite IH.
    + cbn [app read_ident]. by rewrite E, IH.
Qed.

(** C18: [quoteIdent] is injection-safe: whatever the name contains, SQL reads the
    quoted form back as exactly that name and goes on right behind it, so no part
    of the name is ever read as SQL. *)
Theorem quoteIdent_safe (name rest : string) :
  head (to_bytes rest) <> Some dquote ->
  read_quoted (quoteIdent name +:+ rest) = Some (name, rest).
Proof.
  intros Hr. unfold read_quoted, quoteIdent, ReplaceAll.
  rewrite !to_bytes_app, to_of_bytes. cbn [to_bytes app].
  change (to_bytes dquote_s) with [dquote].
  cbn [app]. rewrite Ascii.eqb_refl.
  change (to_bytes (dquote_s +:+ dquote_s)) with [dquote; dquote].
  rewrite <- !app_assoc. cbn [app]. rewrite read_doubled by done. simpl. by rewrite !of_to_bytes.
Qed.

Definition nasty_name : string := "x" +:+ dquote_s +:+ "; DROP DATABASE y; --".

Lemma quoteIdent_safe_witness :
  read_quoted (quoteIdent nasty_name +:+ ";") = Some (nasty_name, ";").
Proof. apply quoteIdent_safe. vm_compute. discriminate. Defined.
