(* ===== verification/DbDSN.v ===== *)
(** * PostgreSQL connection strings ([db/postgres.go]).

    A DSN is a URL or a list of [keyword=value] fields.  Parsed URLs are the class
    [NetURL].  The order in which Go ranges over a map is the argument [range]. *)

From S2P Require Import Prelude GoStrings GoText GoURL.
From S2P Require Import Database.

(** ** strings.Fields *)

Definition emit (cur : bytes) (rest : list bytes) : list bytes :=
  match cur with [] => rest | _ => cur :: rest end.

(** [cur] is the field being read. *)
Fixpoint fields_bytes (cur l : bytes) : list bytes :=
  match l with
  | [] => emit cur []
  | a :: l1 =>
      if space1 a then emit cur (fields_bytes [] l1) else
      match l1 with
      | [] => fields_bytes (cur ++ [a]) l1
      | b :: l2 =>
          if space2 a b then emit cur (fields_bytes [] l2) else
          match l2 with
          | [] => fields_bytes (cur ++ [a]) l1
          | c :: l3 => if space3 a b c then emit cur (fields_bytes [] l3)
                       else fields_bytes (cur ++ [a]) l1
          end
      end
  end.

(** [strings.Fields] *)
Definition Fields (s : string) : list string := of_bytes <$> fields_bytes [] (to_bytes s).

Definition tab : Ascii.ascii := Ascii.ascii_of_nat 9.
Definition quote : Ascii.ascii := Ascii.ascii_of_nat 39.
Definition bslash : Ascii.ascii := Ascii.ascii_of_nat 92.
Definition equals : Ascii.ascii := Ascii.ascii_of_nat 61.
Definition slash : Ascii.ascii := Ascii.ascii_of_nat 47.

Definition quote_s : string := String quote "".
Definition bslash_s : string := String bslash "".

(** [strings.TrimPrefix(s, prefix)] for the one-byte prefix [c]. *)
Definition TrimPrefix (c : Ascii.ascii) (s : string) : string :=
  match s with String a s' => if Ascii.eqb c a then s' else s | _ => s end.

(** ** Keyword DSNs *)

(** One round of the loop over the fields. *)
Definition put_field (parts : gmap string string) (f : string) : gmap string string :=
  match Cut equals f with
  | Some (k, v) => if decide (k = "") then parts else <[k := Trim quote v]> parts
  | None => parts
  end.

Definition splitKeywordDSN (dsn : string) : gmap string string := foldl put_field ∅ (Fields dsn).

Definition quoteKeywordValue (v : string) : string :=
  if decide (v = "") then quote_s +:+ quote_s else
  if has_char space v || has_char tab v || has_char quote v || has_char bslash v then
    quote_s +:+ ReplaceAll (ReplaceAll v bslash_s (bslash_s +:+ bslash_s)) quote_s (bslash_s +:+ quote_s)
      +:+ quote_s
  else v.

Definition keyword_order : list string :=
  ["host"; "port"; "user"; "password"; "dbname"; "sslmode"; "connect_timeout"; "timezone"; "TimeZone"].

Definition keyword_field (kv : string * string) : string := kv.1 +:+ "=" +:+ quoteKeywordValue kv.2.

(** The fields in the order of the source: the known keywords, then what [range]
    over the map yields of the rest. *)
Definition keyword_pairs (range : list (string * string)) (parts : gmap string string)
    : list (string * string) :=
  let known := omap (fun k => (fun v => (k, v)) <$> parts !! k) keyword_order in
  let seen := known.*1 in
  known ++ filter (fun kv => kv.1 ∉ seen) range.

Definition joinKeywordDSN (range : list (string * string)) (parts : gmap string string) : string :=
  Join (keyword_field <$> keyword_pairs range parts) " ".

Definition containsKeyword (dsn key : string) : bool := Contains dsn (key +:+ "=").

Definition escapeSingleQuoted (s : string) : string := ReplaceAll s quote_s (quote_s +:+ quote_s).

(** ** DSNs *)

Definition is_url (dsn : string) : bool :=
  HasPrefix dsn "postgres://" || HasPrefix dsn "postgresql://".

Definition ssl_mode (sslMode : string) : string := if decide (sslMode = "") then "disable" else sslMode.

Definition normalize_keyword_dsn (dsn sslMode searchPath : string) : string :=
  let dsn := if containsKeyword dsn "sslmode" then dsn
             else TrimSpace dsn +:+ " sslmode=" +:+ ssl_mode sslMode in
  let sp := TrimSpace searchPath in
  if decide (sp <> "" /\ containsKeyword dsn "options" = false /\ containsKeyword dsn "search_path" = false)
  then TrimSpace dsn +:+ " options=" +:+ quote_s +:+ "-c search_path=" +:+ escapeSingleQuoted sp +:+ quote_s
  else dsn.

Section dsn.
Context `{NetURL}.

Definition normalize_url_dsn (u : URL) (sslMode searchPath : string) : string :=
  let q := url_Query u in
  let q := if decide (q_Get "sslmode" q = "") then q_Set "sslmode" (ssl_mode sslMode) q else q in
  let sp := TrimSpace searchPath in
  let q := if decide (sp <> "" /\ Contains (q_Get "options" q) "search_path" = false)
           then q_Set "options" (TrimSpace (q_Get "options" q +:+ " -c search_path=" +:+ sp)) q
           else q in
  url_String (set_RawQuery (q_Encode q) u).

Definition normalizePostgresDSN (dsn sslMode searchPath : string) : string :=
  if is_url dsn then
    match url_Parse dsn with
    | inl u => normalize_url_dsn u sslMode searchPath
    | inr _ => normalize_keyword_dsn dsn sslMode searchPath
    end
  else normalize_keyword_dsn dsn sslMode searchPath.

(** [target] and the DSN of the maintenance database, or an error. *)
Definition postgresMaintenanceDSN (range : list (string * string)) (cfg : DatabaseConfig)
    : (string * string) + error :=
  let maintenanceDB := TrimSpace (MaintenanceDB cfg) in
  let maintenanceDB := if decide (maintenanceDB = "") then "postgres" else maintenanceDB in
  let dsn := TrimSpace (DSN cfg) in
  if is_url dsn then
    match url_Parse dsn with
    | inr err => inr (errWrap "parse postgres dsn: " err "")
    | inl u =>
        let target := TrimPrefix slash (url_EscapedPath u) in
        if decide (target = "") then
          inr (errText "postgres dsn path must include database name for auto_create_database")
        else
          match PathUnescape target with
          | inr err => inr (errWrap "decode postgres database name: " err "")
          | inl dbName => inl (dbName, url_String (set_Path ("/" +:+ PathEscape maintenanceDB) u))
          end
    end
  else
    let parts := splitKeywordDSN dsn in
    let target := default "" (parts !! "dbname") in
    if decide (target = "") then
      inr (errText "postgres keyword dsn must include dbname for auto_create_database")
    else inl (target, joinKeywordDSN range (<["dbname" := maintenanceDB]> parts)).
End dsn.

(** ** Fields of a text without white space *)

(** No suffix of [l] starts with white space. *)
Fixpoint no_space (l : bytes) : bool :=
  negb (lead space2 space3 l) && match l with [] => true | _ :: l => no_space l end.

Lemma fields_step cur a l :
  lead space2 space3 (a :: l) = false -> fields_bytes cur (a :: l) = fields_bytes (cur ++ [a]) l.
Proof.
  intros H. cbn [fields_bytes]. simpl in H. destruct (space1 a); [done|].
  destruct l as [|b l2]; [done|]. simpl in H. destruct (space2 a b); [done|].
  destruct l2 as [|c l3]; [done|]. simpl in H. by rewrite H.
Qed.

(** [l] starts with an ASCII byte, if at all. *)
Definition starts_ascii (l : bytes) : Prop := match l with [] => True | x :: _ => (code x < 128)%N end.

Lemma no_space_lead u v :
  no_space u = true -> u <> [] -> starts_ascii v -> lead space2 space3 (u ++ v) = false.
Proof.
  intros Hu Hn Hv. destruct u as [|a u]; [done|]. cbn [no_space] in Hu.
  apply andb_prop in Hu as [Hu%negb_true_iff _].
  destruct v as [|x v]; [by rewrite app_nil_r|].
  apply lead_shield; [apply space2_ascii|apply space3_ascii|done..].
Qed.

Lemma no_space_cons a u : no_space (a :: u) = true -> no_space u = true.
Proof. cbn [no_space]. by intros [_ ?]%andb_prop. Qed.

Lemma no_space_app u v :
  no_space u = true -> starts_ascii v -> no_space v = true -> no_space (u ++ v) = true.
Proof.
  intros Hu Hv Hn. induction u as [|a u IH]; [done|]. cbn [app no_space].
  change (a :: u ++ v) with ((a :: u) ++ v). rewrite no_space_lead by done.
  cbn [negb andb]. apply IH. by apply no_space_cons in Hu.
Qed.

Lemma fields_word cur u rest :
  no_space u = true -> starts_ascii rest -> fields_bytes cur (u ++ rest) = fields_bytes (cur ++ u) rest.
Proof.
  revert cur. induction u as [|a u IH]; intros cur Hu Hr; [by rewrite app_nil_r|].
  cbn [app]. rewrite fields_step by (apply (no_space_lead (a :: u)); done).
  apply no_space_cons in Hu. rewrite IH by done. by rewrite <- app_assoc.
Qed.

Definition word (s : string) : Prop := s <> "" /\ no_space (to_bytes s) = true.

Lemma Fields_Join ws : Forall word ws -> Fields (Join ws " ") = ws.
Proof.
  intros Hw. unfold Fields.
  assert (fields_bytes [] (to_bytes (Join ws " ")) = to_bytes <$> ws) as ->.
  { induction Hw as [|w [|w' ws] [Hn Hs] Hw IH]; [done| |].
    - simpl. rewrite <- (app_nil_r (to_bytes w)) at 1. rewrite fields_word by done. simpl.
      destruct w; [done|]. done.
    - change (Join (w :: w' :: ws) " ") with (w +:+ " " +:+ Join (w' :: ws) " ").
      rewrite !to_bytes_app. change (to_bytes " ") with [space]. rewrite fields_word by done.
      cbn [app fields_bytes]. change (space1 space) with true. cbn iota. rewrite IH.
      destruct w; [done|]. done. }
  rewrite <- list_fmap_compose. rewrite <- (list_fmap_id ws) at 2. apply list_fmap_ext.
  intros i s _. apply of_to_bytes.
Qed.

(** ** How a PostgreSQL client reads a keyword DSN

    The grammar of the PostgreSQL manual ("Keyword/Value Connection Strings"):
    fields [keyword = value] between blanks, blanks around [=] allowed; a value in
    single quotes may hold blanks and be empty; a backslash quotes the next
    character.  A reader of its own, not the code's [splitKeywordDSN]. *)

Inductive ci_mode : Type :=
  | ci_blank                   (* between fields *)
  | ci_name (k : bytes)        (* in the keyword *)
  | ci_equals (k : bytes)      (* behind the keyword, before [=] *)
  | ci_value (k : bytes)       (* behind [=] *)
  | ci_plain (k v : bytes)     (* in a value without quotes *)
  | ci_quoted (k v : bytes).   (* in a quoted value *)

Fixpoint read_conninfo (m : ci_mode) (l : bytes) : option (list (bytes * bytes)) :=
  match l with
  | [] =>
      match m with
      | ci_blank => Some []
      | ci_value k => Some [(k, [])]
      | ci_plain k v => Some [(k, v)]
      | ci_name _ | ci_equals _ | ci_quoted _ _ => None
      end
  | a :: l1 =>
      match m with
      | ci_blank =>
          if space1 a then read_conninfo ci_blank l1 else
          if Ascii.eqb equals a then None else read_conninfo (ci_name [a]) l1
      | ci_name k =>
          if Ascii.eqb equals a then read_conninfo (ci_value k) l1 else
          if space1 a then read_conninfo (ci_equals k) l1 else read_conninfo (ci_name (k ++ [a])) l1
      | ci_equals k =>
          if space1 a then read_conninfo (ci_equals k) l1 else
          if Ascii.eqb equals a then read_conninfo (ci_value k) l1 else None
      | ci_value k =>
          if space1 a then read_conninfo (ci_value k) l1 else
          if Ascii.eqb quote a then read_conninfo (ci_quoted k []) l1 else
          if Ascii.eqb bslash a then
            match l1 with b :: l2 => read_conninfo (ci_plain k [b]) l2 | [] => Some [(k, [])] end
          else read_conninfo (ci_plain k [a]) l1
      | ci_plain k v =>
          if space1 a then cons (k, v) <$> read_conninfo ci_blank l1 else
          if Ascii.eqb bslash a then
            match l1 with b :: l2 => read_conninfo (ci_plain k (v ++ [b])) l2 | [] => Some [(k, v)] end
          else read_conninfo (ci_plain k (v ++ [a])) l1
      | ci_quoted k v =>
          if Ascii.eqb quote a then cons (k, v) <$> read_conninfo ci_blank l1 else
          if Ascii.eqb bslash a then
            match l1 with b :: l2 => read_conninfo (ci_quoted k (v ++ [b])) l2 | [] => None end
          else read_conninfo (ci_quoted k (v ++ [a])) l1
      end
  end.

Definition text_pair (kv : bytes * bytes) : string * string := (of_bytes kv.1, of_bytes kv.2).

(** The fields in order. *)
Definition conninfo (dsn : string) : option (list (string * string)) :=
  l ← read_conninfo ci_blank (to_bytes dsn); Some (list_fmap _ _ text_pair l).

Definition put_pair (m : gmap string string) (kv : string * string) : gmap string string :=
  <[kv.1 := kv.2]> m.

(** The settings: of a keyword given twice the last value counts. *)
Definition settings (dsn : string) : option (gmap string string) := foldl put_pair ∅ <$> conninfo dsn.

Example settings_ex :
  settings (" host = 'my db'  password=it\'s user='' ")
  = Some (list_to_map [("host", "my db"); ("password", "it's"); ("user", "")]).
Proof. vm_compute. reflexivity. Qed.

Example unclosed_value : settings ("host='db") = None.
Proof. reflexivity. Qed.

(** ** Reading what [quoteKeywordValue] wrote *)

Lemma has_char_false c s : has_char c s = false <-> c ∉ to_bytes s.
Proof.
  unfold has_char. rewrite <- not_true_iff_false, existsb_exists. split.
  - intros H Hc. apply H. exists c. by rewrite <- list_elem_of_In, Ascii.eqb_refl.
  - intros H (x & Hx & E%Ascii.eqb_eq). subst. by rewrite <- list_elem_of_In in Hx.
Qed.

Lemma eqb_not_elem c a l : c ∉ a :: l -> Ascii.eqb c a = false.
Proof. intros [H _]%not_elem_of_cons. by apply Ascii.eqb_neq. Qed.

Lemma no_space_cons' a u : no_space (a :: u) = true -> space1 a = false.
Proof. cbn [no_space]. intros [Hl%negb_true_iff _]%andb_prop. by apply orb_false_elim in Hl as [? _]. Qed.

Definition ascii_space (l : bytes) : Prop := Exists (fun a => space1 a = true) l.

Lemma no_space_ascii u : no_space u = true -> ~ ascii_space u.
Proof.
  intros Hu He. induction He as [a u Ha|a u He IH]; [by rewrite (no_space_cons' _ _ Hu) in Ha|].
  by apply IH, (no_space_cons a).
Qed.

Lemma read_name k0 k l :
  ~ ascii_space k -> equals ∉ k ->
  read_conninfo (ci_name k0) (k ++ equals :: l) = read_conninfo (ci_value (k0 ++ k)) l.
Proof.
  revert k0. induction k as [|a k IH]; intros k0 Hs He; [by rewrite app_nil_r|]. cbn [app read_conninfo].
  rewrite (eqb_not_elem _ _ _ He). apply not_elem_of_cons in He as [_ He].
  destruct (space1 a) eqn:Ea; [by destruct Hs; left|].
  rewrite IH; [by rewrite <- app_assoc| |done]. intros Hk. apply Hs. by right.
Qed.

(** The rest of a text behind a value: nothing, or a blank first. *)
Definition blank_first (l : bytes) : Prop := match l with [] => True | a :: _ => space1 a = true end.

Lemma read_plain k v u rest :
  ~ ascii_space u -> bslash ∉ u -> blank_first rest ->
  read_conninfo (ci_plain k v) (u ++ rest) = cons (k, v ++ u) <$> read_conninfo ci_blank rest.
Proof.
  intros Hs Hb Hr. revert v Hs Hb. induction u as [|a u IH]; intros v Hs Hb.
  { rewrite app_nil_r. destruct rest as [|a rest]; [done|]. cbn [app read_conninfo blank_first] in *. by rewrite Hr. }
  cbn [app read_conninfo]. rewrite (eqb_not_elem _ _ _ Hb). apply not_elem_of_cons in Hb as [_ Hb].
  destruct (space1 a) eqn:Ea; [by destruct Hs; left|].
  rewrite IH; [by rewrite <- app_assoc| |done]. intros Hk. apply Hs. by right.
Qed.

Definition escape_byte (a : Ascii.ascii) : bytes :=
  if Ascii.eqb quote a || Ascii.eqb bslash a then [bslash; a] else [a].

Lemma read_quoted k v u rest :
  read_conninfo (ci_quoted k v) ((u ≫= escape_byte) ++ quote :: rest)
  = cons (k, v ++ u) <$> read_conninfo ci_blank rest.
Proof.
  revert v. induction u as [|a u IH]; intros v; [by rewrite app_nil_r|].
  cbn [mbind list_bind]. unfold escape_byte at 1.
  destruct (Ascii.eqb quote a) eqn:Eq; [|destruct (Ascii.eqb bslash a) eqn:Eb];
    cbn [orb app read_conninfo]; rewrite ?Eq, ?Eb; [by rewrite IH, <- app_assoc..].
Qed.

Lemma replace_byte c new l :
  replace_bytes 0 [c] new l = l ≫= (fun a => if Ascii.eqb c a then new else [a]).
Proof.
  induction l as [|a l IH]; [done|]. cbn [replace_bytes prefix_of length Nat.sub mbind list_bind].
  rewrite andb_true_r. destruct (Ascii.eqb c a); [|by cbn [app]; f_equal]. by f_equal.
Qed.

(** The two passes of the source escape every quote and backslash once. *)
Lemma escape_twice v :
  to_bytes (ReplaceAll (ReplaceAll v bslash_s (bslash_s +:+ bslash_s)) quote_s (bslash_s +:+ quote_s))
  = to_bytes v ≫= escape_byte.
Proof.
  unfold ReplaceAll. rewrite !to_of_bytes. change (to_bytes quote_s) with [quote].
  change (to_bytes bslash_s) with [bslash]. rewrite !replace_byte.
  induction (to_bytes v) as [|a l IH]; [done|]. cbn [mbind list_bind]. rewrite bind_app, IH. f_equal.
  unfold escape_byte. destruct (Ascii.eqb quote a) eqn:Eq; [apply Ascii.eqb_eq in Eq as <-; done|].
  destruct (Ascii.eqb bslash a) eqn:Eb; [by apply Ascii.eqb_eq in Eb as <-|].
  cbn [orb mbind list_bind app]. by rewrite Eq.
Qed.

(** ** Fields *)

Definition plain_key (k : string) : Prop :=
  k <> "" /\ no_space (to_bytes k) = true /\ has_char equals k = false.
Definition plain_value (v : string) : Prop :=
  no_space (to_bytes v) = true /\ has_char quote v = false /\ has_char bslash v = false.

(** A value the code can write: [quoteKeywordValue] quotes a blank and a tab, but
    not the other white space of ASCII. *)
Definition no_line_break (v : string) : Prop :=
  forall a, a ∈ to_bytes v -> space1 a = true -> a = space \/ a = tab.

(** [f] is the field of the setting [kv], its value bare or in quotes. *)
Definition written (kv : string * string) (f : string) : Prop :=
  plain_key kv.1 /\ plain_value kv.2 /\
  (f = kv.1 +:+ "=" +:+ kv.2 /\ kv.2 <> "" \/ f = kv.1 +:+ "=" +:+ quote_s +:+ kv.2 +:+ quote_s).

Definition reads_as (kv : string * string) (f : string) : Prop := forall rest, blank_first rest ->
  read_conninfo ci_blank (to_bytes f ++ rest)
  = cons (to_bytes kv.1, to_bytes kv.2) <$> read_conninfo ci_blank rest.

Lemma read_keyword k l :
  plain_key k ->
  read_conninfo ci_blank (to_bytes k ++ equals :: l) = read_conninfo (ci_value (to_bytes k)) l.
Proof.
  intros (Hn & Hs & He%has_char_false). destruct k as [|a k]; [done|]. cbn [to_bytes app read_conninfo] in *.
  rewrite (eqb_not_elem _ _ _ He). apply not_elem_of_cons in He as [_ He].
  rewrite (no_space_cons' _ _ Hs). apply no_space_cons in Hs.
  rewrite read_name; [done|by apply no_space_ascii|done].
Qed.

Lemma read_bare k v rest :
  v <> [] -> ~ ascii_space v -> quote ∉ v -> bslash ∉ v -> blank_first rest ->
  read_conninfo (ci_value k) (v ++ rest) = cons (k, v) <$> read_conninfo ci_blank rest.
Proof.
  intros Hn Hs Hq Hb Hr. destruct v as [|a v]; [done|]. cbn [app read_conninfo].
  destruct (space1 a) eqn:Ea; [by destruct Hs; left|].
  rewrite (eqb_not_elem _ _ _ Hq), (eqb_not_elem _ _ _ Hb).
  rewrite read_plain; [done| |set_solver|done]. intros Hk. apply Hs. by right.
Qed.

Lemma read_in_quotes k v rest :
  read_conninfo (ci_value k) (quote :: (v ≫= escape_byte) ++ quote :: rest)
  = cons (k, v) <$> read_conninfo ci_blank rest.
Proof. apply (read_quoted k [] v rest). Qed.

Lemma escape_plain l : quote ∉ l -> bslash ∉ l -> l ≫= escape_byte = l.
Proof.
  intros Hq Hb. induction l as [|a l IH]; [done|]. cbn [mbind list_bind]. unfold escape_byte at 1.
  rewrite (eqb_not_elem _ _ _ Hq), (eqb_not_elem _ _ _ Hb). simpl. f_equal. apply IH; set_solver.
Qed.

Lemma written_reads kv f : written kv f -> reads_as kv f.
Proof.
  destruct kv as [k v]. intros (Hk & (Hs & Hq%has_char_false & Hb%has_char_false) & Hf) rest Hr. simpl in *.
  destruct Hf as [[-> Hv]| ->]; rewrite !to_bytes_app, <- !app_assoc; change (to_bytes "=") with [equals];
    cbn [app]; rewrite read_keyword by done.
  - apply read_bare; [by destruct v|by apply no_space_ascii|done..].
  - change (to_bytes quote_s) with [quote]. cbn [app].
    rewrite <- (escape_plain (to_bytes v)) at 1 by done. apply read_in_quotes.
Qed.

Lemma keyword_field_reads kv :
  plain_key kv.1 -> no_line_break kv.2 -> reads_as kv (keyword_field kv).
Proof.
  destruct kv as [k v]. unfold keyword_field. simpl. intros Hk Hv rest Hr.
  rewrite !to_bytes_app, <- !app_assoc. change (to_bytes "=") with [equals]. cbn [app fst snd].
  rewrite read_keyword by done. unfold quoteKeywordValue.
  destruct (decide (v = "")) as [->|Hn]; [apply (read_in_quotes _ [])|].
  destruct (_ || _) eqn:E.
  - rewrite !to_bytes_app, escape_twice, <- !app_assoc. change (to_bytes quote_s) with [quote]. cbn [app].
    apply read_in_quotes.
  - rewrite !orb_false_iff, !has_char_false in E. destruct E as [[[E1 E2] E3] E4].
    apply read_bare; [by destruct v| |done..].
    intros (a & Ha & Hsp)%Exists_exists. by destruct (Hv a) as [-> | ->].
Qed.

Lemma conninfo_Join kvs fs : Forall2 reads_as kvs fs -> conninfo (Join fs " ") = Some kvs.
Proof.
  intros H. unfold conninfo.
  assert (read_conninfo ci_blank (to_bytes (Join fs " "))
          = Some ((fun kv => (to_bytes kv.1, to_bytes kv.2)) <$> kvs)) as ->.
  { induction H as [|kv f kvs fs Hf Hfs IH]; [done|]. destruct Hfs as [|kv' f' kvs fs Hf' Hfs].
    - simpl. rewrite <- (app_nil_r (to_bytes f)). by rewrite Hf.
    - change (Join (f :: f' :: fs) " ") with (f +:+ " " +:+ Join (f' :: fs) " ").
      rewrite !to_bytes_app, Hf by done. change (to_bytes " ") with [space].
      cbn [app read_conninfo]. change (space1 space) with true. cbn iota. by rewrite IH. }
  simpl. f_equal. rewrite <- list_fmap_compose. rewrite <- (list_fmap_id kvs) at 2. apply list_fmap_ext.
  intros i [k v] _. unfold compose, text_pair. simpl. by rewrite !of_to_bytes.
Qed.

(** ** The code's own reader *)

Lemma no_space_graphic a u : graphic a = true -> no_space u = true -> no_space (a :: u) = true.
Proof.
  intros Ha Hu. cbn [no_space]. rewrite Hu, graphic_lead; [done|apply space2_ascii|apply space3_ascii|done].
Qed.

Lemma written_word kv f : written kv f -> word f.
Proof.
  destruct kv as [k v]. intros ((Hk & Hks & _) & (Hv & _) & Hf). simpl in *.
  assert (no_space (to_bytes v ++ [quote]) = true) as Hq by (by apply no_space_app).
  destruct Hf as [[-> _]| ->]; split; [by destruct k| |by destruct k|];
    rewrite !to_bytes_app; change (to_bytes "=") with [equals]; cbn [app];
    (apply no_space_app; [done..|]); repeat (apply no_space_graphic; [done|]); done.
Qed.

Lemma drop_quoted v : has_char quote v = false -> Trim quote (quote_s +:+ v +:+ quote_s) = v.
Proof.
  intros Hv. unfold Trim. rewrite !to_bytes_app. change (to_bytes quote_s) with [quote].
  cbn [app drop_char]. rewrite Ascii.eqb_refl.
  destruct v as [|a v]; [done|]. cbn [to_bytes app drop_char].
  pose proof (proj1 (has_char_false _ _) Hv) as Hq. rewrite (eqb_not_elem _ _ _ Hq).
  change (a :: to_bytes v ++ [quote]) with (to_bytes (String a v) ++ [quote]).
  rewrite reverse_snoc. cbn [drop_char]. rewrite Ascii.eqb_refl, drop_char_none; [|by rewrite existsb_reverse].
  by rewrite reverse_involutive, of_to_bytes.
Qed.

Lemma put_written m kv f : written kv f -> put_field m f = put_pair m kv.
Proof.
  destruct kv as [k v]. intros ((Hk & _ & He) & (_ & Hq & _) & Hf). unfold put_field. simpl in *.
  assert (exists x, f = k +:+ "=" +:+ x /\ Trim quote x = v) as (x & -> & Hx).
  { destruct Hf as [[-> _]| ->]; [exists v|exists (quote_s +:+ v +:+ quote_s)];
      (split; [done|]); [by apply Trim_none|by apply drop_quoted]. }
  unfold Cut. rewrite (proj2 (cut_bytes_Some equals _ (to_bytes k) (to_bytes x))).
  - simpl. rewrite !of_to_bytes, decide_False by done. by rewrite Hx.
  - by rewrite !to_bytes_app.
Qed.

(** On plain settings the code reads what the client reads. *)
Lemma split_written kvs fs :
  Forall2 written kvs fs -> splitKeywordDSN (Join fs " ") = foldl put_pair ∅ kvs.
Proof.
  intros H. unfold splitKeywordDSN. rewrite Fields_Join.
  2:{ induction H as [|kv f kvs fs Hf _ IH]; constructor; [by eapply written_word|done]. }
  generalize (∅ : gmap string string). induction H as [|kv f kvs fs Hf _ IH]; intros m; [done|].
  cbn [foldl]. rewrite IH. f_equal. by apply put_written.
Qed.

Lemma foldl_put_pairs kvs (P : string -> string -> Prop) m :
  Forall (fun kv => P kv.1 kv.2) kvs -> map_Forall P m -> map_Forall P (foldl put_pair m kvs).
Proof.
  intros H. revert m. induction H as [|kv kvs Hkv _ IH]; intros m Hm; [done|].
  apply IH. by apply map_Forall_insert_2.
Qed.

Lemma foldl_insert (kvs : list (string * string)) :
  NoDup kvs.*1 -> foldl put_pair ∅ kvs = (list_to_map kvs : gmap string string).
Proof.
  induction kvs as [|[k v] kvs IH] using rev_ind; [done|]. rewrite fmap_app, foldl_snoc. intros Hnd.
  pose proof Hnd as [Hnd' _]%NoDup_app. rewrite IH by done. symmetry.
  rewrite (list_to_map_proper (kvs ++ [(k, v)]) ((k, v) :: kvs)); [done| |].
  - by rewrite fmap_app.
  - by rewrite Permutation_app_comm.
Qed.

Lemma known_keys (parts : gmap string string) l :
  (omap (fun k => (fun v => (k, v)) <$> parts !! k) l).*1 = filter (fun k => is_Some (parts !! k)) l.
Proof.
  induction l as [|k l IH]; [done|]. cbn [omap list_omap]. rewrite filter_cons.
  destruct (parts !! k) as [v|]; [rewrite decide_True by eauto|rewrite decide_False by (by intros [])];
    cbn [fmap option_fmap option_map list_fmap]; [by rewrite <- IH|done].
Qed.

Lemma keyword_pairs_perm range parts :
  range ≡ₚ map_to_list parts -> keyword_pairs range parts ≡ₚ map_to_list parts.
Proof.
  intros Hr. pose proof (NoDup_map_to_list parts) as Hnd.
  assert (forall kv, kv ∈ range <-> parts !! kv.1 = Some kv.2) as Hrange.
  { intros [k v]. by rewrite Hr, elem_of_map_to_list. }
  assert (forall kv, kv ∈ omap (fun k => (fun v => (k, v)) <$> parts !! k) keyword_order <->
            kv.1 ∈ keyword_order /\ parts !! kv.1 = Some kv.2) as Hknown.
  { intros [k v]. rewrite list_elem_of_omap. split.
    - intros (k' & Hk & E). destruct (parts !! k') eqn:Ek; simpl in E; [|done]. by simplify_eq.
    - intros [Hk E]. exists k. split; [done|]. simpl in E. by rewrite E. }
  apply NoDup_Permutation; [|done|].
  - apply NoDup_app. split_and!.
    + apply NoDup_fmap_1 with (f := fst).
      rewrite known_keys.
      apply NoDup_filter. by apply (bool_decide_unpack _).
    + intros kv Hk [Hn _]%list_elem_of_filter. apply Hn. by apply list_elem_of_fmap_2.
    + apply NoDup_filter. by rewrite Hr.
  - intros [k v]. rewrite elem_of_map_to_list. unfold keyword_pairs.
    rewrite elem_of_app, Hknown, list_elem_of_filter, Hrange. simpl. split; [by intros [[_ ?]|[_ ?]]|].
    intros E. destruct (decide (k ∈ keyword_order)); [by left|]. right. split; [|done].
    intros ([k' v'] & -> & [Hk _]%Hknown)%list_elem_of_fmap. done.
Qed.

(** The settings a client reads in the text [joinKeywordDSN] builds. *)
Lemma settings_join range parts :
  range ≡ₚ map_to_list parts -> map_Forall (fun k v => plain_key k /\ no_line_break v) parts ->
  settings (joinKeywordDSN range parts) = Some parts.
Proof.
  intros Hr Hp. pose proof (keyword_pairs_perm range parts Hr) as Hk.
  unfold settings, joinKeywordDSN. rewrite (conninfo_Join (keyword_pairs range parts)).
  - simpl. f_equal. rewrite foldl_insert by (rewrite Hk; apply NoDup_fst_map_to_list).
    transitivity (list_to_map (M := gmap string string) (map_to_list parts)); [|apply list_to_map_to_list].
    apply list_to_map_proper; [|done]. rewrite Hk. apply NoDup_fst_map_to_list.
  - apply Forall2_fmap_r, Forall_Forall2_diag, Forall_forall. intros [k v].
    rewrite Hk, elem_of_map_to_list. intros [? ?]%Hp. by apply keyword_field_reads.
Qed.

Lemma plain_no_break v : plain_value v -> no_line_break v.
Proof.
  intros [Hs _] a Ha Hsp. destruct (no_space_ascii _ Hs). apply Exists_exists. by exists a.
Qed.

Definition maintenance_name (cfg : DatabaseConfig) : string :=
  if decide (TrimSpace (MaintenanceDB cfg) = "") then "postgres" else TrimSpace (MaintenanceDB cfg).

(** C11: the maintenance connection of [EnsurePostgresDatabase], for a keyword DSN
    of fields [keyword=value] or [keyword='value'] with one blank in between, no
    blank around [=] and no white space, quote or backslash in a value (the code
    does not read the rest of PostgreSQL's grammar), and a maintenance database
    whose name has no white space but blanks and tabs.  Read as a PostgreSQL
    client reads it, the DSN that is built has exactly the settings of the
    configured one (host, user, password, TLS mode, unknown keywords), except that
    [dbname] is the maintenance database, whatever its name and in whatever order
    the map was ranged over; the target is the [dbname] configured, and without
    one the call is refused. *)
Theorem maintenance_keeps_settings `{NetURL} (cfg : DatabaseConfig) range kvs fs :
  TrimSpace (DSN cfg) = Join fs " " -> Forall2 written kvs fs -> is_url (Join fs " ") = false ->
  no_line_break (maintenance_name cfg) ->
  range ≡ₚ map_to_list (<["dbname" := maintenance_name cfg]> (splitKeywordDSN (Join fs " "))) ->
  exists m, settings (TrimSpace (DSN cfg)) = Some m /\
    match postgresMaintenanceDSN range cfg with
    | inl (target, dsn) => m !! "dbname" = Some target /\ target <> ""
        /\ settings dsn = Some (<["dbname" := maintenance_name cfg]> m)
    | inr _ => default "" (m !! "dbname") = ""
    end.
Proof.
  intros Hd Hw Hurl Hm Hr. unfold postgresMaintenanceDSN. rewrite Hd, Hurl. fold (maintenance_name cfg).
  rewrite (split_written _ _ Hw) in *. exists (foldl put_pair ∅ kvs). split.
  { unfold settings. rewrite (conninfo_Join kvs); [done|]. eapply Forall2_impl; [exact Hw|apply written_reads]. }
  case_decide as Ht; [done|].
  destruct (foldl put_pair ∅ kvs !! "dbname") as [t|] eqn:Et; [|done].
  split; [done|]. split; [done|]. apply settings_join; [done|].
  apply map_Forall_insert_2; [by split|]. apply foldl_put_pairs; [|by apply map_Forall_empty].
  clear -Hw. induction Hw as [|kv f kvs fs (Hk & Hv & _) _ IH]; constructor; [|done].
  split; [done|by apply plain_no_break].
Qed.

(** A [net/url] that accepts no text; keyword DSNs do not reach it. *)
Definition no_url : NetURL := {|
  URL := string;
  url_Parse _ := inr (errForeign "net/url" "parse");
  url_RawQuery u := u; set_RawQuery _ u := u; set_Path _ u := u; url_String u := u; url_EscapedPath u := u;
|}.

Definition keyword_config (dsn maintenance : string) : DatabaseConfig :=
  mkDatabaseConfig "postgres" dsn 0 0 "" "" "" true false maintenance "" "".

Definition demo_fields : list string :=
  ["host=db"; "user=hub"; "password='s3cret'"; "dbname=hub"; "sslmode=require"; "application_name=''"].
Definition demo_kvs : list (string * string) :=
  [("host", "db"); ("user", "hub"); ("password", "s3cret"); ("dbname", "hub"); ("sslmode", "require");
   ("application_name", "")].
Definition odd_name : string := "it's admin".
Definition demo_range : list (string * string) :=
  map_to_list (<["dbname" := odd_name]> (splitKeywordDSN (Join demo_fields " "))).

Lemma maintenance_keeps_settings_witness :
  exists m, settings (TrimSpace (Join demo_fields " ")) = Some m /\
    match postgresMaintenanceDSN (H := no_url) demo_range (keyword_config (Join demo_fields " ") odd_name) with
    | inl (target, dsn) => m !! "dbname" = Some target /\ target <> ""
        /\ settings dsn = Some (<["dbname" := odd_name]> m)
    | inr _ => default "" (m !! "dbname") = ""
    end.
Proof.
  apply (maintenance_keeps_settings (H := no_url) (keyword_config (Join demo_fields " ") odd_name)
    demo_range demo_kvs demo_fields).
  - vm_compute. reflexivity.
  - repeat (constructor; [split_and!; simpl|]); try by vm_compute.
    all: first [by right|by left].
  - vm_compute. reflexivity.
  - intros a. vm_compute. set_solver.
  - reflexivity.
Defined.

(** Outside these fields settings are lost: a quoted value is cut at a blank, a
    blank before [=] loses the setting. *)
Example quoted_password_is_cut :
  let dsn := "host=db password='correct horse' dbname=hub" in
  splitKeywordDSN dsn !! "password" = Some "correct"
  /\ ((.!! "password") <$> settings dsn) = Some (Some "correct horse").
Proof. vm_compute. done. Qed.

Example spaced_equals_is_lost :
  let dsn := "host=db password =s3cret dbname=hub" in
  splitKeywordDSN dsn !! "password" = None
  /\ ((.!! "password") <$> settings dsn) = Some (Some "s3cret").
Proof. vm_compute. done. Qed.

(** PostgreSQL escapes a quote by a backslash, not by doubling it: a search path
    with a quote makes a DSN that no client reads. *)
Example quoted_search_path_is_unreadable :
  let dsn := normalize_keyword_dsn "host=db dbname=hub sslmode=disable" "" ("it" +:+ quote_s +:+ "s") in
  dsn = "host=db dbname=hub sslmode=disable options='-c search_path=it''s'" /\ settings dsn = None.
Proof. vm_compute. done. Qed.

(** ** Completing a DSN *)

Lemma Contains_app_l s t p : Contains s p = true -> Contains (s +:+ t) p = true.
Proof.
  unfold Contains. rewrite to_bytes_app, !contains_bytes_true.
  intros (u & v & ->). exists u, (v ++ to_bytes t). by rewrite <- !app_assoc.
Qed.

Lemma Contains_app_r s t p : Contains t p = true -> Contains (s +:+ t) p = true.
Proof.
  unfold Contains. rewrite to_bytes_app, !contains_bytes_true.
  intros (u & v & ->). exists (to_bytes s ++ u), v. by rewrite <- !app_assoc.
Qed.

Lemma Contains_after s p t : Contains (s +:+ String space p +:+ t) p = true.
Proof.
  unfold Contains. rewrite !to_bytes_app. apply contains_bytes_true.
  exists (to_bytes s ++ [space]), (to_bytes t). by rewrite <- !app_assoc.
Qed.

Definition normalized (searchPath dsn : string) : Prop :=
  containsKeyword dsn "sslmode" = true /\
  (TrimSpace searchPath = "" \/ containsKeyword dsn "options" = true
   \/ containsKeyword dsn "search_path" = true).

Lemma normalize_keyword_id dsn sslMode searchPath :
  normalized searchPath dsn -> normalize_keyword_dsn dsn sslMode searchPath = dsn.
Proof.
  intros [Hs Hp]. unfold normalize_keyword_dsn. rewrite Hs. apply decide_False.
  intros (H1 & H2 & H3). destruct Hp as [Hp|[Hp|Hp]]; congruence.
Qed.

(** Trimming keeps every occurrence of a text that starts and ends with graphic
    characters. *)
Lemma strip_removes s2 s3 l :
  (forall a b, (code a < 128)%N \/ (code b < 128)%N -> s2 a b = false) ->
  (forall a b c, (code a < 128)%N \/ (code b < 128)%N \/ (code c < 128)%N -> s3 a b c = false) ->
  exists p, l = p ++ strip s2 s3 l /\ Forall (fun a => graphic a = false) p.
Proof.
  intros H2 H3.
  assert (forall a, ~ (code a < 128)%N -> graphic a = false) as Hhigh.
  { intros a Ha. unfold graphic. apply andb_false_iff. right. apply N.leb_gt. lia. }
  assert (forall a, space1 a = true -> graphic a = false) as Hsp.
  { intros a. destruct a as [[] [] [] [] [] [] [] []]; vm_compute; done. }
  induction l as [l Hl|a l Ha (p & Hp & Hg)|a b l Ha Hb (p & Hp & Hg)|a b c l Ha Hb Hc (p & Hp & Hg)]
    using (strip_ind s2 s3).
  - exists []. by rewrite strip_no_lead.
  - exists (a :: p). simpl. rewrite Ha. split; [by rewrite Hp at 1|]. constructor; auto.
  - exists (a :: b :: p). simpl. rewrite Ha, Hb. split; [by rewrite Hp at 1|].
    repeat constructor; [..|done]; apply Hhigh; intros Hx; by rewrite H2 in Hb by auto.
  - exists (a :: b :: c :: p). simpl. rewrite Ha, Hb, Hc. split; [by rewrite Hp at 1|].
    repeat constructor; [..|done]; apply Hhigh; intros Hx; by rewrite H3 in Hc by auto.
Qed.

Lemma contains_drop g pat p l :
  graphic g = true -> Forall (fun a => graphic a = false) p ->
  contains_bytes (g :: pat) (p ++ l) = true -> contains_bytes (g :: pat) l = true.
Proof.
  intros Hg. induction 1 as [|a p Ha _ IH]; [done|]. cbn [app contains_bytes prefix_of].
  destruct (Ascii.eqb g a) eqn:E; [apply Ascii.eqb_eq in E; congruence|]. exact IH.
Qed.

Lemma contains_reverse p l : contains_bytes p l = true -> contains_bytes (reverse p) (reverse l) = true.
Proof.
  rewrite !contains_bytes_true. intros (u & v & ->). exists (reverse v), (reverse u).
  by rewrite !reverse_app, app_assoc.
Qed.

Lemma Contains_TrimSpace s pat g h :
  head (to_bytes pat) = Some g -> graphic g = true -> last (to_bytes pat) = Some h -> graphic h = true ->
  Contains s pat = true -> Contains (TrimSpace s) pat = true.
Proof.
  intros Hh Hg Hl Hgh. unfold Contains, TrimSpace. rewrite to_of_bytes. intros Hc.
  assert (contains_bytes (to_bytes pat) (trim_left (to_bytes s)) = true) as Hc1.
  { destruct (to_bytes pat) as [|x l]; [done|]. injection Hh as ->.
    destruct (strip_removes space2 space3 (to_bytes s)) as (p & Hp & Hf);
      [apply space2_ascii|apply space3_ascii|].
    rewrite Hp in Hc. by apply contains_drop in Hc. }
  apply contains_reverse in Hc1. unfold trim_right.
  rewrite <- (reverse_involutive (to_bytes pat)). apply contains_reverse.
  destruct (to_bytes pat) as [|x l _] using rev_ind; [done|]. rewrite last_snoc in Hl. injection Hl as ->.
  rewrite reverse_snoc in *.
  destruct (strip_removes (fun b a => space2 a b) (fun c b a => space3 a b c)
    (reverse (trim_left (to_bytes s)))) as (p & Hp & Hf).
  - intros a b Hab. apply space2_ascii. tauto.
  - intros a b c Habc. apply space3_ascii. tauto.
  - rewrite Hp in Hc1. by apply contains_drop in Hc1.
Qed.

Lemma containsKeyword_TrimSpace dsn key :
  key ∈ ["sslmode"; "options"; "search_path"] ->
  containsKeyword dsn key = true -> containsKeyword (TrimSpace dsn) key = true.
Proof.
  unfold containsKeyword. intros Hk.
  rewrite !elem_of_cons in Hk. destruct Hk as [->|[->|[->|Hk]]]; [..|set_solver];
    eapply Contains_TrimSpace; reflexivity.
Qed.

Lemma normalize_keyword_normalized dsn sslMode searchPath :
  normalized searchPath (normalize_keyword_dsn dsn sslMode searchPath).
Proof.
  unfold normalize_keyword_dsn.
  set (d := if containsKeyword dsn "sslmode" then dsn else _).
  assert (containsKeyword d "sslmode" = true) as Hd.
  { unfold d. destruct (containsKeyword dsn "sslmode") eqn:E; [done|].
    apply Contains_after. }
  clearbody d. unfold normalized. case_decide as Hp.
  - split.
    + apply Contains_app_l, containsKeyword_TrimSpace; [set_solver|done].
    + right. left. apply Contains_after.
  - split; [done|]. destruct (decide (TrimSpace searchPath = "")); [by left|]. right.
    destruct (containsKeyword d "options"); [by left|]. destruct (containsKeyword d "search_path"); [by right|].
    by destruct Hp.
Qed.

(** Completing a keyword DSN always yields one with a TLS mode and, when a
    search path is configured, with options or a search path; a DSN that has
    these is left alone, so completing a second time (the maintenance DSN and the
    main one both pass through here) changes nothing. *)
Theorem normalize_keyword_complete `{NetURL} (dsn sslMode searchPath : string) :
  is_url dsn = false ->
  let d := normalizePostgresDSN dsn sslMode searchPath in
  normalized searchPath d
  /\ (normalized searchPath dsn -> d = dsn)
  /\ (forall mode, is_url d = false -> normalizePostgresDSN d mode searchPath = d).
Proof.
  intros Hu d. assert (d = normalize_keyword_dsn dsn sslMode searchPath) as Ed
    by (unfold d, normalizePostgresDSN; by rewrite Hu).
  clearbody d. subst d. pose proof (normalize_keyword_normalized dsn sslMode searchPath) as Hn. split; [done|]. split.
  - by apply normalize_keyword_id.
  - intros mode Hd. unfold normalizePostgresDSN. rewrite Hd. by apply normalize_keyword_id.
Qed.

Lemma normalize_keyword_complete_witness :
  let d := normalizePostgresDSN (H := no_url) "host=db dbname=hub" "require" "aihub" in
  normalized "aihub" d
  /\ (normalized "aihub" "host=db dbname=hub" -> d = "host=db dbname=hub")
  /\ (forall mode, is_url d = false -> normalizePostgresDSN (H := no_url) d mode "aihub" = d).
Proof. apply (normalize_keyword_complete (H := no_url)). vm_compute. reflexivity. Defined.

(** A URL behind a blank is completed as if it were a keyword DSN. *)
Example padded_url_is_spoiled `{NetURL} :
  normalizePostgresDSN " postgres://u:p@db/hub" "" "" = "postgres://u:p@db/hub sslmode=disable".
Proof. vm_compute. reflexivity. Qed.

(** ** URL DSNs *)

Definition keeps_values (q : Values) : Prop := forall k, q !! k <> Some [].

(** C28: Completing a URL DSN: what a reader of the resulting URL finds in its query
    is the old query, except that there is a TLS mode (the old one if there was
    one) and, when a search path is configured, that the options mention one;
    every other parameter is there with the same values. *)
Theorem normalize_url_complete `{NetURL} {laws : URLLaws} (dsn sslMode searchPath : string) u :
  is_url dsn = true -> url_Parse dsn = inl u ->
  exists u', url_Parse (normalizePostgresDSN dsn sslMode searchPath) = inl u'
    /\ let q := url_Query u in let q' := url_Query u' in
       q_Get "sslmode" q' = (if decide (q_Get "sslmode" q = "") then ssl_mode sslMode else q_Get "sslmode" q)
       /\ q_Get "sslmode" q' <> ""
       /\ (TrimSpace searchPath <> "" -> Contains (q_Get "options" q') "search_path" = true)
       /\ (TrimSpace searchPath = "" -> q' !! "options" = q !! "options")
       /\ forall k, k <> "sslmode" -> k <> "options" -> q' !! k = q !! k.
Proof.
  intros Hu Hp. unfold normalizePostgresDSN. rewrite Hu, Hp. unfold normalize_url_dsn.
  set (q := url_Query u). set (sp := TrimSpace searchPath).
  set (q1 := if decide (q_Get "sslmode" q = "") then _ else q).
  set (q2 := if decide (sp <> "" /\ _) then _ else q1).
  assert (keeps_values q) as Hq by (intros k; apply ParseQuery_values).
  assert (keeps_values q1) as Hq1 by (subst q1; case_decide; [unfold keeps_values; by apply q_Set_values|done]).
  assert (keeps_values q2) as Hq2 by (subst q2; case_decide; [unfold keeps_values; by apply q_Set_values|done]).
  destruct (RawQuery_printed q2 (set_RawQuery (q_Encode q2) u)) as (u' & Ep & Eq); [apply RawQuery_set|].
  exists u'. split; [done|]. cbn zeta. assert (url_Query u' = q2) as ->
    by (unfold url_Query; rewrite Eq; by apply ParseQuery_Encode).
  assert (q_Get "sslmode" q2 = q_Get "sslmode" q1) as Es by (subst q2; case_decide; [by rewrite q_Get_Set|done]).
  assert (q_Get "sslmode" q1 = if decide (q_Get "sslmode" q = "") then ssl_mode sslMode else q_Get "sslmode" q) as E1
    by (subst q1; case_decide; [by rewrite q_Get_Set|done]).
  rewrite Es, E1. split; [done|]. split.
  { case_decide; [|done]. unfold ssl_mode. by case_decide. }
  split; [|split].
  - intros Hsp. subst q2. destruct (decide (sp <> "" /\ Contains (q_Get "options" q1) "search_path" = false)) as [Hc|Hc].
    + rewrite q_Get_Set. rewrite decide_True by done. eapply Contains_TrimSpace; try reflexivity.
      apply Contains_app_r. change (" -c search_path=" +:+ sp) with (" -c" +:+ String space ("search_path" +:+ "=" +:+ sp)).
      apply (Contains_after " -c" "search_path").
    + destruct (Contains (q_Get "options" q1) "search_path"); [done|]. by destruct Hc.
  - intros Hsp. subst q2. rewrite decide_False by naive_solver. subst q1.
    case_decide; [|done]. unfold q_Set. by rewrite lookup_insert_ne.
  - intros k Hk1 Hk2. subst q2 q1. unfold q_Set.
    repeat case_decide; by rewrite ?lookup_insert_ne.
Qed.

Lemma normalize_url_complete_witness :
  exists u', url_Parse (NetURL := query_url)
      (normalizePostgresDSN (H := query_url) "postgres://u@db/hub?x=1&x=2" "require" "aihub") = inl u'
    /\ let q := url_Query (H := query_url) ("postgres://u@db/hub", "x=1&x=2") in
       let q' := url_Query (H := query_url) u' in
       q_Get "sslmode" q' = (if decide (q_Get "sslmode" q = "") then ssl_mode "require" else q_Get "sslmode" q)
       /\ q_Get "sslmode" q' <> ""
       /\ (TrimSpace "aihub" <> "" -> Contains (q_Get "options" q') "search_path" = true)
       /\ (TrimSpace "aihub" = "" -> q' !! "options" = q !! "options")
       /\ forall k, k <> "sslmode" -> k <> "options" -> q' !! k = q !! k.
Proof.
  apply (normalize_url_complete (H := query_url) (laws := query_url_laws) "postgres://u@db/hub?x=1&x=2"
    "require" "aihub" ("postgres://u@db/hub", "x=1&x=2")); vm_compute; reflexivity.
Defined.

Example completed_url :
  normalizePostgresDSN (H := query_url) "postgres://u@db/hub?x=1&x=2" "require" "aihub"
  = "postgres://u@db/hub?options=-c+search_path%3Daihub&sslmode=require&x=1&x=2".
Proof. vm_compute. reflexivity. Qed.
