(* ===== verification/DbOpen.v ===== *)
(** * Opening and closing a database ([db/database.go], [db/mysql.go],
    [db/postgres.go]).

    gorm and [database/sql] are the class [SqlDriver].  [open] is the set of the
    connection pools and clients that are open; [SqlLaws] says how the calls
    change it.  [gorm.Open] opens the pool and pings it, and when the ping fails
    it returns the error and may leave the pool open, with nobody to close it. *)

From S2P Require Import Prelude GoStrings GoText GoURL GoTime Principal Env Redis Database DbDSN.
Local Open Scope Z_scope.

(** What has to be closed: a [*sql.DB] or a [redis.UniversalClient]. *)
Inductive resource : Type :=
  | SqlPool (p : positive)
  | RedisConn (p : positive).

#[export] Instance resource_eq_dec : EqDecision resource.
Proof. solve_decision. Defined.
#[export] Instance resource_countable : Countable resource.
Proof.
  apply (inj_countable' (fun r => match r with SqlPool p => inl p | RedisConn p => inr p end)
           (fun x => match x with inl p => SqlPool p | inr p => RedisConn p end)). by intros [].
Defined.

Notation call S A := (Time -> S -> A * S) (only parsing).

(** [gorm_Open dialect dsn slow level].  A [*sql.DB] is a number, and a [*gorm.DB]
    that was opened is named after the [*sql.DB] behind it. *)
Class SqlDriver (S : Type) := {
  gorm_Open : string -> string -> Duration -> LogLevel -> call S (positive + error);
  gorm_DB : positive -> call S (positive + error);
  sql_SetMaxOpenConns : positive -> Z -> S -> S;
  sql_SetMaxIdleConns : positive -> Z -> S -> S;
  sql_SetConnMaxLifetime : positive -> Duration -> S -> S;
  sql_Ping : positive -> ctx -> call S (option error);
  sql_Close : positive -> call S (option error);
  sql_QueryBool : positive -> ctx -> string -> list string -> call S (bool + error);
  sql_Exec : positive -> ctx -> string -> call S (option error);
}.

Class SqlLaws {S} (driver : SqlDriver S) (open : S -> gset resource) : Prop := {
  Open_opens dialect dsn slow level now s g s' :
    gorm_Open dialect dsn slow level now s = (inl g, s') ->
    SqlPool g ∉ open s /\ open s' = {[SqlPool g]} ∪ open s;
  Open_fails dialect dsn slow level now s e s' :
    gorm_Open dialect dsn slow level now s = (inr e, s') ->
    open s' = open s \/ exists p, SqlPool p ∉ open s /\ open s' = {[SqlPool p]} ∪ open s;
  DB_gives g now s p s' : gorm_DB g now s = (inl p, s') -> p = g /\ open s' = open s;
  DB_fails g now s e s' : gorm_DB g now s = (inr e, s') -> open s' = open s;
  SetMaxOpenConns_keeps p n s : open (sql_SetMaxOpenConns p n s) = open s;
  SetMaxIdleConns_keeps p n s : open (sql_SetMaxIdleConns p n s) = open s;
  SetConnMaxLifetime_keeps p d s : open (sql_SetConnMaxLifetime p d s) = open s;
  sql_Ping_keeps p c now s : open (sql_Ping p c now s).2 = open s;
  sql_Close_closes p now s : open (sql_Close p now s).2 = open s ∖ {[SqlPool p]};
  sql_Query_keeps p c q args now s : open (sql_QueryBool p c q args now s).2 = open s;
  sql_Exec_keeps p c q now s : open (sql_Exec p c q now s).2 = open s;
}.

(** The fields of [MySQL] and of [Postgres]. *)
Record sql_pool := mkSqlPool {
  sp_DB : positive; sp_SQLDB : option positive; sp_metrics : option Metrics;
}.

(** A value of the interface [Database]: nil, or a pointer of one of the types. *)
Inductive Database : Type :=
  | NilDatabase
  | MySQL (m : option sql_pool)
  | Postgres (p : option sql_pool).

Definition Database_Driver (d : Database) : string :=
  match d with NilDatabase => "" | MySQL _ => "mysql" | Postgres _ => "postgres" end.

Section drivers.
Context {S : Type} {driver : SqlDriver S} `{NetURL} (quote_q : string -> string).
Implicit Types (w : World S) (c : ctx).

Definition sql_set (f : S -> S) : prog (World S) unit := s ← gets w_svc; modify (set_svc (f s)).

Definition applyPool (sqlDB : positive) (cfg : DatabaseConfig) : prog (World S) (option error) :=
  _ ← (if decide (0 < MaxOpenConns cfg) then sql_set (sql_SetMaxOpenConns sqlDB (MaxOpenConns cfg))
       else mret tt);
  _ ← (if decide (0 < MaxIdleConns cfg) then sql_set (sql_SetMaxIdleConns sqlDB (MaxIdleConns cfg))
       else mret tt);
  if decide (ConnMaxLifetime cfg <> "") then
    match ParseDuration (ConnMaxLifetime cfg) with
    | (_, Some err) => mret (Some (errWrap "parse database.conn_max_lifetime: " err ""))
    | (d, None) => _ ← sql_set (sql_SetConnMaxLifetime sqlDB d); mret None
    end
  else mret None.

Definition pingWithDeps c (sqlDB : positive) (driver_name : string) (started : Time)
    (metrics : option Metrics) : prog (World S) (option error) :=
  err ← timed (sql_Ping sqlDB c);
  _ ← ObserveDependency metrics driver_name "ping" started err;
  mret err.

(** The threshold of slow queries: half a second unless a positive duration is set. *)
Definition slow_threshold (cfg : DatabaseConfig) : Duration + error :=
  if decide (SlowThreshold cfg <> "") then
    match ParseDuration (SlowThreshold cfg) with
    | (_, Some err) => inr (errWrap "parse database.slow_threshold: " err "")
    | (d, None) => inl (if decide (0 < d) then d else 500 * Millisecond)
    end
  else inl (500 * Millisecond).

(** What [NewMySQL] and [NewPostgres] have in common, from [gorm.Open] on. *)
Definition connect c (name dsn : string) (cfg : DatabaseConfig) (slow : Duration)
    (started : Time) (metrics : option Metrics) : prog (World S) (option sql_pool * option error) :=
  db ← timed (gorm_Open name dsn slow (parseLogLevel (db_LogLevel cfg)));
  match db with
  | inr err =>
      _ ← ObserveDependency metrics name "open" started (Some err);
      mret (None, Some (errWrap ("open " +:+ name +:+ ": ") err ""))
  | inl db =>
      sqlDB ← timed (gorm_DB db);
      match sqlDB with
      | inr err =>
          _ ← ObserveDependency metrics name "db" started (Some err);
          mret (None, Some (errWrap (name +:+ " sql db: ") err ""))
      | inl sqlDB =>
          err ← applyPool sqlDB cfg;
          match err with
          | Some err => _ ← timed (sql_Close sqlDB); mret (None, Some err)
          | None =>
              err ← pingWithDeps c sqlDB name started metrics;
              match err with
              | Some err =>
                  _ ← timed (sql_Close sqlDB);
                  mret (None, Some (errWrap ("ping " +:+ name +:+ ": ") err ""))
              | None =>
                  _ ← ObserveDependency metrics name "init" started None;
                  mret (Some (mkSqlPool db (Some sqlDB) metrics), None)
              end
          end
      end
  end.

Definition NewMySQL c (cfg : DatabaseConfig) (metrics : option Metrics)
    : prog (World S) (option sql_pool * option error) :=
  started ← time_Now;
  if decide (Driver cfg <> "" /\ Driver cfg <> "mysql") then
    mret (None, Some (errText ("unsupported database.driver " +:+ quote_q (Driver cfg))))
  else if decide (DSN cfg = "") then mret (None, Some (errText "database.dsn is required")) else
  match slow_threshold cfg with
  | inr err => mret (None, Some err)
  | inl slow => connect c "mysql" (DSN cfg) cfg slow started metrics
  end.

(** The body of [EnsurePostgresDatabase] behind [defer sqlDB.Close()]. *)
Definition ensure_exists c (sqlDB : positive) (targetDB : string) (started : Time)
    (metrics : option Metrics) : prog (World S) (option error) :=
  exists_ ← timed (sql_QueryBool sqlDB c "SELECT EXISTS(SELECT 1 FROM pg_database WHERE datname = $1)"
                     [targetDB]);
  match exists_ with
  | inr err => mret (Some (errWrap "check postgres database existence: " err ""))
  | inl true => mret None
  | inl false =>
      err ← timed (sql_Exec sqlDB c ("CREATE DATABASE " +:+ quoteIdent targetDB));
      match err with
      | Some err =>
          mret (Some (errWrap ("create postgres database " +:+ quote_q targetDB +:+ ": ") err ""))
      | None =>
          _ ← ObserveDependency metrics "postgres" "create_database" started None;
          mret None
      end
  end.

Definition EnsurePostgresDatabase (range : list (string * string)) c (cfg : DatabaseConfig)
    (metrics : option Metrics) : prog (World S) (option error) :=
  started ← time_Now;
  match postgresMaintenanceDSN range cfg with
  | inr err => mret (Some err)
  | inl (targetDB, maintenanceDSN) =>
      if decide (targetDB = "") then
        mret (Some (errText "postgres target database name is required for auto_create_database"))
      else
        db ← timed (gorm_Open "postgres" (normalizePostgresDSN maintenanceDSN (SSLMode cfg) "")
                      (500 * Millisecond) Warn);
        match db with
        | inr err => mret (Some (errWrap "open postgres maintenance database: " err ""))
        | inl db =>
            sqlDB ← timed (gorm_DB db);
            match sqlDB with
            | inr err => mret (Some (errWrap "postgres maintenance sql db: " err ""))
            | inl sqlDB =>
                err ← ensure_exists c sqlDB targetDB started metrics;
                _ ← timed (sql_Close sqlDB);
                mret err
            end
        end
  end.

Definition NewPostgres (range : list (string * string)) c (cfg : DatabaseConfig)
    (metrics : option Metrics) : prog (World S) (option sql_pool * option error) :=
  started ← time_Now;
  if decide (DSN cfg = "") then mret (None, Some (errText "database.dsn is required")) else
  match slow_threshold cfg with
  | inr err => mret (None, Some err)
  | inl slow =>
      err ← (if decide (AutoCreateDatabase cfg = true \/ AutoCreate cfg = true)
             then EnsurePostgresDatabase range c cfg metrics else mret None);
      match err with
      | Some err =>
          _ ← ObserveDependency metrics "postgres" "ensure_database" started (Some err);
          mret (None, Some err)
      | None =>
          connect c "postgres" (normalizePostgresDSN (DSN cfg) (SSLMode cfg) (SearchPath cfg))
            cfg slow started metrics
      end
  end.

(** A failed constructor leaves a nil pointer in a non-nil interface. *)
Definition NewDatabase (range : list (string * string)) c (cfg : DatabaseConfig)
    (metrics : option Metrics) : prog (World S) (Database * option error) :=
  match Normalize quote_q cfg with
  | (_, Some err) => mret (NilDatabase, Some err)
  | (name, None) =>
      if decide (name = "mysql") then '(m, err) ← NewMySQL c cfg metrics; mret (MySQL m, err) else
      if decide (name = "postgres") then '(p, err) ← NewPostgres range c cfg metrics; mret (Postgres p, err)
      else mret (NilDatabase, Some (errText ("unsupported database.driver " +:+ quote_q (Driver cfg))))
  end.

Definition pool_of (d : Database) : option sql_pool :=
  match d with NilDatabase => None | MySQL m => m | Postgres p => p end.

Definition sql_of (d : Database) : option positive := pool_of d ≫= sp_SQLDB.

(** [Close] of a nil interface panics, of a nil pointer does nothing. *)
Definition Database_Close (d : Database) : prog (World S) (option error) :=
  match d with
  | NilDatabase => panic "invalid memory address or nil pointer dereference"
  | _ => match sql_of d with
         | None => mret None
         | Some sqlDB => _ ← time_Now; timed (sql_Close sqlDB)
         end
  end.

Definition Database_Ping c (d : Database) : prog (World S) (option error) :=
  match d with
  | NilDatabase => panic "invalid memory address or nil pointer dereference"
  | _ =>
      match pool_of d with
      | Some p =>
          match sp_SQLDB p with
          | Some sqlDB => started ← time_Now;
                          pingWithDeps c sqlDB (Database_Driver d) started (sp_metrics p)
          | None => mret (Some (errText (Database_Driver d +:+ " not initialized")))
          end
      | None => mret (Some (errText (Database_Driver d +:+ " not initialized")))
      end
  end.

(** [GORM] dereferences its receiver. *)
Definition Database_GORM (d : Database) : prog (World S) positive :=
  match pool_of d with
  | Some p => mret (sp_DB p)
  | None => panic "invalid memory address or nil pointer dereference"
  end.
End drivers.

Section theorems.
Context {S : Type} {driver : SqlDriver S} `{NetURL} (quote_q : string -> string).
Context (open : S -> gset resource) `{!SqlLaws driver open}.
Implicit Types (w : World S) (c : ctx).

(** What is open in a world. *)
Definition opened w : gset resource := open (w_svc w).

Lemma quiet_opened w w' : quiet w w' -> opened w' = opened w.
Proof. intros (E & _). unfold opened. by rewrite E. Qed.

Lemma time_Now_opened w t w' : time_Now w = (Ret t, w') -> opened w' = opened w.
Proof.
  destruct (time_Now_quiet w) as (t1 & w1 & E & Hq & _). rewrite E. intros [= _ <-]. by apply quiet_opened.
Qed.

Lemma observe_opened m dep op started err w x w' :
  ObserveDependency m dep op started err w = (Ret x, w') -> opened w' = opened w.
Proof.
  destruct (ObserveDependency_quiet m dep op started err w) as (w1 & E & Hq). rewrite E.
  intros [= _ <-]. by apply quiet_opened.
Qed.

Lemma timed_opened {A} (f : Time -> S -> A * S) (Q : A -> gset resource -> gset resource -> Prop) w r w' :
  (forall now s x s', f now s = (x, s') -> Q x (open s) (open s')) ->
  timed f w = (Ret r, w') -> Q r (opened w) (opened w').
Proof. apply timed_view. Qed.

Lemma timed_keeps {A} (f : Time -> S -> A * S) w r w' :
  (forall now s, open (f now s).2 = open s) -> timed f w = (Ret r, w') -> opened w' = opened w.
Proof.
  intros Hf. apply (timed_opened f (fun _ a b => b = a)). intros now s x s' E.
  by rewrite <- (Hf now s), E.
Qed.

Lemma timed_close p w r w' :
  timed (sql_Close p) w = (Ret r, w') -> opened w' = opened w ∖ {[SqlPool p]}.
Proof.
  apply (timed_opened _ (fun _ a b => b = a ∖ {[SqlPool p]})). intros now s x s' E.
  by rewrite <- (sql_Close_closes p now s), E.
Qed.

(** The steps whose failure can leave a pool open, by the text they put in
    front of gorm's error. *)
Definition gorm_steps : list string :=
  ["open mysql: "; "mysql sql db: "; "open postgres: "; "postgres sql db: ";
   "open postgres maintenance database: "; "postgres maintenance sql db: "].

(** The pool [p] is behind a call of gorm that returned the error [e]: of
    [gorm.Open], which opened it, or of [DB()] on its handle. *)
Definition refused (p : positive) (e : error) : Prop :=
  (exists dialect dsn slow level now s s', gorm_Open dialect dsn slow level now s = (inr e, s')
     /\ SqlPool p ∉ open s /\ SqlPool p ∈ open s')
  \/ exists now s s', gorm_DB p now s = (inr e, s') /\ SqlPool p ∈ open s'.

(** A failure with [err] took [O] to [O']: everything has been closed, unless
    gorm failed, and then at most the one pool gorm did not hand over is open. *)
Definition left_open (err : error) (O O' : gset resource) : Prop :=
  O' = O \/ exists pre e p, err = errWrap pre e "" /\ pre ∈ gorm_steps /\ refused p e
              /\ SqlPool p ∉ O /\ O' = {[SqlPool p]} ∪ O.

Lemma timed_Open dialect dsn slow level w r w' :
  timed (gorm_Open dialect dsn slow level) w = (Ret r, w') ->
  match r with
  | inl g => SqlPool g ∉ opened w /\ opened w' = {[SqlPool g]} ∪ opened w
  | inr e => opened w' = opened w
      \/ exists p, refused p e /\ SqlPool p ∉ opened w /\ opened w' = {[SqlPool p]} ∪ opened w
  end.
Proof.
  apply (timed_opened _ (fun r a b => match r with
    | inl g => SqlPool g ∉ a /\ b = {[SqlPool g]} ∪ a
    | inr e => b = a \/ exists p, refused p e /\ SqlPool p ∉ a /\ b = {[SqlPool p]} ∪ a end)).
  intros now s [g|e] s' E; [by eapply Open_opens|].
  destruct (Open_fails _ _ _ _ _ _ _ _ E) as [->|(p & Hp & Hs)]; [by left|]. right.
  exists p. split; [|done]. left. exists dialect, dsn, slow, level, now, s, s'. set_solver.
Qed.

Lemma timed_DB g w r w' :
  timed (gorm_DB g) w = (Ret r, w') -> SqlPool g ∈ opened w ->
  opened w' = opened w /\ match r with inl p => p = g | inr e => refused g e end.
Proof.
  apply (timed_opened _ (fun r a b => SqlPool g ∈ a -> b = a /\ match r with inl p => p = g | inr e => refused g e end)).
  intros now s [p|e] s' E Hg; [by apply DB_gives in E as [-> ->]|].
  pose proof (DB_fails _ _ _ _ _ E) as Hs. split; [done|]. right. exists now, s, s'. by rewrite Hs.
Qed.

(** What is left when a step of gorm has failed. *)
Lemma left_open_step pre e p (O O' : gset resource) :
  pre ∈ gorm_steps -> refused p e -> SqlPool p ∉ O -> O' = {[SqlPool p]} ∪ O ->
  left_open (errWrap pre e "") O O'.
Proof. intros. right. by exists pre, e, p. Qed.

Lemma left_open_opened pre e (O O' : gset resource) :
  pre ∈ gorm_steps ->
  O' = O \/ (exists p, refused p e /\ SqlPool p ∉ O /\ O' = {[SqlPool p]} ∪ O) ->
  left_open (errWrap pre e "") O O'.
Proof. intros Hpre [->|(p & Hr & Hp & ->)]; [by left|]. by eapply left_open_step. Qed.

Lemma sql_set_opened f w x w' :
  (forall s, open (f s) = open s) -> sql_set f w = (Ret x, w') -> opened w' = opened w.
Proof. intros Hf [= _ <-]. apply Hf. Qed.

Lemma applyPool_opened p cfg w err w' : applyPool p cfg w = (Ret err, w') -> opened w' = opened w.
Proof.
  unfold applyPool. intros (x1 & w1 & E1 & (x2 & w2 & E2 & E)%bind_Ret_inv)%bind_Ret_inv.
  assert (opened w1 = opened w) as <-.
  { destruct (decide (0 < MaxOpenConns cfg)); [eapply sql_set_opened, E1; apply SetMaxOpenConns_keeps|by injection E1 as _ <-]. }
  assert (opened w2 = opened w1) as <-.
  { destruct (decide (0 < MaxIdleConns cfg)); [eapply sql_set_opened, E2; apply SetMaxIdleConns_keeps|by injection E2 as _ <-]. }
  case_decide; [|by injection E as _ <-].
  destruct (ParseDuration (ConnMaxLifetime cfg)) as [d [e|]]; [by injection E as _ <-|].
  apply bind_Ret_inv in E as (x3 & w3 & E3 & [= _ <-]).
  eapply sql_set_opened, E3. apply SetConnMaxLifetime_keeps.
Qed.

Lemma pingWithDeps_opened c p name started m w err w' :
  pingWithDeps c p name started m w = (Ret err, w') -> opened w' = opened w.
Proof.
  unfold pingWithDeps. intros (e & w1 & E1 & (x & w2 & E2 & [= _ <-])%bind_Ret_inv)%bind_Ret_inv.
  apply observe_opened in E2 as ->. eapply timed_keeps, E1. intros. apply sql_Ping_keeps.
Qed.

(** A constructor took [w] to [w']: it failed and at most what gorm kept is left
    open, or it gave a handle to one newly opened pool. *)
Definition constructed (metrics : option Metrics) (m : option sql_pool) (err : option error) w w' : Prop :=
  match m with
  | Some p => err = None /\ sp_metrics p = metrics /\ exists sqlDB, sp_SQLDB p = Some sqlDB
      /\ SqlPool sqlDB ∉ opened w /\ opened w' = {[SqlPool sqlDB]} ∪ opened w
  | None => exists e, err = Some e /\ left_open e (opened w) (opened w')
  end.

Lemma reclosed p (X : gset resource) : SqlPool p ∉ X -> ({[SqlPool p]} ∪ X) ∖ {[SqlPool p]} = X.
Proof. set_solver. Qed.

Lemma failed_clean (metrics : option Metrics) (e : error) w w' :
  opened w' = opened w -> constructed metrics None (Some e) w w'.
Proof. intros E. exists e. split; [done|]. by left. Qed.

Lemma connect_constructed c name dsn cfg slow started metrics w m err w' :
  name ∈ ["mysql"; "postgres"] ->
  connect c name dsn cfg slow started metrics w = (Ret (m, err), w') -> constructed metrics m err w w'.
Proof.
  intros Hname. assert ("open " +:+ name +:+ ": " ∈ gorm_steps /\ name +:+ " sql db: " ∈ gorm_steps) as [Hopen Hdb].
  { rewrite !elem_of_cons in Hname. destruct Hname as [->|[->|?]]; [| |set_solver];
      split; apply (bool_decide_unpack _); vm_compute; exact I. }
  unfold connect. intros (db & w1 & E1%timed_Open & E)%bind_Ret_inv. destruct db as [db|e].
  2:{ apply bind_Ret_inv in E as (x & w2 & E2%observe_opened & [= <- <- <-]). eexists. split; [done|].
      apply left_open_opened; [done|]. by rewrite E2. }
  destruct E1 as [Hp E1].
  apply bind_Ret_inv in E as (sqlDB & w2 & E2%timed_DB & E); [|rewrite E1; set_solver].
  destruct E2 as [E2 Hr]. destruct sqlDB as [p|e].
  2:{ apply bind_Ret_inv in E as (x & w3 & E3%observe_opened & [= <- <- <-]). eexists. split; [done|].
      eapply left_open_step; [done..|]. by rewrite E3, E2, E1. }
  subst p.
  apply bind_Ret_inv in E as (e & w3 & E3%applyPool_opened & E). destruct e as [e|].
  { apply bind_Ret_inv in E as (x & w4 & E4%timed_close & [= <- <- <-]).
    apply failed_clean. by rewrite E4, E3, E2, E1, reclosed. }
  apply bind_Ret_inv in E as (e & w4 & E4%pingWithDeps_opened & E). destruct e as [e|].
  { apply bind_Ret_inv in E as (x & w5 & E5%timed_close & [= <- <- <-]).
    apply failed_clean. by rewrite E5, E4, E3, E2, E1, reclosed. }
  apply bind_Ret_inv in E as (x & w5 & E5%observe_opened & [= <- <- <-]).
  split; [done|]. split; [done|]. exists db. split_and!; [done..|]. congruence.
Qed.

Lemma ensure_exists_opened c p target started m w err w' :
  ensure_exists quote_q c p target started m w = (Ret err, w') -> opened w' = opened w.
Proof.
  unfold ensure_exists. intros (r & w1 & E1 & E)%bind_Ret_inv.
  apply timed_keeps in E1; [|intros; apply sql_Query_keeps]. rewrite <- E1.
  destruct r as [[]|e]; [by injection E as _ <-| |by injection E as _ <-].
  apply bind_Ret_inv in E as (e & w2 & E2 & E).
  apply timed_keeps in E2; [|intros; apply sql_Exec_keeps]. rewrite <- E2.
  destruct e as [e|]; [by injection E as _ <-|].
  by apply bind_Ret_inv in E as (x & w3 & E3%observe_opened & [= _ <-]).
Qed.

(** The maintenance connection is closed on every path after it was handed over. *)
Lemma Ensure_opened range c cfg m w err w' :
  EnsurePostgresDatabase quote_q range c cfg m w = (Ret err, w') ->
  match err with Some e => left_open e (opened w) (opened w') | None => opened w' = opened w end.
Proof.
  unfold EnsurePostgresDatabase. intros (t & w0 & E0%time_Now_opened & E)%bind_Ret_inv. rewrite <- E0.
  destruct (postgresMaintenanceDSN range cfg) as [[target dsn]|e]; [|injection E as <- <-; by left].
  case_decide; [injection E as <- <-; by left|].
  apply bind_Ret_inv in E as (db & w1 & E1%timed_Open & E). destruct db as [db|e].
  2:{ injection E as <- <-. apply left_open_opened; [set_solver|done]. }
  destruct E1 as [Hp E1].
  apply bind_Ret_inv in E as (sqlDB & w2 & E2%timed_DB & E); [|rewrite E1; set_solver].
  destruct E2 as [E2 Hr]. destruct sqlDB as [p|e].
  2:{ injection E as <- <-. eapply left_open_step; [set_solver|done..|]. by rewrite E2, E1. }
  subst p. apply bind_Ret_inv in E as (e & w3 & E3%ensure_exists_opened & E).
  apply bind_Ret_inv in E as (x & w4 & E4%timed_close & [= <- <-]).
  assert (opened w4 = opened w0) as -> by (by rewrite E4, E3, E2, E1, reclosed).
  destruct e; [by left|done].
Qed.

Lemma NewMySQL_constructed c cfg metrics w m err w' :
  NewMySQL quote_q c cfg metrics w = (Ret (m, err), w') -> constructed metrics m err w w'.
Proof.
  unfold NewMySQL. intros (t & w0 & E0%time_Now_opened & E)%bind_Ret_inv.
  case_decide; [injection E as <- <- <-; by apply failed_clean|].
  case_decide; [injection E as <- <- <-; by apply failed_clean|].
  destruct (slow_threshold cfg) as [slow|e]; [|injection E as <- <- <-; by apply failed_clean].
  apply connect_constructed in E; [|set_solver]. unfold constructed in *. by rewrite <- E0.
Qed.

Lemma NewPostgres_constructed range c cfg metrics w m err w' :
  NewPostgres quote_q range c cfg metrics w = (Ret (m, err), w') -> constructed metrics m err w w'.
Proof.
  unfold NewPostgres. intros (t & w0 & E0%time_Now_opened & E)%bind_Ret_inv.
  case_decide; [injection E as <- <- <-; by apply failed_clean|].
  destruct (slow_threshold cfg) as [slow|e]; [|injection E as <- <- <-; by apply failed_clean].
  apply bind_Ret_inv in E as (e & w1 & E1 & E).
  assert (match e with Some e => left_open e (opened w0) (opened w1) | None => opened w1 = opened w0 end) as He.
  { destruct (decide (AutoCreateDatabase cfg = true \/ AutoCreate cfg = true));
      [by apply Ensure_opened in E1|by injection E1 as <- <-]. }
  destruct e as [e|].
  - apply bind_Ret_inv in E as (x & w2 & E2%observe_opened & [= <- <- <-]). exists e. split; [done|].
    by rewrite <- E0, E2.
  - apply connect_constructed in E; [|set_solver]. unfold constructed in *. by rewrite <- E0, <- He.
Qed.

(** The outcome of [NewDatabase]. *)
Lemma NewDatabase_run range c cfg metrics w db err w' :
  NewDatabase quote_q range c cfg metrics w = (Ret (db, err), w') ->
  match err with
  | Some e => left_open e (opened w) (opened w') /\ pool_of db = None
  | None => exists p, sql_of db = Some p /\ Database_Driver db = canonicalDriver (Driver cfg)
      /\ SqlPool p ∉ opened w /\ opened w' = {[SqlPool p]} ∪ opened w
      /\ forall w1 e w2, Database_Close db w1 = (Ret e, w2) -> opened w2 = opened w1 ∖ {[SqlPool p]}
  end.
Proof.
  unfold NewDatabase. destruct (Normalize quote_q cfg) as [name [e|]] eqn:En; [intros [= <- <- <-]; split; [by left|done]|].
  assert (canonicalDriver (Driver cfg) = name) as Hname.
  { revert En. unfold Normalize. case_decide; [by intros [= ->]|done]. }
  assert (forall d m p w1 e w2, pool_of d = Some m -> sp_SQLDB m = Some p ->
    Database_Close d w1 = (Ret e, w2) -> opened w2 = opened w1 ∖ {[SqlPool p]}) as Hclose.
  { intros d m p w1 e w2 Hd Hm. unfold Database_Close, sql_of. rewrite Hd. simpl. rewrite Hm.
    destruct d; [done|..]; intros (t & w3 & <-%time_Now_opened & Hc%timed_close)%bind_Ret_inv; done. }
  case_decide; [|case_decide; [|intros [= <- <- <-]; split; [by left|done]]];
    intros ([m e] & w1 & E & [= <- <- <-])%bind_Ret_inv;
    [apply NewMySQL_constructed in E|apply NewPostgres_constructed in E];
    (destruct m as [m|]; [|by destruct E as (e0 & -> & E)]);
    destruct E as (-> & _ & p & Hp & Hn & E); exists p; unfold sql_of; simpl; rewrite Hp, Hname;
    (split; [done|]; split; [done|]; split; [done|]; split; [done|]; intros w2 e w3);
    [exact (Hclose (MySQL (Some m)) m p w2 e w3 eq_refl Hp)
    |exact (Hclose (Postgres (Some m)) m p w2 e w3 eq_refl Hp)].
Qed.

Lemma NewDatabase_failed range c cfg metrics w db e w' :
  NewDatabase quote_q range c cfg metrics w = (Ret (db, Some e), w') ->
  left_open e (opened w) (opened w') /\ pool_of db = None.
Proof. apply NewDatabase_run. Qed.

Lemma NewDatabase_opens range c cfg metrics w db w' :
  NewDatabase quote_q range c cfg metrics w = (Ret (db, None), w') ->
  exists p, sql_of db = Some p /\ Database_Driver db = canonicalDriver (Driver cfg)
    /\ SqlPool p ∉ opened w /\ opened w' = {[SqlPool p]} ∪ opened w
    /\ forall w1 e w2, Database_Close db w1 = (Ret e, w2) -> opened w2 = opened w1 ∖ {[SqlPool p]}.
Proof. apply NewDatabase_run. Qed.
End theorems.

(** ** A concrete driver: its state lists what is open *)

Definition resource_id (r : resource) : positive := match r with SqlPool p | RedisConn p => p end.
Definition next_id (l : list resource) : positive := foldr (fun r n => Pos.max (Pos.succ (resource_id r)) n) 1%positive l.
Definition remove_resource (r : resource) (l : list resource) : list resource := filter (fun x => x <> r) l.
Definition open_set (l : list resource) : gset resource := list_to_set l.

Lemma next_id_fresh r l : resource_id r = next_id l -> r ∉ open_set l.
Proof.
  intros Hr Hin%elem_of_list_to_set.
  assert (forall x, x ∈ l -> (resource_id x < next_id l)%positive) as H; [|specialize (H _ Hin); lia].
  clear. induction l as [|y l IH]; intros x; [set_solver|]. simpl.
  intros [->|Hx]%elem_of_cons; [lia|]. specialize (IH _ Hx). lia.
Qed.

Lemma open_set_remove r l : open_set (remove_resource r l) = open_set l ∖ {[r]}.
Proof.
  apply set_eq. intros x. unfold open_set, remove_resource.
  rewrite elem_of_difference, !elem_of_list_to_set, list_elem_of_filter, elem_of_singleton. naive_solver.
Qed.

#[export] Instance list_driver : SqlDriver (list resource) := {
  gorm_Open _ _ _ _ _ s := (inl (next_id s), SqlPool (next_id s) :: s);
  gorm_DB g _ s := (inl g, s);
  sql_SetMaxOpenConns _ _ s := s;
  sql_SetMaxIdleConns _ _ s := s;
  sql_SetConnMaxLifetime _ _ s := s;
  sql_Ping _ _ _ s := (None, s);
  sql_Close p _ s := (None, remove_resource (SqlPool p) s);
  sql_QueryBool _ _ _ _ _ s := (inl true, s);
  sql_Exec _ _ _ _ s := (None, s);
}.

#[export] Instance list_driver_laws : SqlLaws list_driver open_set.
Proof.
  split; try done.
  - intros dialect dsn slow level now s g s' [= <- <-]. split; [by apply next_id_fresh|done].
  - intros g now s p s' [= <- <-]. done.
  - intros p now s. apply open_set_remove.
Qed.

Definition idle_world (l : list resource) : World (list resource) := mkWorld l 0 [] [] [] [].

(** What is returned with an error is not a nil interface. *)
Example failed_database_is_not_nil :
  (NewDatabase (H := no_url) id [] Background
    (mkDatabaseConfig "" "" 0 0 "" "" "" false false "" "" "") None (idle_world [])).1
  = Ret (MySQL None, Some (errText "database.dsn is required")).
Proof. vm_compute. reflexivity. Qed.

(** A server that cannot be reached: [gorm.Open] opens the pool, fails to ping it
    and returns the error; the constructor returns it too, and the pool stays. *)
Definition down_driver : SqlDriver (list resource) := {|
  gorm_Open _ _ _ _ _ s := (inr (errForeign "gorm" "connection refused"), SqlPool (next_id s) :: s);
  gorm_DB g _ s := (inl g, s);
  sql_SetMaxOpenConns _ _ s := s;
  sql_SetMaxIdleConns _ _ s := s;
  sql_SetConnMaxLifetime _ _ s := s;
  sql_Ping _ _ _ s := (None, s);
  sql_Close p _ s := (None, remove_resource (SqlPool p) s);
  sql_QueryBool _ _ _ _ _ s := (inl true, s);
  sql_Exec _ _ _ _ s := (None, s);
|}.

Lemma down_driver_laws : SqlLaws down_driver open_set.
Proof.
  split; try done.
  - intros dialect dsn slow level now s e s' [= <- <-]. right. exists (next_id s).
    split; [by apply next_id_fresh|done].
  - intros g now s p s' [= <- <-]. done.
  - intros p now s. apply open_set_remove.
Qed.

Example failed_open_leaks :
  let '(r, w) := NewDatabase (driver := down_driver) (H := no_url) id [] Background
    (mkDatabaseConfig "" "user@tcp(db)/hub" 0 0 "" "" "" false false "" "" "") None (idle_world []) in
  r = Ret (MySQL None, Some (errWrap "open mysql: " (errForeign "gorm" "connection refused") ""))
  /\ w_svc w = [SqlPool 1].
Proof. vm_compute. done. Qed.
