(* ===== verification/MetricsRegistry.v ===== *)
(** * Construction of the metrics ([metrics/metrics.go]).

    A Prometheus registry is the interface [Registerer]: [Register] is
    [reg.Register].  A collector is its options and its identity: of two
    collectors with the same options the registry exports the one it holds. *)

From S2P Require Import Prelude GoStrings.

Record metrics_Config := mkMetricsConfig { Namespace : string; Subsystem : string }.

(** [prometheus.CounterOpts] or [HistogramOpts], and the label names. *)
Record opts := mkOpts {
  op_Namespace : string; op_Subsystem : string; op_Name : string; op_labels : list string;
}.

#[export] Instance opts_eq_dec : EqDecision opts.
Proof. solve_decision. Defined.
#[export] Instance opts_countable : Countable opts.
Proof.
  apply (inj_countable' (fun o => (op_Namespace o, op_Subsystem o, op_Name o, op_labels o))
           (fun '(a, b, c, d) => mkOpts a b c d)). by intros [].
Defined.

Record collector := mkCollector { co_opts : opts; co_id : positive }.

(** The four vectors of [metrics.Metrics]. *)
Record MetricSet := mkMetricSet {
  ms_Requests : collector; ms_Duration : collector;
  ms_DependencyDuration : collector; ms_DependencyErrors : collector;
}.

Definition collectors (m : MetricSet) : list collector :=
  [ms_Requests m; ms_Duration m; ms_DependencyDuration m; ms_DependencyErrors m].

(** What [Register] answers. *)
Inductive register_result : Type :=
  | registered
  | AlreadyRegistered               (* errors.As(err, &AlreadyRegisteredError) *)
  | register_error (e : error).

Class Registerer (R : Type) := { Register : collector -> R -> register_result * R }.

(** What is relied on: options that are taken are answered by
    [AlreadyRegistered]; a registered collector is exported; and nothing else
    changes what is exported. *)
Class RegistererLaws {R} (reg : Registerer R) (exported : R -> gmap opts positive) : Prop := {
  Register_taken c r i : exported r !! co_opts c = Some i -> Register c r = (AlreadyRegistered, r);
  Register_new c r r' : Register c r = (registered, r') ->
    exported r !! co_opts c = None /\ exported r' = <[co_opts c := co_id c]> (exported r);
  Register_other c r a r' : Register c r = (a, r') -> a <> registered -> exported r' = exported r;
}.

Section construct.
Context {R : Type} {reg : Registerer R}.

(** The registry, and the identity of the next collector allocated. *)
Notation state := (R * positive)%type.

(** [metrics.register]: options that are taken count as a success, and the
    collector that the registry holds is dropped with the error. *)
Definition register (c : collector) : prog state (option error) := fun '(r, n) =>
  match Register c r with
  | (registered, r') => (Ret None, (r', n))
  | (AlreadyRegistered, r') => (Ret None, (r', n))
  | (register_error e, r') => (Ret (Some e), (r', n))
  end.

Definition new_collector (o : opts) : prog state collector := fun '(r, n) =>
  (Ret (mkCollector o n), (r, Pos.succ n)).

Definition metrics_defaults (cfg : metrics_Config) (component : string) : metrics_Config :=
  mkMetricsConfig (if decide (Namespace cfg = "") then "aisphere" else Namespace cfg)
    (if decide (Subsystem cfg = "") then component else Subsystem cfg).

Definition NewWithRegistry (cfg : metrics_Config) (component : string)
    : prog state (option MetricSet * option error) :=
  let cfg := metrics_defaults cfg component in
  let o := mkOpts (Namespace cfg) (Subsystem cfg) in
  requests ← new_collector (o "requests_total" ["operation"; "code"]);
  duration ← new_collector (o "request_duration_seconds" ["operation"]);
  dep_duration ← new_collector (o "dependency_duration_seconds" ["dependency"; "operation"]);
  dep_errors ← new_collector (o "dependency_errors_total" ["dependency"; "operation"]);
  let m := mkMetricSet requests duration dep_duration dep_errors in
  err ← for_each register (collectors m);
  match err with
  | Some e => mret (None, Some e)
  | None => mret (Some m, None)
  end.
End construct.

Section laws.
Context {R : Type} (reg : Registerer R) (exported : R -> gmap opts positive).
Context `{!RegistererLaws reg exported}.

Definition is_exported (r : R) (c : collector) : Prop := exported r !! co_opts c = Some (co_id c).

(** Registering collectors whose options are all taken changes nothing. *)
Lemma register_taken l (s : R * positive) :
  Forall (fun c => is_Some (exported s.1 !! co_opts c)) l -> for_each register l s = (Ret None, s).
Proof.
  destruct s as [r n]. induction 1 as [|c l [i Hi] _ IH]; [done|].
  cbn [for_each]. rewrite run_bind. unfold register at 1. by rewrite (Register_taken _ _ _ Hi).
Qed.

Lemma register_allocates l s err s' : for_each register l s = (Ret err, s') -> s'.2 = s.2.
Proof.
  apply (for_each_inv _ (fun x => x.2 = s.2)); [|done].
  intros c [r n] e [r' n'] _ <-. unfold register. by destruct (Register c r) as [[| |?] ?]; intros [= _ _ ->].
Qed.

(** A construction in full: four fresh collectors, then their registration. *)
Lemma NewWithRegistry_run cfg component r n :
  let d := metrics_defaults cfg component in
  let o := mkOpts (Namespace d) (Subsystem d) in
  let m := mkMetricSet (mkCollector (o "requests_total" ["operation"; "code"]) n)
    (mkCollector (o "request_duration_seconds" ["operation"]) (Pos.succ n))
    (mkCollector (o "dependency_duration_seconds" ["dependency"; "operation"])
       (Pos.succ (Pos.succ n)))
    (mkCollector (o "dependency_errors_total" ["dependency"; "operation"])
       (Pos.succ (Pos.succ (Pos.succ n)))) in
  NewWithRegistry cfg component (r, n) =
    match for_each register (collectors m) (r, (n + 4)%positive) with
    | (Ret None, s) => (Ret (Some m, None), s)
    | (Ret (Some e), s) => (Ret (None, Some e), s)
    | (Panic x, s) => (Panic x, s)
    end.
Proof.
  intros d o m. unfold NewWithRegistry. fold d. fold o. do 4 (rewrite run_bind; cbn [new_collector]).
  fold m. replace (n + 4)%positive with (Pos.succ (Pos.succ (Pos.succ (Pos.succ n)))) by lia.
  rewrite run_bind. by destruct (for_each register (collectors m) _) as [[[e|]|x] s].
Qed.

(** Constructing the metrics twice under the same configuration (two
    runtimes in one process) reports success both times, but the second time
    none of the collectors that [Observe] and [ObserveDependency] will write to
    is exported: the registry still exports the first ones, and every sample
    recorded through the second value is lost. *)
Theorem second_metrics_not_exported cfg component s m1 s1 :
  NewWithRegistry cfg component s = (Ret (Some m1, None), s1) ->
  Forall (is_exported s1.1) (collectors m1) ->
  exists m2 s2, NewWithRegistry cfg component s1 = (Ret (Some m2, None), s2)
    /\ s2.1 = s1.1 /\ Forall (is_exported s2.1) (collectors m1)
    /\ Forall (fun c => ~ is_exported s2.1 c) (collectors m2).
Proof.
  intros H Hex. destruct s as [r n], s1 as [r1 n1]. rewrite NewWithRegistry_run in H |- *.
  destruct (for_each register _ _) as [[[e|]|x] s0] eqn:E in H; [done| |done].
  injection H as <- ->. pose proof (register_allocates _ _ _ _ E) as Hn. simpl in Hn. subst n1.
  unfold collectors in Hex. rewrite !Forall_cons in Hex. destruct Hex as (H1 & H2 & H3 & H4 & _).
  unfold is_exported in H1, H2, H3, H4. cbn [fst snd co_opts co_id ms_Requests ms_Duration
    ms_DependencyDuration ms_DependencyErrors] in H1, H2, H3, H4.
  rewrite register_taken by (repeat constructor; eexists; eassumption).
  do 2 eexists. split; [reflexivity|]. split; [done|].
  unfold collectors. rewrite !Forall_cons, !Forall_nil. split; [done|].
  split_and!; try exact I; unfold is_exported; cbn [fst snd co_opts co_id ms_Requests ms_Duration
    ms_DependencyDuration ms_DependencyErrors]; intros Hx;
    [pose proof (eq_trans (eq_sym Hx) H1) as E1|pose proof (eq_trans (eq_sym Hx) H2) as E1|
     pose proof (eq_trans (eq_sym Hx) H3) as E1|pose proof (eq_trans (eq_sym Hx) H4) as E1];
    apply (inj Some) in E1; lia.
Qed.
End laws.

(** A registry that is a list of what it holds. *)
Definition held (r : list (opts * positive)) : gmap opts positive := list_to_map r.

Definition list_registry : Registerer (list (opts * positive)) := {|
  Register c r := if decide (co_opts c ∈ r.*1) then (AlreadyRegistered, r)
                  else (registered, (co_opts c, co_id c) :: r)
|}.

Lemma list_registry_laws : RegistererLaws list_registry held.
Proof.
  assert (forall c r, co_opts c ∈ r.*1 <-> held r !! co_opts c <> None) as Hin.
  { intros c r. unfold held. rewrite <- not_elem_of_list_to_map. destruct (decide (co_opts c ∈ r.*1)); naive_solver. }
  split; simpl.
  - intros c r i Hi. rewrite decide_True; [done|]. apply Hin. by rewrite Hi.
  - intros c r r'. case_decide as Hd; [done|]. intros [= <-]. split; [|done].
    apply dec_stable. by rewrite <- Hin.
  - intros c r a r'. case_decide; intros [= <- <-]; done.
Qed.

Definition hub_metrics : MetricSet := mkMetricSet
  (mkCollector (mkOpts "aisphere" "hub" "requests_total" ["operation"; "code"]) 1)
  (mkCollector (mkOpts "aisphere" "hub" "request_duration_seconds" ["operation"]) 2)
  (mkCollector (mkOpts "aisphere" "hub" "dependency_duration_seconds" ["dependency"; "operation"]) 3)
  (mkCollector (mkOpts "aisphere" "hub" "dependency_errors_total" ["dependency"; "operation"]) 4).

Definition hub_registry : list (opts * positive) :=
  reverse ((fun c => (co_opts c, co_id c)) <$> collectors hub_metrics).

Lemma second_metrics_not_exported_witness :
  exists m2 s2,
    NewWithRegistry (reg := list_registry) (mkMetricsConfig "" "") "hub" (hub_registry, 5%positive)
      = (Ret (Some m2, None), s2)
    /\ s2.1 = hub_registry /\ Forall (is_exported held s2.1) (collectors hub_metrics)
    /\ Forall (fun c => ~ is_exported held s2.1 c) (collectors m2).
Proof.
  apply (second_metrics_not_exported list_registry held
    (RegistererLaws0 := list_registry_laws) (mkMetricsConfig "" "") "hub" ([], 1%positive)
    hub_metrics (hub_registry, 5%positive)).
  - vm_compute. reflexivity.
  - repeat constructor; vm_compute; reflexivity.
Defined.
