(* ===== verification/Config.v ===== *)
(** * The configuration and its validation ([config/config.go]).

    The settings of every component, the defaults, and [Validate]; then the
    layering of files and environment variables over the defaults.  The YAML and
    JSON codecs are the class [Codec]. *)

From S2P Require Import Prelude GoStrings GoText GoTime Logger Principal Env Retry CasdoorClient CasdoorConfig.
From S2P Require Import CasdoorPolicy CasdoorAdapter Redis Lock Session ObjectStore Database MetricsRegistry.

Record AppConfig := mkAppConfig { app_Name : string; app_Env : string; app_Version : string }.
Record EndpointConfig := mkEndpointConfig { ep_Addr : string; ep_Timeout : string }.
Record ServerConfig := mkServerConfig { sv_HTTP : EndpointConfig; sv_GRPC : EndpointConfig }.

Record FeatureConfig := mkFeatureConfig {
  ft_DB : bool; ft_Cache : bool; ft_S3 : bool; ft_Authn : bool; ft_Authz : bool; ft_Audit : bool;
  ft_Metrics : bool; ft_Tracing : bool; ft_Session : bool; ft_Permission : bool; ft_Sharing : bool;
}.


Record config_Config := mkConfigConfig {
  c_App : AppConfig; c_Server : ServerConfig; c_Features : FeatureConfig; c_Log : logx_Config;
  c_Database : DatabaseConfig; c_Redis : RedisConfig; c_ObjectStore : MinIOConfig;
  c_Casdoor : casdoor_Config; c_Metrics : metrics_Config; c_Session : session_Config;
  c_Health : string;     (* HealthConfig: its only field, the timeout *)
  c_Shutdown : string;   (* ShutdownConfig: its only field, the timeout *)
}.

Definition no_casdoor : casdoor_Config :=
  mkCasdoorConfig "" "" "" "" "" "" "" "" "" "" "" "" "" "" "" "" false false 0 "" 0 "".

Definition Default : config_Config := mkConfigConfig
  (mkAppConfig "" "dev" "dev")
  (mkServerConfig (mkEndpointConfig "0.0.0.0:8000" "10s") (mkEndpointConfig "0.0.0.0:9000" "10s"))
  (mkFeatureConfig true true true true true true true true true true false)
  (mkLogConfig "info" "json" false)
  (mkDatabaseConfig "mysql" "" 50 10 "1h" "500ms" "warn" false false "postgres" "" "")
  (mkRedisConfig "single" "127.0.0.1:6379" [] "" "" 0 "5s" "3s" "3s" 0)
  (mkMinIOConfig "minio" "127.0.0.1:9000" "" "" "" "aisphere" "" false false)
  no_casdoor
  (mkMetricsConfig "aisphere" "")
  (mkSessionConfig "aisphere:session" "10m" "")
  "2s" "15s".

(** ** Validate *)

(** [if cond { errs = append(errs, e) }] *)
Definition require (cond : bool) (e : error) : list error := if cond then [] else [e].

Definition check_duration (name s : string) : list error :=
  if decide (s <> "") then
    match ParseDuration s with (_, Some err) => [errWrap (name +:+ ": ") err ""] | (_, None) => [] end
  else [].

Definition nonempty (s : string) : bool := bool_decide (s <> "").

Section validate.
Context `{X509, Host}.

Definition validate_database (cfg : DatabaseConfig) : list error :=
  match Normalize strconv_Quote cfg with (_, Some err) => [err] | (_, None) => [] end
  ++ require (nonempty (DSN cfg)) (errText "database.dsn is required").

Definition validate_redis (cfg : RedisConfig) : list error :=
  if decide (rc_Mode cfg ∈ [""; "single"]) then
    require (nonempty (rc_Addr cfg)) (errText "redis.addr is required")
  else if decide (rc_Mode cfg = "cluster") then
    require (bool_decide (rc_Addrs cfg <> [])) (errText "redis.addrs is required")
  else [errText "redis.mode only supports single or cluster"].

Definition validate_objectstore (cfg : MinIOConfig) : list error :=
  require (bool_decide (os_Provider cfg ∈ [""; "minio"])) (errText "objectstore.provider only supports minio")
  ++ require (nonempty (os_Endpoint cfg) && nonempty (os_Bucket cfg))
       (errText "objectstore.endpoint and bucket are required").

Definition uses_casdoor (f : FeatureConfig) : bool :=
  ft_Authn f || ft_Authz f || ft_Audit f || ft_Permission f.

Definition Validate_errors (c : config_Config) : list error :=
  let f := c_Features c in
  let cas := c_Casdoor c in
  require (nonempty (app_Name (c_App c))) (errText "app.name is required")
  ++ check_duration "server.http.timeout" (ep_Timeout (sv_HTTP (c_Server c)))
  ++ check_duration "server.grpc.timeout" (ep_Timeout (sv_GRPC (c_Server c)))
  ++ (if ft_DB f then validate_database (c_Database c) else [])
  ++ (if ft_Cache f then validate_redis (c_Redis c) else [])
  ++ (if ft_S3 f then validate_objectstore (c_ObjectStore c) else [])
  ++ require (negb (ft_Session f && negb (ft_Cache f))) (errText "features.session requires features.cache")
  ++ require (negb (ft_Sharing f))
       (errText "features.sharing is deprecated; use features.permission with Casdoor/Casbin")
  ++ (if uses_casdoor f then
        require (nonempty (Endpoint cas) && nonempty (ClientID cas) && nonempty (ClientSecret cas)
                 && nonempty (Organization cas) && nonempty (Application cas))
          (errText "casdoor endpoint/client_id/client_secret/organization/application are required")
      else [])
  ++ (if ft_Authn f then
        match NormalizedCertificate cas with
        | (_, Some err) => [errWrap "casdoor jwt certificate: " err ""]
        | (_, None) => []
        end
      else [])
  ++ (if ft_Authz f then
        let selectors := length (filter (fun v => v <> "") (configured_selectors cas)) in
        require (negb (bool_decide (selectors = 0)))
          (errText "one of casdoor permission_id/model_id/resource_id/enforcer_id/owner is required for authz")
      else [])
  ++ (if ft_Permission f then
        require (nonempty (PolicyEnforcer cas) || nonempty (EnforcerID cas))
          (errText "casdoor.policy_enforcer or casdoor.enforcer_id is required for permission management")
      else []).

Definition Validate (c : config_Config) : option error := errors_Join (Validate_errors c).
End validate.

(** ** What validation is worth to the constructors *)

Lemma require_nil b e : require b e = [] <-> b = true.
Proof. by destruct b. Qed.

Lemma nonempty_true s : nonempty s = true <-> s <> "".
Proof. apply bool_decide_eq_true. Qed.

Lemma check_duration_nil name s : check_duration name s = [] <-> s = "" \/ (ParseDuration s).2 = None.
Proof.
  unfold check_duration. case_decide as Hs; [|split; [by left|done]].
  destruct (ParseDuration s) as [d [e|]]; naive_solver.
Qed.

Section theorems.
Context `{X509, Host}.

Lemma validate_database_nil cfg :
  validate_database cfg = [] -> (Normalize strconv_Quote cfg).2 = None /\ DSN cfg <> "".
Proof.
  unfold validate_database. destruct (Normalize strconv_Quote cfg) as [d [e|]]; [done|].
  simpl. by rewrite require_nil, nonempty_true.
Qed.

Lemma validate_redis_nil cfg : validate_redis cfg = [] <-> exists opts, redis_options cfg = inl opts.
Proof.
  unfold validate_redis, redis_options. split.
  - case_decide as Hm.
    + rewrite require_nil, nonempty_true. intros Ha.
      assert ((if decide (rc_Mode cfg = "") then "single" else rc_Mode cfg) = "single") as ->
        by (rewrite !elem_of_cons in Hm; by destruct Hm as [->|[->|Hm%not_elem_of_nil]]).
      rewrite decide_True by done. rewrite decide_False by done. eauto.
    + destruct (decide (rc_Mode cfg = "cluster")) as [->|]; [|done].
      rewrite require_nil, bool_decide_eq_true. intros Ha. simpl.
      rewrite decide_False by (by destruct (rc_Addrs cfg)). eauto.
  - intros (opts & E). revert E. destruct (decide (rc_Mode cfg = "")) as [->|Hm].
    + simpl. destruct (decide (rc_Addr cfg = "")) as [|Ha]; [done|]. intros _.
      by apply require_nil, nonempty_true.
    + destruct (decide (rc_Mode cfg = "single")) as [->|Hs]; [|destruct (decide (rc_Mode cfg = "cluster")) as [->|]].
      * simpl. destruct (decide (rc_Addr cfg = "")) as [|Ha]; [done|]. intros _.
        by apply require_nil, nonempty_true.
      * simpl. destruct (rc_Addrs cfg); done.
      * done.
Qed.

Lemma app_nil_inv {A} (l k : list A) : l ++ k = [] <-> l = [] /\ k = [].
Proof. split; [apply app_eq_nil|]. by intros [-> ->]. Qed.

(** A selector is configured: one is sent. *)
Lemma enforceSelectors_some a :
  filter (fun v => v <> "") (configured_selectors (a_cfg a)) <> [] ->
  ~ Forall (fun s => s = "") (selector_list (enforceSelectors a)).
Proof.
  unfold enforceSelectors, configured_selectors.
  destruct (a_cfg a) as [? ? ? ? ? ? ? pid mid rid eid own]. simpl. intros Hf Hall.
  destruct (decide (pid <> "")) as [|E1%dec_stable]; [by apply Forall_cons in Hall as [? _]|].
  destruct (decide (mid <> "")) as [|E2%dec_stable];
    [by apply Forall_cons in Hall as [_ [? _]%Forall_cons]|].
  destruct (decide (rid <> "")) as [|E3%dec_stable];
    [by apply Forall_cons in Hall as [_ [_ [? _]%Forall_cons]%Forall_cons]|].
  destruct (decide (eid <> "")) as [|E4%dec_stable];
    [by apply Forall_cons in Hall as [_ [_ [_ [? _]%Forall_cons]%Forall_cons]%Forall_cons]|].
  destruct (decide (own <> "")) as [|E5%dec_stable];
    [by apply Forall_cons in Hall as [_ [_ [_ [_ [? _]%Forall_cons]%Forall_cons]%Forall_cons]%Forall_cons]|].
  subst. by apply Hf.
Qed.

Lemma New_cfg cfg opts a : New cfg opts = Some a ->
  configured_selectors (a_cfg a) = configured_selectors cfg /\ PolicyEnforcer (a_cfg a) = PolicyEnforcer cfg
  /\ EnforcerID (a_cfg a) = EnforcerID cfg.
Proof. unfold New, newAdapter. simpl. by intros [= <-]. Qed.

(** C9: what [Validate] is worth to the constructors: in a configuration that
    passes it, the database driver is known and there is a DSN, Redis has usable
    options and is on when sessions are, sharing is off, the checked Casdoor
    constructor succeeds where authentication is on (so the certificate is a
    public key), an authorizer has a selector to send, and a permission manager
    has a policy target, provided neither configured name is only white space.
    Not covered, because [Validate] does not check it: the credentials of the
    object store, and the durations [slow_threshold] and [conn_max_lifetime] of
    the database. *)
Theorem validated_config_constructs (c : config_Config) opts :
  Validate c = None ->
  let f := c_Features c in
  (ft_DB f = true -> DSN (c_Database c) <> "" /\
     exists name, Normalize strconv_Quote (c_Database c) = (name, None))
  /\ (ft_Cache f = true -> exists o, redis_options (c_Redis c) = inl o)
  /\ (ft_Session f = true -> ft_Cache f = true) /\ ft_Sharing f = false
  /\ (ft_Authn f = true -> exists a, NewChecked (c_Casdoor c) opts = (Some a, None))
  /\ (ft_Authz f = true -> forall a, New (c_Casdoor c) opts = Some a ->
        ~ Forall (fun s => s = "") (selector_list (enforceSelectors a)))
  /\ (ft_Permission f = true ->
        (forall e, e ∈ [PolicyEnforcer (c_Casdoor c); EnforcerID (c_Casdoor c)] -> e <> "" -> TrimSpace e <> "") ->
        forall a, New (c_Casdoor c) opts = Some a -> exists t, policyTarget a = inl t).
Proof.
  intros Hv f. unfold Validate in Hv. apply errors_Join_None in Hv. unfold Validate_errors in Hv.
  rewrite !app_nil_inv in Hv.
  destruct Hv as (_ & _ & _ & Hdb & Hredis & _ & Hsess & Hshare & _ & Hauthn & Hauthz & Hperm).
  fold f in Hdb, Hredis, Hsess, Hshare, Hauthn, Hauthz, Hperm. split_and!.
  - intros E. rewrite E in Hdb. apply validate_database_nil in Hdb as [Hn Hd]. split; [done|].
    destruct (Normalize _ _) as [name e]. simpl in Hn. subst. eauto.
  - intros E. rewrite E in Hredis. by apply validate_redis_nil.
  - intros E. rewrite E in Hsess. by destruct (ft_Cache f).
  - by destruct (ft_Sharing f).
  - intros E. rewrite E in Hauthn. unfold NewChecked, newAdapter. rewrite decide_True by auto.
    destruct (NormalizedCertificate (c_Casdoor c)) as [cert [e|]]; [done|]. eauto.
  - intros E a Ha. rewrite E in Hauthz. apply enforceSelectors_some.
    destruct (New_cfg _ _ _ Ha) as (-> & _). intros Hnil. rewrite Hnil in Hauthz. done.
  - intros E Hname a Ha. rewrite E in Hperm. apply require_nil, orb_true_iff in Hperm.
    rewrite !nonempty_true in Hperm. unfold policyTarget. destruct (New_cfg _ _ _ Ha) as (_ & -> & ->).
    rewrite decide_False; [eauto|]. cbn [firstNonEmpty].
    destruct (decide (PolicyEnforcer (c_Casdoor c) <> "")); [apply Hname; [set_solver|done]|].
    destruct (decide (EnforcerID (c_Casdoor c) <> "")); [apply Hname; [set_solver|done]|]. by destruct Hperm.
Qed.
End theorems.

(** A key decoder that takes every text for an RSA public key. *)
Definition any_key : X509 := {|
  pem_Decode s := (Some (mkBlock "PUBLIC KEY" s), "");
  x509_ParseCertificate _ := inl rsa_PublicKey;
  x509_ParsePKIXPublicKey _ := inl rsa_PublicKey;
  x509_ParsePKCS1PublicKey _ := None;
|}.

Definition no_files : Host := {|
  os_ReadFile _ := inr (errForeign "os" "no such file or directory"); strconv_Quote s := s |}.

Definition hub_casdoor : casdoor_Config := mkCasdoorConfig "https://sso" "id" "secret" "KEY" "" "org" "app"
  "" "" "" "org/enforcer" "" "" "" "10s" "openid profile email" false false 0 "" 0 "".

Definition hub_config : config_Config := mkConfigConfig
  (mkAppConfig "hub" "dev" "dev") (c_Server Default) (c_Features Default) (c_Log Default)
  (mkDatabaseConfig "pgx" "host=db dbname=hub" 50 10 "1h" "500ms" "warn" false false "postgres" "" "")
  (c_Redis Default) (c_ObjectStore Default) hub_casdoor (c_Metrics Default) (c_Session Default) "2s" "15s".

Lemma validated_config_constructs_witness :
  let f := c_Features hub_config in
  (ft_DB f = true -> DSN (c_Database hub_config) <> "" /\
     exists name, Normalize (strconv_Quote (Host := no_files)) (c_Database hub_config) = (name, None))
  /\ (ft_Cache f = true -> exists o, redis_options (c_Redis hub_config) = inl o)
  /\ (ft_Session f = true -> ft_Cache f = true) /\ ft_Sharing f = false
  /\ (ft_Authn f = true -> exists a,
        NewChecked (H := any_key) (H0 := no_files) (c_Casdoor hub_config) [] = (Some a, None))
  /\ (ft_Authz f = true -> forall a, New (H := any_key) (H0 := no_files) (c_Casdoor hub_config) [] = Some a ->
        ~ Forall (fun s => s = "") (selector_list (enforceSelectors a)))
  /\ (ft_Permission f = true ->
        (forall e, e ∈ [PolicyEnforcer (c_Casdoor hub_config); EnforcerID (c_Casdoor hub_config)] ->
           e <> "" -> TrimSpace e <> "") ->
        forall a, New (H := any_key) (H0 := no_files) (c_Casdoor hub_config) [] = Some a ->
        exists t, policyTarget a = inl t).
Proof.
  apply (validated_config_constructs (H := any_key) (H0 := no_files) hub_config []).
  vm_compute. reflexivity.
Defined.

(** The defaults alone do not pass: the name, the DSN and Casdoor are missing. *)
Example default_config_is_refused :
  length (Validate_errors (H := any_key) (H0 := no_files) (mkConfigConfig (c_App Default) (c_Server Default)
    (c_Features Default) (c_Log Default) (c_Database Default) (c_Redis Default) (c_ObjectStore Default)
    no_casdoor (c_Metrics Default) (c_Session Default) "2s" "15s")) = 6.
Proof. vm_compute. reflexivity. Qed.

(** What validation does not see: the credentials that [NewMinIO] requires. *)
Example store_without_credentials :
  validate_objectstore (c_ObjectStore Default) = [] /\ os_AccessKey (c_ObjectStore Default) = "".
Proof. vm_compute. done. Qed.

(** ** Layers: defaults, files, environment

    A document is a tree; Go's maps have distinct keys in no order. *)

Inductive doc : Type :=
  | leaf (v : any)
  | node (kvs : list (string * doc)).

Fixpoint lookup_key (k : string) (kvs : list (string * doc)) : option doc :=
  match kvs with
  | [] => None
  | (k', v) :: kvs => if decide (k = k') then Some v else lookup_key k kvs
  end.

(** [dst[k] = v] *)
Fixpoint assign (k : string) (v : doc) (kvs : list (string * doc)) : list (string * doc) :=
  match kvs with
  | [] => [(k, v)]
  | (k', v') :: kvs => if decide (k = k') then (k, v) :: kvs else (k', v') :: assign k v kvs
  end.

(** The new value under a key: maps are merged, anything else replaces. *)
Fixpoint merge_value (old : option doc) (v : doc) : doc :=
  match v, old with
  | node sm, Some (node dm) =>
      node ((fix go (sm dm : list (string * doc)) :=
        match sm with
        | [] => dm
        | (k, v) :: sm => go sm (assign k (merge_value (lookup_key k dm) v) dm)
        end) sm dm)
  | _, _ => v
  end.

Fixpoint mergeMap (dst src : list (string * doc)) : list (string * doc) :=
  match src with
  | [] => dst
  | (k, v) :: src => mergeMap (assign k (merge_value (lookup_key k dst) v) dst) src
  end.

Fixpoint setNested (m : list (string * doc)) (keys : list string) (v : any) : list (string * doc) :=
  match keys with
  | [] => m
  | [k] => assign k (leaf v) m
  | k :: keys =>
      let next := match lookup_key k m with Some (node next) => next | _ => [] end in
      assign k (node (setNested next keys v)) m
  end.

Definition underscore : Ascii.ascii := Ascii.ascii_of_nat 95.

(** [strings.Split(path, "__")]; [cur] is the piece being read. *)
Fixpoint split2 (cur l : bytes) : list bytes :=
  match l with
  | a :: ((b :: l2) as l1) =>
      if Ascii.eqb underscore a && Ascii.eqb underscore b then cur :: split2 [] l2
      else split2 (cur ++ [a]) l1
  | _ => [cur ++ l]
  end.

Definition split_path (path : string) : list string := of_bytes <$> split2 [] (to_bytes path).

(** [strings.TrimPrefix] *)
Definition trim_prefix (s prefix : string) : string :=
  if HasPrefix s prefix then of_bytes (drop (String.length prefix) (to_bytes s)) else s.

Class Codec := {
  yaml_Default : list (string * doc);                        (* the defaults, through YAML *)
  yaml_Unmarshal : string -> list (string * doc) + error;
  json_Decode : list (string * doc) -> config_Config + error;  (* json.Marshal, json.Unmarshal *)
  strings_ToLower : string -> string;
}.

Section load.
Context `{X509, Host, Codec}.

Definition apply_var (prefix : string) (root : list (string * doc)) (kv : string) : list (string * doc) :=
  if HasPrefix kv prefix then
    match Cut (Ascii.ascii_of_nat 61) kv with
    | None => root
    | Some (name, value) =>
        setNested root (split_path (strings_ToLower (trim_prefix name prefix))) (any_string value)
    end
  else root.

Definition applyEnv (environ : list string) (root : list (string * doc)) (prefix : string)
    : list (string * doc) :=
  foldl (apply_var prefix) root environ.

Fixpoint merge_files (merged : list (string * doc)) (paths : list string) : list (string * doc) + error :=
  match paths with
  | [] => inl merged
  | path :: paths =>
      if decide (path = "") then merge_files merged paths else
      match os_ReadFile path with
      | inr err => inr (errWrap ("load config " +:+ path +:+ ": ") err "")
      | inl b =>
          match yaml_Unmarshal b with
          | inr err => inr (errWrap ("parse config " +:+ path +:+ ": ") err "")
          | inl current => merge_files (mergeMap merged current) paths
          end
      end
  end.

Definition set_casdoor_defaults (c : casdoor_Config) : casdoor_Config :=
  mkCasdoorConfig (Endpoint c) (ClientID c) (ClientSecret c) (Certificate c) (CertificateFile c)
    (Organization c) (Application c) (PermissionID c) (ModelID c) (ResourceID c) (EnforcerID c)
    (Owner c) (PolicyEnforcer c) (PolicyAdapterID c)
    (if decide (HTTPTimeout c = "") then "10s" else HTTPTimeout c)
    (if decide (DefaultScope c = "") then "openid profile email" else DefaultScope c)
    (AllowAnonymous c) (AuditAsync c) (AuditQueue c) (AuditTimeout c) (RetryAttempts c) (RetryBackoff c).

Definition set_casdoor (cas : casdoor_Config) (c : config_Config) : config_Config :=
  mkConfigConfig (c_App c) (c_Server c) (c_Features c) (c_Log c) (c_Database c) (c_Redis c)
    (c_ObjectStore c) cas (c_Metrics c) (c_Session c) (c_Health c) (c_Shutdown c).

(** A configuration that decodes but is not valid is returned with the error. *)
Definition Load (environ paths : list string) : option config_Config * option error :=
  match merge_files yaml_Default paths with
  | inr err => (None, Some err)
  | inl merged =>
      match json_Decode (applyEnv environ merged "AISPHERE_") with
      | inr err => (None, Some (errWrap "decode config: " err ""))
      | inl cfg =>
          let cfg := set_casdoor (set_casdoor_defaults (c_Casdoor cfg)) cfg in
          (Some cfg, Validate cfg)
      end
  end.
End load.

(** ** What a path of the layered document holds *)

Fixpoint get (path : list string) (d : doc) : option doc :=
  match path with
  | [] => Some d
  | k :: path => match d with node kvs => lookup_key k kvs ≫= get path | leaf _ => None end
  end.

(** A document from a parser: the keys of every map are distinct. *)
Inductive wf : doc -> Prop :=
  | wf_leaf v : wf (leaf v)
  | wf_node kvs : NoDup kvs.*1 -> (forall k v, lookup_key k kvs = Some v -> wf v) -> wf (node kvs).

(** The document says nothing at the path, above it, or below it. *)
Fixpoint silent (path : list string) (kvs : list (string * doc)) : Prop :=
  match path with
  | [] => False
  | k :: path => match lookup_key k kvs with
                 | None => True
                 | Some (node m) => silent path m
                 | Some (leaf _) => False
                 end
  end.

(** Neither path is a prefix of the other. *)
Fixpoint apart (p q : list string) : Prop :=
  match p, q with
  | k :: p, k' :: q => k <> k' \/ apart p q
  | _, _ => False
  end.

Lemma lookup_assign k k' v kvs :
  lookup_key k' (assign k v kvs) = if decide (k = k') then Some v else lookup_key k' kvs.
Proof.
  induction kvs as [|[k0 v0] kvs IH]; simpl.
  - destruct (decide (k' = k)) as [->|]; [by rewrite decide_True|by rewrite decide_False].
  - destruct (decide (k = k0)) as [<-|]; simpl.
    + destruct (decide (k' = k)) as [->|]; [by rewrite decide_True|]. by rewrite decide_False.
    + destruct (decide (k' = k0)) as [->|]; [by rewrite decide_False|]. apply IH.
Qed.

Lemma lookup_key_None k kvs : k ∉ kvs.*1 -> lookup_key k kvs = None.
Proof.
  induction kvs as [|[k0 v0] kvs IH]; [done|]. simpl. intros [Hne Hn]%not_elem_of_cons.
  rewrite decide_False by done. by apply IH.
Qed.

(** Merging, key by key. *)
Lemma lookup_mergeMap k dst src :
  NoDup src.*1 ->
  lookup_key k (mergeMap dst src) = match lookup_key k src with
                                    | None => lookup_key k dst
                                    | Some v => Some (merge_value (lookup_key k dst) v)
                                    end.
Proof.
  revert dst. induction src as [|[k0 v0] src IH]; intros dst Hnd; [done|]. cbn [mergeMap lookup_key].
  apply NoDup_cons in Hnd as [Hk0 Hnd]. rewrite IH by done. rewrite lookup_assign.
  destruct (decide (k = k0)) as [->|Hne].
  - rewrite (lookup_key_None k0 src) by done. by rewrite decide_True.
  - by rewrite decide_False.
Qed.

Lemma merge_nodes dm sm : merge_value (Some (node dm)) (node sm) = node (mergeMap dm sm).
Proof.
  cbn [merge_value]. f_equal. revert dm. induction sm as [|[k v] sm IH]; intros dm; [done|]. apply IH.
Qed.

Lemma lookup_setNested k k' keys v m :
  lookup_key k' (setNested m (k :: keys) v) =
    if decide (k = k') then
      Some match keys with
           | [] => leaf v
           | _ => node (setNested match lookup_key k m with Some (node n) => n | _ => [] end keys v)
           end
    else lookup_key k' m.
Proof. destruct keys; simpl; apply lookup_assign. Qed.

Lemma silent_get path kvs : silent path kvs -> get path (node kvs) = None.
Proof.
  revert kvs. induction path as [|k path IH]; intros kvs; [done|]. cbn [silent get].
  destruct (lookup_key k kvs) as [[x|m]|]; [done| |done]. apply IH.
Qed.

(** ** One layer over another *)

(** A value a file sets is the value of the merged document, whatever is below. *)
Lemma mergeMap_sets path dst src v :
  wf (node src) -> get path (node src) = Some (leaf v) ->
  get path (node (mergeMap dst src)) = Some (leaf v).
Proof.
  revert dst src. induction path as [|k path IH]; intros dst src Hwf; [done|].
  inversion Hwf as [|? Hnd Hsub]; subst. cbn [get]. rewrite lookup_mergeMap by done.
  destruct (lookup_key k src) as [s|] eqn:Es; [|done]. cbn [mbind option_bind]. intros Hg.
  destruct s as [x|sm].
  { destruct path; [|done]. simpl in *. by destruct (lookup_key k dst). }
  destruct (lookup_key k dst) as [[y|dm]|]; [done| |done]. rewrite merge_nodes.
  apply IH; [|done]. by apply (Hsub k).
Qed.

(** A path the file says nothing about keeps its value. *)
Lemma mergeMap_keeps path dst src :
  wf (node src) -> silent path src -> get path (node (mergeMap dst src)) = get path (node dst).
Proof.
  revert dst src. induction path as [|k path IH]; intros dst src Hwf; [done|].
  inversion Hwf as [|? Hnd Hsub]; subst. cbn [silent get]. rewrite lookup_mergeMap by done.
  destruct (lookup_key k src) as [[x|sm]|] eqn:Es; [done| |done]. intros Hs.
  destruct (lookup_key k dst) as [[y|dm]|].
  - cbn [mbind option_bind merge_value]. rewrite silent_get by done. by destruct path.
  - rewrite merge_nodes. apply IH; [by apply (Hsub k)|done].
  - cbn [mbind option_bind merge_value]. by rewrite silent_get.
Qed.

Lemma setNested_sets keys v dst :
  keys <> [] -> get keys (node (setNested dst keys v)) = Some (leaf v).
Proof.
  revert dst. induction keys as [|k keys IH]; intros dst Hk; [done|].
  cbn [get]. rewrite lookup_setNested, decide_True by done. cbn [mbind option_bind].
  destruct keys; [done|]. by apply IH.
Qed.

Lemma setNested_keeps keys v path dst :
  apart path keys -> get path (node (setNested dst keys v)) = get path (node dst).
Proof.
  revert dst path. induction keys as [|k keys IH]; intros dst [|k' path]; [done..|].
  cbn [apart get]. rewrite lookup_setNested. intros Ha. case_decide as Hk; [subst k'|done].
  destruct Ha as [Ha|Ha]; [done|]. cbn [mbind option_bind]. destruct keys as [|k2 keys]; [by destruct path|].
  rewrite IH by done. destruct path; [done|]. by destruct (lookup_key k dst) as [[]|].
Qed.

Lemma split_path_some s : split_path s <> [].
Proof.
  unfold split_path. generalize (@nil Ascii.ascii). generalize (to_bytes s).
  intros l. induction l as [|a [|b l] IH]; intros cur; [done..|]. cbn [split2].
  destruct (Ascii.eqb underscore a && _); [done|]. exact (IH (cur ++ [a])).
Qed.

(** ** All layers *)

Section layers.
Context `{X509, Host, Codec}.
Implicit Types root d D : list (string * doc).

(** The document of a file that can be read and parsed. *)
Definition layer (file : string) : option (list (string * doc)) :=
  if decide (file = "") then None else
  match os_ReadFile file with
  | inl b => match yaml_Unmarshal b with inl d => Some d | inr _ => None end
  | inr _ => None
  end.

(** The path a variable of the environment sets, and its value. *)
Definition env_setting (kv : string) : option (list string * string) :=
  if HasPrefix kv "AISPHERE_" then
    '(name, value) ← Cut (Ascii.ascii_of_nat 61) kv;
    Some (split_path (strings_ToLower (trim_prefix name "AISPHERE_")), value)
  else None.

Definition file_silent (path : list string) (file : string) : Prop :=
  forall d, layer file = Some d -> silent path d.
Definition env_apart (path : list string) (kv : string) : Prop :=
  forall keys value, env_setting kv = Some (keys, value) -> apart path keys.

Lemma apply_var_setting root kv :
  apply_var "AISPHERE_" root kv
  = match env_setting kv with Some (keys, v) => setNested root keys (any_string v) | None => root end.
Proof.
  unfold apply_var, env_setting. destruct (HasPrefix kv _); [|done].
  by destruct (Cut _ kv) as [[name v]|].
Qed.

Lemma applyEnv_keeps path environ root :
  Forall (env_apart path) environ ->
  get path (node (applyEnv environ root "AISPHERE_")) = get path (node root).
Proof.
  intros Ha. unfold applyEnv. revert root. induction Ha as [|kv environ Hkv _ IH]; intros root; [done|].
  cbn [foldl]. rewrite IH, apply_var_setting. destruct (env_setting kv) as [[keys v]|] eqn:E; [|done].
  apply setNested_keeps. by apply (Hkv keys v).
Qed.

Lemma applyEnv_sets path v e1 kv e2 root :
  env_setting kv = Some (path, v) -> Forall (env_apart path) e2 ->
  get path (node (applyEnv (e1 ++ kv :: e2) root "AISPHERE_")) = Some (leaf (any_string v)).
Proof.
  intros Hkv H2. unfold applyEnv. rewrite foldl_app. cbn [foldl].
  fold (applyEnv e2 (apply_var "AISPHERE_" (foldl (apply_var "AISPHERE_") root e1) kv) "AISPHERE_").
  rewrite applyEnv_keeps by done. rewrite apply_var_setting, Hkv. apply setNested_sets.
  unfold env_setting in Hkv. destruct (HasPrefix kv _); [|done].
  destruct (Cut _ kv) as [[name v']|]; [|done]. injection Hkv as <- _. apply split_path_some.
Qed.

Lemma merge_files_layers merged paths D :
  merge_files merged paths = inl D ->
  (forall file, file ∈ paths -> file <> "" -> is_Some (layer file))
  /\ D = foldl mergeMap merged (omap layer paths).
Proof.
  revert merged. induction paths as [|file paths IH]; intros merged; cbn [merge_files].
  { intros [= ->]. split; [by intros ? ?%not_elem_of_nil|done]. }
  cbn [omap list_omap]. unfold layer at 2. case_decide as Hf.
  - intros [Hs ->]%IH. split; [|done]. intros f [-> | Hin]%elem_of_cons ?; [done|by apply Hs].
  - destruct (os_ReadFile file) as [b|e] eqn:Eb; [|done].
    destruct (yaml_Unmarshal b) as [d|e] eqn:Ed; [|done]. intros [Hs ->]%IH. split; [|done].
    intros f [-> | Hin]%elem_of_cons ?; [|by apply Hs]. unfold layer. rewrite decide_False, Eb, Ed by done. by exists d.
Qed.

Lemma merged_keeps path root ds :
  Forall (fun d => wf (node d)) ds -> Forall (silent path) ds ->
  get path (node (foldl mergeMap root ds)) = get path (node root).
Proof.
  intros Hwf Hs. revert root. induction Hs as [|d ds Hd _ IH]; intros root; [done|].
  apply Forall_cons in Hwf as [Hw Hwf]. cbn [foldl]. rewrite IH by done. by apply mergeMap_keeps.
Qed.

Lemma silent_layers path files :
  Forall (file_silent path) files -> Forall (silent path) (omap layer files).
Proof.
  rewrite !Forall_forall. intros Hs d (file & Hin & E)%list_elem_of_omap. by apply (Hs file).
Qed.

(** C15: the layers of the configuration that [Load] returns.  There is one
    document [D] from which it is decoded; [D] holds, at every path: the value of
    the last variable of the environment that sets it (the later ones set paths
    apart from it); else, where the environment sets only paths apart from it, the
    value of the last file that sets it (the later files say nothing there); else,
    where no file says anything, the default.  Every named file was read and
    parsed, and the error returned is that of [Validate].  The parser of the files
    yields maps with distinct keys. *)
Theorem layers_override environ paths cfg err :
  (forall b d, yaml_Unmarshal b = inl d -> wf (node d)) ->
  Load environ paths = (Some cfg, err) ->
  (forall file, file ∈ paths -> file <> "" -> is_Some (layer file)) /\
  err = Validate cfg /\
  exists D cfg0, json_Decode D = inl cfg0 /\ cfg = set_casdoor (set_casdoor_defaults (c_Casdoor cfg0)) cfg0 /\
    forall path,
      (forall e1 kv e2 v, environ = e1 ++ kv :: e2 -> env_setting kv = Some (path, v) ->
         Forall (env_apart path) e2 -> get path (node D) = Some (leaf (any_string v)))
      /\ (Forall (env_apart path) environ ->
           (forall p1 file p2 d v, paths = p1 ++ file :: p2 -> layer file = Some d ->
              get path (node d) = Some (leaf v) -> Forall (file_silent path) p2 ->
              get path (node D) = Some (leaf v))
           /\ (Forall (file_silent path) paths -> get path (node D) = get path (node yaml_Default))).
Proof.
  intros Hyaml. unfold Load. destruct (merge_files yaml_Default paths) as [merged|e] eqn:Em; [|done].
  apply merge_files_layers in Em as [Hread Em].
  assert (forall files, Forall (fun d => wf (node d)) (omap layer files)) as Hwf.
  { intros files. apply Forall_forall. intros d (file & _ & E)%list_elem_of_omap. revert E. unfold layer.
    case_decide; [done|]. destruct (os_ReadFile file) as [b|]; [|done].
    destruct (yaml_Unmarshal b) as [d'|] eqn:Ed; [|done]. intros [= <-]. by apply (Hyaml b). }
  destruct (json_Decode _) as [cfg0|e] eqn:Ed; [|done]. intros [= <- <-].
  split; [done|]. split; [done|]. do 2 eexists. split; [exact Ed|]. split; [done|]. intros path. split.
  - intros e1 kv e2 v -> Hkv H2. by apply applyEnv_sets.
  - intros Henv. rewrite applyEnv_keeps, Em by done. split.
    + intros p1 file p2 d v -> Hl Hg H2. rewrite omap_app. cbn [omap list_omap]. rewrite Hl, foldl_app.
      cbn [foldl]. rewrite merged_keeps; [|done|by apply silent_layers]. apply mergeMap_sets; [|done].
      specialize (Hwf [file]). cbn [omap list_omap] in Hwf. rewrite Hl in Hwf. by apply Forall_cons in Hwf as [? _].
    + intros Hs. apply merged_keeps; [done|by apply silent_layers].
Qed.
End layers.

(** ** A run: two files and a variable *)

Definition pair_doc (section key value : string) : list (string * doc) :=
  [(section, node [(key, leaf (any_string value))])].

(** A parser for texts [section/key=value], and a decoder that reads two values. *)
Definition demo_yaml (b : string) : list (string * doc) + error :=
  match Cut (Ascii.ascii_of_nat 47) b with
  | Some (section, rest) =>
      match Cut (Ascii.ascii_of_nat 61) rest with
      | Some (key, value) => inl (pair_doc section key value)
      | None => inr (errText "yaml")
      end
  | None => inr (errText "yaml")
  end.

Definition text_at (path : list string) (D : list (string * doc)) : string :=
  match get path (node D) with Some (leaf (any_string s)) => s | _ => "" end.

Definition demo_codec : Codec := {|
  yaml_Default := pair_doc "app" "env" "dev" ++ pair_doc "database" "driver" "mysql";
  yaml_Unmarshal := demo_yaml;
  json_Decode D := inl (mkConfigConfig
    (mkAppConfig (text_at ["app"; "name"] D) (text_at ["app"; "env"] D) "dev")
    (c_Server hub_config) (c_Features hub_config) (c_Log hub_config)
    (mkDatabaseConfig (text_at ["database"; "driver"] D) "host=db dbname=hub" 50 10 "1h" "500ms" "warn"
       false false "postgres" "" "")
    (c_Redis hub_config) (c_ObjectStore hub_config) hub_casdoor (c_Metrics hub_config)
    (c_Session hub_config) "2s" "15s");
  strings_ToLower s := if decide (s = "APP__NAME") then "app__name" else s;
|}.

(** Every file is called by its content. *)
Definition demo_host : Host := {| os_ReadFile p := inl p; strconv_Quote s := s |}.

Definition demo_environ : list string := ["HOME=/root"; "AISPHERE_APP__NAME=hub"].
Definition demo_paths : list string := ["database/driver=pgx"; ""; "app/env=prod"; "app/name=kit"].

Definition demo_loaded : config_Config :=
  default hub_config (Load (H := any_key) (H0 := demo_host) (H1 := demo_codec) demo_environ demo_paths).1.

Example demo_layers :
  app_Name (c_App demo_loaded) = "hub" /\ app_Env (c_App demo_loaded) = "prod"
  /\ Driver (c_Database demo_loaded) = "pgx"
  /\ split_path "database__max_open_conns" = ["database"; "max_open_conns"].
Proof. vm_compute. done. Qed.

Lemma layers_override_witness :
  (forall file, file ∈ demo_paths -> file <> "" ->
     is_Some (layer (H0 := demo_host) (H1 := demo_codec) file)) /\
  None = Validate (H := any_key) (H0 := demo_host) demo_loaded /\
  exists D cfg0, json_Decode (Codec := demo_codec) D = inl cfg0 /\
    demo_loaded = set_casdoor (set_casdoor_defaults (c_Casdoor cfg0)) cfg0 /\
    forall path,
      (forall e1 kv e2 v, demo_environ = e1 ++ kv :: e2 ->
         env_setting (H1 := demo_codec) kv = Some (path, v) ->
         Forall (env_apart (H1 := demo_codec) path) e2 -> get path (node D) = Some (leaf (any_string v)))
      /\ (Forall (env_apart (H1 := demo_codec) path) demo_environ ->
           (forall p1 file p2 d v, demo_paths = p1 ++ file :: p2 ->
              layer (H0 := demo_host) (H1 := demo_codec) file = Some d ->
              get path (node d) = Some (leaf v) ->
              Forall (file_silent (H0 := demo_host) (H1 := demo_codec) path) p2 ->
              get path (node D) = Some (leaf v))
           /\ (Forall (file_silent (H0 := demo_host) (H1 := demo_codec) path) demo_paths ->
               get path (node D) = get path (node (yaml_Default (Codec := demo_codec))))).
Proof.
  apply (layers_override (H := any_key) (H0 := demo_host) (H1 := demo_codec) demo_environ demo_paths).
  - intros b d. simpl. unfold demo_yaml. destruct (Cut _ b) as [[s r]|]; [|done].
    destruct (Cut _ r) as [[k v]|]; [|done]. intros [= <-]. constructor; [by apply NoDup_singleton|].
    intros k0 v0. simpl. case_decide; [|done]. intros [= <-]. constructor; [by apply NoDup_singleton|].
    intros k1 v1. simpl. case_decide; [|done]. intros [= <-]. constructor.
  - vm_compute. reflexivity.
Defined.
