(* ===== verification/Starter.v ===== *)
(** * Start-up and shutdown of a service ([starter/runtime.go],
    [starter/cleanup.go], [starter/serve.go]).

    [NewRuntime] opens the components that the configuration switches on, in
    order, and undoes what it did when one fails.  The state [S] is that of all
    remote services and of the process-wide metrics registry, which [GlobalRegistry]
    finds in it. *)

From S2P Require Import Prelude GoStrings GoText GoURL GoTime Logger Principal Logx Env Retry Authn Authz AuditEvents Access Permission.
From S2P Require Import CasdoorClient CasdoorConfig CasdoorPolicy CasdoorAdapter Redis Lock Session DbTx ObjectStore Database.
From S2P Require Import DbDSN DbOpen MetricsRegistry Config.

(** ** CleanupStack *)

Section cleanup.
Context {W : Type}.

(** The functions in the order they were added. *)
Definition CleanupStack : Type := list (prog W (option error)).

Definition Add (s : CleanupStack) (fn : option (prog W (option error))) : CleanupStack :=
  match fn with Some fn => s ++ [fn] | None => s end.

(** The loop of [Close]: every function runs, whatever the others return. *)
Fixpoint close_loop (funcs : list (prog W (option error))) : prog W (list error) :=
  match funcs with
  | [] => mret []
  | fn :: funcs => err ← fn; errs ← close_loop funcs; mret (option_list err ++ errs)
  end.

Definition CleanupStack_Close (s : CleanupStack) : prog W (option error) :=
  errs ← close_loop (reverse s); mret (errors_Join errs).
End cleanup.
Arguments CleanupStack W : clear implicits.

(** ** The runtime *)

Record Runtime (S : Type) := mkRuntime {
  rt_Config : option config_Config;  (* *config.Config *)
  rt_DB : option positive;
  rt_Database : Database;
  rt_SQL : Database;
  rt_Redis : UniversalClient;
  rt_RedisRuntime : option Redis;
  rt_S3 : option MinIOClient;        (* objectstore.Client; MinIOClient is its only implementation *)
  rt_Casdoor : option Adapter;
  rt_Authn : option (Authenticator (World S));
  rt_Authz : option (Authorizer (World S));
  rt_Audit : option (Recorder (World S));
  rt_Access : option (Guard (World S));
  rt_Session : option Session;
  rt_Tx : option TxManager;
  rt_Permission : option (Manager (World S));
  rt_Metrics : option Metrics;
  rt_Logger : option Logger;
}.
Arguments mkRuntime {S}. Arguments rt_Config {S}. Arguments rt_DB {S}. Arguments rt_Database {S}.
Arguments rt_SQL {S}. Arguments rt_Redis {S}. Arguments rt_RedisRuntime {S}. Arguments rt_S3 {S}.
Arguments rt_Casdoor {S}. Arguments rt_Authn {S}. Arguments rt_Authz {S}. Arguments rt_Audit {S}.
Arguments rt_Access {S}. Arguments rt_Session {S}. Arguments rt_Tx {S}. Arguments rt_Permission {S}.
Arguments rt_Metrics {S}. Arguments rt_Logger {S}.

Section updates.
Context {S : Type}.
Implicit Types (rt : Runtime S).

Definition empty_runtime (cfg : config_Config) (logger : Logger) : Runtime S :=
  mkRuntime (Some cfg) None NilDatabase NilDatabase None None None None None None None None None None None None
    (Some logger).

Definition with_metrics (m : option Metrics) rt : Runtime S :=
  mkRuntime (rt_Config rt) (rt_DB rt) (rt_Database rt) (rt_SQL rt) (rt_Redis rt) (rt_RedisRuntime rt)
    (rt_S3 rt) (rt_Casdoor rt) (rt_Authn rt) (rt_Authz rt) (rt_Audit rt) (rt_Access rt) (rt_Session rt)
    (rt_Tx rt) (rt_Permission rt) m (rt_Logger rt).
Definition with_database (db : Database) (gorm : positive) rt : Runtime S :=
  mkRuntime (rt_Config rt) (Some gorm) db db (rt_Redis rt) (rt_RedisRuntime rt)
    (rt_S3 rt) (rt_Casdoor rt) (rt_Authn rt) (rt_Authz rt) (rt_Audit rt) (rt_Access rt) (rt_Session rt)
    (Some (mkTxManager (Some gorm))) (rt_Permission rt) (rt_Metrics rt) (rt_Logger rt).
Definition with_redis (r : Redis) rt : Runtime S :=
  mkRuntime (rt_Config rt) (rt_DB rt) (rt_Database rt) (rt_SQL rt) (redis_client r) (Some r)
    (rt_S3 rt) (rt_Casdoor rt) (rt_Authn rt) (rt_Authz rt) (rt_Audit rt) (rt_Access rt) (rt_Session rt)
    (rt_Tx rt) (rt_Permission rt) (rt_Metrics rt) (rt_Logger rt).
Definition with_session (m : option Session) rt : Runtime S :=
  mkRuntime (rt_Config rt) (rt_DB rt) (rt_Database rt) (rt_SQL rt) (rt_Redis rt) (rt_RedisRuntime rt)
    (rt_S3 rt) (rt_Casdoor rt) (rt_Authn rt) (rt_Authz rt) (rt_Audit rt) (rt_Access rt) m
    (rt_Tx rt) (rt_Permission rt) (rt_Metrics rt) (rt_Logger rt).
Definition with_s3 (s3 : MinIOClient) rt : Runtime S :=
  mkRuntime (rt_Config rt) (rt_DB rt) (rt_Database rt) (rt_SQL rt) (rt_Redis rt) (rt_RedisRuntime rt)
    (Some s3) (rt_Casdoor rt) (rt_Authn rt) (rt_Authz rt) (rt_Audit rt) (rt_Access rt) (rt_Session rt)
    (rt_Tx rt) (rt_Permission rt) (rt_Metrics rt) (rt_Logger rt).
Definition with_casdoor (a : Adapter) (authn : Authenticator (World S)) (authz : Authorizer (World S))
    (audit : Recorder (World S)) rt : Runtime S :=
  mkRuntime (rt_Config rt) (rt_DB rt) (rt_Database rt) (rt_SQL rt) (rt_Redis rt) (rt_RedisRuntime rt)
    (rt_S3 rt) (Some a) (Some authn) (Some authz) (Some audit) (rt_Access rt) (rt_Session rt)
    (rt_Tx rt) (rt_Permission rt) (rt_Metrics rt) (rt_Logger rt).
Definition with_permission (m : Manager (World S)) rt : Runtime S :=
  mkRuntime (rt_Config rt) (rt_DB rt) (rt_Database rt) (rt_SQL rt) (rt_Redis rt) (rt_RedisRuntime rt)
    (rt_S3 rt) (rt_Casdoor rt) (rt_Authn rt) (rt_Authz rt) (rt_Audit rt) (rt_Access rt) (rt_Session rt)
    (rt_Tx rt) (Some m) (rt_Metrics rt) (rt_Logger rt).
Definition with_access (g : option (Guard (World S))) rt : Runtime S :=
  mkRuntime (rt_Config rt) (rt_DB rt) (rt_Database rt) (rt_SQL rt) (rt_Redis rt) (rt_RedisRuntime rt)
    (rt_S3 rt) (rt_Casdoor rt) (rt_Authn rt) (rt_Authz rt) (rt_Audit rt) g (rt_Session rt)
    (rt_Tx rt) (rt_Permission rt) (rt_Metrics rt) (rt_Logger rt).
End updates.

(** [prometheus.DefaultRegisterer] and the allocation of collectors, in [S]. *)
Class GlobalRegistry (S R : Type) := {
  registry_get : S -> R * positive;
  registry_set : R * positive -> S -> S;
}.

Section starter.
Context {S R : Type} {casdoor : CasdoorClient S} {redis : RedisClient S} {driver : SqlDriver S}
  {minio : MinioClient S} {reg : Registerer R} {global : GlobalRegistry S R}.
Context `{X509, Host, Encoding, NetURL}.
(** The role mapper of the adapter, the random bytes of its record names, the
    order in which a map of DSN settings is ranged over, and [slog.Default()]. *)
Context (rm : roleMapper) (entropy : option bytes) (range : list (string * string)) (slog_Default : Logger).
Implicit Types (w : World S) (c : ctx) (rt : Runtime S) (cleanups : CleanupStack (World S)).

(** A program on the registry, in the world. *)
Definition in_registry {A} (m : prog (R * positive) A) : prog (World S) A := fun w =>
  let '(r, s) := m (registry_get (w_svc w)) in (r, set_svc (registry_set s (w_svc w)) w).

(** [metrics.New]; a construction that succeeds sets all four vectors. *)
Definition metrics_New (cfg : metrics_Config) (component : string)
    : prog (World S) (option Metrics * option error) :=
  '(m, err) ← in_registry (NewWithRegistry cfg component);
  mret ((fun _ => mkMetrics true true true true) <$> (m : option MetricSet), err).

(** A stage goes on with a runtime and a stack, or has failed and cleaned up. *)
Notation stage := (prog (World S) (Runtime S * CleanupStack (World S) + error)).

Definition fail cleanups (err : error) : stage := _ ← CleanupStack_Close cleanups; mret (inr err).

Definition init_metrics (cfg : config_Config) rt cleanups : stage :=
  if ft_Metrics (c_Features cfg) then
    '(m, err) ← metrics_New (c_Metrics cfg) (app_Name (c_App cfg));
    match err with
    | Some err => fail cleanups (errWrap "init metrics: " err "")
    | None => mret (inl (with_metrics m rt, cleanups))
    end
  else mret (inl (rt, cleanups)).

Definition init_database c (cfg : config_Config) rt cleanups : stage :=
  if ft_DB (c_Features cfg) then
    '(sqldb, err) ← NewDatabase strconv_Quote range c (c_Database cfg) (rt_Metrics rt);
    match err with
    | Some err => fail cleanups err
    | None =>
        gorm ← Database_GORM sqldb;
        mret (inl (with_database sqldb gorm rt, Add cleanups (Some (Database_Close sqldb))))
    end
  else mret (inl (rt, cleanups)).

Definition init_cache c (cfg : config_Config) rt cleanups : stage :=
  if ft_Cache (c_Features cfg) then
    '(r, err) ← NewRedis c (c_Redis cfg) (rt_Metrics rt);
    match err, r with
    | Some err, _ => fail cleanups err
    | None, None => panic "invalid memory address or nil pointer dereference"
    | None, Some r =>
        let rt := with_redis r rt in
        let rt := if ft_Session (c_Features cfg)
                  then with_session (NewManager (redis_client r) (c_Session cfg)) rt else rt in
        mret (inl (rt, Add cleanups (Some (Redis_Close (Some r)))))
    end
  else mret (inl (rt, cleanups)).

Definition init_objectstore c (cfg : config_Config) rt cleanups : stage :=
  if ft_S3 (c_Features cfg) then
    '(s3, err) ← NewMinIO strconv_Quote c (c_ObjectStore cfg) (rt_Metrics rt);
    match err, s3 with
    | Some err, _ => fail cleanups err
    | None, None => panic "invalid memory address or nil pointer dereference"
    | None, Some s3 => mret (inl (with_s3 s3 rt, cleanups))
    end
  else mret (inl (rt, cleanups)).

(** One adapter serves all the features; it is set as authenticator,
    authorizer and recorder whichever of them is on. *)
Definition init_casdoor (cfg : config_Config) rt cleanups : stage :=
  if uses_casdoor (c_Features cfg) then
    let opts := [Some (WithMetrics (rt_Metrics rt))] in
    let '(adapter, err) :=
      if ft_Authn (c_Features cfg) then NewChecked (c_Casdoor cfg) opts
      else (New (c_Casdoor cfg) opts, None) in
    match err, adapter with
    | Some err, _ => fail cleanups (errWrap "init casdoor: " err "")
    | None, None => panic "invalid memory address or nil pointer dereference"
    | None, Some a =>
        let rt := with_casdoor a (casdoor_authenticator a) (casdoor_authorizer a)
                    (casdoor_recorder a entropy) rt in
        let rt := if ft_Permission (c_Features cfg) then with_permission (casdoor_manager rm a) rt else rt in
        mret (inl (rt, cleanups))
    end
  else mret (inl (rt, cleanups)).

(** The next stage, unless the last one failed. *)
Definition next (m : stage) (k : Runtime S -> CleanupStack (World S) -> stage) : stage :=
  r ← m;
  match r with
  | inl (rt, cleanups) => k rt cleanups
  | inr err => mret (inr err)
  end.

(** [&Runtime{Config: cfg, Logger: logger}], after the options. *)
Definition initial_runtime (cfg : config_Config) (opts : list (option (Runtime S -> Runtime S))) : Runtime S :=
  let logger := log_With (log_New (c_Log cfg))
    [any_string "app"; any_string (app_Name (c_App cfg)); any_string "env"; any_string (app_Env (c_App cfg));
     any_string "version"; any_string (app_Version (c_App cfg))] in
  foldl (fun rt o => match o with Some f => f rt | None => rt end) (empty_runtime cfg logger) opts.

(** [logx.NewContext] panics on a nil context, and logging on a nil logger,
    which only an option can have set. *)
Definition NewRuntime c (cfg : config_Config) (opts : list (option (Runtime S -> Runtime S)))
    : prog (World S) (option (Runtime S * CleanupStack (World S)) * option error) :=
  let rt := initial_runtime cfg opts in
  c ← log_NewContext slog_Default c (rt_Logger rt);
  _ ← match rt_Logger rt with
      | Some _ => mret tt
      | None => panic "invalid memory address or nil pointer dereference"
      end;
  r ← next (next (next (next (init_metrics cfg rt [])
         (init_database c cfg)) (init_cache c cfg)) (init_objectstore c cfg)) (init_casdoor cfg);
  match r with
  | inr err => mret (None, Some err)
  | inl (rt, cleanups) =>
      mret (Some (with_access (NewGuard (rt_Authz rt) (rt_Audit rt) (app_Name (c_App cfg))) rt, cleanups), None)
  end.

Definition Runtime_WithTx `{!GormTx (World S)} (rt : option (Runtime S)) c
    (fn : ctx -> positive -> prog (World S) (option error)) : prog (World S) (option error) :=
  match rt ≫= rt_Tx with
  | None => mret (Some (errText "runtime transaction manager is nil"))
  | Some tx => WithTx (Some tx) c fn
  end.

Definition DBFromContext `{!GormTx (World S)} (rt : option (Runtime S)) c
    : prog (World S) (option positive) :=
  match rt ≫= rt_Tx with
  | None => mret None
  | Some tx => TxManager_DB (Some tx) c
  end.
End starter.

(** ** The cleanup stack *)

Section cleanup_theorems.
Context {W : Type}.
Implicit Types (w : W) (fs : list (prog W (option error))).

(** The functions called one after the other, each to its own result. *)
Inductive runs : list (prog W (option error)) -> W -> list (option error) -> W -> Prop :=
  | runs_nil w : runs [] w [] w
  | runs_cons fn fs w e w1 es w2 :
      fn w = (Ret e, w1) -> runs fs w1 es w2 -> runs (fn :: fs) w (e :: es) w2.

Lemma close_loop_runs fs w errs w' :
  close_loop fs w = (Ret errs, w') <-> exists es, runs fs w es w' /\ errs = omap id es.
Proof.
  revert w errs w'. induction fs as [|fn fs IH]; intros w errs w'; cbn [close_loop].
  - split; [intros [= <- <-]; exists []; split; [constructor|done]|].
    intros (es & Hr & ->). by inversion Hr.
  - split.
    + intros (e & w1 & E & (errs' & w2 & (es & Hr & ->)%IH & [= <- <-])%bind_Ret_inv)%bind_Ret_inv.
      exists (e :: es). split; [by econstructor|]. by destruct e.
    + intros (es & Hr & ->). inversion Hr as [|? ? ? e w1 es' ? E Hr']; subst.
      rewrite (run_bind_Ret _ _ _ _ _ E), run_bind, (proj2 (IH w1 (omap id es') w')) by eauto.
      by destruct e.
Qed.

Lemma runs_length fs w es w' : runs fs w es w' -> length es = length fs.
Proof. induction 1; simpl; congruence. Qed.

(** C23: closing a stack calls every function once, the last one added first,
    whatever the others returned; it returns nil exactly when all of them did,
    and otherwise all their errors, joined in the order of the calls. *)
Theorem CleanupStack_lifo (s : CleanupStack W) fn w err w' :
  CleanupStack_Close (Add s (Some fn)) w = (Ret err, w') <->
  exists e w1 es, fn w = (Ret e, w1) /\ runs (reverse s) w1 es w' /\ length es = length s
    /\ err = errors_Join (omap id (e :: es))
    /\ (err = None <-> Forall (fun x => x = None) (e :: es)).
Proof.
  assert (forall es : list (option error), errors_Join (omap id es) = None <-> Forall (fun x => x = None) es) as Hnil.
  { intros es. rewrite errors_Join_None. induction es as [|[x|] es IH]; simpl; [done| |].
    - split; [done|]. by intros [? _]%Forall_cons.
    - rewrite Forall_cons, <- IH. naive_solver. }
  unfold CleanupStack_Close, Add. rewrite reverse_snoc. split.
  - intros (errs & w2 & (es & Hr & ->)%close_loop_runs & [= <- <-])%bind_Ret_inv.
    inversion Hr as [|? ? ? e w1 es' ? E Hr']; subst. exists e, w1, es'.
    split; [done|]. split; [done|]. split; [by rewrite (runs_length _ _ _ _ Hr'), length_reverse|].
    split; [done|apply Hnil].
  - intros (e & w1 & es & E & Hr & _ & -> & _).
    rewrite run_bind, (proj2 (close_loop_runs (fn :: reverse s) w (omap id (e :: es)) w')); [done|].
    exists (e :: es). split; [by econstructor|done].
Qed.
End cleanup_theorems.

(** ** Start-up leaves nothing open *)

(** The calls that start-up makes, seen through what is open. *)
Class RuntimeLaws {S R} (redis : RedisClient S) (driver : SqlDriver S) (minio : MinioClient S)
    (global : GlobalRegistry S R) (open : S -> gset resource) : Prop := {
  runtime_sql :: SqlLaws driver open;
  client_New_gives opts s h s' : client_New opts s = (h, s') ->
    RedisConn (rh_id h) ∉ open s /\ open s' = {[RedisConn (rh_id h)]} ∪ open s;
  client_Ping_keeps h c now s : open (client_Ping h c now s).2 = open s;
  client_Close_closes h now s : open (client_Close h now s).2 = open s ∖ {[RedisConn (rh_id h)]};
  minio_BucketExists_keeps h c b now s : open (minio_BucketExists h c b now s).2 = open s;
  minio_MakeBucket_keeps h c b r now s : open (minio_MakeBucket h c b r now s).2 = open s;
  registry_set_keeps x s : open (registry_set x s) = open s;
}.

Lemma logger_checked {W} (l : option Logger) (w w' : W) :
  (match l with
   | Some _ => mret tt
   | None => panic "invalid memory address or nil pointer dereference"
   end : prog W unit) w = (Ret tt, w') -> is_Some l /\ w' = w.
Proof. destruct l; [|done]. intros [= <-]. by split. Qed.

Section runtime_theorems.
Context {S R : Type} {casdoor : CasdoorClient S} {redis : RedisClient S} {driver : SqlDriver S}
  {minio : MinioClient S} {reg : Registerer R} {global : GlobalRegistry S R}.
Context `{X509, Host, Encoding, NetURL}.
Context (rm : roleMapper) (entropy : option bytes) (range : list (string * string)) (slog_Default : Logger).
Context (open : S -> gset resource) `{!RuntimeLaws redis driver minio global open}.
Implicit Types (w : World S) (c : ctx) (rt : Runtime S) (cleanups : CleanupStack (World S)).

Notation opened := (opened open).
Notation left_open := (left_open open).

(** Running the stack gives back [X]. *)
Definition closes cleanups (X : gset resource) : Prop :=
  forall w err w', CleanupStack_Close cleanups w = (Ret err, w') -> opened w' = opened w ∖ X.

Lemma closes_nil : closes [] ∅.
Proof. intros w err w' [= _ <-]. set_solver. Qed.

Lemma closes_add cleanups X fn r :
  closes cleanups X -> (forall w e w', fn w = (Ret e, w') -> opened w' = opened w ∖ {[r]}) ->
  closes (Add cleanups (Some fn)) ({[r]} ∪ X).
Proof.
  intros Hc Hf w err w' Hrun. unfold CleanupStack_Close, Add in Hrun. rewrite reverse_snoc in Hrun.
  apply bind_Ret_inv in Hrun as (errs & w2 & (es & Hr & ->)%close_loop_runs & [= _ <-]).
  inversion Hr as [|? ? ? e w1 es' ? E Hr']; subst. apply Hf in E.
  assert (CleanupStack_Close cleanups w1 = (Ret (errors_Join (omap id es')), w2)) as Hrest.
  { unfold CleanupStack_Close. rewrite run_bind, (proj2 (close_loop_runs _ w1 (omap id es') w2)); eauto. }
  apply Hc in Hrest. rewrite Hrest, E. set_solver.
Qed.

(** After a stage that began with [O] open: the stack accounts for the rest; or
    the stage failed, and at most what gorm kept is left. *)
Definition accounted (O : gset resource) (r : Runtime S * CleanupStack (World S) + error) w : Prop :=
  match r with
  | inl (rt, cleanups) => exists X, X ## O /\ opened w = X ∪ O /\ closes cleanups X
  | inr err => left_open err O (opened w)
  end.

(** Closing [X] after a failure that began with [X] and [O] open. *)
Lemma left_open_closed err (X O O' : gset resource) :
  X ## O -> left_open err (X ∪ O) O' -> left_open err O (O' ∖ X).
Proof.
  intros Hd [->|(pre & e & p & -> & Hpre & Hr & Hp & ->)]; [left; set_solver|].
  right. exists pre, e, p. split_and!; [done..|set_solver|set_solver].
Qed.

Lemma fail_accounted O X cleanups err w r w' :
  X ## O -> left_open err (X ∪ O) (opened w) -> closes cleanups X ->
  fail cleanups err w = (Ret r, w') -> accounted O r w'.
Proof.
  intros Hd Ho Hc (e & w1 & E%Hc & [= <- <-])%bind_Ret_inv. simpl. rewrite E. by apply left_open_closed.
Qed.

Lemma registry_opened {A} (m : prog (R * positive) A) w x w' :
  in_registry m w = (Ret x, w') -> opened w' = opened w.
Proof.
  unfold in_registry. destruct (m _) as [[y|e] s]; [|done]. intros [= _ <-].
  unfold DbOpen.opened. simpl. apply registry_set_keeps.
Qed.

Lemma NewRedis_opened c cfg metrics w r err w' :
  NewRedis c cfg metrics w = (Ret (r, err), w') ->
  match err with
  | Some _ => opened w' = opened w
  | None => forall rd, r = Some rd -> exists h, redis_client rd = Some h /\ RedisConn (rh_id h) ∉ opened w
      /\ opened w' = {[RedisConn (rh_id h)]} ∪ opened w
  end.
Proof.
  unfold NewRedis. intros (t & w0 & E0%(time_Now_opened open) & E)%bind_Ret_inv. rewrite <- E0.
  destruct (redis_options cfg) as [opts|e]; [|by injection E as <- <- <-].
  rewrite run_bind in E. cbn [gets] in E. destruct (client_New opts (w_svc w0)) as [h s'] eqn:En.
  rewrite run_bind in E. cbn [modify] in E. set (w1 := set_svc s' w0) in E.
  apply client_New_gives in En as [Hn En].
  assert (opened w1 = {[RedisConn (rh_id h)]} ∪ opened w0) as Hw1 by exact En.
  apply bind_Ret_inv in E as (e & w2 & E2 & E).
  apply (timed_keeps open) in E2; [|intros; apply client_Ping_keeps]. destruct e as [e|].
  - apply bind_Ret_inv in E as (x & w3 & E3 & E).
    apply (timed_opened open _ (fun _ a b => b = a ∖ {[RedisConn (rh_id h)]})) in E3.
    2:{ intros now s y s2 Ef. by rewrite <- (client_Close_closes h now s), Ef. }
    apply bind_Ret_inv in E as (y & w4 & E4%(observe_opened open) & [= <- <- <-]).
    rewrite E4, E3, E2, Hw1. unfold DbOpen.opened in *. set_solver.
  - apply bind_Ret_inv in E as (y & w4 & E4%(observe_opened open) & [= <- <- <-]).
    intros rd [= <-]. exists h. split; [done|]. split; [done|]. by rewrite E4, E2.
Qed.

Lemma observed_opened {A} m op (f : Time -> S -> (A + error) * S) w r w' :
  (forall now s, open (f now s).2 = open s) -> observed m op f w = (Ret r, w') -> opened w' = opened w.
Proof.
  intros Hf. apply (observed_view open m op f (fun _ a b => b = a)).
  intros now s x s' E. by rewrite <- (Hf now s), E.
Qed.

Lemma BucketExists_opened m c w x w' : BucketExists m c w = (Ret x, w') -> opened w' = opened w.
Proof.
  unfold BucketExists. intros (r & w1 & E & H')%bind_Ret_inv.
  apply observed_opened in E; [|intros; apply minio_BucketExists_keeps]. rewrite <- E.
  by destruct r; injection H' as _ <-.
Qed.

Lemma EnsureBucket_opened m c w x w' : EnsureBucket m c w = (Ret x, w') -> opened w' = opened w.
Proof.
  unfold EnsureBucket. intros ([b e] & w1 & <-%BucketExists_opened & E)%bind_Ret_inv.
  destruct e as [e|]; [by injection E as _ <-|]. destruct b; [by injection E as _ <-|].
  apply bind_Ret_inv in E as (t & w2 & <-%(time_Now_opened open) & E).
  apply bind_Ret_inv in E as (e & w3 & E3 & E).
  apply (timed_keeps open) in E3; [|intros; apply minio_MakeBucket_keeps]. rewrite <- E3.
  apply bind_Ret_inv in E as (y & w4 & <-%(observe_opened open) & E).
  by destruct e; injection E as _ <-.
Qed.

Lemma NewMinIO_opened c cfg metrics w x w' :
  NewMinIO strconv_Quote c cfg metrics w = (Ret x, w') -> opened w' = opened w.
Proof.
  unfold NewMinIO. intros (t & w0 & <-%(time_Now_opened open) & E)%bind_Ret_inv.
  case_decide; [by injection E as _ <-|]. case_decide; [by injection E as _ <-|].
  destruct (minio_New _ _) as [cli|e].
  2:{ by apply bind_Ret_inv in E as (y & w1 & <-%(observe_opened open) & [= _ <-]). }
  apply bind_Ret_inv in E as ([b e] & w1 & <-%BucketExists_opened & E).
  destruct e as [e|]; [by apply bind_Ret_inv in E as (y & w2 & <-%(observe_opened open) & [= _ <-])|].
  apply bind_Ret_inv in E as (e & w2 & E2 & E).
  assert (opened w2 = opened w1) as <-.
  { destruct (negb b && os_AutoCreateBucket cfg); [by apply EnsureBucket_opened in E2|by injection E2 as _ <-]. }
  destruct e as [e|]; [by injection E as _ <-|].
  by apply bind_Ret_inv in E as (y & w3 & <-%(observe_opened open) & [= _ <-]).
Qed.

(** A stage that keeps the account. *)
Definition sound (k : Runtime S -> CleanupStack (World S) -> prog (World S) (Runtime S * CleanupStack (World S) + error))
    : Prop :=
  forall O rt cleanups w r w', accounted O (inl (rt, cleanups)) w ->
    k rt cleanups w = (Ret r, w') -> accounted O r w'.

Lemma next_accounted O m k w r w' :
  (forall r1 w1, m w = (Ret r1, w1) -> accounted O r1 w1) -> sound k ->
  next m k w = (Ret r, w') -> accounted O r w'.
Proof.
  intros Hm Hk (r1 & w1 & E%Hm & Hr)%bind_Ret_inv. destruct r1 as [[rt cl]|e].
  - by apply (Hk _ _ _ _ _ _ E).
  - by injection Hr as <- <-.
Qed.

Lemma accounted_step O rt cleanups rt' w w' :
  opened w' = opened w -> accounted O (inl (rt, cleanups)) w -> accounted O (inl (rt', cleanups)) w'.
Proof. intros E (X & Hd & Ho & Hc). exists X. by rewrite E. Qed.

Lemma accounted_fail O rt cleanups err w w0 r w' :
  left_open err (opened w0) (opened w) -> accounted O (inl (rt, cleanups)) w0 ->
  fail cleanups err w = (Ret r, w') -> accounted O r w'.
Proof. intros E (X & Hd & Ho & Hc). apply (fail_accounted O X); [done| |done]. by rewrite <- Ho. Qed.

Lemma accounted_clean O rt cleanups err w w0 r w' :
  opened w = opened w0 -> accounted O (inl (rt, cleanups)) w0 ->
  fail cleanups err w = (Ret r, w') -> accounted O r w'.
Proof. intros E. apply accounted_fail. by left. Qed.

(** Something new is opened, and the function that closes it is added. *)
Lemma accounted_add O rt rt' cleanups fn x w w' :
  accounted O (inl (rt, cleanups)) w -> x ∉ opened w -> opened w' = {[x]} ∪ opened w ->
  (forall w1 e w2, fn w1 = (Ret e, w2) -> opened w2 = opened w1 ∖ {[x]}) ->
  accounted O (inl (rt', Add cleanups (Some fn))) w'.
Proof.
  intros (X & Hd & Ho & Hc) Hx Ho' Hfn. exists ({[x]} ∪ X). rewrite Ho' , Ho. rewrite Ho in Hx.
  split; [set_solver|]. split; [by rewrite (assoc_L (∪))|]. by apply closes_add.
Qed.

Lemma init_metrics_sound cfg : sound (init_metrics cfg).
Proof.
  intros O rt cl w r w' Ha. unfold init_metrics. destruct (ft_Metrics _); [|by intros [= <- <-]].
  intros ([m e] & w1 & E & Hr)%bind_Ret_inv. unfold metrics_New in E.
  apply bind_Ret_inv in E as ([ms me] & w2 & E & [= _ <- <-]). apply registry_opened in E.
  destruct me as [err|]; [by apply (accounted_clean O rt cl _ w2 w) in Hr|].
  injection Hr as <- <-. by apply (accounted_step O rt cl _ w).
Qed.

Lemma init_database_sound c cfg : sound (init_database range c cfg).
Proof.
  intros O rt cl w r w' Ha. unfold init_database. destruct (ft_DB _); [|by intros [= <- <-]].
  intros ([db e] & w1 & E & Hr)%bind_Ret_inv. destruct e as [err|].
  - apply (NewDatabase_failed _ open) in E as [E _].
    by apply (accounted_fail O rt cl err w1 w) in Hr.
  - apply (NewDatabase_opens _ open) in E as (p & _ & _ & Hp & Ho & Hclose).
    apply bind_Ret_inv in Hr as (g & w2 & Eg & [= <- <-]).
    assert (w2 = w1) as ->. { unfold Database_GORM in Eg. by destruct (pool_of db); [injection Eg|]. }
    by apply (accounted_add O rt _ cl _ (SqlPool p) w).
Qed.

Lemma init_cache_sound c cfg : sound (init_cache c cfg).
Proof.
  intros O rt cl w r w' Ha. unfold init_cache. destruct (ft_Cache _); [|by intros [= <- <-]].
  intros ([rd e] & w1 & E & Hr)%bind_Ret_inv. apply NewRedis_opened in E. destruct e as [err|].
  - by apply (accounted_clean O rt cl err w1 w) in Hr.
  - destruct rd as [rd|]; [|done]. destruct (E rd eq_refl) as (h & Hh & Hn & Ho). injection Hr as <- <-.
    apply (accounted_add O rt _ cl _ (RedisConn (rh_id h)) w); [done..|].
    intros w2 e w3. unfold Redis_Close. simpl. rewrite Hh.
    intros (t & w4 & <-%(time_Now_opened open) & Ec)%bind_Ret_inv.
    apply (timed_opened open _ (fun _ a b => b = a ∖ {[RedisConn (rh_id h)]})) in Ec; [done|].
    intros now s y s2 Ef. by rewrite <- (client_Close_closes h now s), Ef.
Qed.

Lemma init_objectstore_sound c cfg : sound (init_objectstore c cfg).
Proof.
  intros O rt cl w r w' Ha. unfold init_objectstore. destruct (ft_S3 _); [|by intros [= <- <-]].
  intros ([s3 e] & w1 & E%NewMinIO_opened & Hr)%bind_Ret_inv. destruct e as [err|].
  - by apply (accounted_clean O rt cl err w1 w) in Hr.
  - destruct s3 as [s3|]; [|done]. injection Hr as <- <-. by apply (accounted_step O rt cl _ w).
Qed.

Lemma init_casdoor_sound cfg : sound (init_casdoor rm entropy cfg).
Proof.
  intros O rt cl w r w' Ha. unfold init_casdoor. destruct (uses_casdoor _); [|by intros [= <- <-]].
  destruct (if ft_Authn _ then _ else _) as [a [err|]].
  - intros Hr. by apply (accounted_clean O rt cl _ w w) in Hr.
  - destruct a as [a|]; [|done]. intros [= <- <-]. by apply (accounted_step O rt cl _ w).
Qed.

(** What a call of [NewRuntime] that returned leaves open. *)
Definition leak_free (result : option (Runtime S * CleanupStack (World S))) (err : option error) w w' : Prop :=
  match result with
  | None => exists e, err = Some e /\ left_open e (opened w) (opened w')
  | Some (_, cleanups) => err = None /\ exists X, X ## opened w /\ opened w' = X ∪ opened w
      /\ forall w1 e w2, CleanupStack_Close cleanups w1 = (Ret e, w2) -> opened w2 = opened w1 ∖ X
  end.

Lemma NewRuntime_leak_free c cfg opts w result err w' :
  NewRuntime rm entropy range slog_Default c cfg opts w = (Ret (result, err), w') ->
  leak_free result err w w'.
Proof.
  unfold NewRuntime. intros (c1 & w0' & Ec & Hrun)%bind_Ret_inv. pose proof (log_NewContext_run _ _ _ _ _ _ Ec) as ->.
  apply bind_Ret_inv in Hrun as ([] & w0'' & El & Hrun). apply logger_checked in El as [_ ->]. revert Hrun.
  intros (r & w1 & E & Hr)%bind_Ret_inv.
  assert (accounted (opened w) r w1) as Ha.
  { eapply next_accounted, E; [|apply init_casdoor_sound]. intros r1 w2 E1.
    eapply next_accounted, E1; [|apply init_objectstore_sound]. intros r2 w3 E2.
    eapply next_accounted, E2; [|apply init_cache_sound]. intros r3 w4 E3.
    eapply next_accounted, E3; [|apply init_database_sound]. intros r4 w5 E4.
    eapply init_metrics_sound, E4. exists ∅. split; [set_solver|]. split; [set_solver|]. apply closes_nil. }
  destruct r as [[rt1 cl]|e]; injection Hr as <- <- <-; [|by exists e].
  split; [done|]. destruct Ha as (X & Hd & Ho & Hc). by exists X.
Qed.

(** C5: start-up gives back what it was given.  If [NewRuntime] fails, at
    whichever component and however many were opened before, every connection
    pool and client that was handed over on the way has been closed; only if the
    failing step is gorm's own ([gorm.Open], or [DB()] on its handle), as the
    error says, can one pool stay open that gorm opened and did not hand over.
    If it succeeds, closing the cleanup function's stack closes exactly what
    start-up opened, even if some of the calls to close report errors. *)
Theorem NewRuntime_gives_back c cfg opts w result err w' :
  NewRuntime rm entropy range slog_Default c cfg opts w = (Ret (result, err), w') ->
  match result with
  | None => exists e, err = Some e /\ left_open e (opened w) (opened w')
  | Some (_, cleanups) => err = None /\ exists X, X ## opened w /\ opened w' = X ∪ opened w
      /\ forall w1 e w2, CleanupStack_Close cleanups w1 = (Ret e, w2) -> opened w2 = opened w1 ∖ X
  end.
Proof. apply NewRuntime_leak_free. Qed.
End runtime_theorems.

(** ** What a started runtime holds *)

Section started.
Context {S R : Type} {casdoor : CasdoorClient S} {redis : RedisClient S} {driver : SqlDriver S}
  {minio : MinioClient S} {reg : Registerer R} {global : GlobalRegistry S R}.
Context `{X509, Host, Encoding, NetURL}.
Context (rm : roleMapper) (entropy : option bytes) (range : list (string * string)) (slog_Default : Logger).
Implicit Types (w : World S) (c : ctx) (rt : Runtime S) (cleanups : CleanupStack (World S)).

(** Each component is there exactly when it is switched on; the guard is over
    the adapter that the runtime holds. *)
Record fits (cfg : config_Config) rt : Prop := {
  fits_database : rt_Database rt <> NilDatabase <-> ft_DB (c_Features cfg) = true;
  fits_sql : rt_SQL rt = rt_Database rt;
  fits_tx : is_Some (rt_Tx rt ≫= tm_db) <-> ft_DB (c_Features cfg) = true;
  fits_gorm : rt_Tx rt ≫= tm_db = rt_DB rt;
  fits_pool : rt_DB rt = sp_DB <$> pool_of (rt_Database rt);
  fits_redis : is_Some (rt_RedisRuntime rt) <-> ft_Cache (c_Features cfg) = true;
  fits_session : is_Some (rt_Session rt) <-> ft_Cache (c_Features cfg) && ft_Session (c_Features cfg) = true;
  fits_s3 : is_Some (rt_S3 rt) <-> ft_S3 (c_Features cfg) = true;
  fits_metrics : is_Some (rt_Metrics rt) <-> ft_Metrics (c_Features cfg) = true;
  fits_casdoor : match rt_Casdoor rt with
                 | Some a => uses_casdoor (c_Features cfg) = true
                     /\ rt_Authn rt = Some (casdoor_authenticator a)
                     /\ rt_Authz rt = Some (casdoor_authorizer a)
                     /\ rt_Audit rt = Some (casdoor_recorder a entropy)
                     /\ rt_Permission rt = (if ft_Permission (c_Features cfg)
                                            then Some (casdoor_manager rm a) else None)
                 | None => uses_casdoor (c_Features cfg) = false /\ rt_Authn rt = None
                     /\ rt_Authz rt = None /\ rt_Audit rt = None /\ rt_Permission rt = None
                 end;
}.

Notation result := (Runtime S * CleanupStack (World S) + error)%type.

Lemma fail_never cleanups err w rt cl w' : fail cleanups err w = (Ret (inl (rt, cl) : result), w') -> False.
Proof. by intros (e & w1 & _ & [=])%bind_Ret_inv. Qed.

Lemma next_goes_on (m : prog (World S) result) k w rt cl w' :
  next m k w = (Ret (inl (rt, cl)), w') ->
  exists rt1 cl1 w1, m w = (Ret (inl (rt1, cl1)), w1) /\ k rt1 cl1 w1 = (Ret (inl (rt, cl)), w').
Proof. intros ([[rt1 cl1]|e] & w1 & E & Hr)%bind_Ret_inv; [by exists rt1, cl1, w1|done]. Qed.

Lemma init_metrics_sets cfg rt cl w rt2 cl2 w2 :
  init_metrics cfg rt cl w = (Ret (inl (rt2, cl2)), w2) ->
  exists m, rt2 = if ft_Metrics (c_Features cfg) then with_metrics (Some m) rt else rt.
Proof.
  unfold init_metrics. destruct (ft_Metrics (c_Features cfg)).
  - intros ([m e] & w1 & E & Hr)%bind_Ret_inv. destruct e as [e|]; [by apply fail_never in Hr|].
    injection Hr as <- _ _. unfold metrics_New in E.
    apply bind_Ret_inv in E as ([ms me] & w3 & E & [= <- -> _]).
    unfold in_registry in E. destruct (registry_get (w_svc w)) as [r n]. rewrite NewWithRegistry_run in E.
    destruct (for_each _ _ _) as [[[x|]|x] s] in E; [done| |done]. injection E as <- _.
    by exists (mkMetrics true true true true).
  - intros [= <- _ _]. by exists (mkMetrics true true true true).
Qed.

Lemma init_database_sets c cfg rt cl w rt2 cl2 w2 :
  init_database range c cfg rt cl w = (Ret (inl (rt2, cl2)), w2) ->
  exists db g, db <> NilDatabase /\ sp_DB <$> pool_of db = Some g /\
    rt2 = if ft_DB (c_Features cfg) then with_database db g rt else rt.
Proof.
  unfold init_database. destruct (ft_DB (c_Features cfg)).
  - intros ([db e] & w1 & E & Hr)%bind_Ret_inv. destruct e as [e|]; [by apply fail_never in Hr|].
    apply bind_Ret_inv in Hr as (g & w3 & Eg & [= <- _ _]). exists db, g. split; [intros ->; by unfold Database_GORM in Eg|].
    split; [|done]. unfold Database_GORM in Eg. destruct (pool_of db) as [p|]; [|done]. injection Eg as <- _. done.
  - intros [= <- _ _]. by exists (MySQL (Some (mkSqlPool 1 None None))), 1%positive.
Qed.

Lemma init_cache_sets c cfg rt cl w rt2 cl2 w2 :
  init_cache c cfg rt cl w = (Ret (inl (rt2, cl2)), w2) ->
  exists r, rt2 = if ft_Cache (c_Features cfg) then
                    if ft_Session (c_Features cfg)
                    then with_session (NewManager (redis_client r) (c_Session cfg)) (with_redis r rt)
                    else with_redis r rt
                  else rt.
Proof.
  unfold init_cache. destruct (ft_Cache (c_Features cfg)).
  - intros ([r e] & w1 & E & Hr)%bind_Ret_inv. destruct e as [e|]; [by apply fail_never in Hr|].
    destruct r as [r|]; [|done]. injection Hr as <- _ _. by exists r.
  - intros [= <- _ _]. by exists (mkRedis None None "").
Qed.

Lemma init_objectstore_sets c cfg rt cl w rt2 cl2 w2 :
  init_objectstore c cfg rt cl w = (Ret (inl (rt2, cl2)), w2) ->
  exists s3, rt2 = if ft_S3 (c_Features cfg) then with_s3 s3 rt else rt.
Proof.
  unfold init_objectstore. destruct (ft_S3 (c_Features cfg)).
  - intros ([s3 e] & w1 & E & Hr)%bind_Ret_inv. destruct e as [e|]; [by apply fail_never in Hr|].
    destruct s3 as [s3|]; [|done]. injection Hr as <- _ _. by exists s3.
  - intros [= <- _ _]. by exists (mkMinIOClient (c_ObjectStore cfg) 1 None).
Qed.

Lemma init_casdoor_sets cfg rt cl w rt2 cl2 w2 :
  init_casdoor rm entropy cfg rt cl w = (Ret (inl (rt2, cl2)), w2) ->
  exists a, rt2 = if uses_casdoor (c_Features cfg) then
      let rt' := with_casdoor a (casdoor_authenticator a) (casdoor_authorizer a)
                   (casdoor_recorder a entropy) rt in
      if ft_Permission (c_Features cfg) then with_permission (casdoor_manager rm a) rt' else rt'
    else rt.
Proof.
  unfold init_casdoor. destruct (uses_casdoor (c_Features cfg)).
  - destruct (if ft_Authn (c_Features cfg) then _ else _) as [a [e|]]; [by intros []%fail_never|].
    destruct a as [a|]; [|done]. intros [= <- _ _]. by exists a.
  - intros [= <- _ _]. exists (mkAdapter (c_Casdoor cfg) (NewPolicy (mkConfig 0 "")) None 0). done.
Qed.

(** C16: what a started runtime (without runtime options) holds, by the features
    of its configuration.  Database, cache, object store and metrics are there
    exactly when their feature is on, the session manager exactly when both the
    session and the cache feature are; the transaction manager is over the handle
    of the very database that was opened.  The Casdoor adapter is there as soon
    as any of authn, authz, audit and permission is on, and then it is installed
    as authenticator, authorizer and recorder together, and as permission
    manager if that feature is on; the access guard checks with that authorizer,
    so [Features.Authz = false] alone does not disable authorization. *)
Theorem started_runtime_fits c cfg w rt cl err w' :
  NewRuntime rm entropy range slog_Default c cfg [] w = (Ret (Some (rt, cl), err), w') ->
  fits cfg rt /\ rt_Access rt = NewGuard (rt_Authz rt) (rt_Audit rt) (app_Name (c_App cfg)).
Proof.
  unfold NewRuntime. intros (c1 & w0' & Ec & Hrun)%bind_Ret_inv. pose proof (log_NewContext_run _ _ _ _ _ _ Ec) as ->.
  apply bind_Ret_inv in Hrun as ([] & w0'' & El & Hrun). apply logger_checked in El as [_ ->]. revert Hrun.
  intros ([[rt5 cl5]|e] & w1 & E & Hr)%bind_Ret_inv; [|done]. injection Hr as <- _ _.
  apply next_goes_on in E as (rt4 & cl4 & w4 & E & E5%init_casdoor_sets).
  apply next_goes_on in E as (rt3 & cl3 & w3 & E & E4%init_objectstore_sets).
  apply next_goes_on in E as (rt2 & cl2 & w2 & E & E3%init_cache_sets).
  apply next_goes_on in E as (rt1 & cl1 & w0 & E1%init_metrics_sets & E2%init_database_sets).
  destruct E1 as [m ->], E2 as (db & g & Hdb & Hg & ->), E3 as [r ->], E4 as [s3 ->], E5 as [a ->].
  split; [|done].
  destruct cfg as [app srv [[] [] [] x1 x2 x3 [] x4 [] x5 x6] lg dbc rc oc cc mc sc hc shc]; simpl;
    destruct (uses_casdoor _) eqn:Eu; try destruct x5; split; simpl; try done;
    try (split; [done|]; by intros []); try (split; [by intros []|done]).
  all: try (split; [by intros [? ?]|done]).
Qed.
End started.

(** ** A concrete environment: what is open, and the metrics registry *)

Record Lab := mkLab { lab_open : list resource; lab_registry : list (opts * positive) * positive }.

Definition on_open {A} (f : list resource -> A * list resource) (s : Lab) : A * Lab :=
  let '(a, l) := f (lab_open s) in (a, mkLab l (lab_registry s)).

Definition lab_error : error := errForeign "lab" "down".

#[export] Instance lab_casdoor : CasdoorClient Lab := {
  sdk_AddPolicy _ _ s := ((true, None), s);
  sdk_RemovePolicy _ _ s := ((true, None), s);
  sdk_GetPolicies _ _ s := (([], None), s);
  sdk_Enforce _ _ s := ((false, None), s);
  sdk_AddRecord _ s := ((true, None), s);
  sdk_ParseJwtToken _ s := ((None, Some lab_error), s);
  sdk_GetApplication _ s := ((tt, None), s);
}.

#[export] Instance lab_redis_server : RedisServer Lab := {
  SETNX _ _ _ _ s := (true, s); SET _ _ _ _ s := (tt, s); GET _ _ s := (None, s);
  GETDEL _ _ s := (None, s); EXISTS _ _ s := (0%Z, s); PEXPIRE _ _ _ s := (0%Z, s); DEL _ _ s := (0%Z, s);
}.

#[export] Instance lab_redis : RedisClient Lab := {
  redis_server := lab_redis_server;
  process A c dflt cmd now s := let '(r, s') := cmd now s in ((r, None), s');
  client_New opts s := on_open (fun l => (mkRedisHandle (next_id l) opts, RedisConn (next_id l) :: l)) s;
  client_Ping _ _ _ s := (None, s);
  client_Close h _ s := on_open (fun l => (Some lab_error, remove_resource (RedisConn (rh_id h)) l)) s;
}.

#[export] Instance lab_driver : SqlDriver Lab := {
  gorm_Open _ _ _ _ _ s := on_open (fun l => (inl (next_id l), SqlPool (next_id l) :: l)) s;
  gorm_DB g _ s := (inl g, s);
  sql_SetMaxOpenConns _ _ s := s; sql_SetMaxIdleConns _ _ s := s; sql_SetConnMaxLifetime _ _ s := s;
  sql_Ping _ _ _ s := (None, s);
  sql_Close p _ s := on_open (fun l => (None, remove_resource (SqlPool p) l)) s;
  sql_QueryBool _ _ _ _ _ s := (inl true, s);
  sql_Exec _ _ _ _ s := (None, s);
}.

#[export] Instance lab_minio : MinioClient Lab := {
  minio_New _ _ := inl 1%positive; minio_SetRange _ _ := None;
  minio_BucketExists _ _ _ _ s := (inl true, s);
  minio_MakeBucket _ _ _ _ _ s := (None, s);
  minio_PutObject _ _ _ _ _ _ _ _ s := (inr lab_error, s);
  minio_GetObject _ _ _ _ _ _ s := (inr lab_error, s);
  object_Stat _ _ s := (inr lab_error, s);
  object_Close _ _ s := (None, s);
  minio_RemoveObject _ _ _ _ _ s := (None, s);
  minio_StatObject _ _ _ _ _ s := (inr lab_error, s);
  minio_ListObjects _ _ _ _ _ _ s := ([], s);
  minio_CopyObject _ _ _ _ _ _ s := (inr lab_error, s);
  minio_PresignedPutObject _ _ _ _ _ _ s := (inr lab_error, s);
  minio_PresignedGetObject _ _ _ _ _ _ s := (inr lab_error, s);
}.

#[export] Instance lab_global : GlobalRegistry Lab (list (opts * positive)) := {
  registry_get := lab_registry;
  registry_set x s := mkLab (lab_open s) x;
}.

#[export] Instance lab_registerer : Registerer (list (opts * positive)) := list_registry.

Definition no_logger : Logger := mkLogger TextHandler LevelInfo false [].

Definition lab_set (s : Lab) : gset resource := open_set (lab_open s).

#[export] Instance lab_laws : RuntimeLaws lab_redis lab_driver lab_minio lab_global lab_set.
Proof.
  split; [split|..]; try done.
  - intros dialect dsn slow level now s g s' [= <- <-]. split; [by apply next_id_fresh|done].
  - intros g now s p s' [= <- <-]. done.
  - intros p now s. apply open_set_remove.
  - intros opts s h s' [= <- <-]. split; [by apply next_id_fresh|done].
  - intros h now s. apply open_set_remove.
Qed.

Definition plain_encoding : Encoding := {|
  json_Marshal_Event _ := Some "{}"; format_RFC3339 _ := "1970-01-01T00:00:00Z" |}.

Definition lab_world (l : list resource) : World Lab := mkWorld (mkLab l ([], 1%positive)) 0 [] [] [] [].

(** Database and cache on, and an object store without credentials, or off. *)
Definition lab_config (s3 : bool) : config_Config := mkConfigConfig
  (mkAppConfig "hub" "dev" "dev") (c_Server Default)
  (mkFeatureConfig true true s3 false false false false false true false false) (c_Log Default)
  (c_Database hub_config) (c_Redis Default) (c_ObjectStore Default) hub_casdoor
  (c_Metrics Default) (c_Session Default) "2s" "15s".

Notation lab_start s3 w :=
  (NewRuntime (H := any_key) (H0 := no_files) (H1 := plain_encoding) (H2 := no_url) None None [] no_logger
    Background (lab_config s3) [] w).

Lemma NewRuntime_gives_back_witness :
  exists e, Some (errText "endpoint/access_key/secret_key/bucket are required") = Some e
    /\ left_open lab_set e (opened lab_set (lab_world [SqlPool 3])) (opened lab_set (lab_world [SqlPool 3])).
Proof.
  apply (NewRuntime_gives_back (H := any_key) (H0 := no_files) (H1 := plain_encoding) (H2 := no_url) None None [] no_logger
    lab_set Background (lab_config true) [] (lab_world [SqlPool 3]) None
    (Some (errText "endpoint/access_key/secret_key/bucket are required")) (lab_world [SqlPool 3])).
  vm_compute. reflexivity.
Defined.

(** A successful start, and the same resources after its cleanup, although the
    Redis client reports an error when it is closed. *)
Example lab_start_and_stop :
  match lab_start false (lab_world [SqlPool 3]) with
  | (Ret (Some (_, cleanups), None), w1) =>
      lab_open (w_svc w1) = [RedisConn 5; SqlPool 4; SqlPool 3]
      /\ match CleanupStack_Close cleanups w1 with
         | (Ret err, w2) => lab_open (w_svc w2) = [SqlPool 3] /\ err = Some (errJoin [lab_error])
         | _ => False
         end
  | _ => False
  end.
Proof. vm_compute. done. Qed.

Definition start_ok {A B} (o : outcome (option A * option B)) : bool :=
  match o with Ret (Some _, None) => true | _ => false end.

Lemma started_runtime_fits_witness :
  match lab_start false (lab_world []) with
  | (Ret (Some (rt, _), _), _) => fits (H1 := plain_encoding) None None (lab_config false) rt
      /\ rt_Access rt = NewGuard (rt_Authz rt) (rt_Audit rt) (app_Name (c_App (lab_config false)))
  | _ => False
  end.
Proof.
  assert (start_ok (lab_start false (lab_world [])).1 = true) as Hok by (vm_compute; reflexivity).
  destruct (lab_start false (lab_world [])) as [[[[[rt cl]|] e]|x] w'] eqn:Es; try discriminate Hok.
  exact (started_runtime_fits (H := any_key) (H0 := no_files) (H1 := plain_encoding) (H2 := no_url) None None [] no_logger
    Background (lab_config false) (lab_world []) rt cl e w' Es).
Defined.
