(* ===== verification/Serve.v ===== *)
(** * Starting a service from its configuration files, and stopping it in time
    ([starter/serve.go]). *)

From S2P Require Import Prelude GoStrings GoText GoURL GoTime Logger Principal Logx Env Retry Authn Authz AuditEvents.
From S2P Require Import Access Permission CasdoorClient CasdoorConfig CasdoorPolicy CasdoorAdapter Redis Session.
From S2P Require Import DbTx ObjectStore Database DbDSN DbOpen MetricsRegistry Config Starter.
Local Open Scope Z_scope.

(** ** Configuration *)

(** [os.Getenv]: the first entry of the environment with that name. *)
Fixpoint os_Getenv (environ : list string) (k : string) : string :=
  match environ with
  | [] => ""
  | kv :: environ =>
      match Cut equals_sign kv with
      | Some (name, v) => if decide (name = k) then v else os_Getenv environ k
      | None => os_Getenv environ k
      end
  end.

Definition envOr (environ : list string) (k fallback : string) : string :=
  let v := os_Getenv environ k in if decide (v <> "") then v else fallback.

Definition LoadConfig `{X509, Host, Codec} (environ paths : list string)
    : option config_Config * option error :=
  let paths := match paths with
               | [] => [envOr environ "AISPHERE_CONFIG" "configs/config.yaml"]
               | _ => paths
               end in
  Load environ paths.

(** ** CleanupWithTimeout

    The function runs in a goroutine of its own, and its run is given by its
    trace: the changes it makes, each some time after the one before, and how it
    ends: it returns, it panics (which ends the process), or it hangs. *)

Inductive Run (T : Type) : Type :=
  | run_returns (after : N) (err : option error)
  | run_panics (after : N) (msg : string)
  | run_hangs
  | run_acts (after : N) (f : T -> T) (rest : Run T).
Arguments run_returns {T}. Arguments run_panics {T}. Arguments run_hangs {T}. Arguments run_acts {T}.

(** The changes of a run that starts at [t], with their times. *)
Fixpoint timeline {T} (r : Run T) (t : Time) : list (Time * (T -> T)) :=
  match r with
  | run_acts d f r => (t + Z.of_N d, f) :: timeline r (t + Z.of_N d)
  | _ => []
  end.

(** When it ends, if it does, and with what. *)
Fixpoint ending {T} (r : Run T) (t : Time) : option (Time * (option error + string)) :=
  match r with
  | run_returns d err => Some (t + Z.of_N d, inl err)
  | run_panics d msg => Some (t + Z.of_N d, inr msg)
  | run_hangs => None
  | run_acts d _ r => ending r (t + Z.of_N d)
  end.

Definition due_by {T} (until : Time) (r : Run T) (t : Time) : list (T -> T) :=
  (filter (fun x => x.1 <= until) (timeline r t)).*2.
Definition due_after {T} (until : Time) (r : Run T) (t : Time) : list (T -> T) :=
  (filter (fun x => until < x.1) (timeline r t)).*2.

(** Making changes, first to last. *)
Definition make {T} (fs : list (T -> T)) (s : T) : T := foldl (fun s f => f s) s fs.

Section cleanup.
Context {T : Type}.
Implicit Types (w : World T) (fn : Run T).

(** At [t] the changes [fs] have been made, and [late] are in flight. *)
Definition made_at (fs late : list (T -> T)) (t : Time) : prog (World T) unit := modify (fun w =>
  mkWorld (make fs (w_svc w)) (Z.max (w_now w) t) (w_lat w) (w_coin w) (w_late w ++ late) (w_obs w)).

(** The goroutine starts; the caller reaches its [select] a little later, and the
    timer runs from there.  The case that is ready first is taken, and when both
    are ready either.  What the function has not done when the caller gives up is
    left in flight. *)
Definition cleanupWithTimeout (fn : option (Run T)) (timeout : Duration) : prog (World T) (option error) :=
  match fn with
  | None => mret None
  | Some fn =>
      started ← gets w_now;
      selecting ← time_Now;
      late ← (next_coin : prog (World T) bool);
      let deadline := selecting + Z.max 0 timeout in
      let timed_out :=
        _ ← made_at (due_by deadline fn started) (due_after deadline fn started) deadline;
        mret (Some DeadlineExceeded) in
      match ending fn started with
      | Some (t, inl err) =>
          if decide (t <= deadline /\ (Z.max selecting t < deadline \/ late = false)) then
            _ ← made_at (timeline fn started).*2 [] t; mret err
          else timed_out
      | Some (t, inr msg) => if decide (t <= deadline) then panic msg else timed_out
      | None => timed_out
      end
  end.

Definition CleanupWithTimeout := cleanupWithTimeout.

Lemma timeline_after fn t x : x ∈ timeline fn t -> t <= x.1.
Proof.
  revert t. induction fn as [| | |d f r IH]; intros t; simpl; [set_solver..|].
  intros [-> |Hx%IH]%elem_of_cons; simpl; lia.
Qed.

(** The changes due by some time come first. *)
Lemma due_split until fn t : due_by until fn t ++ due_after until fn t = (timeline fn t).*2.
Proof.
  unfold due_by, due_after. revert t. induction fn as [| | |d f r IH]; intros t; [done..|]. cbn [timeline].
  specialize (IH (t + Z.of_N d)). rewrite !filter_cons. cbn [fst].
  destruct (decide (t + Z.of_N d <= until)) as [Hd|Hd]; [rewrite decide_False by lia|rewrite decide_True by lia].
  - cbn [fmap list_fmap app snd]. by f_equal.
  - destruct (filter (fun x => x.1 <= until) _) as [|x l] eqn:E; [by cbn [fmap list_fmap app snd] in *; f_equal|].
    assert (x ∈ filter (fun x => x.1 <= until) (timeline r (t + Z.of_N d))) as Hx by (rewrite E; left).
    apply list_elem_of_filter in Hx as [Hx ?%timeline_after]. lia.
Qed.

(** How long the caller takes to reach the [select]. *)
Definition first_latency w : Duration := match w_lat w with [] => 0 | l :: _ => Z.of_N l end.

Lemma select_start w :
  exists late wa wb,
    time_Now w = (Ret (w_now w + first_latency w), wa) /\ next_coin wa = (Ret late, wb)
    /\ w_svc wb = w_svc w /\ w_now wb = w_now w + first_latency w /\ w_late wb = w_late w.
Proof.
  destruct w as [s now lat coin lt obs]. unfold first_latency, time_Now, next_latency, next_coin, advance_to.
  assert (forall l, 0 <= l -> now `max` (now + l) = now + l) as Hmax by lia.
  destruct lat as [|l lat], coin as [|b coin]; (do 3 eexists); run_prog; cbn [w_now w_lat w_coin w_svc w_late w_obs];
    rewrite Hmax by lia; (split; [reflexivity|done]).
Qed.

(** What [CleanupWithTimeout_spec] says of a caller that gives up at [deadline]. *)
Definition gives_up_at (deadline selecting : Time) fn w (r : option error) w' : Prop :=
  r = Some DeadlineExceeded /\ w_now w' = deadline
  /\ (forall t x, ending fn (w_now w) = Some (t, x) -> deadline <= Z.max selecting t)
  /\ exists made rest, (timeline fn (w_now w)).*2 = made ++ rest
       /\ made = due_by deadline fn (w_now w) /\ rest = due_after deadline fn (w_now w)
       /\ w_svc w' = make made (w_svc w) /\ w_late w' = w_late w ++ rest.

Lemma giving_up deadline selecting fn w w1 :
  w_svc w1 = w_svc w -> w_now w1 <= deadline -> w_late w1 = w_late w ->
  (forall t x, ending fn (w_now w) = Some (t, x) -> deadline <= Z.max selecting t) ->
  exists w', (_ ← made_at (due_by deadline fn (w_now w)) (due_after deadline fn (w_now w)) deadline;
     mret (Some DeadlineExceeded) : prog (World T) (option error)) w1 = (Ret (Some DeadlineExceeded), w')
    /\ gives_up_at deadline selecting fn w (Some DeadlineExceeded) w'.
Proof.
  intros Hs Hn Hl He. eexists. split; [reflexivity|]. unfold gives_up_at. cbn.
  split; [done|]. split; [lia|]. split; [done|]. do 2 eexists. split; [symmetry; apply due_split|].
  by rewrite Hs, Hl.
Qed.

(** C30: Stopping with a timeout never waits longer than the timeout, counted from
    the [select]: it returns by the deadline, whether the function returns, hangs
    or takes too long.  Either it gives what the function returned, which was by
    the deadline, all its changes made; or it gives up, at the deadline, with
    [DeadlineExceeded], and only if the function had not returned before: then
    the changes due by the deadline have been made, and exactly the others are
    still in flight.  It panics only if the function did.  Without a function
    nothing happens. *)
Theorem CleanupWithTimeout_spec fn (timeout : Duration) w :
  (let selecting := w_now w + first_latency w in
   let deadline := selecting + Z.max 0 timeout in
   match CleanupWithTimeout (Some fn) timeout w with
   | (Ret r, w') =>
       w_now w <= w_now w' <= deadline /\
       ((exists t, ending fn (w_now w) = Some (t, inl r) /\ t <= deadline /\ w_now w' = Z.max selecting t
           /\ w_svc w' = make (timeline fn (w_now w)).*2 (w_svc w) /\ w_late w' = w_late w)
        \/ gives_up_at deadline selecting fn w r w')
   | (Panic s, _) => exists t, ending fn (w_now w) = Some (t, inr s) /\ t <= deadline
   end)
  /\ CleanupWithTimeout None timeout w = (Ret None, w).
Proof.
  split; [|done]. cbn zeta. set (selecting := w_now w + first_latency w).
  assert (w_now w <= selecting) as Hsel by (unfold selecting, first_latency; destruct (w_lat w); lia).
  unfold CleanupWithTimeout, cleanupWithTimeout. rewrite run_bind, run_gets.
  destruct (select_start w) as (late & wa & w1 & E1 & E2 & Hs & Hn & Hl).
  rewrite run_bind, E1, run_bind, E2. cbn beta iota. fold selecting in Hn |- *. set (deadline := selecting + Z.max 0 timeout).
  assert ((forall t x, ending fn (w_now w) = Some (t, x) -> deadline <= Z.max selecting t) ->
    exists w', (_ ← made_at (due_by deadline fn (w_now w)) (due_after deadline fn (w_now w)) deadline;
      mret (Some DeadlineExceeded) : prog (World T) (option error)) w1 = (Ret (Some DeadlineExceeded), w')
    /\ gives_up_at deadline selecting fn w (Some DeadlineExceeded) w') as Hup
    by (apply giving_up; [done|lia|done]).
  destruct (ending fn (w_now w)) as [[t [err|msg]]|] eqn:Ee.
  - case_decide as Hd.
    + unfold made_at. rewrite run_bind, run_modify, run_ret. cbn [w_now w_svc w_late].
      assert (deadline = selecting + Z.max 0 timeout) as Edl by done. clearbody deadline selecting.
      split; [lia|]. left. exists t. rewrite Hs, Hl, app_nil_r. split_and!; [done|lia..|done|done].
    + destruct Hup as (w' & -> & Hg).
      2:{ split; [destruct Hg as (_ & -> & _); lia|by right]. }
      intros t' x [= <- <-]. destruct (decide (deadline <= Z.max selecting t)); [done|].
      destruct Hd. lia.
  - case_decide as Hd; [by exists t|]. destruct Hup as (w' & -> & Hg).
    2:{ split; [destruct Hg as (_ & -> & _); lia|by right]. }
    intros t' x [= <- <-]. lia.
  - destruct Hup as (w' & -> & Hg); [done|]. split; [destruct Hg as (_ & -> & _); lia|by right].
Qed.
End cleanup.

Section serve.
Context {S R : Type} {casdoor : CasdoorClient S} {redis : RedisClient S} {driver : SqlDriver S}
  {minio : MinioClient S} {reg : Registerer R} {global : GlobalRegistry S R}.
Context `{x509 : X509, host : Host, enc : Encoding, url : NetURL, codec : Codec}.
Context (rm : roleMapper) (entropy : option bytes) (range : list (string * string)) (slog_Default : Logger).
Implicit Types (w : World S) (c : ctx).

Definition NewRuntimeFromConfig c (environ paths : list string) (opts : list (option (Runtime S -> Runtime S)))
    : prog (World S) (option config_Config * option (Runtime S * CleanupStack (World S)) * option error) :=
  match LoadConfig environ paths with
  | (_, Some err) => mret (None, None, Some err)
  | (None, None) => panic "invalid memory address or nil pointer dereference"
  | (Some cfg, None) =>
      let bootstrapLogger := log_With (log_New (c_Log cfg))
        [any_string "app"; any_string (app_Name (c_App cfg)); any_string "env"; any_string (app_Env (c_App cfg))] in
      c ← log_NewContext slog_Default c (Some bootstrapLogger);
      '(rt, err) ← NewRuntime rm entropy range slog_Default c cfg opts;
      match err with
      | Some err => mret (None, None, Some err)
      | None => mret (Some cfg, rt, None)
      end
  end.

Context (open : S -> gset resource) `{!RuntimeLaws redis driver minio global open}.

End serve.

(** ** Witnesses *)

(** Files whose decoding gives [cfg], whatever they hold. *)
Definition fixed_codec (cfg : config_Config) : Codec := {|
  yaml_Default := []; yaml_Unmarshal _ := inl []; json_Decode _ := inl cfg; strings_ToLower s := s;
|}.

Definition any_files : Host := {| os_ReadFile _ := inl ""; strconv_Quote s := s |}.

Notation lab_serve s3 w :=
  (NewRuntimeFromConfig (x509 := any_key) (host := any_files) (enc := plain_encoding) (url := no_url)
    (codec := fixed_codec (lab_config s3)) None None [] no_logger Background ["AISPHERE_CONFIG=a.yaml"] [] [] w).

Definition serve_ok {A B C} (o : outcome (option A * option B * option C)) : bool :=
  match o with Ret (Some _, Some _, None) => true | _ => false end.


(** A stack of two pools, whose second closer takes a second, stopped after a
    millisecond: it is half closed then, and the other closer may still land. *)
Definition closes_one (r : resource) (s : Lab) : Lab := mkLab (filter (fun x => x <> r) (lab_open s)) (lab_registry s).
Definition slow_stack : Run Lab :=
  run_acts 10 (closes_one (SqlPool 4)) (run_acts 1000000000 (closes_one (SqlPool 3)) (run_returns 0 None)).
Definition two_pools : World Lab := mkWorld (mkLab [SqlPool 3; SqlPool 4] ([], 1%positive)) 0 [5%N] [true] [] [].

Example half_closed :
  let '(r, w') := CleanupWithTimeout (Some slow_stack) Millisecond two_pools in
  r = Ret (Some DeadlineExceeded) /\ lab_open (w_svc w') = [SqlPool 3] /\ w_now w' = Millisecond + 5
  /\ exists w2, lands w' w2 /\ lab_open (w_svc w2) = [].
Proof.
  set (x := CleanupWithTimeout _ _ _). vm_compute in x. subst x. cbn zeta.
  do 3 (split; [reflexivity|]). eexists. split; [by apply (lands_one (closes_one (SqlPool 3)) [] [])|reflexivity].
Qed.

(** With two seconds to go the stack is closed; a closer that hangs holds the
    caller up no longer than the timeout. *)
Example closed_in_time :
  let '(r, w') := CleanupWithTimeout (Some slow_stack) (2 * Second) two_pools in
  r = Ret None /\ lab_open (w_svc w') = [] /\ w_now w' = 10 + Second.
Proof. vm_compute. done. Qed.

Example hanging_closer :
  let '(r, w') := CleanupWithTimeout (Some (run_acts 10 (closes_one (SqlPool 4)) run_hangs)) Second two_pools in
  r = Ret (Some DeadlineExceeded) /\ lab_open (w_svc w') = [SqlPool 3] /\ w_now w' = Second + 5.
Proof. vm_compute. done. Qed.
