(* ===== verification/Health.v ===== *)
(** * Liveness and readiness ([health/health.go]).

    [Check] pings the components a runtime holds, one after the other, under one
    shared timeout, and reports one [Result] for each. *)

From S2P Require Import Prelude GoStrings GoText GoURL GoTime Logger Principal Env Retry Authn Authz AuditEvents.
From S2P Require Import Access Permission CasdoorClient CasdoorConfig CasdoorPolicy CasdoorAdapter Redis Session.
From S2P Require Import DbTx ObjectStore Database DbDSN DbOpen MetricsRegistry Config Starter.

(** ** Duration.String *)

Definition dot : Ascii.ascii := Ascii.ascii_of_nat 46.
Definition digit_char (d : Z) : Ascii.ascii := Ascii.ascii_of_N (48 + Z.to_N d).

(** [fmtFrac]: the last [prec] digits of [v] as a fraction without trailing
    zeros, in front of [acc], and what is left of [v]. *)
Fixpoint fmtFrac (prec : nat) (v : Z) (print : bool) (acc : bytes) : bytes * Z :=
  match prec with
  | 0 => (if print then dot :: acc else acc, v)
  | S prec =>
      let digit := (v mod 10)%Z in
      let print := print || bool_decide (digit <> 0%Z) in
      fmtFrac prec (v / 10)%Z print (if print then digit_char digit :: acc else acc)
  end.

Definition fmtInt (v : Z) : string := pretty v.

Definition Duration_String (d : Duration) : string :=
  let u := Z.abs d in
  let sign := if decide (d < 0)%Z then "-" else "" in
  let micro := String (Ascii.ascii_of_nat 194) (String (Ascii.ascii_of_nat 181) "") in
  if decide (u = 0)%Z then "0s" else
  if decide (u < Microsecond)%Z then sign +:+ fmtInt u +:+ "ns" else
  if decide (u < Second)%Z then
    let '(prec, unit) := if decide (u < Millisecond)%Z then (3, micro +:+ "s") else (6, "ms") in
    let '(frac, u) := fmtFrac prec u false [] in
    sign +:+ fmtInt u +:+ of_bytes frac +:+ unit
  else
    let '(frac, u) := fmtFrac 9 u false [] in
    let seconds := fmtInt (u mod 60)%Z +:+ of_bytes frac +:+ "s" in
    let u := (u / 60)%Z in
    if decide (u = 0)%Z then sign +:+ seconds else
    let minutes := fmtInt (u mod 60)%Z +:+ "m" +:+ seconds in
    let u := (u / 60)%Z in
    if decide (u = 0)%Z then sign +:+ minutes else
    sign +:+ fmtInt u +:+ "h" +:+ minutes.

Example durations :
  Duration_String <$> [1500000000; 120000000000; -5400000001000; 1; 1250; 2000000; 0]%Z
  = ["1.5s"; "2m0s"; "-1h30m0.000001s"; "1ns"; "1.25µs"; "2ms"; "0s"].
Proof. vm_compute. reflexivity. Qed.

(** ** Checks *)

Record Result := mkResult { res_Name : string; res_OK : bool; res_Error : string; res_Duration : string }.

Section health.
Context {S : Type} {casdoor : CasdoorClient S} {redis : RedisClient S} {driver : SqlDriver S}
  {minio : MinioClient S}.
Implicit Types (w : World S) (c : ctx) (rt : Runtime S).

Definition result (name : string) (fn : prog (World S) (option error)) : prog (World S) Result :=
  started ← time_Now;
  err ← fn;
  d ← time_Since started;
  mret match err with
       | Some err => mkResult name false (Error err) (Duration_String d)
       | None => mkResult name true "" (Duration_String d)
       end.

Fixpoint IsHealthy (results : list Result) : option error :=
  match results with
  | [] => None
  | r :: results => if res_OK r then IsHealthy results
                    else Some (errText (res_Name r +:+ " unhealthy: " +:+ res_Error r))
  end.

Definition not_nil (d : Database) : bool := match d with NilDatabase => false | _ => true end.

Definition database_name rt : string :=
  if not_nil (rt_Database rt) && bool_decide (Database_Driver (rt_Database rt) <> "")
  then Database_Driver (rt_Database rt)
  else if not_nil (rt_SQL rt) && bool_decide (Database_Driver (rt_SQL rt) <> "")
  then Database_Driver (rt_SQL rt) else "database".

(** The bucket check looks at the error only, not at the answer. *)
Definition bucket_ping c (s3 : MinIOClient) : prog (World S) (option error) :=
  '(_, err) ← BucketExists s3 c; mret err.

(** [if part != nil { out = append(out, result(name, ping)) }] *)
Definition append_check {A} (part : option A) (name : string) (ping : A -> prog (World S) (option error))
    (out : list Result) : prog (World S) (list Result) :=
  match part with
  | Some x => r ← result name (ping x); mret (out ++ [r])
  | None => mret out
  end.

Definition runtime_nil : Result := mkResult "runtime" false "runtime is nil" "".

Definition Check c (rt : option (Runtime S)) : prog (World S) (list Result) :=
  match rt with
  | None => mret [runtime_nil]
  | Some rt =>
      match rt_Config rt, c with
      | None, _ => panic "invalid memory address or nil pointer dereference"
      | Some _, None => panic "cannot create context from nil parent"
      | Some cfg, Some _ =>
          let timeout := ParseDurationOr (c_Health cfg) (2 * Second) in
          now ← time_Now;
          let c := WithTimeout now c timeout in
          out ← (if not_nil (rt_SQL rt)
                 then r ← result (database_name rt) (Database_Ping c (rt_SQL rt)); mret [r]
                 else mret []);
          out ← append_check (rt_RedisRuntime rt) "redis" (fun r => Redis_Ping c (Some r)) out;
          out ← append_check (rt_S3 rt) "objectstore" (bucket_ping c) out;
          append_check (rt_Casdoor rt) "casdoor" (fun a => Adapter_Ping a c) out
      end
  end.

Definition Live (rt : option (Runtime S)) : list Result :=
  match rt with None => [runtime_nil] | Some _ => [mkResult "runtime" true "" ""] end.

(** ** What a readiness check reports *)

(** The components of a runtime, each with its name and its ping. *)
Definition components rt c : list (string * prog (World S) (option error)) :=
  (if not_nil (rt_SQL rt) then [(database_name rt, Database_Ping c (rt_SQL rt))] else [])
  ++ option_list ((fun r => ("redis", Redis_Ping c (Some r))) <$> rt_RedisRuntime rt)
  ++ option_list ((fun s3 => ("objectstore", bucket_ping c s3)) <$> rt_S3 rt)
  ++ option_list ((fun a => ("casdoor", Adapter_Ping a c)) <$> rt_Casdoor rt).

(** The pings made one after the other, between steps that touch nothing. *)
Inductive pinged : list (string * prog (World S) (option error)) -> World S -> list (option error) -> World S -> Prop :=
  | pinged_nil w w' : quiet w w' -> pinged [] w [] w'
  | pinged_cons name ping ps w w1 e w2 es w' :
      quiet w w1 -> ping w1 = (Ret e, w2) -> pinged ps w2 es w' -> pinged ((name, ping) :: ps) w (e :: es) w'.

(** The result reported for a component whose ping gave [err]. *)
Definition reports (ne : string * option error) (r : Result) : Prop :=
  res_Name r = ne.1 /\ res_OK r = bool_decide (ne.2 = None) /\ res_Error r = from_option Error "" ne.2.

Lemma IsHealthy_nil out : IsHealthy out = None <-> Forall (fun r => res_OK r = true) out.
Proof.
  induction out as [|r out IH]; simpl; [done|]. rewrite Forall_cons. destruct (res_OK r); naive_solver.
Qed.

Definition returns (m : prog (World S) (option error)) : Prop := forall w, exists err w', m w = (Ret err, w').

Lemma observed_returns m (f : Time -> S -> option error * S) (mt : option Metrics) dep op w started :
  m = (err ← timed f; _ ← ObserveDependency mt dep op started err; mret err : prog (World S) (option error)) ->
  exists err w', m w = (Ret err, w').
Proof.
  intros ->. destruct (timed_inv f w) as (r & now & w1 & E & _). rewrite (run_bind_Ret _ _ _ _ _ E).
  destruct (ObserveDependency_quiet mt dep op started r w1) as (w2 & E2 & _).
  rewrite (run_bind_Ret _ _ _ _ _ E2). by do 2 eexists.
Qed.

Lemma Database_Ping_returns c d : not_nil d = true -> returns (Database_Ping c d).
Proof.
  intros Hd w. unfold Database_Ping. destruct d as [|m|m]; [done| |];
    (destruct (pool_of _) as [p|]; [|by do 2 eexists]); (destruct (sp_SQLDB p) as [db|]; [|by do 2 eexists]);
    destruct (time_Now_quiet w) as (t & w1 & E & _); rewrite (run_bind_Ret _ _ _ _ _ E); by eapply observed_returns.
Qed.

Lemma Redis_Ping_returns c r : returns (Redis_Ping c r).
Proof.
  intros w. unfold Redis_Ping. destruct r as [r|]; [|by do 2 eexists].
  destruct (redis_client r) as [h|]; [|by do 2 eexists].
  destruct (time_Now_quiet w) as (t & w1 & E & _). rewrite (run_bind_Ret _ _ _ _ _ E). by eapply observed_returns.
Qed.

Lemma bucket_ping_returns c s3 : returns (bucket_ping c s3).
Proof.
  intros w. unfold bucket_ping, BucketExists, observed. destruct (time_Now_quiet w) as (t & w1 & E1 & _).
  rewrite !run_bind, E1. edestruct (timed_inv (minio_BucketExists (oc_client s3) c (bucket s3)) w1) as (r & n & w2 & E2 & _).
  rewrite run_bind, E2, run_bind.
  destruct (ObserveDependency_quiet (oc_metrics s3) "minio" "bucket_exists" t (lower_result r) w2) as (w3 & -> & _).
  rewrite run_ret. destruct r; by do 2 eexists.
Qed.

Lemma Adapter_Ping_returns a c : returns (Adapter_Ping a c).
Proof.
  intros w. unfold Adapter_Ping. destruct (time_Now_quiet w) as (t & w1 & E1 & _). rewrite run_bind, E1, run_bind.
  destruct (callWithContext_cases c (sdk_GetApplication (Application (a_cfg a))) w1)
    as [(x & err & s' & w2 & -> & _)|(c0 & t0 & err & w2 & _ & _ & -> & _)]; rewrite run_bind.
  - destruct (ObserveDependency_quiet (a_metrics a) "casdoor" "ping" t err w2) as (w3 & -> & _). by do 2 eexists.
  - destruct (ObserveDependency_quiet (a_metrics a) "casdoor" "ping" t (Some err) w2) as (w3 & -> & _).
    by do 2 eexists.
Qed.

Lemma components_return rt c : Forall (fun np => returns np.2) (components rt c).
Proof.
  unfold components. repeat apply Forall_app_2.
  - destruct (not_nil (rt_SQL rt)) eqn:E; [|done]. constructor; [|done]. by apply Database_Ping_returns.
  - destruct (rt_RedisRuntime rt); constructor; [apply Redis_Ping_returns|done].
  - destruct (rt_S3 rt); constructor; [apply bucket_ping_returns|done].
  - destruct (rt_Casdoor rt); constructor; [apply Adapter_Ping_returns|done].
Qed.

(** [Check] as one loop over the components. *)
Fixpoint check_all (ps : list (string * prog (World S) (option error))) (out : list Result)
    : prog (World S) (list Result) :=
  match ps with
  | [] => mret out
  | (name, ping) :: ps => r ← result name ping; check_all ps (out ++ [r])
  end.

Lemma pinged_quiet ps w w1 es w' : quiet w w1 -> pinged ps w1 es w' -> pinged ps w es w'.
Proof.
  intros Hq. inversion 1; subst.
  - constructor. by transitivity w1.
  - econstructor; [by transitivity w1|done..].
Qed.

Lemma check_all_spec ps out w :
  Forall (fun np => returns np.2) ps ->
  exists rs errs w', check_all ps out w = (Ret (out ++ rs), w') /\ pinged ps w errs w'
    /\ Forall2 reports (zip ps.*1 errs) rs /\ length errs = length ps.
Proof.
  intros Hps. revert out w. induction Hps as [|[name ping] ps Hp Hps IH]; intros out w; cbn [check_all].
  - exists [], [], w. rewrite app_nil_r. split_and!; [done| |constructor|done]. by constructor.
  - unfold result. destruct (time_Now_quiet w) as (t & w1 & E1 & Q1 & _). rewrite !run_bind, E1, run_bind.
    destruct (Hp w1) as (err & w2 & E2). simpl in E2. rewrite E2, run_bind.
    destruct (time_Since_quiet t w2) as (d & w3 & E3 & Q3 & _). rewrite E3, run_ret.
    match goal with |- context [check_all ps (out ++ [?r0])] => set (r := r0) end.
    destruct (IH (out ++ [r]) w3) as (rs & errs & w' & E & Hpd & Hr & Hl).
    exists (r :: rs), (err :: errs), w'. rewrite E, <- app_assoc. split_and!; [done| | |by simpl; rewrite Hl].
    + econstructor; [exact Q1|exact E2|]. by eapply pinged_quiet.
    + simpl. constructor; [|done]. subst r. by destruct err.
Qed.

Lemma append_check_all {A} (part : option A) name (ping : A -> prog (World S) (option error)) ps out w :
  (out ← append_check part name ping out; check_all ps out) w
  = check_all (option_list ((fun x => (name, ping x)) <$> part) ++ ps) out w.
Proof.
  destruct part as [x|]; [|done]. unfold append_check.
  change (option_list _ ++ ps) with ((name, ping x) :: ps). cbn [check_all].
  unfold mbind, prog_bind. by destruct (result name (ping x) w) as [[r|s] w1].
Qed.

Lemma check_all_app ps qs out w :
  check_all (ps ++ qs) out w = (out ← check_all ps out; check_all qs out) w.
Proof.
  revert out w. induction ps as [|[name ping] ps IH]; intros out w; [done|]. cbn [app check_all].
  unfold mbind, prog_bind in *. destruct (result name ping w) as [[r|s] w1]; [|done]. by rewrite IH.
Qed.

Lemma Check_components k cfg rt w :
  rt_Config rt = Some cfg ->
  Check (Some k) (Some rt) w =
  (now ← time_Now;
   check_all (components rt (WithTimeout now (Some k) (ParseDurationOr (c_Health cfg) (2 * Second)))) []) w.
Proof.
  intros Hcfg. cbn [Check]. rewrite Hcfg, !run_bind. destruct (time_Now w) as [[now|s] w1]; [|done].
  generalize (WithTimeout now (Some k) (ParseDurationOr (c_Health cfg) (2 * Second))). intros c.
  unfold components. rewrite check_all_app, run_bind. rewrite run_bind.
  assert ((if not_nil (rt_SQL rt) then r ← result (database_name rt) (Database_Ping c (rt_SQL rt)); mret [r]
           else mret [] : prog (World S) (list Result)) w1
          = check_all (if not_nil (rt_SQL rt) then [(database_name rt, Database_Ping c (rt_SQL rt))] else []) [] w1) as ->.
  { by destruct (not_nil (rt_SQL rt)). }
  destruct (check_all _ [] w1) as [[out|s] w2]; [|done].
  rewrite <- append_check_all, !run_bind. destruct (append_check (rt_RedisRuntime rt) _ _ out w2) as [[out3|s] w3]; [|done].
  rewrite <- append_check_all, !run_bind. destruct (append_check (rt_S3 rt) _ _ out3 w3) as [[out4|s] w4]; [|done].
  rewrite <- (app_nil_r (option_list _)), <- append_check_all, run_bind.
  by destruct (append_check (rt_Casdoor rt) _ _ out4 w4) as [[]].
Qed.

(** C26: A readiness check of a runtime always returns.  It pings, under one shared
    deadline and in a fixed order, exactly the components the runtime holds,
    each one even if an earlier one failed, and reports for each its name,
    whether its ping gave nil, and the text of its error; the runtime is healthy
    exactly when every ping gave nil, so also when it holds no component.
    A runtime without a configuration, which [NewRuntime] never returns unless
    an option removed it, makes the check panic.  Without a runtime the report
    says so and is not healthy. *)
Theorem Check_reports (k : Context) rt w :
  match rt_Config rt with
  | Some cfg => exists out errs now w1 w',
     Check (Some k) (Some rt) w = (Ret out, w') /\ quiet w w1 /\ now = w_now w1
     /\ let c := WithTimeout now (Some k) (ParseDurationOr (c_Health cfg) (2 * Second)) in
        pinged (components rt c) w1 errs w'
        /\ Forall2 reports (zip (components rt c).*1 errs) out /\ length errs = length (components rt c)
        /\ (IsHealthy out = None <-> Forall (fun err => err = None) errs)
  | None => exists msg, Check (Some k) (Some rt) w = (Panic msg, w)
  end
  /\ (forall c, Check c None w = (Ret [runtime_nil], w)) /\ IsHealthy [runtime_nil] <> None.
Proof.
  split; [|done]. destruct (rt_Config rt) as [cfg|] eqn:Ecfg; [|cbn [Check]; rewrite Ecfg; by eexists].
  rewrite (Check_components k cfg) by done.
  destruct (time_Now_quiet w) as (now & w1 & E1 & Q1 & Hn & _). rewrite run_bind, E1.
  set (c := WithTimeout now _ _).
  destruct (check_all_spec (components rt c) [] w1) as (out & errs & w' & E & Hp & Hr & Hl); [apply components_return|].
  exists out, errs, now, w1, w'. do 3 (split; [done|]). fold c. cbn zeta. do 3 (split; [done|]).
  rewrite IsHealthy_nil. clear E Hp. revert errs out Hr Hl.
  induction (components rt c) as [|[name ping] ps IH]; intros [|err errs] out Hr Hl; try done.
  - by inversion Hr.
  - simpl in Hr. inversion Hr as [|? r ? out' (_ & Hok & _) Hr']; subst. rewrite !Forall_cons, IH by (done || (simpl in Hl; lia)).
    rewrite Hok, bool_decide_eq_true. done.
Qed.
End health.

(** A bucket that does not exist counts as ready. *)
Example missing_bucket_is_ready :
  (bucket_ping (S := Shelf) Background demo_store (shelf_world [] [] [])).1 = Ret None.
Proof. vm_compute. reflexivity. Qed.
